(* ===== verification/_CoqProject ===== *)
-Q . S2P
Prelude.v
Platform.v
Core.v
Samples.v
Tls.v
Filter.v
Registry.v
InMemory.v
PrimeHandlers.v
PrimeApi.v
PrimeClient.v
Sql.v
SqlCodec.v
SqliteDispatcher.v
SqliteReading.v
SqliteDevice.v
SqliteStatus.v
ClickHouse.v
ClickDispatcher.v
ClickReading.v
ClickDevice.v
ClickStatus.v
ClickQueries.v
DispatchStorage.v
DispatchSqlite.v
DispatchMain.v
EndToEnd.v
PrimeSqlite.v
RpcFrame.v
Rpc.v
RpcServe.v
RpcLink.v
WireUploader.v
EdgeDevice.v
EdgeFirmware.v
EdgeTcp.v
EdgeStream.v
DispatchSystem.v
Delivery.v
Pipeline.v
DeliverySqlite.v
EdgeMock.v
EdgeExample.v
Startup.v
Harness.v
