(* ===== verification/Prelude.v ===== *)
(** * ersha-os: a model of the sensor pipeline, from the edge device to the central registry

    ersha-os collects readings of agricultural sensors.  A device runs the firmware library
    [ersha-edge] and streams packets over TCP to a regional dispatcher, [ersha-dispatch]; the
    dispatcher stores readings and device statuses locally and uploads them in batches, over the
    RPC protocol of [ersha-rpc], to the central server, [ersha-prime]; the server keeps devices,
    dispatchers, readings and statuses in registries and serves an HTTP API on them.
    [ersha-core] holds the types they exchange.

    ** The files

    - Prelude: automation (the hint database [ersha]), [result] and its monad, machine integers
      ([wrap], [to_signed] and the casts [as_u8] ... [as_i64]), iterator adaptors on [usize] counts,
      a stable sort, string splitting.
    - Platform: what the program takes from the language and from crates.  [f64] is the Standard
      Library's [spec_float]; [NotNan], [Timestamp] and [Ulid] are concrete types; the text forms of
      timestamps and identifiers, lower-casing, the iteration order of a [HashMap], JSON
      ([Serde]), fresh identifiers ([UlidGen]) and the clock ([Clock]) are classes, with the laws
      that are documented of them in [*Laws] classes, and instances where one can be written down.
    - Core: ersha-core/src/lib.rs, type by type.
    - Samples: values the witnesses use.
    - Tls: ersha-tls/src/lib.rs, over the file system, the PEM reader and rustls.
    - Filter, Registry: ersha-prime/src/registry/filter.rs and mod.rs: queries, and the four registry
      traits as classes of operations with laws.
    - InMemory: ersha-prime/src/registry/memory/, one Module per registry.
    - Sql: SQLite and sqlx as the registries use them: rows, a monad of statements on a connection
      with transactions that roll back and a list of statements the database will fail ([faults]),
      queries as a list of conditions and a tail, with the text the query builder pushes for them,
      and a library of Hoare-style rules ([wp]) with which the operations are verified.  SqlCodec:
      the codes of the enums and the conditions of each filter, shared by both SQL backends.
    - SqliteDispatcher, SqliteReading, SqliteDevice, SqliteStatus: ersha-prime/src/registry/sqlite/,
      each a Module with the rows, the operations and the queries of one registry.
    - ClickHouse: what the ClickHouse registries share: rows appended and never updated, [final], which
      keeps of each key the row of the greatest version, and the text of their queries.
      ClickDispatcher, ClickReading, ClickDevice, ClickStatus: ersha-prime/src/registry/clickhouse/,
      likewise.  ClickQueries: the queries of the two backends compared.
    - PrimeHandlers: the RPC handlers in ersha-prime/src/main.rs, over any registries.
    - PrimeApi: ersha-prime/src/api/ and the router of main.rs: a request to a response.
    - PrimeClient: ersha-prime/src/client.rs, against that router.
    - DispatchStorage: ersha-dispatch/src/storage/mod.rs (the class [EventStorage], its contract
      [EventStorageLaws]) and memory.rs.  DispatchSqlite: sqlite.rs, on a database that may fail at any
      statement.
    - DispatchMain: ersha-dispatch/src/state.rs and the collector and the uploader of main.rs, over
      any storage that meets the contract and any [PrimeLink].
    - EndToEnd: the uploader linked to the handlers of PrimeHandlers, over any registries and over the
      in-memory ones.  PrimeSqlite: the same over the SQLite registries, whose statements may fail.
    - RpcFrame: ersha-rpc/src/message.rs and frame.rs.  Rpc: rpc.rs, client.rs and server.rs: an
      endpoint is a record with its two tasks, its channels, and its waiting calls; its steps are
      the relation [step].  RpcServe: the accept loop of a server, the connections it spawned and its
      cancellation, in any order.  RpcLink: a client and a server over a byte stream, as a [PrimeLink].
      WireUploader: the whole uploader over it, simulated by the uploader that calls the handlers
      ([LinkSim] is the interface between two connections).
    - EdgeDevice: ersha-edge/src/.  EdgeFirmware: the run of its engine over a socket.  EdgeTcp: ersha-dispatch/src/edge/tcp.rs, where a connection is
      the await point its task is at, and the tasks interleave.  EdgeStream: the stream of one device
      whatever the other tasks do in between.
    - DispatchSystem: run_edge_receiver of ersha-dispatch/src/main.rs, with the receiver, the collector
      and the uploader as one [System] whose steps interleave; [PrimeKeeps] is what the handlers
      promise about readings, [Delivers] what a connection promises, [Responsive] one that answers.
      Delivery: the invariant of its runs.  DeliverySqlite: the instances for SQLite at both ends.
      Pipeline: from the bytes of the firmware to the registry.
    - EdgeMock: ersha-dispatch/src/edge/mock.rs and, of main.rs, the registration of its devices with
      ersha-prime over HTTP.  EdgeExample: ersha-edge/examples/server, the example peer of the firmware.
    - Startup: ersha-dispatch/src/config.rs and ersha-prime/src/config.rs, the [main]s from a configuration
      file to the servers they start, and the life of both processes: the tasks, Ctrl+C, the end of the
      HTTP server, the joins.  Harness: ersha-dispatchers-harness/src/main.rs.

    Each definition carries the file and the lines it translates.

    ** How code is modelled

    An operation on shared state takes the state and returns the new one with its [result]; an
    operation that holds a lock throughout is one such function, and where the code releases a lock
    in between ([suspend] of the device registry, fetching and marking an upload, the handlers of
    connections) the halves are separate functions or steps and theorems speak of what runs in
    between.  Integers are [Z] with their width in a predicate and their casts written out.  Tables
    are [gmap]s.  Calls that may fail for outside reasons take their failures from a parameter: the
    registry classes, [PrimeLink], the failing statements of the database, the writer that breaks
    after some bytes.  Logging is left out.

    The SQL registries write rows and send text; what a database does with them is its documented
    behaviour, written out for the statements the code sends: primary keys and INSERT OR REPLACE,
    foreign keys, the trigger of migrations/001_init.sql, LIKE, LEFT JOIN, ORDER BY,
    LIMIT.  What is left open there is a class: the order in which rows without ORDER BY, or equal
    under it, come ([RowOrder], [ServerOrder]), ClickHouse's LIKE ([ChLike]) and whether its joins
    fill missing columns with defaults ([JoinUseNulls]).  A theorem about a query relates the text
    that is sent to the list of conditions that is evaluated, and that list to the in-memory filter.
    Random draws ([Rng]), the H3 grid ([H3]) and JSON text ([JsonText]) are classes of EdgeMock.

    ** What the theorems show

    - End to end: an engine writes its hello and the frames of the packets that fit, in order, while
      its socket takes what it is given, in pieces or whole ([EdgeFirmware]); every packet a device writes becomes a reading of the registry, if the device is known
      there ([Pipeline]); in every interleaving of a dispatcher's tasks each reading is on the channel,
      refused, pending, or uploaded and kept ([Delivery], over any connection that [Delivers]: direct or
      over the wire, to in-memory or to SQLite registries); frames of the firmware become readings on
      the channel whatever happens in between ([EdgeStream]).
    - One tick: an active dispatcher's tick uploads what is pending into the registries, and what
      becomes of readings of unregistered devices ([EndToEnd]), and of the readings and statuses when
      the registries are SQLite's and their statements fail ([PrimeSqlite]); the uploader over the
      wire does what the uploader that calls the handlers does while the messages fit
      their frames ([WireUploader]).
    - Contracts: both storages implement [EventStorageLaws] (refinement), the uploader is proved
      against the contract: it marks only what was acknowledged, drains what is pending, loses
      nothing stored in between; the server's handlers are proved against the registry classes, of
      which the in-memory registries are instances.
    - Registries: what list, count, cursor pages, latest status and suspension return, and the
      invariant that devices stay filed under their ids.
    - SQL registries: each is a refinement of a map (SQLite) or of a log (ClickHouse) that keeps whole
      seconds, with a failed operation changing nothing or exactly what the theorem names; the
      tables of devices and sensors stay well formed under every operation and every fault; lists
      and counts agree with the in-memory registry under conditions that are stated, and the
      theorems say what happens where they do not hold.
    - The mock receiver: its search for cells ends, its items go round its devices, and ersha-prime
      knows the devices it registered, so that none of their readings is rejected.
    - API and client: each status code's condition, page bounds, and operations of the client
      composed with the server.
    - Protocol machines: the accounting of RPC calls along every interleaving, the order of a
      server's answers, the tracking of connected devices along every interleaving of connections,
      the independence from how a stream is cut into reads.
    - Processes: a server's connections, however they interleave, are those of a sequential server on
      some of the requests in their order ([RpcServe]); a dispatcher process loses nothing that it
      has collected, ends after Ctrl+C in a bounded number of steps, and never ends when its HTTP
      server ended first; the prime process ends at the first of Ctrl+C and the end of its HTTP server,
      and never by the cancellation it announces ([Startup]); a TLS configuration holds its files and nothing else ([Tls]);
      each file the harness writes starts a dispatcher under its own identifier, at its own cell and
      port ([Harness]).
    - Behaviour that surprises: lost events, acknowledged failures, the oversized backlog, the
      blocked reader, the racing suspension, the ignored filter, the overflow of a calibration;
      sensors that registration never removes and counts that drift (SQLite), batches that lock
      themselves out, registrations older than the clock and joins that filter nothing (ClickHouse).

    ** Fuel and bounds

    [EdgeDevice.write_all] and [read_exact] take as fuel the bytes that remain; a socket that takes
    no byte exhausts it, which is the [None] of their result.  [EdgeTcp.drain] is run with one more
    turn than the buffer has bytes; [decoding_terminates] shows that this is enough and that more
    changes nothing, since every message takes at least one byte.  [EdgeMock.cell_loop] is run with
    one more turn than the attempts the code allows itself; [nearby_cells_terminates] shows the same.
    [Harness.most_dispatchers], 1000, bounds the counts for which the rows and columns of the grid are
    computed in [f64] and found exact.
    [Delivery.settle] lets the uploader make five calls, the most a tick has ahead of it
    ([upload_steps_end]).  Everything else recurses on its data.

    ** What is not modelled

    Creating the databases and running their migrations; binding sockets; the health endpoints; the embedded board example; the manual test programs under
    examples/ of ersha-prime and ersha-rpc; and the web
    interface.  In a [System] the uploader's connection and report are one step, which touches neither
    the storage nor a reading, and the stream to ersha-prime fails only by what is written to it.  The capacity of the channel of edge data is left out of EdgeTcp, a send waiting for
    room.  TOML, JSON, postcard, SQL servers, TLS and the operating system are parameters. *)
From Stdlib Require Import ZArith Lia Bool Strings.String Strings.Ascii.
From stdpp Require Import base gmap strings list pretty sorting.

Declare Scope ersha_scope.
Delimit Scope ersha_scope with ersha.

(** ** Automation shared by the components *)

Create HintDb ersha.
Create Rewrite HintDb ersha.

(** Splits a goal into its cases on every [match] or [if] that blocks it. *)
Ltac case_match_goal :=
  repeat (match goal with
          | |- context [match ?x with _ => _ end] => destruct x eqn:?
          end; simpl in *; simplify_eq).

(** Inverts the hypotheses that equate two constructors and closes what is left by [lia]. *)
Ltac crush := repeat (simplify_eq/=; intuition (try lia; try congruence; eauto with ersha)).

(** ** Results: Rust's [Result<T, E>] *)

Inductive result (A E : Type) : Type :=
  | Ok (a : A)
  | Err (e : E).
Arguments Ok {A E} a.
Arguments Err {A E} e.

#[export] Instance result_eq_dec {A E} `{EqDecision A, EqDecision E} : EqDecision (result A E).
Proof. solve_decision. Defined.

(** The [?] operator. *)
Notation "'let?' x := m 'in' k" :=
  (match m with Ok x => k | Err e => Err e end)
  (at level 200, x pattern, m at level 100, k at level 200) : ersha_scope.
Open Scope ersha_scope.

Definition is_ok {A E} (r : result A E) : bool := match r with Ok _ => true | Err _ => false end.

(** [Option::ok_or]. *)
Definition ok_or {A E} (o : option A) (e : E) : result A E :=
  match o with Some a => Ok a | None => Err e end.

Definition map_err {A E F} (f : E -> F) (r : result A E) : result A F :=
  match r with Ok a => Ok a | Err e => Err (f e) end.

Definition map_ok {A B E} (f : A -> B) (r : result A E) : result B E :=
  match r with Ok a => Ok (f a) | Err e => Err e end.

(** [Option::transpose] on an optional result. *)
Definition transpose {A E} (o : option (result A E)) : result (option A) E :=
  match o with None => Ok None | Some (Ok a) => Ok (Some a) | Some (Err e) => Err e end.

(** [Iterator::collect] into a [Result<Vec<_>, _>]: the first error wins. *)
Fixpoint collect {A E} (rs : list (result A E)) : result (list A) E :=
  match rs with
  | [] => Ok []
  | r :: rs' => let? a := r in let? l := collect rs' in Ok (a :: l)
  end.

Lemma collect_perm {A E} (l k : list (result A E)) a :
  l ≡ₚ k -> collect l = Ok a -> ∃ b, collect k = Ok b /\ b ≡ₚ a.
Proof.
  intros Hp. revert a. induction Hp as [|[x|e] l k _ IH|[x|e] [y|e'] l|l k m _ IH1 _ IH2]; intros a; cbn; try done.
  - intros [= <-]. by exists [].
  - destruct (collect l) as [b|] eqn:El; [|done]. intros [= <-]. destruct (IH b eq_refl) as (b' & -> & Hb).
    exists (x :: b'). split; [done|]. by constructor.
  - destruct (collect l) as [b|] eqn:El; [|done]. intros [= <-]. eexists; split; [done|]. constructor.
  - intros Hl. destruct (IH1 a Hl) as (b & Hk & Hb). destruct (IH2 b Hk) as (b' & ? & Hb').
    exists b'. split; [done|]. by etrans.
Qed.

Lemma collect_map_Ok {A B E} (f : A -> result B E) (g : A -> B) (l : list A) :
  (forall a, a ∈ l -> f a = Ok (g a)) -> collect (f <$> l) = Ok (g <$> l).
Proof.
  induction l as [|a l IH]; intros H; [done|]. csimpl.
  rewrite H by set_solver. rewrite IH by set_solver. done.
Qed.

Lemma collect_Ok_length {A E} (rs : list (result A E)) l :
  collect rs = Ok l -> length l = length rs.
Proof.
  revert l; induction rs as [|[a|e] rs IH]; intros l H; simplify_eq/=; [done|].
  destruct (collect rs) as [l'|]; simplify_eq/=. by rewrite (IH l').
Qed.

(** ** Lists *)

Lemma NoDup_fmap_inj_on {A B} (f : A -> B) (l : list A) x y :
  NoDup (f <$> l) -> x ∈ l -> y ∈ l -> f x = f y -> x = y.
Proof.
  intros Hnd (i & Hi)%list_elem_of_lookup (j & Hj)%list_elem_of_lookup Heq.
  assert (i = j) as ->; [|congruence].
  eapply NoDup_lookup; [exact Hnd|..]; rewrite list_lookup_fmap.
  - by rewrite Hi.
  - rewrite Hj. simpl. by rewrite Heq.
Qed.

Lemma fmap_sublist {A B} (f : A -> B) (l k : list A) : sublist l k -> sublist (f <$> l) (f <$> k).
Proof. induction 1; csimpl; by constructor. Qed.

Lemma filter_on {A} (P Q : A -> Prop) `{!∀ a, Decision (P a), !∀ a, Decision (Q a)} (l : list A) :
  Forall (fun a => P a <-> Q a) l -> filter P l = filter Q l.
Proof.
  induction 1 as [|a l HPQ _ IH]; [done|]. rewrite !filter_cons, IH.
  destruct (decide (P a)), (decide (Q a)); naive_solver.
Qed.

Lemma filter_none {A} (P : A -> Prop) `{!∀ a, Decision (P a)} (l : list A) : (∀ a, a ∈ l -> ~ P a) -> filter P l = [].
Proof.
  induction l as [|a l IH]; intros HP; [done|]. rewrite filter_cons, decide_False by set_solver.
  apply IH. set_solver.
Qed.

Lemma filter_true {A} (P : A -> Prop) `{!∀ a, Decision (P a)} (l : list A) : (∀ a, a ∈ l -> P a) -> filter P l = l.
Proof.
  induction l as [|a l IH]; intros HP; [done|]. rewrite filter_cons, decide_True by set_solver.
  f_equal. apply IH. set_solver.
Qed.

Lemma List_filter_sublist {A} (p : A -> bool) l : List.filter p l `sublist_of` l.
Proof. induction l as [|a l IH]; simpl; [done|]. by destruct (p a); constructor. Qed.

Lemma filter_List_filter {A} (P : A -> Prop) `{!∀ a, Decision (P a)} (q : A -> bool) l :
  (∀ a, a ∈ l -> P a -> q a = true) -> filter P (List.filter q l) = filter P l.
Proof.
  induction l as [|a l IH]; intros HP; [done|]. simpl. rewrite filter_cons.
  destruct (q a) eqn:Hq; rewrite ?filter_cons, IH by set_solver; [done|].
  rewrite decide_False; [done|]. intros Ha. rewrite HP in Hq; [done|left|done].
Qed.

(** Leaving out one of several distinct keys. *)
Lemma filter_out_length {A B} `{EqDecision B} (f : A -> B) k (l : list A) :
  NoDup (f <$> l) -> k ∈ f <$> l -> S (length (filter (fun a => f a <> k) l)) = length l.
Proof.
  induction l as [|a l IH]; csimpl; intros Hnd Hin; [set_solver|].
  apply NoDup_cons in Hnd as [Ha Hnd]. rewrite filter_cons.
  destruct (decide (f a = k)) as [<-|Hne].
  - rewrite decide_False by tauto. by rewrite filter_true by (intros b Hb Heq; apply Ha; rewrite <- Heq; by apply list_elem_of_fmap_2).
  - rewrite decide_True by done. simpl. rewrite IH; [done|done|set_solver].
Qed.

Lemma filter_fmap_on {A B} (f : A -> B) (P : B -> Prop) (Q : A -> Prop)
    `{!∀ b, Decision (P b), !∀ a, Decision (Q a)} (l : list A) :
  Forall (fun a => P (f a) <-> Q a) l -> filter P (f <$> l) = f <$> filter Q l.
Proof.
  induction 1 as [|a l HPQ _ IH]; [done|]. csimpl. rewrite !filter_cons, IH.
  destruct (decide (P (f a))), (decide (Q a)); naive_solver.
Qed.

Lemma filter_fmap_ext {A B} (f : A -> B) (P : B -> Prop) (Q : A -> Prop)
    `{!∀ b, Decision (P b), !∀ a, Decision (Q a)} (l : list A) :
  (∀ a, P (f a) <-> Q a) -> filter P (f <$> l) = f <$> filter Q l.
Proof. intros HPQ. apply filter_fmap_on, Forall_forall. auto. Qed.

(** ** Machine integers

    A [w]-bit unsigned integer is a [Z] in [0, 2^w); an [as] cast reduces modulo [2^w] and, for a
    signed target, reads the result in two's complement. *)

Definition wrap (w z : Z) : Z := z mod 2 ^ w.
Definition to_signed (w z : Z) : Z :=
  let r := wrap w z in if Z.ltb r (2 ^ (w - 1)) then r else (r - 2 ^ w)%Z.

Definition as_u8 (z : Z) : Z := wrap 8 z.
Definition as_u16 (z : Z) : Z := wrap 16 z.
Definition as_u32 (z : Z) : Z := wrap 32 z.
Definition as_u64 (z : Z) : Z := wrap 64 z.
Definition as_i16 (z : Z) : Z := to_signed 16 z.
Definition as_i32 (z : Z) : Z := to_signed 32 z.
Definition as_i64 (z : Z) : Z := to_signed 64 z.

Definition is_unsigned (w z : Z) : Prop := (0 <= z < 2 ^ w)%Z.
Definition is_signed (w z : Z) : Prop := (- 2 ^ (w - 1) <= z < 2 ^ (w - 1))%Z.

Abbreviation u8 := (is_unsigned 8).
Abbreviation u16 := (is_unsigned 16).
Abbreviation u32 := (is_unsigned 32).
Abbreviation u64 := (is_unsigned 64).
Abbreviation u128 := (is_unsigned 128).
Abbreviation i16 := (is_signed 16).
Abbreviation i64 := (is_signed 64).

Lemma wrap_range w z : (0 <= w)%Z -> is_unsigned w (wrap w z).
Proof. intros. unfold is_unsigned, wrap. apply Z.mod_pos_bound. lia. Qed.

Lemma wrap_small w z : is_unsigned w z -> wrap w z = z.
Proof. apply Z.mod_small. Qed.

Lemma wrap_wrap w z : (0 <= w)%Z -> wrap w (wrap w z) = wrap w z.
Proof. intros. by apply wrap_small, wrap_range. Qed.

Lemma wrap_add_l w a b : wrap w (wrap w a + b) = wrap w (a + b).
Proof. unfold wrap. apply Zplus_mod_idemp_l. Qed.

Lemma wrap_sub_pow w z : (0 <= w)%Z -> wrap w (z - 2 ^ w) = wrap w z.
Proof.
  intros. unfold wrap. replace (z - 2 ^ w)%Z with (z + (-1) * 2 ^ w)%Z by lia.
  apply Z.mod_add. lia.
Qed.

Lemma pow_half w : (0 < w)%Z -> (2 ^ w = 2 * 2 ^ (w - 1))%Z.
Proof. intros. rewrite <- Z.pow_succ_r by lia. f_equal. lia. Qed.

Lemma to_signed_range w z : (0 < w)%Z -> is_signed w (to_signed w z).
Proof.
  intros Hw. unfold is_signed, to_signed. pose proof (wrap_range w z ltac:(lia)) as [H1 H2].
  pose proof (pow_half w Hw). destruct (Z.ltb_spec (wrap w z) (2 ^ (w - 1))); lia.
Qed.

(** Casting to the signed type of the same width and back is the identity. *)
Lemma wrap_to_signed w z : (0 <= w)%Z -> is_unsigned w z -> wrap w (to_signed w z) = z.
Proof.
  intros Hw Hz. unfold to_signed. rewrite (wrap_small w z) by done.
  destruct (Z.ltb_spec z (2 ^ (w - 1))).
  - by apply wrap_small.
  - rewrite wrap_sub_pow by done. by apply wrap_small.
Qed.

Lemma to_signed_small w z : (0 <= z < 2 ^ (w - 1))%Z -> (0 < w)%Z -> to_signed w z = z.
Proof.
  intros Hz Hw. pose proof (pow_half w Hw). unfold to_signed.
  rewrite (wrap_small w z) by (unfold is_unsigned; lia).
  destruct (Z.ltb_spec z (2 ^ (w - 1))); lia.
Qed.

Lemma to_signed_wrap w z : (0 < w)%Z -> is_signed w z -> to_signed w (wrap w z) = z.
Proof.
  intros Hw Hz. unfold to_signed, is_signed in *. rewrite wrap_wrap by lia. pose proof (pow_half w Hw).
  unfold wrap. destruct (decide (0 <= z)%Z).
  - rewrite Z.mod_small by lia. destruct (Z.ltb_spec z (2 ^ (w - 1))); lia.
  - rewrite <- (Z.mod_add z 1) by lia. rewrite Z.mod_small by lia.
    destruct (Z.ltb_spec (z + 1 * 2 ^ w) (2 ^ (w - 1))); lia.
Qed.

Lemma to_signed_id w z : (0 < w)%Z -> is_signed w z -> to_signed w z = z.
Proof.
  intros Hw Hz. rewrite <- (to_signed_wrap w z Hw Hz) at 2. unfold to_signed. by rewrite wrap_wrap by lia.
Qed.

Lemma to_signed_inj w z1 z2 :
  (0 <= w)%Z -> is_unsigned w z1 -> is_unsigned w z2 -> to_signed w z1 = to_signed w z2 -> z1 = z2.
Proof.
  intros Hw H1 H2 Heq. rewrite <- (wrap_to_signed w z1 Hw H1), <- (wrap_to_signed w z2 Hw H2).
  by rewrite Heq.
Qed.

(** ** Iterator adaptors: [skip], [take] and [skip_while] on a [usize] count *)

Fixpoint skip {A} (n : Z) (l : list A) : list A :=
  match l with
  | [] => []
  | x :: l' => if Z.leb n 0 then l else skip (n - 1) l'
  end.

Fixpoint take_z {A} (n : Z) (l : list A) : list A :=
  match l with
  | [] => []
  | x :: l' => if Z.leb n 0 then [] else x :: take_z (n - 1) l'
  end.

Fixpoint skip_while {A} (p : A -> bool) (l : list A) : list A :=
  match l with
  | [] => []
  | x :: l' => if p x then skip_while p l' else l
  end.

Lemma skip_drop {A} (n : Z) (l : list A) : skip n l = drop (Z.to_nat n) l.
Proof.
  revert n; induction l as [|x l IH]; intros n; simpl; [by rewrite drop_nil|].
  destruct (Z.leb_spec n 0).
  - by replace (Z.to_nat n) with 0 by lia.
  - rewrite IH. by replace (Z.to_nat n) with (S (Z.to_nat (n - 1))) by lia.
Qed.

Lemma take_z_take {A} (n : Z) (l : list A) : take_z n l = take (Z.to_nat n) l.
Proof.
  revert n; induction l as [|x l IH]; intros n; simpl; [by rewrite take_nil|].
  destruct (Z.leb_spec n 0).
  - by replace (Z.to_nat n) with 0 by lia.
  - rewrite IH. by replace (Z.to_nat n) with (S (Z.to_nat (n - 1))) by lia.
Qed.

Lemma skip_while_split {A} (p : A -> bool) (l1 : list A) x l2 :
  Forall (fun y => p y = true) l1 -> p x = false -> skip_while p (l1 ++ x :: l2) = x :: l2.
Proof. induction 1; intros Hx; simpl; by rewrite ?H, ?Hx; auto. Qed.

Lemma skip_while_all {A} (p : A -> bool) (l : list A) :
  Forall (fun y => p y = true) l -> skip_while p l = [].
Proof. induction 1 as [|x l Hx _ IH]; simpl; [done|]. by rewrite Hx. Qed.

(** ** Orderings and the stable sort of [slice::sort_by]

    [Ordering] is Rocq's [comparison].  [sort_by] is stable, so on a total preorder its result is
    determined by its specification; it is computed here by insertion. *)

Class CmpLaws {A} (cmp : A -> A -> comparison) : Prop := {
  cmp_opp x y : cmp y x = CompOpp (cmp x y);
  cmp_trans x y z : cmp x y <> Gt -> cmp y z <> Gt -> cmp x z <> Gt
}.

(** [cmp] on a key of the elements. *)
Definition cmp_on {A B} (key : A -> B) (cmp : B -> B -> comparison) (x y : A) : comparison :=
  cmp (key x) (key y).

(** [Ord for Option]: [None] is below every [Some]. *)
Definition option_cmp {A} (cmp : A -> A -> comparison) (x y : option A) : comparison :=
  match x, y with
  | None, None => Eq
  | None, Some _ => Lt
  | Some _, None => Gt
  | Some a, Some b => cmp a b
  end.

(** [Ordering::reverse]. *)
Definition reverse_cmp {A} (cmp : A -> A -> comparison) (x y : A) : comparison := CompOpp (cmp x y).

#[export] Instance Zcompare_laws : CmpLaws Z.compare.
Proof.
  split; intros x y; [apply Z.compare_antisym|]. intros z H1 H2.
  change (x <= y)%Z in H1. change (y <= z)%Z in H2. change (x <= z)%Z. lia.
Qed.

#[export] Instance cmp_on_laws {A B} (key : A -> B) cmp `{CmpLaws B cmp} : CmpLaws (cmp_on key cmp).
Proof. unfold cmp_on. split; intros; [apply cmp_opp|by eapply cmp_trans]. Qed.

#[export] Instance option_cmp_laws {A} (cmp : A -> A -> comparison) `{CmpLaws A cmp} :
  CmpLaws (option_cmp cmp).
Proof.
  split; [intros [] []; simpl; auto using cmp_opp|].
  intros [] [] []; simpl; try done. apply cmp_trans.
Qed.

#[export] Instance reverse_cmp_laws {A} (cmp : A -> A -> comparison) `{CmpLaws A cmp} :
  CmpLaws (reverse_cmp cmp).
Proof.
  unfold reverse_cmp. split; [intros; by rewrite (cmp_opp x y)|].
  intros x y z H1 H2. rewrite <- cmp_opp in *. by eapply cmp_trans.
Qed.

Lemma string_compare_cons a s b t :
  String.compare (String a s) (String b t) =
  match N.compare (N_of_ascii a) (N_of_ascii b) with Eq => String.compare s t | c => c end.
Proof. done. Qed.

(** Strings are ordered by their bytes. *)
#[export] Instance string_compare_laws : CmpLaws String.compare.
Proof.
  split; [intros; apply String.compare_antisym|].
  induction x as [|a x IH]; intros [|b y] [|c z]; try done.
  rewrite !string_compare_cons.
  destruct (N.compare_spec (N_of_ascii a) (N_of_ascii b)),
    (N.compare_spec (N_of_ascii b) (N_of_ascii c)),
    (N.compare_spec (N_of_ascii a) (N_of_ascii c)); intros ??; try done; try lia.
  by eapply IH.
Qed.

Section sort_by.
Context {A : Type} (cmp : A -> A -> comparison).

Fixpoint insert_by (x : A) (l : list A) : list A :=
  match l with
  | [] => [x]
  | y :: l' => match cmp x y with Gt => y :: insert_by x l' | _ => x :: l end
  end.

Fixpoint sort_by (l : list A) : list A :=
  match l with
  | [] => []
  | x :: l' => insert_by x (sort_by l')
  end.

Definition cmp_le (x y : A) : Prop := cmp x y <> Gt.

Lemma insert_by_perm x l : insert_by x l ≡ₚ x :: l.
Proof.
  induction l as [|y l IH]; simpl; [done|]. destruct (cmp x y); try done.
  rewrite IH. constructor.
Qed.

Lemma sort_by_perm l : sort_by l ≡ₚ l.
Proof. induction l as [|x l IH]; simpl; [done|]. by rewrite insert_by_perm, IH. Qed.

Context `{!CmpLaws cmp}.

Lemma insert_by_sorted x l : StronglySorted cmp_le l -> StronglySorted cmp_le (insert_by x l).
Proof.
  induction 1 as [|y l Hl IH Hy]; simpl; [repeat constructor|].
  destruct (cmp x y) eqn:E.
  1,2: (constructor; [by constructor|]; constructor; [unfold cmp_le; congruence|];
        eapply Forall_impl; [exact Hy|]; intros z Hz; eapply cmp_trans; [|exact Hz]; congruence).
  constructor; [done|]. rewrite insert_by_perm. constructor; [|done].
  unfold cmp_le. rewrite (cmp_opp x y), E. done.
Qed.

Lemma sort_by_sorted l : StronglySorted cmp_le (sort_by l).
Proof. induction l; simpl; [constructor|]. by apply insert_by_sorted. Qed.

Context (P : A -> Prop) `{!∀ x, Decision (P x)}.
Hypothesis P_eq : ∀ x y, P x -> P y -> cmp x y = Eq.

Lemma insert_by_stable x l : filter P (insert_by x l) = filter P (x :: l).
Proof.
  induction l as [|y l IH]; [done|]. cbn [insert_by].
  destruct (cmp x y) eqn:E; [done|done|].
  rewrite (filter_cons _ y (insert_by x l)), IH, !filter_cons.
  destruct (decide (P x)), (decide (P y)); try done.
  by rewrite (P_eq x y) in E.
Qed.

(** Stability: the elements of one class of equal keys keep their order. *)
Lemma sort_by_stable l : filter P (sort_by l) = filter P l.
Proof.
  induction l as [|x l IH]; [done|]. cbn [sort_by].
  by rewrite insert_by_stable, !filter_cons, IH.
Qed.
End sort_by.

Lemma sort_by_nil {A} (cmp : A -> A -> comparison) l : sort_by cmp l = [] <-> l = [].
Proof.
  split; [|by intros ->]. intros H. pose proof (sort_by_perm cmp l) as Hp. rewrite H in Hp.
  by apply Permutation_nil_l in Hp.
Qed.

(** ** The iteration order of [std::collections::HashMap]

    A [HashMap] is a [gmap]; the order in which it yields its entries is unspecified, so it is a
    parameter of which only the content is known. *)

Class HashIter (K V : Type) `{Countable K} := {
  hm_iter : gmap K V -> list (K * V);
  hm_iter_perm m : hm_iter m ≡ₚ map_to_list m
}.

Definition hm_values {K V} `{HashIter K V} (m : gmap K V) : list V := snd <$> hm_iter m.

(** The order of [map_to_list]: one possible instance, which the witnesses compute with. *)
Definition hash_iter_std {K V : Type} `{Countable K} : HashIter K V :=
  {| hm_iter m := map_to_list m; hm_iter_perm m := Permutation_refl _ |}.

Section hash_iter.
Context {K V : Type} `{HashIter K V}.
Implicit Types m : gmap K V.

Lemma elem_of_hm_iter m k v : (k, v) ∈ hm_iter m <-> m !! k = Some v.
Proof. by rewrite hm_iter_perm, elem_of_map_to_list. Qed.

Lemma elem_of_hm_values m v : v ∈ hm_values m <-> ∃ k, m !! k = Some v.
Proof.
  unfold hm_values. rewrite list_elem_of_fmap. split.
  - intros ([k v'] & -> & Hin). exists k. by apply elem_of_hm_iter.
  - intros [k Hk]. exists (k, v). by rewrite elem_of_hm_iter.
Qed.

Lemma length_hm_values m : length (hm_values m) = size m.
Proof. unfold hm_values. rewrite length_fmap, hm_iter_perm. apply length_map_to_list. Qed.

Lemma hm_values_NoDup m (key : V -> K) :
  (∀ k v, m !! k = Some v -> key v = k) -> NoDup (key <$> hm_values m).
Proof.
  intros Hkey. unfold hm_values. rewrite <- list_fmap_compose.
  rewrite (list_fmap_ext (key ∘ snd) fst (hm_iter m)).
  - rewrite hm_iter_perm. apply NoDup_fst_map_to_list.
  - intros i [k v] Hi. simpl. apply Hkey, elem_of_hm_iter. by eapply list_elem_of_lookup_2.
Qed.
End hash_iter.

(** ** Strings *)

(** [slice::join]. *)
Fixpoint join (sep : string) (l : list string) : string :=
  match l with
  | [] => ""
  | [s] => s
  | s :: l' => s +:+ sep +:+ join sep l'
  end.

(** The lower case of an ASCII letter; other characters are kept. *)
Definition ascii_lower (c : ascii) : ascii :=
  let n := nat_of_ascii c in
  if (Nat.leb 65 n && Nat.leb n 90)%bool then ascii_of_nat (n + 32) else c.

(** The occurrences of a character. *)
Fixpoint count_char (c : ascii) (s : string) : nat :=
  match s with
  | EmptyString => 0
  | String a s' => (if Ascii.eqb a c then 1 else 0) + count_char c s'
  end.

Lemma count_char_app c s t : count_char c (s +:+ t) = count_char c s + count_char c t.
Proof. induction s as [|a s IH]; simpl; [done|]. rewrite IH. lia. Qed.

Lemma count_char_join c sep l :
  count_char c (join sep l) =
    sum_list (count_char c <$> l) + (length l - 1) * count_char c sep.
Proof.
  induction l as [|s [|t l] IH]; [done|simpl; lia|].
  change (join sep (s :: t :: l)) with (s +:+ sep +:+ join sep (t :: l)).
  rewrite !count_char_app, IH. csimpl. destruct (length l); simpl; lia.
Qed.

Lemma string_app_nil s : s +:+ EmptyString = s.
Proof.
  induction s as [|a s IH]; [done|].
  change (String a s +:+ EmptyString) with (String a (s +:+ EmptyString)). by rewrite IH.
Qed.

#[export] Instance string_app_assoc : Assoc (=) String.append.
Proof.
  intros s t u. induction s as [|a s IH]; [done|].
  change (String a (s +:+ (t +:+ u)) = String a ((s +:+ t) +:+ u)). by rewrite IH.
Qed.

Lemma join_cons sep s l : l <> [] -> join sep (s :: l) = s +:+ sep +:+ join sep l.
Proof. by destruct l. Qed.

Lemma join_snoc sep l x : l <> [] -> join sep (l ++ [x]) = join sep l +:+ sep +:+ x.
Proof.
  induction l as [|a [|b l] IH]; [done|done|]. intros _.
  rewrite <- app_comm_cons, join_cons by done. rewrite IH by done.
  rewrite (join_cons sep a) by done. by rewrite <- !(assoc_L String.append).
Qed.

(** [str::split] on a character. *)
Fixpoint split_on (c : ascii) (s : string) : list string :=
  match s with
  | EmptyString => [EmptyString]
  | String a s' =>
      if Ascii.eqb a c then EmptyString :: split_on c s'
      else match split_on c s' with
           | [] => [String a EmptyString]
           | t :: l => String a t :: l
           end
  end.

Lemma split_on_ne c s : split_on c s <> [].
Proof. destruct s as [|a s]; simpl; [done|]. destruct (Ascii.eqb a c), (split_on c s); done. Qed.

Lemma split_on_none c s : count_char c s = 0%nat -> split_on c s = [s].
Proof.
  induction s as [|a s IH]; [done|]. simpl. destruct (Ascii.eqb a c); [done|]. intros.
  by rewrite IH.
Qed.

Lemma split_on_app c s t : count_char c s = 0%nat ->
  split_on c (s +:+ String c t) = s :: split_on c t.
Proof.
  induction s as [|a s IH]; simpl; intros H; [by rewrite Ascii.eqb_refl|].
  destruct (Ascii.eqb a c); [done|]. by rewrite IH.
Qed.

(** [str::strip_prefix]. *)
Fixpoint strip_prefix (p s : string) : option string :=
  match p, s with
  | EmptyString, _ => Some s
  | String a p', String b s' => if Ascii.eqb a b then strip_prefix p' s' else None
  | String _ _, EmptyString => None
  end.

Lemma strip_prefix_app p s : strip_prefix p (p +:+ s) = Some s.
Proof. induction p as [|a p IH]; [done|]. simpl. by rewrite Ascii.eqb_refl. Qed.

(** [str::trim_start_matches] and [str::trim_end_matches] on a character. *)
Fixpoint trim_start_matches (c : ascii) (s : string) : string :=
  match s with
  | String a s' => if Ascii.eqb a c then trim_start_matches c s' else s
  | EmptyString => s
  end.

Definition trim_end_matches (c : ascii) (s : string) : string :=
  string_of_list_ascii (rev (list_ascii_of_string
    (trim_start_matches c (string_of_list_ascii (rev (list_ascii_of_string s)))))).
