(* ===== verification/Platform.v ===== *)
(** * Values of the third-party crates the program computes with

    - [f64] and [NotNan] (crate [ordered-float]) on the Standard Library's [spec_float];
    - [Timestamp] (crate [jiff]) as its number of nanoseconds, with the conversions the code calls
      as the operations of the class [Jiff] and their documented behaviour as [JiffLaws];
    - the text form of a [Ulid] (crate [ulid]) as the class [UlidText] with [UlidTextLaws];
    - text serialization (serde) as the class [Serde] with [SerdeLaws].

    Each class has one concrete instance, with its laws proved, that the witnesses compute with. *)
From Stdlib Require Import ZArith Lia Bool Strings.String Strings.Ascii Floats.SpecFloat.
From stdpp Require Import base gmap strings list pretty.
From S2P Require Import Prelude.
Open Scope Z_scope.

(** ** [f64] *)

(** IEEE 754 binary64 values, by the Standard Library's specification. *)
Abbreviation f64 := spec_float.

#[export] Instance f64_eq_dec : EqDecision f64.
Proof. solve_decision. Defined.

Definition is_nan (x : f64) : bool := match x with S754_nan => true | _ => false end.

(** [z as f64] for an integer that fits the mantissa. *)
Definition f64_of_int (z : Z) : f64 := binary_normalize 53 1024 z 0 false.

(** [x / y]. *)
Definition f64_div (x y : f64) : f64 := SFdiv 53 1024 x y.

(** [x as u8]: truncation towards zero that saturates, and 0 for NaN. *)
Definition f64_as_u8 (x : f64) : Z :=
  match x with
  | S754_nan | S754_zero _ => 0
  | S754_infinity s => if s then 0 else 255
  | S754_finite s m e =>
      let t := if Z.leb 0 e then Zpos m * 2 ^ e else Zpos m / 2 ^ (- e) in
      if s then 0 else Z.min 255 t
  end.

(** All integers [z] with [lo <= z < lo + n]. *)
Definition z_range (lo : Z) (n : nat) : list Z := (fun i => lo + Z.of_nat i) <$> seq 0 n.

Lemma elem_of_z_range lo n z : z ∈ z_range lo n <-> lo <= z < lo + Z.of_nat n.
Proof.
  unfold z_range. rewrite list_elem_of_fmap. split.
  - intros (i & -> & Hi). apply elem_of_seq in Hi. lia.
  - intros Hz. exists (Z.to_nat (z - lo)). rewrite elem_of_seq. lia.
Qed.

(** Decides a statement about every integer of a range by computation. *)
Lemma z_range_forallb (p : Z -> bool) lo n z :
  forallb p (z_range lo n) = true -> lo <= z < lo + Z.of_nat n -> p z = true.
Proof.
  rewrite forallb_forall. intros H Hz. apply H, list_elem_of_In, elem_of_z_range. done.
Qed.

Lemma f64_of_u8_as_u8 z : u8 z -> f64_as_u8 (f64_of_int z) = z.
Proof.
  intros Hz. apply Z.eqb_eq.
  apply (z_range_forallb (fun z => Z.eqb (f64_as_u8 (f64_of_int z)) z) 0 256); [|exact Hz].
  vm_compute. reflexivity.
Qed.

(** Rounding a non-negative mantissa never gives NaN, so a quotient of integers is NaN only for 0/0. *)
Lemma shr_1_nonneg mrs : 0 <= shr_m mrs -> 0 <= shr_m (shr_1 mrs).
Proof. destruct mrs as [[|[p|p|]|p] r s]; simpl; lia. Qed.

Lemma shr_fexp_nonneg m e l : 0 <= m -> 0 <= shr_m (shr_fexp 53 1024 m e l).1.
Proof.
  intros Hm. unfold shr_fexp, shr.
  assert (0 <= shr_m (shr_record_of_loc m l)) as Hr by (by destruct l as [|[| |]]).
  revert Hr. generalize (shr_record_of_loc m l). intros mrs.
  destruct (_ - e); cbn [fst]; try done. revert mrs.
  induction p as [p IH|p IH|]; intros mrs Hr; simpl; auto using shr_1_nonneg.
Qed.

Lemma binary_round_aux_not_nan s m e l : 0 <= m -> is_nan (binary_round_aux 53 1024 s m e l) = false.
Proof.
  intros Hm. unfold binary_round_aux. pose proof (shr_fexp_nonneg m e l Hm) as H1.
  destruct (shr_fexp 53 1024 m e l) as [mrs' e'].
  assert (0 <= round_nearest_even (shr_m mrs') (loc_of_shr_record mrs')) as H2.
  { unfold round_nearest_even. cbn [fst] in H1. repeat case_match; lia. }
  pose proof (shr_fexp_nonneg _ e' loc_Exact H2) as H3.
  destruct (shr_fexp 53 1024 _ e' loc_Exact) as [mrs'' e'']. cbn [fst] in H3.
  destruct (shr_m mrs''); [done|by case_match|lia].
Qed.

Lemma f64_of_int_not_nan z : is_nan (f64_of_int z) = false.
Proof.
  unfold f64_of_int, binary_normalize, binary_round. destruct z; [done|..];
    destruct (shl_align _ _ _); by apply binary_round_aux_not_nan.
Qed.

Lemma f64_div_not_nan x m e :
  is_nan x = false -> is_nan (f64_div x (S754_finite false m e)) = false.
Proof.
  intros Hx. destruct x as [s|s| |s mx ex]; try done. unfold f64_div, SFdiv, SFdiv_core_binary.
  set (n := match _ - _ with Z0 => _ | _ => _ end).
  assert (0 <= n) as Hn.
  { unfold n. case_match; try lia. apply Z.shiftl_nonneg. lia. }
  clearbody n. pose proof (Z.div_pos n (Zpos m) Hn ltac:(lia)) as Hq. unfold Z.div in Hq.
  destruct (Z.div_eucl n (Zpos m)) as [q r]. by apply binary_round_aux_not_nan.
Qed.

(** ** [NotNan<f64>] *)

Record NotNan := mkNotNan { into_inner : f64; not_nan : is_nan into_inner = false }.

Lemma NotNan_eq (x y : NotNan) : into_inner x = into_inner y -> x = y.
Proof.
  destruct x as [x Hx], y as [y Hy]. simpl. intros ->. f_equal.
  apply Eqdep_dec.UIP_dec, Bool.bool_dec.
Qed.

#[export] Instance NotNan_eq_dec : EqDecision NotNan.
Proof.
  intros x y. destruct (decide (into_inner x = into_inner y)) as [E|E].
  - left. by apply NotNan_eq.
  - right. by intros ->.
Defined.

(** [NotNan::new]. *)
Definition NotNan_new (x : f64) : option NotNan :=
  match is_nan x as b return is_nan x = b -> option NotNan with
  | false => fun H => Some (mkNotNan x H)
  | true => fun _ => None
  end eq_refl.

Lemma NotNan_new_Some x n : NotNan_new x = Some n -> into_inner n = x.
Proof. destruct x; simpl; intros [= <-]; done. Qed.

Lemma NotNan_new_into_inner n : NotNan_new (into_inner n) = Some n.
Proof.
  destruct n as [x Hx]. destruct x; try discriminate; unfold NotNan_new; cbn;
    apply f_equal; by apply NotNan_eq.
Qed.

Lemma NotNan_new_is_Some x : is_nan x = false -> is_Some (NotNan_new x).
Proof. destruct x; simpl; intros; try done; eauto. Qed.

(** ** [jiff::Timestamp] *)

(** An instant, as [Timestamp::as_nanosecond] gives it; [Ord] compares instants. *)
Record Timestamp := mkTimestamp { as_nanosecond : Z }.

#[export] Instance Timestamp_eq_dec : EqDecision Timestamp.
Proof. solve_decision. Defined.

Definition ts_cmp : Timestamp -> Timestamp -> comparison := cmp_on as_nanosecond Z.compare.
Definition ts_ltb (a b : Timestamp) : bool := Z.ltb (as_nanosecond a) (as_nanosecond b).

(** The range between [Timestamp::MIN] and [Timestamp::MAX]. *)
Definition ts_min_second : Z := -377705023201.
Definition ts_max_second : Z := 253402207200.
Definition valid_timestamp (t : Timestamp) : Prop :=
  ts_min_second * 1000000000 <= as_nanosecond t < (ts_max_second + 1) * 1000000000.

Class Jiff := {
  as_second : Timestamp -> Z;                 (* Timestamp::as_second *)
  from_second : Z -> option Timestamp;        (* Timestamp::from_second *)
  ts_to_string : Timestamp -> string;         (* Display *)
  ts_from_str : string -> option Timestamp;   (* FromStr *)
  as_millisecond : Timestamp -> Z             (* Timestamp::as_millisecond *)
}.

Class JiffLaws `{Jiff} : Prop := {
  from_second_spec s t : from_second s = Some t -> valid_timestamp t /\ as_second t = s;
  from_as_second t : valid_timestamp t -> is_Some (from_second (as_second t));
  as_second_mono t1 t2 : as_nanosecond t1 <= as_nanosecond t2 -> as_second t1 <= as_second t2
}.

Definition jiff_ns : Jiff := {|
  as_second t := Z.quot (as_nanosecond t) 1000000000;
  from_second s :=
    if Z.leb ts_min_second s && Z.leb s ts_max_second
    then Some (mkTimestamp (s * 1000000000)) else None;
  ts_to_string t := pretty (as_nanosecond t);
  ts_from_str s := if decide (s = "1970-01-01T00:00:00Z"%string) then Some (mkTimestamp 0) else None;
  as_millisecond t := Z.quot (as_nanosecond t) 1000000
|}.

Lemma jiff_ns_laws : @JiffLaws jiff_ns.
Proof.
  split; unfold valid_timestamp; simpl.
  - intros s t. destruct (Z.leb_spec ts_min_second s), (Z.leb_spec s ts_max_second); simpl;
      intros [= <-]. simpl. rewrite Z.quot_mul by lia. lia.
  - intros [n] Hn; simpl in *. pose proof (Z.quot_rem' n 1000000000).
    pose proof (Z.rem_bound_abs n 1000000000 ltac:(lia)).
    unfold ts_min_second, ts_max_second in *.
    assert (-377705023201 <= Z.quot n 1000000000 <= 253402207200) as [H1 H2].
    { pose proof (Z.rem_sign_nz n 1000000000). destruct (Z.le_gt_cases 0 n).
      - pose proof (Z.rem_bound_pos n 1000000000). lia.
      - pose proof (Z.rem_nonpos n 1000000000). lia. }
    apply Z.leb_le in H1, H2. rewrite H1, H2. by eexists.
  - intros [a] [b]; simpl. intros. apply Z.quot_le_mono; lia.
Qed.

(** ** The text form of a ULID *)

(** [Ulid(pub u128)]. *)
Abbreviation Ulid := Z.

(** The characters [0-9A-Z]. *)
Definition is_alphanumeric (c : ascii) : Prop :=
  let n := Ascii.nat_of_ascii c in
  (Nat.leb 48 n && Nat.leb n 57 || Nat.leb 65 n && Nat.leb n 90)%bool = true.

Class UlidText := {
  ulid_to_string : Ulid -> string;              (* Display *)
  ulid_from_str : string -> option Ulid         (* FromStr *)
}.

Class UlidTextLaws `{UlidText} : Prop := {
  ulid_from_to u : u128 u -> ulid_from_str (ulid_to_string u) = Some u;
  ulid_from_range s u : ulid_from_str s = Some u -> u128 u;
  ulid_to_string_segment u : u128 u -> ulid_to_string u <> EmptyString /\
    Forall is_alphanumeric (list_ascii_of_string (ulid_to_string u));
  ulid_to_string_compare u v : u128 u -> u128 v ->
    String.compare (ulid_to_string u) (ulid_to_string v) = Z.compare u v
}.

Lemma ulid_to_string_inj `{UlidTextLaws} u v :
  u128 u -> u128 v -> ulid_to_string u = ulid_to_string v -> u = v.
Proof.
  intros Hu Hv Heq. pose proof (ulid_from_to u Hu) as E. rewrite Heq, ulid_from_to in E by done.
  by simplify_eq.
Qed.

Lemma ulid_to_string_no_char `{UlidTextLaws} c u :
  u128 u -> ~ is_alphanumeric c -> count_char c (ulid_to_string u) = 0%nat.
Proof.
  intros Hu Hc. destruct (ulid_to_string_segment u Hu) as [_ Hall]. revert Hall.
  induction (ulid_to_string u) as [|a s IH]; simpl; [done|].
  intros [Ha Hs]%Forall_cons. destruct (Ascii.eqb_spec a c) as [->|_]; [done|by apply IH].
Qed.

(** Crockford's base 32 in 26 characters, the form the ULID specification gives. *)
Module Crockford.
Definition alphabet : list ascii := list_ascii_of_string "0123456789ABCDEFGHJKMNPQRSTVWXYZ".

Definition encode_digit (d : Z) : ascii := nth (Z.to_nat d) alphabet zero.

Fixpoint index_of (c : ascii) (l : list ascii) (i : Z) : option Z :=
  match l with
  | [] => None
  | a :: l' => if Ascii.eqb a c then Some i else index_of c l' (i + 1)
  end.

Definition decode_digit (c : ascii) : option Z := index_of c alphabet 0.

Fixpoint digits (n : nat) (u : Z) : list Z :=
  match n with O => [] | S n' => digits n' (u / 32) ++ [u mod 32] end.

Definition value (l : list Z) : Z := fold_left (fun acc d => acc * 32 + d) l 0.

Definition to_string (u : Z) : string :=
  string_of_list_ascii (encode_digit <$> digits 26 u).

Definition from_str (s : string) : option Z :=
  l ← mapM decode_digit (list_ascii_of_string s);
  if bool_decide (length l = 26%nat) && Z.leb 0 (value l) && Z.ltb (value l) (2 ^ 128)
  then Some (value l) else None.

Lemma value_digits n u : value (digits n u) = u mod 32 ^ Z.of_nat n.
Proof.
  unfold value. revert u; induction n as [|n IH]; intros u.
  - simpl. by rewrite Z.mod_1_r.
  - cbn [digits]. rewrite fold_left_app. simpl fold_left at 1. rewrite IH.
    rewrite Nat2Z.inj_succ, Z.pow_succ_r by lia.
    rewrite (Z.rem_mul_r u 32) by lia. lia.
Qed.

Lemma length_digits n u : length (digits n u) = n.
Proof. revert u; induction n; intros; [done|]. simpl. rewrite length_app, IHn. simpl. lia. Qed.

Lemma digits_range n u : Forall (fun d => 0 <= d < 32) (digits n u).
Proof.
  revert u; induction n; intros; simpl; [constructor|]. apply Forall_app. split; [apply IHn|].
  repeat constructor; apply Z.mod_pos_bound; lia.
Qed.

Lemma encode_alphanumeric d : 0 <= d < 32 -> is_alphanumeric (encode_digit d).
Proof.
  pose (p := fun d => let n := Ascii.nat_of_ascii (encode_digit d) in
    (Nat.leb 48 n && Nat.leb n 57 || Nat.leb 65 n && Nat.leb n 90)%bool).
  intros Hd. apply (z_range_forallb p 0 32); [by vm_compute|lia].
Qed.

Lemma to_string_segment u : to_string u <> EmptyString /\
  Forall is_alphanumeric (list_ascii_of_string (to_string u)).
Proof.
  unfold to_string. rewrite list_ascii_of_string_of_list_ascii. split.
  - intros E. apply (f_equal (fun s => length (list_ascii_of_string s))) in E.
    rewrite list_ascii_of_string_of_list_ascii, length_fmap, length_digits in E. done.
  - apply Forall_fmap. eapply Forall_impl; [apply digits_range|]. apply encode_alphanumeric.
Qed.

Lemma decode_encode d : 0 <= d < 32 -> decode_digit (encode_digit d) = Some d.
Proof.
  intros Hd.
  pose (p := fun d => match decode_digit (encode_digit d) with
                      | Some d' => Z.eqb d' d | None => false end).
  assert (p d = true) as H by (apply (z_range_forallb p 0 32); [by vm_compute|lia]).
  unfold p in H. destruct (decode_digit _) as [d'|]; [|done]. f_equal. by apply Z.eqb_eq.
Qed.

Lemma mapM_decode l : Forall (fun d => 0 <= d < 32) l -> mapM decode_digit (encode_digit <$> l) = Some l.
Proof.
  intros H. apply mapM_Some_2, Forall2_fmap_l, Forall_Forall2_diag.
  eapply Forall_impl; [exact H|]. apply decode_encode.
Qed.

Lemma from_to u : u128 u -> from_str (to_string u) = Some u.
Proof.
  intros Hu. unfold from_str, to_string.
  rewrite list_ascii_of_string_of_list_ascii, mapM_decode by apply digits_range.
  unfold mbind, option_bind; cbv beta iota.
  rewrite value_digits, length_digits, Z.mod_small by (unfold is_unsigned in Hu; lia).
  destruct Hu as [H1%Z.leb_le H2%Z.ltb_lt]. by rewrite H1, H2.
Qed.

(** The text sorts as the number: the alphabet is in the order of its codes. *)
Lemma compare_snoc l l' a b : length l = length l' ->
  String.compare (string_of_list_ascii (l ++ [a])) (string_of_list_ascii (l' ++ [b])) =
    match String.compare (string_of_list_ascii l) (string_of_list_ascii l') with
    | Eq => Ascii.compare a b | c => c end.
Proof.
  revert l'. induction l as [|x l IH]; intros [|y l'] Hlen; try done; simpl.
  - by destruct (Ascii.compare a b).
  - rewrite IH by (simpl in Hlen; lia). by destruct (Ascii.compare x y).
Qed.

Lemma encode_compare d d' : 0 <= d < 32 -> 0 <= d' < 32 ->
  Ascii.compare (encode_digit d) (encode_digit d') = Z.compare d d'.
Proof.
  intros Hd Hd'.
  pose (eqc := fun c c' : comparison =>
    match c, c' with Lt, Lt | Eq, Eq | Gt, Gt => true | _, _ => false end).
  pose (p := fun d => forallb (fun d' =>
    eqc (Ascii.compare (encode_digit d) (encode_digit d')) (Z.compare d d')) (z_range 0 32)).
  assert (p d = true) as Hp by (apply (z_range_forallb p 0 32); [by vm_compute|lia]).
  pose proof (z_range_forallb _ 0 32 d' Hp ltac:(lia)) as Hq. cbv beta in Hq. unfold eqc in Hq.
  by destruct (Ascii.compare (encode_digit d) _), (Z.compare d d').
Qed.

Lemma digits_compare n u v : 0 <= u < 32 ^ Z.of_nat n -> 0 <= v < 32 ^ Z.of_nat n ->
  String.compare (string_of_list_ascii (encode_digit <$> digits n u))
    (string_of_list_ascii (encode_digit <$> digits n v)) = Z.compare u v.
Proof.
  revert u v. induction n as [|n IH]; intros u v Hu Hv.
  - simpl in *. by replace u with 0 by lia; replace v with 0 by lia.
  - cbn [digits]. rewrite Nat2Z.inj_succ, Z.pow_succ_r in Hu, Hv by lia.
    rewrite !fmap_app.
    change (encode_digit <$> [u mod 32]) with [encode_digit (u mod 32)].
    change (encode_digit <$> [v mod 32]) with [encode_digit (v mod 32)].
    rewrite compare_snoc by by rewrite !length_fmap, !length_digits.
    assert (∀ w, 0 <= w < 32 * 32 ^ Z.of_nat n -> 0 <= w / 32 < 32 ^ Z.of_nat n) as Hdiv.
    { intros w Hw. split; [apply Z.div_pos; lia|apply Z.div_lt_upper_bound; lia]. }
    rewrite IH, encode_compare by (auto using Z.mod_pos_bound || (apply Z.mod_pos_bound; lia)).
    pose proof (Z.div_mod u 32 ltac:(lia)). pose proof (Z.div_mod v 32 ltac:(lia)).
    pose proof (Z.mod_pos_bound u 32 ltac:(lia)). pose proof (Z.mod_pos_bound v 32 ltac:(lia)).
    destruct (Z.compare_spec (u / 32) (v / 32)), (Z.compare_spec (u mod 32) (v mod 32)),
      (Z.compare_spec u v); try done; lia.
Qed.

Lemma from_range s u : from_str s = Some u -> u128 u.
Proof.
  unfold from_str. destruct (mapM _ _) as [l|]; simpl; [|done].
  destruct (bool_decide _), (Z.leb_spec 0 (value l)), (Z.ltb_spec (value l) (2 ^ 128));
    cbn [andb]; intros; simplify_eq. by split.
Qed.
End Crockford.

Definition ulid_crockford : UlidText :=
  {| ulid_to_string := Crockford.to_string; ulid_from_str := Crockford.from_str |}.

Lemma ulid_crockford_laws : @UlidTextLaws ulid_crockford.
Proof.
  split; [apply Crockford.from_to|apply Crockford.from_range|intros u _; apply Crockford.to_string_segment|].
  intros u v Hu Hv. apply Crockford.digits_compare; unfold is_unsigned in *; lia.
Qed.

(** [Ulid::new] and [Timestamp::now]: what the [n]-th call returns. *)
Class UlidGen := ulid_new : nat -> Ulid.
Class Clock := ts_now : nat -> Timestamp.

(** ** Serialization to text: serde_json, serde_urlencoded *)

Class Serde (T : Type) := { serialize : T -> string; deserialize : string -> option T }.
(** Deserializing what was serialized gives the value back. *)
Class SerdeLaws (T : Type) `{Serde T} : Prop :=
  deserialize_serialize (x : T) : deserialize (serialize x) = Some x.

(** A concrete serializer: any countable type, written in binary. *)

Fixpoint bits_of_pos (p : positive) : string :=
  match p with xH => "" | xO q => String "0" (bits_of_pos q) | xI q => String "1" (bits_of_pos q) end.

Fixpoint pos_of_bits (s : string) : positive :=
  match s with
  | "" => xH
  | String c s' => if Ascii.eqb c "1" then xI (pos_of_bits s') else xO (pos_of_bits s')
  end.

Lemma pos_of_bits_of_pos p : pos_of_bits (bits_of_pos p) = p.
Proof. induction p; simpl; congruence. Qed.

Definition serde_countable {T} `{Countable T} : Serde T :=
  {| serialize x := bits_of_pos (encode x); deserialize s := decode (pos_of_bits s) |}.

Lemma serde_countable_laws {T} `{Countable T} : @SerdeLaws T serde_countable.
Proof. intros x. cbn. by rewrite pos_of_bits_of_pos, decode_encode. Qed.
