(* ===== verification/Core.v ===== *)
(** * ersha-core: the domain types every other component exchanges

    One type per struct or enum of ersha-core/src/lib.rs.  Enums live in a Module of their Rust
    name ([DeviceState.Active] is [DeviceState::Active]); struct fields carry a prefix that names
    their struct.  [Box<str>] is [string], [BoxList<T>] is [list T]; the width of an integer field
    is stated by the [*_wf] predicate of its struct. *)
From Stdlib Require Import ZArith.
From stdpp Require Import base gmap strings list.
From S2P Require Import Prelude Platform.
Open Scope Z_scope.

(** ** Identifiers: newtypes over [Ulid] *)

Ltac solve_countable_by f g :=
  refine (inj_countable' f g _); by intros [].

(** [ersha-core/src/lib.rs:11-13] DeviceId *)
Record DeviceId := mkDeviceId { device_ulid : Ulid }.
(** [ersha-core/src/lib.rs:15-17] ReadingId *)
Record ReadingId := mkReadingId { reading_ulid : Ulid }.
(** [ersha-core/src/lib.rs:19-21] StatusId *)
Record StatusId := mkStatusId { status_ulid : Ulid }.
(** [ersha-core/src/lib.rs:23-25] DispatcherId *)
Record DispatcherId := mkDispatcherId { dispatcher_ulid : Ulid }.
(** [ersha-core/src/lib.rs:27-29] BatchId *)
Record BatchId := mkBatchId { batch_ulid : Ulid }.
(** [ersha-core/src/lib.rs:31-33] SensorId *)
Record SensorId := mkSensorId { sensor_ulid : Ulid }.
(** [ersha-core/src/lib.rs:264-266] AlertId *)
Record AlertId := mkAlertId { alert_ulid : Ulid }.
(** [ersha-core/src/lib.rs:35-37] H3Cell *)
Record H3Cell := mkH3Cell { h3_cell : Z }.
(** [ersha-core/src/lib.rs:39-41] Percentage *)
Record Percentage := mkPercentage { percent : Z }.

#[export] Instance DeviceId_eq_dec : EqDecision DeviceId. Proof. solve_decision. Defined.
#[export] Instance ReadingId_eq_dec : EqDecision ReadingId. Proof. solve_decision. Defined.
#[export] Instance StatusId_eq_dec : EqDecision StatusId. Proof. solve_decision. Defined.
#[export] Instance DispatcherId_eq_dec : EqDecision DispatcherId. Proof. solve_decision. Defined.
#[export] Instance BatchId_eq_dec : EqDecision BatchId. Proof. solve_decision. Defined.
#[export] Instance SensorId_eq_dec : EqDecision SensorId. Proof. solve_decision. Defined.
#[export] Instance AlertId_eq_dec : EqDecision AlertId. Proof. solve_decision. Defined.
#[export] Instance H3Cell_eq_dec : EqDecision H3Cell. Proof. solve_decision. Defined.
#[export] Instance Percentage_eq_dec : EqDecision Percentage. Proof. solve_decision. Defined.

#[export] Instance DeviceId_countable : Countable DeviceId.
Proof. solve_countable_by device_ulid mkDeviceId. Defined.
#[export] Instance ReadingId_countable : Countable ReadingId.
Proof. solve_countable_by reading_ulid mkReadingId. Defined.
#[export] Instance StatusId_countable : Countable StatusId.
Proof. solve_countable_by status_ulid mkStatusId. Defined.
#[export] Instance DispatcherId_countable : Countable DispatcherId.
Proof. solve_countable_by dispatcher_ulid mkDispatcherId. Defined.
#[export] Instance SensorId_countable : Countable SensorId.
Proof. solve_countable_by sensor_ulid mkSensorId. Defined.

(** ** Sensors *)

Module SensorMetric.
(** [ersha-core/src/lib.rs:129-142] SensorMetric *)
Inductive t :=
  | SoilMoisture (value : Percentage)
  | SoilTemp (value : NotNan)
  | AirTemp (value : NotNan)
  | Humidity (value : Percentage)
  | Rainfall (value : NotNan).
#[export] Instance eq_dec : EqDecision t. Proof. solve_decision. Defined.
End SensorMetric.
Export (hints) SensorMetric.

Module SensorKind.
(** [ersha-core/src/lib.rs:83-90] SensorKind *)
Inductive t := SoilMoisture | SoilTemp | AirTemp | Humidity | Rainfall.
#[export] Instance eq_dec : EqDecision t. Proof. solve_decision. Defined.
End SensorKind.
Export (hints) SensorKind.

Module SensorState.
(** [ersha-core/src/lib.rs:76-81] SensorState *)
Inductive t := Active | Faulty | Inactive.
#[export] Instance eq_dec : EqDecision t. Proof. solve_decision. Defined.
End SensorState.
Export (hints) SensorState.

Module MetricUnit.
(** [ersha-core/src/lib.rs:144-153] MetricUnit *)
Inductive t := Percent | Celsius | Mm.
End MetricUnit.

(** [ersha-core/src/lib.rs:62-67] Sensor *)
Record Sensor := mkSensor {
  sensor_id : SensorId;
  sensor_metric : SensorMetric.t;
  sensor_kind : SensorKind.t
}.
#[export] Instance Sensor_eq_dec : EqDecision Sensor. Proof. solve_decision. Defined.

(** [ersha-core/src/lib.rs:69-74] SensorStatus *)
Record SensorStatus := mkSensorStatus {
  ss_sensor_id : SensorId;
  ss_state : SensorState.t;
  ss_last_reading : option Timestamp
}.
#[export] Instance SensorStatus_eq_dec : EqDecision SensorStatus. Proof. solve_decision. Defined.

(** ** Devices *)

Module DeviceKind.
(** [ersha-core/src/lib.rs:92-97] DeviceKind *)
Inductive t := Sensor.
#[export] Instance eq_dec : EqDecision t. Proof. solve_decision. Defined.
End DeviceKind.
Export (hints) DeviceKind.

Module DeviceState.
(** [ersha-core/src/lib.rs:99-106] DeviceState *)
Inductive t := Active | Suspended.
#[export] Instance eq_dec : EqDecision t. Proof. solve_decision. Defined.
End DeviceState.
Export (hints) DeviceState.

(** [ersha-core/src/lib.rs:43-60] Device *)
Record Device := mkDevice {
  dev_id : DeviceId;
  dev_kind : DeviceKind.t;
  dev_state : DeviceState.t;
  dev_location : H3Cell;
  dev_manufacturer : option string;
  dev_provisioned_at : Timestamp;
  dev_sensors : list Sensor
}.
#[export] Instance Device_eq_dec : EqDecision Device. Proof. solve_decision. Defined.

(** ** Readings *)

(** [ersha-core/src/lib.rs:108-127] SensorReading *)
Record SensorReading := mkSensorReading {
  rd_id : ReadingId;
  rd_device_id : DeviceId;
  rd_dispatcher_id : DispatcherId;
  rd_metric : SensorMetric.t;
  rd_location : H3Cell;
  rd_confidence : Percentage;
  rd_timestamp : Timestamp;
  rd_sensor_id : SensorId
}.
#[export] Instance SensorReading_eq_dec : EqDecision SensorReading. Proof. solve_decision. Defined.

(** ** Device statuses *)

Module DeviceErrorCode.
(** [ersha-core/src/lib.rs:187-194] DeviceErrorCode *)
Inductive t := LowBattery | SensorFault | RadioFault | Unknown.
#[export] Instance eq_dec : EqDecision t. Proof. solve_decision. Defined.
End DeviceErrorCode.
Export (hints) DeviceErrorCode.

(** [ersha-core/src/lib.rs:178-185] DeviceError *)
Record DeviceError := mkDeviceError {
  err_code : DeviceErrorCode.t;
  err_message : option string
}.
#[export] Instance DeviceError_eq_dec : EqDecision DeviceError. Proof. solve_decision. Defined.

(** [ersha-core/src/lib.rs:155-176] DeviceStatus *)
Record DeviceStatus := mkDeviceStatus {
  st_id : StatusId;
  st_device_id : DeviceId;
  st_dispatcher_id : DispatcherId;
  st_battery_percent : Percentage;
  st_uptime_seconds : Z;
  st_signal_rssi : Z;
  st_errors : list DeviceError;
  st_timestamp : Timestamp;
  st_sensor_statuses : list SensorStatus
}.
#[export] Instance DeviceStatus_eq_dec : EqDecision DeviceStatus. Proof. solve_decision. Defined.

(** ** Dispatchers *)

Module DispatcherState.
(** [ersha-core/src/lib.rs:209-216] DispatcherState *)
Inductive t := Active | Suspended.
#[export] Instance eq_dec : EqDecision t. Proof. solve_decision. Defined.
End DispatcherState.
Export (hints) DispatcherState.

(** [ersha-core/src/lib.rs:196-207] Dispatcher *)
Record Dispatcher := mkDispatcher {
  disp_id : DispatcherId;
  disp_location : H3Cell;
  disp_state : DispatcherState.t;
  disp_provisioned_at : Timestamp
}.
#[export] Instance Dispatcher_eq_dec : EqDecision Dispatcher. Proof. solve_decision. Defined.

(** ** Requests and responses of the RPC protocol *)

(** [ersha-core/src/lib.rs:218-230] BatchUploadRequest *)
Record BatchUploadRequest := mkBatchUploadRequest {
  bu_id : BatchId;
  bu_dispatcher_id : DispatcherId;
  bu_readings : list SensorReading;
  bu_statuses : list DeviceStatus;
  bu_timestamp : Timestamp
}.

(** [ersha-core/src/lib.rs:232-239] BatchUploadResponse *)
Record BatchUploadResponse := mkBatchUploadResponse {
  bur_id : BatchId;
  bur_readings_stored : Z;
  bur_readings_rejected : Z;
  bur_statuses_stored : Z;
  bur_statuses_rejected : Z
}.

(** [ersha-core/src/lib.rs:241-247] HelloRequest *)
Record HelloRequest := mkHelloRequest {
  hello_dispatcher_id : DispatcherId;
  hello_location : H3Cell
}.

Module HelloRejectionReason.
(** [ersha-core/src/lib.rs:255-260] HelloRejectionReason *)
Inductive t := UnknownDispatcher | DispatcherSuspended | InternalError.
#[export] Instance eq_dec : EqDecision t. Proof. solve_decision. Defined.
End HelloRejectionReason.
Export (hints) HelloRejectionReason.

Module HelloResponse.
(** [ersha-core/src/lib.rs:249-253] HelloResponse *)
Inductive t :=
  | Accepted (dispatcher_id : DispatcherId)
  | Rejected (reason : HelloRejectionReason.t).
#[export] Instance eq_dec : EqDecision t. Proof. solve_decision. Defined.
End HelloResponse.
Export (hints) HelloResponse.

Module AlertSeverity.
(** [ersha-core/src/lib.rs:268-274] AlertSeverity *)
Inductive t := Critical | Warning | Info.
#[export] Instance eq_dec : EqDecision t. Proof. solve_decision. Defined.
End AlertSeverity.
Export (hints) AlertSeverity.

Module AlertType.
(** [ersha-core/src/lib.rs:276-285] AlertType *)
Inductive t :=
  | CriticalBattery | SensorFailure | DeviceOffline | CommunicationError | SecurityEvent
  | Custom (s : string).
#[export] Instance eq_dec : EqDecision t. Proof. solve_decision. Defined.
End AlertType.
Export (hints) AlertType.

(** [ersha-core/src/lib.rs:287-297] AlertRequest *)
Record AlertRequest := mkAlertRequest {
  alert_id : AlertId;
  alert_dispatcher_id : DispatcherId;
  alert_device_id : option DeviceId;
  alert_severity : AlertSeverity.t;
  alert_type : AlertType.t;
  alert_message : string;
  alert_timestamp : Timestamp
}.

(** [ersha-core/src/lib.rs:299-304] AlertResponse *)
Record AlertResponse := mkAlertResponse { ar_alert_id : AlertId; ar_acknowledged : bool }.

(** [ersha-core/src/lib.rs:306-314] DispatcherStatusRequest *)
Record DispatcherStatusRequest := mkDispatcherStatusRequest {
  dsr_dispatcher_id : DispatcherId;
  dsr_connected_devices : Z;
  dsr_uptime_seconds : Z;
  dsr_pending_uploads : Z;
  dsr_timestamp : Timestamp
}.

(** [ersha-core/src/lib.rs:316-320] DispatcherStatusResponse *)
Record DispatcherStatusResponse := mkDispatcherStatusResponse { dsresp_dispatcher_id : DispatcherId }.

Module DisconnectionReason.
(** [ersha-core/src/lib.rs:322-329] DisconnectionReason *)
Inductive t := Timeout | GracefulClose | Error (s : string) | Unknown.
#[export] Instance eq_dec : EqDecision t. Proof. solve_decision. Defined.
End DisconnectionReason.
Export (hints) DisconnectionReason.

(** [ersha-core/src/lib.rs:331-338] DeviceDisconnectionRequest *)
Record DeviceDisconnectionRequest := mkDeviceDisconnectionRequest {
  ddr_device_id : DeviceId;
  ddr_dispatcher_id : DispatcherId;
  ddr_timestamp : Timestamp;
  ddr_reason : option DisconnectionReason.t
}.

(** [ersha-core/src/lib.rs:340-344] DeviceDisconnectionResponse *)
Record DeviceDisconnectionResponse := mkDeviceDisconnectionResponse { ddresp_device_id : DeviceId }.

#[export] Instance BatchUploadRequest_eq_dec : EqDecision BatchUploadRequest. Proof. solve_decision. Defined.
#[export] Instance BatchUploadResponse_eq_dec : EqDecision BatchUploadResponse. Proof. solve_decision. Defined.
#[export] Instance HelloRequest_eq_dec : EqDecision HelloRequest. Proof. solve_decision. Defined.
#[export] Instance AlertRequest_eq_dec : EqDecision AlertRequest. Proof. solve_decision. Defined.
#[export] Instance AlertResponse_eq_dec : EqDecision AlertResponse. Proof. solve_decision. Defined.
#[export] Instance DispatcherStatusRequest_eq_dec : EqDecision DispatcherStatusRequest. Proof. solve_decision. Defined.
#[export] Instance DispatcherStatusResponse_eq_dec : EqDecision DispatcherStatusResponse. Proof. solve_decision. Defined.
#[export] Instance DeviceDisconnectionRequest_eq_dec : EqDecision DeviceDisconnectionRequest. Proof. solve_decision. Defined.
#[export] Instance DeviceDisconnectionResponse_eq_dec : EqDecision DeviceDisconnectionResponse. Proof. solve_decision. Defined.

(** ** The ranges the Rust types impose *)

Definition metric_wf (m : SensorMetric.t) : Prop :=
  match m with
  | SensorMetric.SoilMoisture v | SensorMetric.Humidity v => u8 (percent v)
  | _ => True
  end.

Definition sensor_wf (s : Sensor) : Prop :=
  u128 (sensor_ulid (sensor_id s)) /\ metric_wf (sensor_metric s).

Definition device_wf (d : Device) : Prop :=
  u128 (device_ulid (dev_id d)) /\ u64 (h3_cell (dev_location d)) /\
  valid_timestamp (dev_provisioned_at d) /\ Forall sensor_wf (dev_sensors d).

Definition dispatcher_wf (d : Dispatcher) : Prop :=
  u128 (dispatcher_ulid (disp_id d)) /\ u64 (h3_cell (disp_location d)) /\
  valid_timestamp (disp_provisioned_at d).

Definition reading_wf (r : SensorReading) : Prop :=
  u128 (reading_ulid (rd_id r)) /\ u128 (device_ulid (rd_device_id r)) /\
  u128 (dispatcher_ulid (rd_dispatcher_id r)) /\ u128 (sensor_ulid (rd_sensor_id r)) /\
  metric_wf (rd_metric r) /\ u64 (h3_cell (rd_location r)) /\ u8 (percent (rd_confidence r)) /\
  valid_timestamp (rd_timestamp r).

Definition sensor_status_wf (s : SensorStatus) : Prop :=
  u128 (sensor_ulid (ss_sensor_id s)) /\
  match ss_last_reading s with Some t => valid_timestamp t | None => True end.

Definition status_wf (s : DeviceStatus) : Prop :=
  u128 (status_ulid (st_id s)) /\ u128 (device_ulid (st_device_id s)) /\
  u128 (dispatcher_ulid (st_dispatcher_id s)) /\ u8 (percent (st_battery_percent s)) /\
  u64 (st_uptime_seconds s) /\ i16 (st_signal_rssi s) /\ valid_timestamp (st_timestamp s) /\
  Forall sensor_status_wf (st_sensor_statuses s).
