(* ===== verification/Samples.v ===== *)
(** * Concrete values the witnesses evaluate the model on *)
From Stdlib Require Import ZArith Strings.String.
From stdpp Require Import base gmap strings list.
From S2P Require Import Prelude Platform Core.
Open Scope Z_scope.

Definition sample_sensor (n : Z) : Sensor :=
  mkSensor (mkSensorId n) (SensorMetric.SoilMoisture (mkPercentage 40)) SensorKind.SoilMoisture.

(** Device [n], provisioned [n] seconds after the epoch. *)
Definition sample_device (n : Z) : Device :=
  mkDevice (mkDeviceId n) DeviceKind.Sensor DeviceState.Active (mkH3Cell 7) (Some "Acme"%string)
    (mkTimestamp (n * 1000000000)) [sample_sensor (100 + n)].

Definition sample_dispatcher (n : Z) : Dispatcher :=
  mkDispatcher (mkDispatcherId n) (mkH3Cell 7) DispatcherState.Active (mkTimestamp (n * 1000000000)).

(** Reading [n] of device [dev]. *)
Definition sample_reading (n dev : Z) : SensorReading :=
  mkSensorReading (mkReadingId n) (mkDeviceId dev) (mkDispatcherId 1)
    (SensorMetric.Humidity (mkPercentage 55)) (mkH3Cell 7) (mkPercentage 100)
    (mkTimestamp (n * 1000000000)) (mkSensorId (100 + dev)).

(** Status [n] of device [dev] with the given battery level. *)
Definition sample_status (n dev battery : Z) : DeviceStatus :=
  mkDeviceStatus (mkStatusId n) (mkDeviceId dev) (mkDispatcherId 1) (mkPercentage battery) 3600 (-65)
    [] (mkTimestamp (n * 1000000000))
    [mkSensorStatus (mkSensorId (100 + dev)) SensorState.Active (Some (mkTimestamp 0))].
