(* ===== verification/Tls.v ===== *)
(** * TLS configurations: ersha-tls/src/lib.rs

    The file system, the PEM reader (crate rustls_pemfile) and rustls are the class [TlsCrates]; what
    the two functions do with them, in which order and with which errors, is translated.  A
    configuration is what was put into it. *)
From Stdlib Require Import ZArith Strings.String.
From stdpp Require Import base strings list.
From S2P Require Import Prelude Platform.

(** [ersha-tls/src/lib.rs:29-35] TlsConfig *)
Record TlsConfig := mkTlsConfig {
  tls_cert : string;
  tls_key : string;
  tls_root_ca : string;
  tls_domain : string
}.

(** [ersha-tls/src/lib.rs:38-45] TlsConfig::server_default *)
Definition server_default : TlsConfig :=
  mkTlsConfig "./keys/server.crt" "./keys/server.key" "./keys/root_ca.crt" "localhost".

(** [ersha-tls/src/lib.rs:47-54] TlsConfig::client_default *)
Definition client_default : TlsConfig :=
  mkTlsConfig "./keys/client.crt" "./keys/client.key" "./keys/root_ca.crt" "localhost".

(** [ersha-tls/src/lib.rs:57-66] TlsConfig::default *)
Definition TlsConfig_default : TlsConfig :=
  mkTlsConfig "./keys/cert.pem" "./keys/private.key" "./keys/rootCA.pem" "localhost".

Module TlsError.
(** [ersha-tls/src/lib.rs:11-27] TlsError, over the errors of the file system and of rustls *)
Inductive t (IoError RustlsError : Type) :=
  | CertFileIo (e : IoError)
  | CertPem (e : IoError)
  | KeyPem (e : IoError)
  | NoPrivateKey (path : string)
  | RootCertError (e : RustlsError)
  | ServerConfigError (e : RustlsError)
  | ClientConfigError (e : RustlsError).
Arguments CertFileIo {_ _} e.
Arguments CertPem {_ _} e.
Arguments KeyPem {_ _} e.
Arguments NoPrivateKey {_ _} path.
Arguments RootCertError {_ _} e.
Arguments ServerConfigError {_ _} e.
Arguments ClientConfigError {_ _} e.
End TlsError.

(** What ersha-tls calls: [File::open] with what is read from the file; [certs], an iterator of
    results; [private_key], the first key if any; [RootCertStore::add]; [VerifierBuilderError] of a
    [WebPkiClientVerifier] of roots, with its text as a [rustls::Error]; and the check of a chain and
    its key that both builders make. *)
Class TlsCrates (File Cert Key IoError RustlsError : Type) := {
  open_file : string -> result File IoError;
  pem_certs : File -> list (result Cert IoError);
  pem_private_key : File -> result (option Key) IoError;
  root_error : Cert -> option RustlsError;
  verifier_error : list Cert -> option RustlsError;
  chain_error : list Cert -> Key -> option RustlsError
}.

(** A server that accepts a client only with a certificate under one of [client_roots]. *)
Record ServerConfig (Cert Key : Type) :=
  mkServerConfig { client_roots : list Cert; server_chain : list Cert; server_key : Key }.
(** A client that accepts a server only with a certificate under one of [server_roots], and presents
    its own. *)
Record ClientConfig (Cert Key : Type) :=
  mkClientConfig { server_roots : list Cert; client_chain : list Cert; client_key : Key }.
Arguments mkServerConfig {Cert Key}.
Arguments client_roots {Cert Key}.
Arguments server_chain {Cert Key}.
Arguments server_key {Cert Key}.
Arguments mkClientConfig {Cert Key}.
Arguments server_roots {Cert Key}.
Arguments client_chain {Cert Key}.
Arguments client_key {Cert Key}.

Section tls.
Context {File Cert Key IoError RustlsError : Type} `{!TlsCrates File Cert Key IoError RustlsError}.
Local Abbreviation Error := (TlsError.t IoError RustlsError).

(** [.map_err(f)?] on an outcome that carries no value. *)
Definition check {E} (o : option RustlsError) (f : RustlsError -> E) : result unit E :=
  match o with None => Ok tt | Some e => Err (f e) end.

(** [ersha-tls/src/lib.rs:73-77] server_config: the loop over the certificates of the root file; the
    loop of client_config is the same *)
Fixpoint add_roots (certs : list (result Cert IoError)) (root_store : list Cert) : result (list Cert) Error :=
  match certs with
  | [] => Ok root_store
  | cert :: certs =>
      let? cert := map_err TlsError.CertPem cert in
      let? _ := check (root_error cert) TlsError.RootCertError in
      add_roots certs (root_store ++ [cert])
  end.

(** [ersha-tls/src/lib.rs:69-77] server_config: the roots, as in client_config *)
Definition load_roots (config : TlsConfig) : result (list Cert) Error :=
  let? ca_file := map_err TlsError.CertFileIo (open_file (tls_root_ca config)) in
  add_roots (pem_certs ca_file) [].

(** [ersha-tls/src/lib.rs:84-94] server_config: the chain and its key, as in client_config *)
Definition load_identity (config : TlsConfig) : result (list Cert * Key) Error :=
  let? cert_file := map_err TlsError.CertFileIo (open_file (tls_cert config)) in
  let? cert_chain := map_err TlsError.CertPem (collect (pem_certs cert_file)) in
  let? key_file := map_err TlsError.CertFileIo (open_file (tls_key config)) in
  let? key := map_err TlsError.KeyPem (pem_private_key key_file) in
  let? key := ok_or key (TlsError.NoPrivateKey (tls_key config)) in
  Ok (cert_chain, key).

(** [ersha-tls/src/lib.rs:68-102] server_config *)
Definition server_config (config : TlsConfig) : result (ServerConfig Cert Key) Error :=
  let? root_store := load_roots config in
  let? _ := check (verifier_error root_store) TlsError.ServerConfigError in
  let? (cert_chain, key) := load_identity config in
  let? _ := check (chain_error cert_chain key) TlsError.ServerConfigError in
  Ok (mkServerConfig root_store cert_chain key).

(** [ersha-tls/src/lib.rs:106-137] client_config *)
Definition client_config (config : TlsConfig) : result (ClientConfig Cert Key) Error :=
  let? root_store := load_roots config in
  let? (cert_chain, key) := load_identity config in
  let? _ := check (chain_error cert_chain key) TlsError.ClientConfigError in
  Ok (mkClientConfig root_store cert_chain key).
End tls.

Section tls_properties.
Context {File Cert Key IoError RustlsError : Type} `{!TlsCrates File Cert Key IoError RustlsError}.

(** The files of a configuration hold these certificates and this key, and rustls takes them. *)
Definition files_hold (config : TlsConfig) (roots chain : list Cert) (key : Key) : Prop :=
  (exists f, open_file (tls_root_ca config) = Ok f /\ pem_certs f = Ok <$> roots) /\
  Forall (fun cert => root_error cert = None) roots /\
  (exists f, open_file (tls_cert config) = Ok f /\ pem_certs f = Ok <$> chain) /\
  (exists f, open_file (tls_key config) = Ok f /\ pem_private_key f = Ok (Some key)) /\
  chain_error chain key = None.

Lemma Ok_list_inj {A E} (l k : list A) : Ok (E := E) <$> l = Ok <$> k -> l = k.
Proof.
  revert k. induction l as [|a l IH]; intros [|b k]; try done. csimpl. intros [= -> Hl]. f_equal. by apply IH.
Qed.

Lemma collect_Ok_iff {A E} (rs : list (result A E)) l : collect rs = Ok l <-> rs = Ok <$> l.
Proof.
  revert l. induction rs as [|[a|e] rs IH]; intros l; cbn.
  - split; [by intros [= <-]|by destruct l].
  - destruct (collect rs) as [k|e]; cbn.
    + specialize (IH k). destruct IH as [IH _]. rewrite IH by done. split; [by intros [= <-]|].
      destruct l as [|b l]; [done|]. intros [= -> Hl]. f_equal. f_equal.
      by apply Ok_list_inj in Hl.
    + split; [done|]. destruct l as [|b l]; [done|]. intros [= -> Hl]. by apply IH in Hl.
  - split; [done|]. by destruct l.
Qed.

Lemma add_roots_Ok (certs : list (result Cert IoError)) store roots :
  add_roots certs store = Ok roots <->
  exists l, certs = Ok <$> l /\ roots = store ++ l /\ Forall (fun cert => root_error cert = None) l.
Proof.
  revert store. induction certs as [|[cert|e] certs IH]; intros store; cbn.
  - split; [intros [= <-]; exists []; by rewrite app_nil_r|]. intros ([|c l] & Hl & -> & _); [|done].
    by rewrite app_nil_r.
  - unfold check. destruct (root_error cert) as [e|] eqn:He; cbn.
    + split; [done|]. intros ([|c l] & Hl & _ & Hall); [done|]. injection Hl as -> _.
      apply Forall_cons in Hall as [Hc _]. congruence.
    + rewrite IH. split.
      * intros (l & -> & -> & Hall). exists (cert :: l). rewrite <- (assoc_L (++)). by repeat constructor.
      * intros ([|c l] & Hl & -> & Hall); [done|]. injection Hl as -> ->. apply Forall_cons in Hall as [_ Hall].
        exists l. by rewrite <- (assoc_L (++)).
  - split; [done|]. by intros ([|c l] & Hl & _).
Qed.

Lemma load_roots_Ok config roots : load_roots config = Ok roots <->
  (exists f, open_file (tls_root_ca config) = Ok f /\ pem_certs f = Ok <$> roots) /\
  Forall (fun cert => root_error cert = None) roots.
Proof.
  unfold load_roots. destruct (open_file (tls_root_ca config)) as [f|e]; cbn.
  - rewrite add_roots_Ok. split.
    + intros (l & Hl & -> & Hall). cbn. split; [by exists f|done].
    + intros [(f' & [= <-] & Hl) Hall]. by exists roots.
  - split; [done|]. by intros [(f & ? & _) _].
Qed.

Lemma load_identity_Ok config chain key : load_identity config = Ok (chain, key) <->
  (exists f, open_file (tls_cert config) = Ok f /\ pem_certs f = Ok <$> chain) /\
  (exists f, open_file (tls_key config) = Ok f /\ pem_private_key f = Ok (Some key)).
Proof.
  unfold load_identity. destruct (open_file (tls_cert config)) as [f|e]; cbn.
  2:{ split; [done|]. by intros [(f & ? & _) _]. }
  destruct (collect (pem_certs f)) as [chain'|e] eqn:Hc; cbn.
  2:{ split; [done|]. intros [(f' & [= <-] & Hl) _]. apply collect_Ok_iff in Hl. congruence. }
  destruct (open_file (tls_key config)) as [fk|e]; cbn.
  2:{ split; [done|]. by intros [_ (f' & ? & _)]. }
  split.
  - destruct (pem_private_key fk) as [[k|]|e] eqn:Hk; cbn; intros [= <- <-].
    apply collect_Ok_iff in Hc. split; [by exists f|by exists fk].
  - intros [(f' & [= <-] & Hl) (fk' & [= <-] & ->)]. cbn. apply collect_Ok_iff in Hl. congruence.
Qed.

(** C37: A server or a client configuration is built exactly when the three files open, every item of the
    root and of the certificate file is a certificate, every root is usable, the key file has a key,
    and rustls takes chain and key; a server needs in addition roots that make a verifier. It then
    has all the certificates of its files, in order: a server authenticates its clients against the
    whole root file and nothing else. *)
Theorem tls_configs_hold_files config :
  (forall s, server_config config = Ok s <->
     files_hold config (client_roots s) (server_chain s) (server_key s) /\ verifier_error (client_roots s) = None) /\
  (forall c, client_config config = Ok c <->
     files_hold config (server_roots c) (client_chain c) (client_key c)).
Proof.
  unfold files_hold, server_config, client_config, check. split.
  - intros s. split.
    + destruct (load_roots config) as [roots|e] eqn:Hr; cbn; [|done].
      destruct (verifier_error roots) eqn:Hv; cbn; [done|].
      destruct (load_identity config) as [[chain key]|e] eqn:Hi; cbn; [|done].
      destruct (chain_error chain key) eqn:He; cbn; [done|]. intros [= <-]. cbn.
      apply load_roots_Ok in Hr as [Hr Hall]. apply load_identity_Ok in Hi as [Hc Hk]. by split_and!.
    + intros [(Hr & Hall & Hc & Hk & He) Hv]. destruct s as [roots chain key]. cbn in *.
      rewrite (proj2 (load_roots_Ok config roots) (conj Hr Hall)). cbn. rewrite Hv. cbn.
      rewrite (proj2 (load_identity_Ok config chain key) (conj Hc Hk)). cbn. by rewrite He.
  - intros c. split.
    + destruct (load_roots config) as [roots|e] eqn:Hr; cbn; [|done].
      destruct (load_identity config) as [[chain key]|e] eqn:Hi; cbn; [|done].
      destruct (chain_error chain key) eqn:He; cbn; [done|]. intros [= <-]. cbn.
      apply load_roots_Ok in Hr as [Hr Hall]. apply load_identity_Ok in Hi as [Hc Hk]. by split_and!.
    + intros (Hr & Hall & Hc & Hk & He). destruct c as [roots chain key]. cbn in *.
      rewrite (proj2 (load_roots_Ok config roots) (conj Hr Hall)). cbn.
      rewrite (proj2 (load_identity_Ok config chain key) (conj Hc Hk)). cbn. by rewrite He.
Qed.
End tls_properties.

(** ** Witness *)

Module TlsWitness.
(** A file is its certificates, a number each and [None] where the text is none, and its key; certificate
    0 is no root, and a key fits the chain that begins with its number. *)
#[local] Instance crates : TlsCrates (list (option nat) * option nat) nat nat string string := {|
  open_file path :=
    if String.eqb path "./keys/root_ca.crt" then Ok ([Some 1; Some 2], None)
    else if String.eqb path "./keys/server.crt" then Ok ([Some 7; Some 1], None)
    else if String.eqb path "./keys/server.key" then Ok ([], Some 7)
    else Err "not found"%string;
  pem_certs f := (fun c : option nat => match c with Some n => Ok n | None => Err "not a certificate"%string end) <$> fst f;
  pem_private_key f := Ok (snd f);
  root_error c := if Nat.eqb c 0 then Some "bad root"%string else None;
  verifier_error roots := match roots with [] => Some "no roots"%string | _ => None end;
  chain_error chain key := if decide (head chain = Some key) then None else Some "another key"%string
|}%nat.

(** The default server configuration holds both roots of its file, and nothing can be built without the
    client's files. *)
Lemma tls_configs_hold_files_witness :
  server_config server_default = Ok (mkServerConfig [1; 2] [7; 1] 7)%nat /\
  (forall c, client_config client_default <> Ok c).
Proof.
  split.
  - apply (proj1 (tls_configs_hold_files server_default)). split; [|reflexivity].
    split; [exists ([Some 1; Some 2], None)%nat; split; reflexivity|].
    split; [repeat constructor|].
    split; [exists ([Some 7; Some 1], None)%nat; split; reflexivity|].
    split; [exists ([], Some 7)%nat; split; reflexivity|reflexivity].
  - intros c Hc. apply (proj2 (tls_configs_hold_files client_default)) in Hc as (_ & _ & (f & Hf & _) & _).
    discriminate Hf.
Defined.
End TlsWitness.
