(* ===== verification/Filter.v ===== *)
(** * Queries of the registries: ersha-prime/src/registry/filter.rs

    The filter structs with one optional field per criterion, their builders, the sort keys and the
    two pagination modes.  Sort keys and pagination live in Modules of their Rust names; the
    builders are Modules whose operations are the builder methods. *)
From Stdlib Require Import ZArith.
From stdpp Require Import base gmap strings list.
From S2P Require Import Prelude Platform Core.
Open Scope Z_scope.

(** ** Sort keys, sort order, pagination *)

Module SensorMetricType.
(** [ersha-prime/src/registry/filter.rs:10-18] SensorMetricType *)
Inductive t := SoilMoisture | SoilTemp | AirTemp | Humidity | Rainfall.
#[export] Instance eq_dec : EqDecision t. Proof. solve_decision. Defined.
End SensorMetricType.
Export (hints) SensorMetricType.

Module DeviceSortBy.
(** [ersha-prime/src/registry/filter.rs:20-25] DeviceSortBy *)
Inductive t := State | Manufacturer | ProvisionAt | SensorCount.
End DeviceSortBy.

Module DispatcherSortBy.
(** [ersha-prime/src/registry/filter.rs:27-29] DispatcherSortBy *)
Inductive t := ProvisionAt.
End DispatcherSortBy.

Module ReadingSortBy.
(** [ersha-prime/src/registry/filter.rs:179-183] ReadingSortBy *)
Inductive t := Timestamp | Confidence | DeviceId.
End ReadingSortBy.

Module DeviceStatusSortBy.
(** [ersha-prime/src/registry/filter.rs:282-286] DeviceStatusSortBy *)
Inductive t := Timestamp | BatteryPercent | DeviceId.
End DeviceStatusSortBy.

Module SortOrder.
(** [ersha-prime/src/registry/filter.rs:31-34] SortOrder *)
Inductive t := Asc | Desc.
End SortOrder.

Module Pagination.
(** [ersha-prime/src/registry/filter.rs:36-39] Pagination *)
Inductive t :=
  | Offset (offset limit : Z)
  | Cursor (after : option Ulid) (limit : Z).
End Pagination.

(** [ersha-prime/src/registry/filter.rs:41-46] QueryOptions *)
Record QueryOptions (F S : Type) := mkQueryOptions {
  filter_opt : F;
  sort_by_opt : S;
  sort_order_opt : SortOrder.t;
  pagination_opt : Pagination.t
}.
Arguments mkQueryOptions {F S}.
Arguments filter_opt {F S}.
Arguments sort_by_opt {F S}.
Arguments sort_order_opt {F S}.
Arguments pagination_opt {F S}.

(** [RangeInclusive]: [start..=end]. *)
Record RangeInclusive := mkRange { range_start : Z; range_end : Z }.
Definition range_contains (r : RangeInclusive) (x : Z) : bool :=
  Z.leb (range_start r) x && Z.leb x (range_end r).

Lemma range_contains_spec r x : range_contains r x = true <-> range_start r <= x <= range_end r.
Proof.
  unfold range_contains.
  destruct (Z.leb_spec (range_start r) x), (Z.leb_spec x (range_end r));
    simpl; split; intros; try done; lia.
Qed.

(** ** Filters *)

(** [ersha-prime/src/registry/filter.rs:48-58] DeviceFilter *)
Record DeviceFilter := mkDeviceFilter {
  df_ids : option (list DeviceId);
  df_states : option (list DeviceState.t);
  df_kinds : option (list DeviceKind.t);
  df_locations : option (list H3Cell);
  df_provisioned_after : option Timestamp;
  df_provisioned_before : option Timestamp;
  df_sensor_count : option RangeInclusive;
  df_manufacturer_pattern : option string
}.

(** [ersha-prime/src/registry/filter.rs:136-140] DispatcherFilter *)
Record DispatcherFilter := mkDispatcherFilter {
  dsf_states : option (list DispatcherState.t);
  dsf_locations : option (list H3Cell)
}.

(** [ersha-prime/src/registry/filter.rs:185-196] ReadingFilter *)
Record ReadingFilter := mkReadingFilter {
  rf_ids : option (list ReadingId);
  rf_device_ids : option (list DeviceId);
  rf_sensor_ids : option (list SensorId);
  rf_dispatcher_ids : option (list DispatcherId);
  rf_metric_types : option (list SensorMetricType.t);
  rf_locations : option (list H3Cell);
  rf_timestamp_after : option Timestamp;
  rf_timestamp_before : option Timestamp;
  rf_confidence_range : option RangeInclusive
}.

(** [ersha-prime/src/registry/filter.rs:288-298] DeviceStatusFilter *)
Record DeviceStatusFilter := mkDeviceStatusFilter {
  sf_ids : option (list StatusId);
  sf_device_ids : option (list DeviceId);
  sf_dispatcher_ids : option (list DispatcherId);
  sf_timestamp_after : option Timestamp;
  sf_timestamp_before : option Timestamp;
  sf_battery_range : option RangeInclusive;
  sf_has_errors : option bool;
  sf_error_codes : option (list DeviceErrorCode.t)
}.

Definition DeviceFilter_default : DeviceFilter :=
  mkDeviceFilter None None None None None None None None.
Definition DispatcherFilter_default : DispatcherFilter := mkDispatcherFilter None None.
Definition ReadingFilter_default : ReadingFilter :=
  mkReadingFilter None None None None None None None None None.
Definition DeviceStatusFilter_default : DeviceStatusFilter :=
  mkDeviceStatusFilter None None None None None None None None.

(** ** Builders: each method sets one field and returns the builder *)

Module DeviceFilterBuilder.
(** [ersha-prime/src/registry/filter.rs:66-69] DeviceFilterBuilder *)
Record t := mk { filter : DeviceFilter }.

(** [ersha-prime/src/registry/filter.rs:72-74] DeviceFilterBuilder::new *)
Definition new : t := mk DeviceFilter_default.

(** [ersha-prime/src/registry/filter.rs:60-64] DeviceFilter::builder *)
Definition builder : t := new.

(** [ersha-prime/src/registry/filter.rs:76-82] DeviceFilterBuilder::ids *)
Definition ids (v : list DeviceId) (self : t) : t :=
  mk (mkDeviceFilter (Some v) (df_states (filter self)) (df_kinds (filter self))
    (df_locations (filter self)) (df_provisioned_after (filter self))
    (df_provisioned_before (filter self)) (df_sensor_count (filter self))
    (df_manufacturer_pattern (filter self))).

(** [ersha-prime/src/registry/filter.rs:84-90] DeviceFilterBuilder::states *)
Definition states (v : list DeviceState.t) (self : t) : t :=
  mk (mkDeviceFilter (df_ids (filter self)) (Some v) (df_kinds (filter self))
    (df_locations (filter self)) (df_provisioned_after (filter self))
    (df_provisioned_before (filter self)) (df_sensor_count (filter self))
    (df_manufacturer_pattern (filter self))).

(** [ersha-prime/src/registry/filter.rs:92-98] DeviceFilterBuilder::kinds *)
Definition kinds (v : list DeviceKind.t) (self : t) : t :=
  mk (mkDeviceFilter (df_ids (filter self)) (df_states (filter self)) (Some v)
    (df_locations (filter self)) (df_provisioned_after (filter self))
    (df_provisioned_before (filter self)) (df_sensor_count (filter self))
    (df_manufacturer_pattern (filter self))).

(** [ersha-prime/src/registry/filter.rs:100-106] DeviceFilterBuilder::locations *)
Definition locations (v : list H3Cell) (self : t) : t :=
  mk (mkDeviceFilter (df_ids (filter self)) (df_states (filter self)) (df_kinds (filter
    self)) (Some v) (df_provisioned_after (filter self)) (df_provisioned_before (filter
    self)) (df_sensor_count (filter self)) (df_manufacturer_pattern (filter self))).

(** [ersha-prime/src/registry/filter.rs:108-111] DeviceFilterBuilder::provisioned_after *)
Definition provisioned_after (ts : Timestamp) (self : t) : t :=
  mk (mkDeviceFilter (df_ids (filter self)) (df_states (filter self)) (df_kinds (filter
    self)) (df_locations (filter self)) (Some ts) (df_provisioned_before (filter self))
    (df_sensor_count (filter self)) (df_manufacturer_pattern (filter self))).

(** [ersha-prime/src/registry/filter.rs:113-116] DeviceFilterBuilder::provisioned_before *)
Definition provisioned_before (ts : Timestamp) (self : t) : t :=
  mk (mkDeviceFilter (df_ids (filter self)) (df_states (filter self)) (df_kinds (filter
    self)) (df_locations (filter self)) (df_provisioned_after (filter self)) (Some ts)
    (df_sensor_count (filter self)) (df_manufacturer_pattern (filter self))).

(** [ersha-prime/src/registry/filter.rs:118-121] DeviceFilterBuilder::sensor_count *)
Definition sensor_count (range : RangeInclusive) (self : t) : t :=
  mk (mkDeviceFilter (df_ids (filter self)) (df_states (filter self)) (df_kinds (filter
    self)) (df_locations (filter self)) (df_provisioned_after (filter self))
    (df_provisioned_before (filter self)) (Some range) (df_manufacturer_pattern (filter
    self))).

(** [ersha-prime/src/registry/filter.rs:123-129] DeviceFilterBuilder::manufacturer_pattern *)
Definition manufacturer_pattern (pattern : string) (self : t) : t :=
  mk (mkDeviceFilter (df_ids (filter self)) (df_states (filter self)) (df_kinds (filter
    self)) (df_locations (filter self)) (df_provisioned_after (filter self))
    (df_provisioned_before (filter self)) (df_sensor_count (filter self)) (Some pattern)).

(** [ersha-prime/src/registry/filter.rs:131-133] DeviceFilterBuilder::build *)
Definition build (self : t) : DeviceFilter := filter self.
End DeviceFilterBuilder.

Module DispatcherFilterBuilder.
(** [ersha-prime/src/registry/filter.rs:148-151] DispatcherFilterBuilder *)
Record t := mk { filter : DispatcherFilter }.

(** [ersha-prime/src/registry/filter.rs:154-156] DispatcherFilterBuilder::new *)
Definition new : t := mk DispatcherFilter_default.

(** [ersha-prime/src/registry/filter.rs:142-146] DispatcherFilter::builder *)
Definition builder : t := new.

(** [ersha-prime/src/registry/filter.rs:158-164] DispatcherFilterBuilder::states *)
Definition states (v : list DispatcherState.t) (self : t) : t :=
  mk (mkDispatcherFilter (Some v) (dsf_locations (filter self))).

(** [ersha-prime/src/registry/filter.rs:166-172] DispatcherFilterBuilder::locations *)
Definition locations (v : list H3Cell) (self : t) : t :=
  mk (mkDispatcherFilter (dsf_states (filter self)) (Some v)).

(** [ersha-prime/src/registry/filter.rs:174-176] DispatcherFilterBuilder::build *)
Definition build (self : t) : DispatcherFilter := filter self.
End DispatcherFilterBuilder.

Module ReadingFilterBuilder.
(** [ersha-prime/src/registry/filter.rs:204-207] ReadingFilterBuilder *)
Record t := mk { filter : ReadingFilter }.

(** [ersha-prime/src/registry/filter.rs:210-212] ReadingFilterBuilder::new *)
Definition new : t := mk ReadingFilter_default.

(** [ersha-prime/src/registry/filter.rs:198-202] ReadingFilter::builder *)
Definition builder : t := new.

(** [ersha-prime/src/registry/filter.rs:214-220] ReadingFilterBuilder::ids *)
Definition ids (v : list ReadingId) (self : t) : t :=
  mk (mkReadingFilter (Some v) (rf_device_ids (filter self)) (rf_sensor_ids (filter self))
    (rf_dispatcher_ids (filter self)) (rf_metric_types (filter self)) (rf_locations
    (filter self)) (rf_timestamp_after (filter self)) (rf_timestamp_before (filter self))
    (rf_confidence_range (filter self))).

(** [ersha-prime/src/registry/filter.rs:222-228] ReadingFilterBuilder::device_ids *)
Definition device_ids (v : list DeviceId) (self : t) : t :=
  mk (mkReadingFilter (rf_ids (filter self)) (Some v) (rf_sensor_ids (filter self))
    (rf_dispatcher_ids (filter self)) (rf_metric_types (filter self)) (rf_locations
    (filter self)) (rf_timestamp_after (filter self)) (rf_timestamp_before (filter self))
    (rf_confidence_range (filter self))).

(** [ersha-prime/src/registry/filter.rs:230-236] ReadingFilterBuilder::sensor_ids *)
Definition sensor_ids (v : list SensorId) (self : t) : t :=
  mk (mkReadingFilter (rf_ids (filter self)) (rf_device_ids (filter self)) (Some v)
    (rf_dispatcher_ids (filter self)) (rf_metric_types (filter self)) (rf_locations
    (filter self)) (rf_timestamp_after (filter self)) (rf_timestamp_before (filter self))
    (rf_confidence_range (filter self))).

(** [ersha-prime/src/registry/filter.rs:238-244] ReadingFilterBuilder::dispatcher_ids *)
Definition dispatcher_ids (v : list DispatcherId) (self : t) : t :=
  mk (mkReadingFilter (rf_ids (filter self)) (rf_device_ids (filter self)) (rf_sensor_ids
    (filter self)) (Some v) (rf_metric_types (filter self)) (rf_locations (filter self))
    (rf_timestamp_after (filter self)) (rf_timestamp_before (filter self))
    (rf_confidence_range (filter self))).

(** [ersha-prime/src/registry/filter.rs:246-252] ReadingFilterBuilder::metric_types *)
Definition metric_types (v : list SensorMetricType.t) (self : t) : t :=
  mk (mkReadingFilter (rf_ids (filter self)) (rf_device_ids (filter self)) (rf_sensor_ids
    (filter self)) (rf_dispatcher_ids (filter self)) (Some v) (rf_locations (filter self))
    (rf_timestamp_after (filter self)) (rf_timestamp_before (filter self))
    (rf_confidence_range (filter self))).

(** [ersha-prime/src/registry/filter.rs:254-260] ReadingFilterBuilder::locations *)
Definition locations (v : list H3Cell) (self : t) : t :=
  mk (mkReadingFilter (rf_ids (filter self)) (rf_device_ids (filter self)) (rf_sensor_ids
    (filter self)) (rf_dispatcher_ids (filter self)) (rf_metric_types (filter self)) (Some
    v) (rf_timestamp_after (filter self)) (rf_timestamp_before (filter self))
    (rf_confidence_range (filter self))).

(** [ersha-prime/src/registry/filter.rs:262-265] ReadingFilterBuilder::timestamp_after *)
Definition timestamp_after (ts : Timestamp) (self : t) : t :=
  mk (mkReadingFilter (rf_ids (filter self)) (rf_device_ids (filter self)) (rf_sensor_ids
    (filter self)) (rf_dispatcher_ids (filter self)) (rf_metric_types (filter self))
    (rf_locations (filter self)) (Some ts) (rf_timestamp_before (filter self))
    (rf_confidence_range (filter self))).

(** [ersha-prime/src/registry/filter.rs:267-270] ReadingFilterBuilder::timestamp_before *)
Definition timestamp_before (ts : Timestamp) (self : t) : t :=
  mk (mkReadingFilter (rf_ids (filter self)) (rf_device_ids (filter self)) (rf_sensor_ids
    (filter self)) (rf_dispatcher_ids (filter self)) (rf_metric_types (filter self))
    (rf_locations (filter self)) (rf_timestamp_after (filter self)) (Some ts)
    (rf_confidence_range (filter self))).

(** [ersha-prime/src/registry/filter.rs:272-275] ReadingFilterBuilder::confidence_range *)
Definition confidence_range (range : RangeInclusive) (self : t) : t :=
  mk (mkReadingFilter (rf_ids (filter self)) (rf_device_ids (filter self)) (rf_sensor_ids
    (filter self)) (rf_dispatcher_ids (filter self)) (rf_metric_types (filter self))
    (rf_locations (filter self)) (rf_timestamp_after (filter self)) (rf_timestamp_before
    (filter self)) (Some range)).

(** [ersha-prime/src/registry/filter.rs:277-279] ReadingFilterBuilder::build *)
Definition build (self : t) : ReadingFilter := filter self.
End ReadingFilterBuilder.

Module DeviceStatusFilterBuilder.
(** [ersha-prime/src/registry/filter.rs:306-309] DeviceStatusFilterBuilder *)
Record t := mk { filter : DeviceStatusFilter }.

(** [ersha-prime/src/registry/filter.rs:312-314] DeviceStatusFilterBuilder::new *)
Definition new : t := mk DeviceStatusFilter_default.

(** [ersha-prime/src/registry/filter.rs:300-304] DeviceStatusFilter::builder *)
Definition builder : t := new.

(** [ersha-prime/src/registry/filter.rs:316-322] DeviceStatusFilterBuilder::ids *)
Definition ids (v : list StatusId) (self : t) : t :=
  mk (mkDeviceStatusFilter (Some v) (sf_device_ids (filter self)) (sf_dispatcher_ids
    (filter self)) (sf_timestamp_after (filter self)) (sf_timestamp_before (filter self))
    (sf_battery_range (filter self)) (sf_has_errors (filter self)) (sf_error_codes (filter
    self))).

(** [ersha-prime/src/registry/filter.rs:324-330] DeviceStatusFilterBuilder::device_ids *)
Definition device_ids (v : list DeviceId) (self : t) : t :=
  mk (mkDeviceStatusFilter (sf_ids (filter self)) (Some v) (sf_dispatcher_ids (filter
    self)) (sf_timestamp_after (filter self)) (sf_timestamp_before (filter self))
    (sf_battery_range (filter self)) (sf_has_errors (filter self)) (sf_error_codes (filter
    self))).

(** [ersha-prime/src/registry/filter.rs:332-338] DeviceStatusFilterBuilder::dispatcher_ids *)
Definition dispatcher_ids (v : list DispatcherId) (self : t) : t :=
  mk (mkDeviceStatusFilter (sf_ids (filter self)) (sf_device_ids (filter self)) (Some v)
    (sf_timestamp_after (filter self)) (sf_timestamp_before (filter self))
    (sf_battery_range (filter self)) (sf_has_errors (filter self)) (sf_error_codes (filter
    self))).

(** [ersha-prime/src/registry/filter.rs:340-343] DeviceStatusFilterBuilder::timestamp_after *)
Definition timestamp_after (ts : Timestamp) (self : t) : t :=
  mk (mkDeviceStatusFilter (sf_ids (filter self)) (sf_device_ids (filter self))
    (sf_dispatcher_ids (filter self)) (Some ts) (sf_timestamp_before (filter self))
    (sf_battery_range (filter self)) (sf_has_errors (filter self)) (sf_error_codes (filter
    self))).

(** [ersha-prime/src/registry/filter.rs:345-348] DeviceStatusFilterBuilder::timestamp_before *)
Definition timestamp_before (ts : Timestamp) (self : t) : t :=
  mk (mkDeviceStatusFilter (sf_ids (filter self)) (sf_device_ids (filter self))
    (sf_dispatcher_ids (filter self)) (sf_timestamp_after (filter self)) (Some ts)
    (sf_battery_range (filter self)) (sf_has_errors (filter self)) (sf_error_codes (filter
    self))).

(** [ersha-prime/src/registry/filter.rs:350-353] DeviceStatusFilterBuilder::battery_range *)
Definition battery_range (range : RangeInclusive) (self : t) : t :=
  mk (mkDeviceStatusFilter (sf_ids (filter self)) (sf_device_ids (filter self))
    (sf_dispatcher_ids (filter self)) (sf_timestamp_after (filter self))
    (sf_timestamp_before (filter self)) (Some range) (sf_has_errors (filter self))
    (sf_error_codes (filter self))).

(** [ersha-prime/src/registry/filter.rs:355-358] DeviceStatusFilterBuilder::has_errors *)
Definition has_errors (b : bool) (self : t) : t :=
  mk (mkDeviceStatusFilter (sf_ids (filter self)) (sf_device_ids (filter self))
    (sf_dispatcher_ids (filter self)) (sf_timestamp_after (filter self))
    (sf_timestamp_before (filter self)) (sf_battery_range (filter self)) (Some b)
    (sf_error_codes (filter self))).

(** [ersha-prime/src/registry/filter.rs:360-366] DeviceStatusFilterBuilder::error_codes *)
Definition error_codes (v : list DeviceErrorCode.t) (self : t) : t :=
  mk (mkDeviceStatusFilter (sf_ids (filter self)) (sf_device_ids (filter self))
    (sf_dispatcher_ids (filter self)) (sf_timestamp_after (filter self))
    (sf_timestamp_before (filter self)) (sf_battery_range (filter self)) (sf_has_errors
    (filter self)) (Some v)).

(** [ersha-prime/src/registry/filter.rs:368-370] DeviceStatusFilterBuilder::build *)
Definition build (self : t) : DeviceStatusFilter := filter self.
End DeviceStatusFilterBuilder.

