(* ===== verification/Registry.v ===== *)
(** * The registry traits: ersha-prime/src/registry/mod.rs

    Each trait is a class over a state [R] and an error type [E]: an operation takes the state and
    returns the state after it with its [Result].  The [*Laws] classes are the contract the RPC
    handlers and the HTTP API rely on, in terms of the content [view] of the registry; an
    implementation discharges them (InMemory.v), and the clients are verified against them. *)
From Stdlib Require Import ZArith.
From stdpp Require Import base gmap strings list.
From S2P Require Import Prelude Platform Core Filter.
Open Scope Z_scope.

(** [ersha-prime/src/registry/mod.rs:16-37] DeviceRegistry *)
Class DeviceRegistry (R E : Type) := {
  devr_register : Device -> R -> R * result unit E;
  devr_get : DeviceId -> R -> R * result (option Device) E;
  devr_update : DeviceId -> Device -> R -> R * result unit E;
  devr_suspend : DeviceId -> R -> R * result unit E;
  devr_add_sensor : DeviceId -> Sensor -> R -> R * result unit E;
  devr_add_sensors : DeviceId -> list Sensor -> R -> R * result unit E;
  devr_batch_register : list Device -> R -> R * result unit E;
  devr_count : option DeviceFilter -> R -> R * result Z E;
  devr_list : QueryOptions DeviceFilter DeviceSortBy.t -> R -> R * result (list Device) E
}.

(** [ersha-prime/src/registry/mod.rs:39-54] DispatcherRegistry *)
Class DispatcherRegistry (R E : Type) := {
  dspr_register : Dispatcher -> R -> R * result unit E;
  dspr_get : DispatcherId -> R -> R * result (option Dispatcher) E;
  dspr_update : DispatcherId -> Dispatcher -> R -> R * result unit E;
  dspr_suspend : DispatcherId -> R -> R * result unit E;
  dspr_batch_register : list Dispatcher -> R -> R * result unit E;
  dspr_count : option DispatcherFilter -> R -> R * result Z E;
  dspr_list : QueryOptions DispatcherFilter DispatcherSortBy.t -> R -> R * result (list Dispatcher) E
}.

(** [ersha-prime/src/registry/mod.rs:56-68] ReadingRegistry *)
Class ReadingRegistry (R E : Type) := {
  rdr_store : SensorReading -> R -> R * result unit E;
  rdr_get : ReadingId -> R -> R * result (option SensorReading) E;
  rdr_batch_store : list SensorReading -> R -> R * result unit E;
  rdr_count : option ReadingFilter -> R -> R * result Z E;
  rdr_list : QueryOptions ReadingFilter ReadingSortBy.t -> R -> R * result (list SensorReading) E
}.

(** [ersha-prime/src/registry/mod.rs:70-83] DeviceStatusRegistry *)
Class DeviceStatusRegistry (R E : Type) := {
  str_store : DeviceStatus -> R -> R * result unit E;
  str_get : StatusId -> R -> R * result (option DeviceStatus) E;
  str_get_latest : DeviceId -> R -> R * result (option DeviceStatus) E;
  str_batch_store : list DeviceStatus -> R -> R * result unit E;
  str_count : option DeviceStatusFilter -> R -> R * result Z E;
  str_list : QueryOptions DeviceStatusFilter DeviceStatusSortBy.t -> R -> R * result (list DeviceStatus) E
}.

(** ** Contracts *)

(** Inserting a list of values one after the other, later ones over earlier ones. *)
Definition insert_all {K V} `{Countable K} (key : V -> K) (vs : list V) (m : gmap K V) : gmap K V :=
  fold_left (fun m v => <[key v := v]> m) vs m.

Lemma insert_all_app {K V} `{Countable K} (key : V -> K) vs ws (m : gmap K V) :
  insert_all key (vs ++ ws) m = insert_all key ws (insert_all key vs m).
Proof. apply fold_left_app. Qed.

Lemma insert_all_fmap {K V W} `{Countable K} (key : V -> K) (f : W -> V) ws (m : gmap K V) :
  insert_all key (f <$> ws) m = fold_left (fun m w => <[key (f w) := f w]> m) ws m.
Proof. revert m. induction ws as [|w ws IH]; intros m; [done|]. apply IH. Qed.

(** A value whose key no later value of the batch has is found under its key. *)
Lemma lookup_insert_all {K V} `{Countable K} (key : V -> K) vs (m : gmap K V) k :
  insert_all key vs m !! k =
    match last (filter (fun v => key v = k) vs) with Some v => Some v | None => m !! k end.
Proof.
  induction vs as [|v vs IH] using rev_ind; [done|].
  rewrite insert_all_app. simpl. rewrite filter_app, filter_cons, filter_nil.
  destruct (decide (key v = k)) as [->|Hne].
  - by rewrite last_snoc, lookup_insert_eq.
  - by rewrite app_nil_r, lookup_insert_ne.
Qed.

Lemma lookup_insert_all_NoDup {K V} `{Countable K} (key : V -> K) vs (m : gmap K V) v :
  NoDup (key <$> vs) -> v ∈ vs -> insert_all key vs m !! key v = Some v.
Proof.
  intros Hnd Hin. rewrite lookup_insert_all.
  assert (filter (fun w => key w = key v) vs = [v]) as ->; [|done].
  induction vs as [|w vs IH]; [set_solver|]. rewrite fmap_cons in Hnd.
  apply NoDup_cons in Hnd as [Hw Hnd]. rewrite filter_cons.
  apply elem_of_cons in Hin as [->|Hin].
  - rewrite decide_True, filter_none; [done| |done].
    intros u Hu Heq. apply Hw. rewrite <- Heq. by apply list_elem_of_fmap_2.
  - rewrite decide_False; [by apply IH|]. intros Heq. apply Hw. rewrite Heq.
    by apply list_elem_of_fmap_2.
Qed.

Class DeviceRegistryLaws (R E : Type) `{DeviceRegistry R E} (view : R -> gmap DeviceId Device) : Prop := {
  devr_get_spec id r r' res : devr_get id r = (r', res) ->
    r' = r /\ match res with Ok o => o = view r !! id | Err _ => True end;
  devr_register_spec d r r' res : devr_register d r = (r', res) ->
    match res with Ok _ => view r' = <[dev_id d := d]> (view r) | Err _ => True end
}.

Class DispatcherRegistryLaws (R E : Type) `{DispatcherRegistry R E}
    (view : R -> gmap DispatcherId Dispatcher) : Prop := {
  dspr_get_spec id r r' res : dspr_get id r = (r', res) ->
    r' = r /\ match res with Ok o => o = view r !! id | Err _ => True end;
  dspr_register_spec d r r' res : dspr_register d r = (r', res) ->
    match res with Ok _ => view r' = <[disp_id d := d]> (view r) | Err _ => True end;
  dspr_suspend_spec id r r' res : dspr_suspend id r = (r', res) ->
    match res with
    | Ok _ => ∃ d, view r !! id = Some d /\
        view r' = <[id := mkDispatcher (disp_id d) (disp_location d) DispatcherState.Suspended
                            (disp_provisioned_at d)]> (view r)
    | Err _ => view r !! id = None -> view r' = view r
    end
}.

Class ReadingRegistryLaws (R E : Type) `{ReadingRegistry R E}
    (view : R -> gmap ReadingId SensorReading) : Prop := {
  rdr_batch_store_spec rs r r' res : rdr_batch_store rs r = (r', res) ->
    match res with Ok _ => view r' = insert_all rd_id rs (view r) | Err _ => True end
}.

Class DeviceStatusRegistryLaws (R E : Type) `{DeviceStatusRegistry R E}
    (view : R -> gmap StatusId DeviceStatus) : Prop := {
  str_batch_store_spec ss r r' res : str_batch_store ss r = (r', res) ->
    match res with Ok _ => view r' = insert_all st_id ss (view r) | Err _ => True end
}.
