(* ===== verification/InMemory.v ===== *)
(** * The in-memory registries: ersha-prime/src/registry/memory/

    One Module per registry.  The state is the [HashMap] behind the lock; an operation that takes
    the lock once is one atomic function on it.  [suspend] takes the lock twice ([get], then
    [update]), so its two halves are definitions of their own and the interleaving of another
    operation between them can be stated.  [filter_*], [sort_*] and [paginate_*] are the private
    functions of each file; [Listing] holds the lemmas the four share. *)
From Stdlib Require Import ZArith Lia Bool Strings.String.
From stdpp Require Import base gmap strings list sorting.
From S2P Require Import Prelude Platform Core Samples Filter Registry.
Open Scope Z_scope.

(** [ersha-prime/src/registry/memory/mod.rs:11-15] InMemoryError *)
Inductive InMemoryError := NotFound.
#[export] Instance InMemoryError_eq_dec : EqDecision InMemoryError.
Proof. solve_decision. Defined.

(** [str::to_lowercase] is Unicode's; its tables are a parameter. *)
Class Lowercase := to_lowercase : string -> string.

(** The ASCII part of the tables, for concrete evaluation. *)
Definition lowercase_ascii : Lowercase :=
  fun s => string_of_list_ascii (ascii_lower <$> list_ascii_of_string s).

(** [str::contains]. *)
Definition str_contains (s pat : string) : bool :=
  match String.index 0 pat s with Some _ => true | None => false end.

(** [slice::contains]. *)
Definition contains {A} `{EqDecision A} (x : A) (l : list A) : bool := bool_decide (x ∈ l).

(** The guard [if let Some(l) = &filter.f && !l.contains(&x) { return false }]. *)
Definition excluded {A} `{EqDecision A} (o : option (list A)) (x : A) : bool :=
  match o with Some l => negb (contains x l) | None => false end.

Definition range_excluded (o : option RangeInclusive) (x : Z) : bool :=
  match o with Some r => negb (range_contains r x) | None => false end.

(** The match on the optional lower and upper bound of a timestamp. *)
Definition outside_window (after before : option Timestamp) (t : Timestamp) : bool :=
  match after, before with
  | None, None => false
  | None, Some b => ts_ltb b t
  | Some a, None => ts_ltb t a
  | Some a, Some b => ts_ltb t a || ts_ltb b t
  end.

(** What the guards mean. *)
Definition in_opt {A} (o : option (list A)) (x : A) : Prop := ∀ l, o = Some l -> x ∈ l.
Definition in_range_opt (o : option RangeInclusive) (x : Z) : Prop :=
  ∀ r, o = Some r -> range_start r <= x <= range_end r.
Definition in_window (after before : option Timestamp) (t : Timestamp) : Prop :=
  (∀ a, after = Some a -> as_nanosecond a <= as_nanosecond t) /\
  (∀ b, before = Some b -> as_nanosecond t <= as_nanosecond b).

Lemma excluded_false {A} `{EqDecision A} (o : option (list A)) x :
  excluded o x = false <-> in_opt o x.
Proof.
  unfold excluded, contains, in_opt. destruct o as [l|].
  - rewrite negb_false_iff, bool_decide_eq_true. split; [by intros ? ? [= <-]|eauto].
  - by split.
Qed.

Lemma range_excluded_false o x : range_excluded o x = false <-> in_range_opt o x.
Proof.
  unfold range_excluded, in_range_opt. destruct o as [r|].
  - rewrite negb_false_iff, range_contains_spec. split; [by intros ? ? [= <-]|eauto].
  - by split.
Qed.

Lemma outside_window_false a b t : outside_window a b t = false <-> in_window a b t.
Proof.
  unfold outside_window, in_window, ts_ltb.
  destruct a as [a|], b as [b|]; rewrite ?orb_false_iff, ?Z.ltb_ge;
    naive_solver.
Qed.
#[export] Hint Rewrite @excluded_false range_excluded_false outside_window_false : ersha.

(** ** Sorting and paginating a selection *)

Definition directed {A} (o : SortOrder.t) (cmp : A -> A -> comparison) (a b : A) : comparison :=
  let ord := cmp a b in match o with SortOrder.Asc => ord | SortOrder.Desc => CompOpp ord end.

#[export] Instance directed_laws {A} o (cmp : A -> A -> comparison) `{CmpLaws A cmp} :
  CmpLaws (directed o cmp).
Proof.
  destruct o; [exact _|]. change (CmpLaws (reverse_cmp cmp)). exact _.
Qed.

Section Listing.
Context {K V : Type} `{EqDecision K} (key : V -> K) (mk : Ulid -> K).

Definition paginate_by (l : list V) (p : Pagination.t) : list V :=
  match p with
  | Pagination.Offset offset limit => take_z limit (skip offset l)
  | Pagination.Cursor after limit =>
      match after with
      | Some u => take_z limit (skip 1 (skip_while (fun v => negb (bool_decide (key v = mk u))) l))
      | None => []
      end
  end.

Lemma paginate_by_offset l o n :
  paginate_by l (Pagination.Offset o n) = take (Z.to_nat n) (drop (Z.to_nat o) l).
Proof. simpl. by rewrite take_z_take, skip_drop. Qed.

Lemma paginate_by_sublist l p : paginate_by l p `sublist_of` l.
Proof.
  assert (∀ q (k : list V), skip_while q k `sublist_of` k) as Hsw.
  { intros q k. induction k as [|x k IH]; simpl; [done|].
    destruct (q x); [by apply sublist_cons|done]. }
  destruct p as [o n|[u|] n]; cbn [paginate_by]; rewrite ?take_z_take, ?skip_drop.
  - etrans; [apply sublist_take|apply sublist_drop].
  - etrans; [apply sublist_take|]. etrans; [apply sublist_drop|]. apply Hsw.
  - apply sublist_nil_l.
Qed.

(** A cursor placed on the element at position [i] resumes at position [i + 1]. *)
Lemma paginate_by_cursor l i v u n :
  NoDup (key <$> l) -> l !! i = Some v -> key v = mk u ->
  paginate_by l (Pagination.Cursor (Some u) n) =
  paginate_by l (Pagination.Offset (Z.of_nat i + 1) n).
Proof.
  intros Hnd Hi Hk. rewrite paginate_by_offset. cbn [paginate_by].
  rewrite <- (take_drop_middle l i v Hi) at 1.
  rewrite skip_while_split; [|apply Forall_forall; intros w Hw|].
  - rewrite take_z_take, skip_drop.
    by replace (Z.to_nat (Z.of_nat i + 1)) with (S i) by lia.
  - apply negb_true_iff, bool_decide_eq_false. intros Heq.
    apply list_elem_of_lookup in Hw as [j Hj]. apply lookup_take_Some in Hj as [Hj Hlt].
    assert (j = i); [|lia]. eapply (NoDup_lookup (key <$> l)); [done| |];
      rewrite list_lookup_fmap; [by rewrite Hj|]. rewrite Hi. simpl. congruence.
  - by rewrite Hk, bool_decide_true.
Qed.

(** Following the cursor of a page continues it without gap or overlap. *)
Lemma paginate_by_tile l n m v u :
  NoDup (key <$> l) -> 0 <= n -> 0 <= m ->
  last (paginate_by l (Pagination.Offset 0 n)) = Some v -> key v = mk u ->
  paginate_by l (Pagination.Offset 0 n) ++ paginate_by l (Pagination.Cursor (Some u) m) =
  paginate_by l (Pagination.Offset 0 (n + m)).
Proof.
  intros Hnd Hn Hm Hlast Hk. rewrite paginate_by_offset, drop_0 in Hlast.
  rewrite last_lookup, length_take in Hlast.
  apply lookup_take_Some in Hlast as [Hi Hlt].
  pose proof (lookup_lt_Some _ _ _ Hi) as Hlen.
  rewrite (paginate_by_cursor l _ v u m Hnd Hi Hk), !paginate_by_offset, !drop_0.
  rewrite (Z2Nat.inj_add n m) by done.
  replace (Z.to_nat (Z.of_nat (Init.Nat.pred (Z.to_nat n `min` length l)) + 1))
    with (Z.to_nat n `min` length l)%nat by lia.
  rewrite <- take_take_drop. f_equal.
  destruct (Nat.le_gt_cases (Z.to_nat n) (length l)) as [Hle|Hgt].
  - by rewrite Nat.min_l.
  - by rewrite Nat.min_r, !drop_ge by lia.
Qed.

(** A cursor on an element the selection does not hold yields the empty page. *)
Lemma paginate_by_cursor_absent l u n :
  mk u ∉ key <$> l -> paginate_by l (Pagination.Cursor (Some u) n) = [].
Proof.
  intros Hu. cbn [paginate_by]. rewrite skip_while_all; [done|].
  apply Forall_forall. intros v Hv. apply negb_true_iff, bool_decide_eq_false.
  intros Heq. apply Hu. rewrite <- Heq. by apply list_elem_of_fmap_2.
Qed.
End Listing.

(** The selection of a registry: the values of the map that pass the filter, sorted. *)
Section Selection.
Context {K V : Type} `{HashIter K V} (p : V -> bool) (cmp : V -> V -> comparison) `{!CmpLaws cmp}.

Definition selection (m : gmap K V) : list V := sort_by cmp (List.filter p (hm_values m)).

Lemma selection_sorted m : StronglySorted (cmp_le cmp) (selection m).
Proof. by apply sort_by_sorted. Qed.

Lemma elem_of_selection m v : v ∈ selection m <-> p v = true /\ ∃ k, m !! k = Some v.
Proof.
  unfold selection. rewrite sort_by_perm, list_elem_of_In, filter_In, <- list_elem_of_In.
  rewrite elem_of_hm_values. tauto.
Qed.

Lemma length_selection m : length (selection m) = length (List.filter p (hm_values m)).
Proof. unfold selection. by rewrite sort_by_perm. Qed.

Lemma selection_NoDup m (key : V -> K) :
  (∀ k v, m !! k = Some v -> key v = k) -> NoDup (key <$> selection m).
Proof.
  intros Hkey. unfold selection. rewrite sort_by_perm.
  eapply sublist_NoDup; [by apply (hm_values_NoDup m key)|]. apply fmap_sublist.
  induction (hm_values m) as [|x l IH]; simpl; [done|].
  destruct (p x); [by apply sublist_skip|by apply sublist_cons].
Qed.
End Selection.

(** ** InMemoryDeviceRegistry *)

Module InMemoryDeviceRegistry.
(** [ersha-prime/src/registry/memory/device.rs:14-17] InMemoryDeviceRegistry *)
Record t := mk { devices : gmap DeviceId Device }.

(** [ersha-prime/src/registry/memory/device.rs:19-31] InMemoryDeviceRegistry::new *)
Definition new : t := mk ∅.

(** [ersha-prime/src/registry/memory/device.rs:37-42] register *)
Definition register (device : Device) (self : t) : t * result unit InMemoryError :=
  (mk (<[dev_id device := device]> (devices self)), Ok tt).

(** [ersha-prime/src/registry/memory/device.rs:73-76] get *)
Definition get (id : DeviceId) (self : t) : t * result (option Device) InMemoryError :=
  (self, Ok (devices self !! id)).

(** [ersha-prime/src/registry/memory/device.rs:78-82] update *)
Definition update (id : DeviceId) (new : Device) (self : t) : t * result unit InMemoryError :=
  (mk (<[id := new]> (devices self)), Ok tt).

(** [ersha-prime/src/registry/memory/device.rs:44-57] add_sensor *)
Definition add_sensor (id : DeviceId) (sensor : Sensor) (self : t) : t * result unit InMemoryError :=
  match ok_or (devices self !! id) NotFound with
  | Err e => (self, Err e)
  | Ok device =>
      let device := mkDevice (dev_id device) (dev_kind device) (dev_state device)
        (dev_location device) (dev_manufacturer device) (dev_provisioned_at device)
        (dev_sensors device ++ [sensor]) in
      (mk (<[id := device]> (devices self)), Ok tt)
  end.

(** [ersha-prime/src/registry/memory/device.rs:59-71] add_sensors *)
Definition add_sensors (id : DeviceId) (sensors : list Sensor) (self : t) : t * result unit InMemoryError :=
  match ok_or (devices self !! id) NotFound with
  | Err e => (self, Err e)
  | Ok device =>
      let device := mkDevice (dev_id device) (dev_kind device) (dev_state device)
        (dev_location device) (dev_manufacturer device) (dev_provisioned_at device)
        (dev_sensors device ++ sensors) in
      (mk (<[id := device]> (devices self)), Ok tt)
  end.

(** [ersha-prime/src/registry/memory/device.rs:84-97] Device { state: Suspended, ..device } *)
Definition suspended (device : Device) : Device :=
  mkDevice (dev_id device) (dev_kind device) DeviceState.Suspended (dev_location device)
    (dev_manufacturer device) (dev_provisioned_at device) (dev_sensors device).

(** [ersha-prime/src/registry/memory/device.rs:85-85] suspend, first critical section *)
Definition suspend_read (id : DeviceId) (self : t) : result Device InMemoryError :=
  let? o := snd (get id self) in ok_or o NotFound.

(** [ersha-prime/src/registry/memory/device.rs:87-96] suspend, second critical section *)
Definition suspend_write (id : DeviceId) (device : Device) (self : t) : t * result unit InMemoryError :=
  update id (suspended device) self.

(** [ersha-prime/src/registry/memory/device.rs:84-97] suspend *)
Definition suspend (id : DeviceId) (self : t) : t * result unit InMemoryError :=
  match suspend_read id self with
  | Err e => (self, Err e)
  | Ok device => suspend_write id device self
  end.

(** [ersha-prime/src/registry/memory/device.rs:99-105] batch_register *)
Fixpoint batch_register (ds : list Device) (self : t) : t * result unit InMemoryError :=
  match ds with
  | [] => (self, Ok tt)
  | device :: ds' =>
      match register device self with
      | (self, Err e) => (self, Err e)
      | (self, Ok _) => batch_register ds' self
      end
  end.

(** [ersha-prime/src/registry/memory/device.rs:136-147] sort_devices: the comparison *)
Definition device_cmp (sort_by : DeviceSortBy.t) (sort_order : SortOrder.t) : Device -> Device -> comparison :=
  directed sort_order
    match sort_by with
    | DeviceSortBy.State =>
        cmp_on (fun d => match dev_state d with DeviceState.Active => 0 | DeviceState.Suspended => 1 end)
          Z.compare
    | DeviceSortBy.Manufacturer => cmp_on dev_manufacturer (option_cmp String.compare)
    | DeviceSortBy.ProvisionAt => cmp_on dev_provisioned_at ts_cmp
    | DeviceSortBy.SensorCount => cmp_on (fun d => Z.of_nat (length (dev_sensors d))) Z.compare
    end.

(** [ersha-prime/src/registry/memory/device.rs:131-151] sort_devices *)
Definition sort_devices (ds : list Device) (sort_by : DeviceSortBy.t) (sort_order : SortOrder.t) : list Device :=
  Prelude.sort_by (device_cmp sort_by sort_order) ds.

(** [ersha-prime/src/registry/memory/device.rs:153-176] paginate_devices *)
Definition paginate_devices (ds : list Device) (pagination : Pagination.t) : list Device :=
  match pagination with
  | Pagination.Offset offset limit => take_z limit (skip offset ds)
  | Pagination.Cursor after limit =>
      match after with
      | Some inner_ulid =>
          let id := mkDeviceId inner_ulid in
          take_z limit (skip 1 (skip_while (fun d => negb (bool_decide (dev_id d = id))) ds))
      | None => []
      end
  end.

Section with_tables.
Context `{!Lowercase} `{!HashIter DeviceId Device}.

(** [ersha-prime/src/registry/memory/device.rs:201-213] filter_devices: the manufacturer guard *)
Definition manufacturer_excluded (filter : DeviceFilter) (device : Device) : bool :=
  match df_manufacturer_pattern filter with
  | Some pattern =>
      match dev_manufacturer device with
      | Some m => negb (str_contains (to_lowercase m) (to_lowercase pattern))
      | None => true
      end
  | None => false
  end.

(** [ersha-prime/src/registry/memory/device.rs:182-241] filter_devices: the closure *)
Definition device_matches (filter : DeviceFilter) (device : Device) : bool :=
  if excluded (df_locations filter) (dev_location device) then false
  else if excluded (df_states filter) (dev_state device) then false
  else if excluded (df_kinds filter) (dev_kind device) then false
  else if manufacturer_excluded filter device then false
  else if range_excluded (df_sensor_count filter) (Z.of_nat (length (dev_sensors device))) then false
  else if outside_window (df_provisioned_after filter) (df_provisioned_before filter)
            (dev_provisioned_at device) then false
  else true.

(** [ersha-prime/src/registry/memory/device.rs:178-242] filter_devices *)
Definition filter_devices (m : gmap DeviceId Device) (filter : DeviceFilter) : list Device :=
  List.filter (device_matches filter) (hm_values m).

(** [ersha-prime/src/registry/memory/device.rs:107-116] count *)
Definition count (filter : option DeviceFilter) (self : t) : t * result Z InMemoryError :=
  match filter with
  | Some filter => (self, Ok (Z.of_nat (length (filter_devices (devices self) filter))))
  | None => (self, Ok (Z.of_nat (size (devices self))))
  end.

(** [ersha-prime/src/registry/memory/device.rs:118-128] list *)
Definition list (options : QueryOptions DeviceFilter DeviceSortBy.t) (self : t) :
    t * result (list Device) InMemoryError :=
  let filtered := filter_devices (devices self) (filter_opt options) in
  let sorted := sort_devices filtered (sort_by_opt options) (sort_order_opt options) in
  (self, Ok (paginate_devices sorted (pagination_opt options))).

(** [ersha-prime/src/registry/memory/device.rs:33-129] impl DeviceRegistry for InMemoryDeviceRegistry *)
#[export] Instance registry : DeviceRegistry t InMemoryError := {
  devr_register := register; devr_get := get; devr_update := update; devr_suspend := suspend;
  devr_add_sensor := add_sensor; devr_add_sensors := add_sensors;
  devr_batch_register := batch_register; devr_count := count; devr_list := list
}.

#[export] Instance registry_laws : DeviceRegistryLaws t InMemoryError devices.
Proof.
  split.
  - intros id r r' res [= <- <-]. done.
  - intros d r r' res [= <- <-]. done.
Qed.
End with_tables.

(** Every entry is filed under the device's own id. *)
Definition wf (self : t) : Prop := ∀ id d, devices self !! id = Some d -> dev_id d = id.

#[export] Instance device_cmp_laws s o : CmpLaws (device_cmp s o).
Proof. unfold device_cmp. destruct s; exact _. Qed.

Lemma paginate_devices_by ds p : paginate_devices ds p = paginate_by dev_id mkDeviceId ds p.
Proof. by destruct p as [|[]]. Qed.

Lemma list_selection `{!Lowercase, !HashIter DeviceId Device} options self :
  list options self =
    (self, Ok (paginate_by dev_id mkDeviceId
      (selection (device_matches (filter_opt options))
         (device_cmp (sort_by_opt options) (sort_order_opt options)) (devices self))
      (pagination_opt options))).
Proof. unfold list. by rewrite paginate_devices_by. Qed.

(** What the closure of [filter_devices] decides: [filter.ids] is not among its guards. *)
Lemma device_matches_iff `{!Lowercase} filter d :
  device_matches filter d = true <->
    in_opt (df_locations filter) (dev_location d) /\ in_opt (df_states filter) (dev_state d) /\
    in_opt (df_kinds filter) (dev_kind d) /\
    (∀ pat, df_manufacturer_pattern filter = Some pat -> ∃ m, dev_manufacturer d = Some m /\
       str_contains (to_lowercase m) (to_lowercase pat) = true) /\
    in_range_opt (df_sensor_count filter) (Z.of_nat (length (dev_sensors d))) /\
    in_window (df_provisioned_after filter) (df_provisioned_before filter) (dev_provisioned_at d).
Proof.
  rewrite <- !excluded_false, <- range_excluded_false, <- outside_window_false.
  transitivity (excluded (df_locations filter) (dev_location d) = false /\
    excluded (df_states filter) (dev_state d) = false /\
    excluded (df_kinds filter) (dev_kind d) = false /\ manufacturer_excluded filter d = false /\
    range_excluded (df_sensor_count filter) (Z.of_nat (length (dev_sensors d))) = false /\
    outside_window (df_provisioned_after filter) (df_provisioned_before filter)
      (dev_provisioned_at d) = false).
  - unfold device_matches. repeat case_match; intuition congruence.
  - do 3 f_equiv. apply and_iff_compat_r. unfold manufacturer_excluded.
    destruct (df_manufacturer_pattern filter) as [pat|]; [|naive_solver].
    destruct (dev_manufacturer d) as [m|]; [|naive_solver].
    rewrite negb_false_iff. naive_solver.
Qed.
End InMemoryDeviceRegistry.
Export (hints) InMemoryDeviceRegistry.

(** ** InMemoryDispatcherRegistry *)

Module InMemoryDispatcherRegistry.
(** [ersha-prime/src/registry/memory/dispatcher.rs:14-17] InMemoryDispatcherRegistry *)
Record t := mk { dispatchers : gmap DispatcherId Dispatcher }.

(** [ersha-prime/src/registry/memory/dispatcher.rs:19-31] InMemoryDispatcherRegistry::new *)
Definition new : t := mk ∅.

(** [ersha-prime/src/registry/memory/dispatcher.rs:37-41] register *)
Definition register (dispatcher : Dispatcher) (self : t) : t * result unit InMemoryError :=
  (mk (<[disp_id dispatcher := dispatcher]> (dispatchers self)), Ok tt).

(** [ersha-prime/src/registry/memory/dispatcher.rs:43-46] get *)
Definition get (id : DispatcherId) (self : t) : t * result (option Dispatcher) InMemoryError :=
  (self, Ok (dispatchers self !! id)).

(** [ersha-prime/src/registry/memory/dispatcher.rs:48-52] update *)
Definition update (id : DispatcherId) (new : Dispatcher) (self : t) : t * result unit InMemoryError :=
  (mk (<[id := new]> (dispatchers self)), Ok tt).

(** [ersha-prime/src/registry/memory/dispatcher.rs:59-62] Dispatcher { state: Suspended, ..dispatcher } *)
Definition suspended (d : Dispatcher) : Dispatcher :=
  mkDispatcher (disp_id d) (disp_location d) DispatcherState.Suspended (disp_provisioned_at d).

(** [ersha-prime/src/registry/memory/dispatcher.rs:54-67] suspend *)
Definition suspend (id : DispatcherId) (self : t) : t * result unit InMemoryError :=
  match (let? o := snd (get id self) in ok_or o NotFound) with
  | Err e => (self, Err e)
  | Ok dispatcher => update id (suspended dispatcher) self
  end.

(** [ersha-prime/src/registry/memory/dispatcher.rs:69-75] batch_register *)
Fixpoint batch_register (ds : list Dispatcher) (self : t) : t * result unit InMemoryError :=
  match ds with
  | [] => (self, Ok tt)
  | dispatcher :: ds' =>
      match register dispatcher self with
      | (self, Err e) => (self, Err e)
      | (self, Ok _) => batch_register ds' self
      end
  end.

(** [ersha-prime/src/registry/memory/dispatcher.rs:132-141] sort_dispatchers: the comparison *)
Definition dispatcher_cmp (sort_by : DispatcherSortBy.t) (sort_order : SortOrder.t) :
    Dispatcher -> Dispatcher -> comparison :=
  directed sort_order
    match sort_by with DispatcherSortBy.ProvisionAt => cmp_on disp_provisioned_at ts_cmp end.

(** [ersha-prime/src/registry/memory/dispatcher.rs:127-144] sort_dispatchers *)
Definition sort_dispatchers (ds : list Dispatcher) (sort_by : DispatcherSortBy.t)
    (sort_order : SortOrder.t) : list Dispatcher :=
  Prelude.sort_by (dispatcher_cmp sort_by sort_order) ds.

(** [ersha-prime/src/registry/memory/dispatcher.rs:102-125] paginate_dispatchers *)
Definition paginate_dispatchers (ds : list Dispatcher) (pagination : Pagination.t) : list Dispatcher :=
  match pagination with
  | Pagination.Offset offset limit => take_z limit (skip offset ds)
  | Pagination.Cursor after limit =>
      match after with
      | Some inner_ulid =>
          let id := mkDispatcherId inner_ulid in
          take_z limit (skip 1 (skip_while (fun d => negb (bool_decide (disp_id d = id))) ds))
      | None => []
      end
  end.

(** [ersha-prime/src/registry/memory/dispatcher.rs:150-164] filter_dispatchers: the closure *)
Definition dispatcher_matches (filter : DispatcherFilter) (d : Dispatcher) : bool :=
  if excluded (dsf_locations filter) (disp_location d) then false
  else if excluded (dsf_states filter) (disp_state d) then false
  else true.

Section with_iter.
Context `{!HashIter DispatcherId Dispatcher}.

(** [ersha-prime/src/registry/memory/dispatcher.rs:146-165] filter_dispatchers *)
Definition filter_dispatchers (m : gmap DispatcherId Dispatcher) (filter : DispatcherFilter) :
    list Dispatcher :=
  List.filter (dispatcher_matches filter) (hm_values m).

(** [ersha-prime/src/registry/memory/dispatcher.rs:77-86] count *)
Definition count (filter : option DispatcherFilter) (self : t) : t * result Z InMemoryError :=
  match filter with
  | Some filter => (self, Ok (Z.of_nat (length (filter_dispatchers (dispatchers self) filter))))
  | None => (self, Ok (Z.of_nat (size (dispatchers self))))
  end.

(** [ersha-prime/src/registry/memory/dispatcher.rs:88-99] list *)
Definition list (options : QueryOptions DispatcherFilter DispatcherSortBy.t) (self : t) :
    t * result (list Dispatcher) InMemoryError :=
  let filtered := filter_dispatchers (dispatchers self) (filter_opt options) in
  let sorted := sort_dispatchers filtered (sort_by_opt options) (sort_order_opt options) in
  (self, Ok (paginate_dispatchers sorted (pagination_opt options))).

(** [ersha-prime/src/registry/memory/dispatcher.rs:33-100] impl DispatcherRegistry *)
#[export] Instance registry : DispatcherRegistry t InMemoryError := {
  dspr_register := register; dspr_get := get; dspr_update := update; dspr_suspend := suspend;
  dspr_batch_register := batch_register; dspr_count := count; dspr_list := list
}.

#[export] Instance registry_laws : DispatcherRegistryLaws t InMemoryError dispatchers.
Proof.
  split.
  - intros id r r' res [= <- <-]. done.
  - intros d r r' res [= <- <-]. done.
  - intros id r r' res. simpl. unfold suspend, ok_or. simpl.
    destruct (dispatchers r !! id) as [d|]; intros [= <- <-]; [by exists d|done].
Qed.
End with_iter.

(** Every entry is filed under the dispatcher's own id. *)
Definition wf (self : t) : Prop := ∀ id d, dispatchers self !! id = Some d -> disp_id d = id.

#[export] Instance dispatcher_cmp_laws s o : CmpLaws (dispatcher_cmp s o).
Proof. unfold dispatcher_cmp. destruct s; exact _. Qed.

Lemma dispatcher_list_selection `{!HashIter DispatcherId Dispatcher} options self :
  list options self =
    (self, Ok (paginate_by disp_id mkDispatcherId
      (selection (dispatcher_matches (filter_opt options))
         (dispatcher_cmp (sort_by_opt options) (sort_order_opt options)) (dispatchers self))
      (pagination_opt options))).
Proof. unfold list. by destruct (pagination_opt options) as [|[]]. Qed.

Lemma dispatcher_matches_iff filter d :
  dispatcher_matches filter d = true <->
    in_opt (dsf_locations filter) (disp_location d) /\ in_opt (dsf_states filter) (disp_state d).
Proof.
  rewrite <- !excluded_false. unfold dispatcher_matches. repeat case_match; intuition congruence.
Qed.
End InMemoryDispatcherRegistry.
Export (hints) InMemoryDispatcherRegistry.

(** ** InMemoryReadingRegistry *)

Module InMemoryReadingRegistry.
(** [ersha-prime/src/registry/memory/reading.rs:14-17] InMemoryReadingRegistry *)
Record t := mk { readings : gmap ReadingId SensorReading }.

(** [ersha-prime/src/registry/memory/reading.rs:19-31] InMemoryReadingRegistry::new *)
Definition new : t := mk ∅.

(** [ersha-prime/src/registry/memory/reading.rs:37-41] store *)
Definition store (reading : SensorReading) (self : t) : t * result unit InMemoryError :=
  (mk (<[rd_id reading := reading]> (readings self)), Ok tt).

(** [ersha-prime/src/registry/memory/reading.rs:43-46] get *)
Definition get (id : ReadingId) (self : t) : t * result (option SensorReading) InMemoryError :=
  (self, Ok (readings self !! id)).

(** [ersha-prime/src/registry/memory/reading.rs:48-53] batch_store *)
Fixpoint batch_store (rs : list SensorReading) (self : t) : t * result unit InMemoryError :=
  match rs with
  | [] => (self, Ok tt)
  | reading :: rs' =>
      match store reading self with
      | (self, Err e) => (self, Err e)
      | (self, Ok _) => batch_store rs' self
      end
  end.

(** [ersha-prime/src/registry/memory/reading.rs:75-83] metric_type *)
Definition metric_type (metric : SensorMetric.t) : SensorMetricType.t :=
  match metric with
  | SensorMetric.SoilMoisture _ => SensorMetricType.SoilMoisture
  | SensorMetric.SoilTemp _ => SensorMetricType.SoilTemp
  | SensorMetric.AirTemp _ => SensorMetricType.AirTemp
  | SensorMetric.Humidity _ => SensorMetricType.Humidity
  | SensorMetric.Rainfall _ => SensorMetricType.Rainfall
  end.

(** [ersha-prime/src/registry/memory/reading.rs:89-152] filter_readings: the closure *)
Definition reading_matches (filter : ReadingFilter) (r : SensorReading) : bool :=
  if excluded (rf_ids filter) (rd_id r) then false
  else if excluded (rf_device_ids filter) (rd_device_id r) then false
  else if excluded (rf_sensor_ids filter) (rd_sensor_id r) then false
  else if excluded (rf_dispatcher_ids filter) (rd_dispatcher_id r) then false
  else if excluded (rf_metric_types filter) (metric_type (rd_metric r)) then false
  else if excluded (rf_locations filter) (rd_location r) then false
  else if range_excluded (rf_confidence_range filter) (percent (rd_confidence r)) then false
  else if outside_window (rf_timestamp_after filter) (rf_timestamp_before filter)
            (rd_timestamp r) then false
  else true.

(** [ersha-prime/src/registry/memory/reading.rs:160-171] sort_readings: the comparison *)
Definition reading_cmp (sort_by : ReadingSortBy.t) (sort_order : SortOrder.t) :
    SensorReading -> SensorReading -> comparison :=
  directed sort_order
    match sort_by with
    | ReadingSortBy.Timestamp => cmp_on rd_timestamp ts_cmp
    | ReadingSortBy.Confidence => cmp_on (fun r => percent (rd_confidence r)) Z.compare
    | ReadingSortBy.DeviceId => cmp_on (fun r => device_ulid (rd_device_id r)) Z.compare
    end.

(** [ersha-prime/src/registry/memory/reading.rs:155-174] sort_readings *)
Definition sort_readings (rs : list SensorReading) (sort_by : ReadingSortBy.t)
    (sort_order : SortOrder.t) : list SensorReading :=
  Prelude.sort_by (reading_cmp sort_by sort_order) rs.

(** [ersha-prime/src/registry/memory/reading.rs:176-198] paginate_readings *)
Definition paginate_readings (rs : list SensorReading) (pagination : Pagination.t) : list SensorReading :=
  match pagination with
  | Pagination.Offset offset limit => take_z limit (skip offset rs)
  | Pagination.Cursor after limit =>
      match after with
      | Some inner_ulid =>
          let id := mkReadingId inner_ulid in
          take_z limit (skip 1 (skip_while (fun r => negb (bool_decide (rd_id r = id))) rs))
      | None => []
      end
  end.

Section with_iter.
Context `{!HashIter ReadingId SensorReading}.

(** [ersha-prime/src/registry/memory/reading.rs:85-153] filter_readings *)
Definition filter_readings (m : gmap ReadingId SensorReading) (filter : ReadingFilter) :
    list SensorReading :=
  List.filter (reading_matches filter) (hm_values m).

(** [ersha-prime/src/registry/memory/reading.rs:55-61] count *)
Definition count (filter : option ReadingFilter) (self : t) : t * result Z InMemoryError :=
  match filter with
  | Some filter => (self, Ok (Z.of_nat (length (filter_readings (readings self) filter))))
  | None => (self, Ok (Z.of_nat (size (readings self))))
  end.

(** [ersha-prime/src/registry/memory/reading.rs:63-72] list *)
Definition list (options : QueryOptions ReadingFilter ReadingSortBy.t) (self : t) :
    t * result (list SensorReading) InMemoryError :=
  let filtered := filter_readings (readings self) (filter_opt options) in
  let sorted := sort_readings filtered (sort_by_opt options) (sort_order_opt options) in
  (self, Ok (paginate_readings sorted (pagination_opt options))).

(** [ersha-prime/src/registry/memory/reading.rs:33-73] impl ReadingRegistry *)
#[export] Instance registry : ReadingRegistry t InMemoryError := {
  rdr_store := store; rdr_get := get; rdr_batch_store := batch_store;
  rdr_count := count; rdr_list := list
}.

Lemma reading_batch_store_eq rs self :
  batch_store rs self = (mk (insert_all rd_id rs (readings self)), Ok tt).
Proof. revert self; induction rs as [|r rs IH]; intros []; simpl; [done|]. by rewrite IH. Qed.

#[export] Instance registry_laws : ReadingRegistryLaws t InMemoryError readings.
Proof. split. intros rs r r' res. simpl. rewrite reading_batch_store_eq. by intros [= <- <-]. Qed.
End with_iter.

Definition wf (self : t) : Prop := ∀ id r, readings self !! id = Some r -> rd_id r = id.

#[export] Instance reading_cmp_laws s o : CmpLaws (reading_cmp s o).
Proof. unfold reading_cmp. destruct s; exact _. Qed.

Lemma reading_list_selection `{!HashIter ReadingId SensorReading} options self :
  list options self =
    (self, Ok (paginate_by rd_id mkReadingId
      (selection (reading_matches (filter_opt options))
         (reading_cmp (sort_by_opt options) (sort_order_opt options)) (readings self))
      (pagination_opt options))).
Proof. unfold list. by destruct (pagination_opt options) as [|[]]. Qed.

Lemma reading_matches_iff filter r :
  reading_matches filter r = true <->
    in_opt (rf_ids filter) (rd_id r) /\ in_opt (rf_device_ids filter) (rd_device_id r) /\
    in_opt (rf_sensor_ids filter) (rd_sensor_id r) /\
    in_opt (rf_dispatcher_ids filter) (rd_dispatcher_id r) /\
    in_opt (rf_metric_types filter) (metric_type (rd_metric r)) /\
    in_opt (rf_locations filter) (rd_location r) /\
    in_range_opt (rf_confidence_range filter) (percent (rd_confidence r)) /\
    in_window (rf_timestamp_after filter) (rf_timestamp_before filter) (rd_timestamp r).
Proof.
  rewrite <- !excluded_false, <- range_excluded_false, <- outside_window_false.
  unfold reading_matches. repeat case_match; intuition congruence.
Qed.
End InMemoryReadingRegistry.
Export (hints) InMemoryReadingRegistry.

(** ** InMemoryDeviceStatusRegistry *)

Module InMemoryDeviceStatusRegistry.
(** [ersha-prime/src/registry/memory/device_status.rs:14-17] InMemoryDeviceStatusRegistry *)
Record t := mk { statuses : gmap StatusId DeviceStatus }.

(** [ersha-prime/src/registry/memory/device_status.rs:19-31] InMemoryDeviceStatusRegistry::new *)
Definition new : t := mk ∅.

(** [ersha-prime/src/registry/memory/device_status.rs:37-41] store *)
Definition store (status : DeviceStatus) (self : t) : t * result unit InMemoryError :=
  (mk (<[st_id status := status]> (statuses self)), Ok tt).

(** [ersha-prime/src/registry/memory/device_status.rs:43-46] get *)
Definition get (id : StatusId) (self : t) : t * result (option DeviceStatus) InMemoryError :=
  (self, Ok (statuses self !! id)).

(** [ersha-prime/src/registry/memory/device_status.rs:57-62] batch_store *)
Fixpoint batch_store (ss : list DeviceStatus) (self : t) : t * result unit InMemoryError :=
  match ss with
  | [] => (self, Ok tt)
  | status :: ss' =>
      match store status self with
      | (self, Err e) => (self, Err e)
      | (self, Ok _) => batch_store ss' self
      end
  end.

(** [Iterator::max_by_key]: of several maximal elements the last one. *)
Definition max_by_key {A} (cmp : A -> A -> comparison) (l : list A) : option A :=
  fold_left (fun acc x =>
    match acc with
    | None => Some x
    | Some y => match cmp y x with Gt => Some y | _ => Some x end
    end) l None.

(** [ersha-prime/src/registry/memory/device_status.rs:120-125] filter_statuses: the error-code guard *)
Definition error_codes_excluded (filter : DeviceStatusFilter) (s : DeviceStatus) : bool :=
  match sf_error_codes filter with
  | Some codes => negb (existsb (fun e => contains (err_code e) codes) (st_errors s))
  | None => false
  end.

(** [ersha-prime/src/registry/memory/device_status.rs:113-118] filter_statuses: the has_errors guard *)
Definition has_errors_excluded (filter : DeviceStatusFilter) (s : DeviceStatus) : bool :=
  match sf_has_errors filter with
  | Some has_errors =>
      let status_has_errors := match st_errors s with [] => false | _ => true end in
      negb (Bool.eqb has_errors status_has_errors)
  | None => false
  end.

(** [ersha-prime/src/registry/memory/device_status.rs:88-147] filter_statuses: the closure *)
Definition status_matches (filter : DeviceStatusFilter) (s : DeviceStatus) : bool :=
  if excluded (sf_ids filter) (st_id s) then false
  else if excluded (sf_device_ids filter) (st_device_id s) then false
  else if excluded (sf_dispatcher_ids filter) (st_dispatcher_id s) then false
  else if range_excluded (sf_battery_range filter) (percent (st_battery_percent s)) then false
  else if has_errors_excluded filter s then false
  else if error_codes_excluded filter s then false
  else if outside_window (sf_timestamp_after filter) (sf_timestamp_before filter)
            (st_timestamp s) then false
  else true.

(** [ersha-prime/src/registry/memory/device_status.rs:155-166] sort_statuses: the comparison *)
Definition status_cmp (sort_by : DeviceStatusSortBy.t) (sort_order : SortOrder.t) :
    DeviceStatus -> DeviceStatus -> comparison :=
  directed sort_order
    match sort_by with
    | DeviceStatusSortBy.Timestamp => cmp_on st_timestamp ts_cmp
    | DeviceStatusSortBy.BatteryPercent => cmp_on (fun s => percent (st_battery_percent s)) Z.compare
    | DeviceStatusSortBy.DeviceId => cmp_on (fun s => device_ulid (st_device_id s)) Z.compare
    end.

(** [ersha-prime/src/registry/memory/device_status.rs:150-169] sort_statuses *)
Definition sort_statuses (ss : list DeviceStatus) (sort_by : DeviceStatusSortBy.t)
    (sort_order : SortOrder.t) : list DeviceStatus :=
  Prelude.sort_by (status_cmp sort_by sort_order) ss.

(** [ersha-prime/src/registry/memory/device_status.rs:171-193] paginate_statuses *)
Definition paginate_statuses (ss : list DeviceStatus) (pagination : Pagination.t) : list DeviceStatus :=
  match pagination with
  | Pagination.Offset offset limit => take_z limit (skip offset ss)
  | Pagination.Cursor after limit =>
      match after with
      | Some inner_ulid =>
          let id := mkStatusId inner_ulid in
          take_z limit (skip 1 (skip_while (fun s => negb (bool_decide (st_id s = id))) ss))
      | None => []
      end
  end.

Section with_iter.
Context `{!HashIter StatusId DeviceStatus}.

(** [ersha-prime/src/registry/memory/device_status.rs:48-55] get_latest *)
Definition get_latest (device_id : DeviceId) (self : t) : t * result (option DeviceStatus) InMemoryError :=
  (self, Ok (max_by_key (cmp_on st_timestamp ts_cmp)
    (List.filter (fun s => bool_decide (st_device_id s = device_id)) (hm_values (statuses self))))).

(** [ersha-prime/src/registry/memory/device_status.rs:84-148] filter_statuses *)
Definition filter_statuses (m : gmap StatusId DeviceStatus) (filter : DeviceStatusFilter) :
    list DeviceStatus :=
  List.filter (status_matches filter) (hm_values m).

(** [ersha-prime/src/registry/memory/device_status.rs:64-70] count *)
Definition count (filter : option DeviceStatusFilter) (self : t) : t * result Z InMemoryError :=
  match filter with
  | Some filter => (self, Ok (Z.of_nat (length (filter_statuses (statuses self) filter))))
  | None => (self, Ok (Z.of_nat (size (statuses self))))
  end.

(** [ersha-prime/src/registry/memory/device_status.rs:72-81] list *)
Definition list (options : QueryOptions DeviceStatusFilter DeviceStatusSortBy.t) (self : t) :
    t * result (list DeviceStatus) InMemoryError :=
  let filtered := filter_statuses (statuses self) (filter_opt options) in
  let sorted := sort_statuses filtered (sort_by_opt options) (sort_order_opt options) in
  (self, Ok (paginate_statuses sorted (pagination_opt options))).

(** [ersha-prime/src/registry/memory/device_status.rs:33-82] impl DeviceStatusRegistry *)
#[export] Instance registry : DeviceStatusRegistry t InMemoryError := {
  str_store := store; str_get := get; str_get_latest := get_latest;
  str_batch_store := batch_store; str_count := count; str_list := list
}.

Lemma status_batch_store_eq ss self :
  batch_store ss self = (mk (insert_all st_id ss (statuses self)), Ok tt).
Proof. revert self; induction ss as [|s ss IH]; intros []; simpl; [done|]. by rewrite IH. Qed.

#[export] Instance registry_laws : DeviceStatusRegistryLaws t InMemoryError statuses.
Proof. split. intros ss r r' res. simpl. rewrite status_batch_store_eq. by intros [= <- <-]. Qed.
End with_iter.

Definition wf (self : t) : Prop := ∀ id s, statuses self !! id = Some s -> st_id s = id.

#[export] Instance status_cmp_laws s o : CmpLaws (status_cmp s o).
Proof. unfold status_cmp. destruct s; exact _. Qed.

Lemma status_list_selection `{!HashIter StatusId DeviceStatus} options self :
  list options self =
    (self, Ok (paginate_by st_id mkStatusId
      (selection (status_matches (filter_opt options))
         (status_cmp (sort_by_opt options) (sort_order_opt options)) (statuses self))
      (pagination_opt options))).
Proof. unfold list. by destruct (pagination_opt options) as [|[]]. Qed.

Lemma status_matches_iff filter s :
  status_matches filter s = true <->
    in_opt (sf_ids filter) (st_id s) /\ in_opt (sf_device_ids filter) (st_device_id s) /\
    in_opt (sf_dispatcher_ids filter) (st_dispatcher_id s) /\
    in_range_opt (sf_battery_range filter) (percent (st_battery_percent s)) /\
    (∀ b, sf_has_errors filter = Some b -> (b = true <-> st_errors s <> [])) /\
    (∀ codes, sf_error_codes filter = Some codes ->
       ∃ e, e ∈ st_errors s /\ err_code e ∈ codes) /\
    in_window (sf_timestamp_after filter) (sf_timestamp_before filter) (st_timestamp s).
Proof.
  rewrite <- !excluded_false, <- range_excluded_false, <- outside_window_false.
  transitivity (excluded (sf_ids filter) (st_id s) = false /\
    excluded (sf_device_ids filter) (st_device_id s) = false /\
    excluded (sf_dispatcher_ids filter) (st_dispatcher_id s) = false /\
    range_excluded (sf_battery_range filter) (percent (st_battery_percent s)) = false /\
    has_errors_excluded filter s = false /\ error_codes_excluded filter s = false /\
    outside_window (sf_timestamp_after filter) (sf_timestamp_before filter)
      (st_timestamp s) = false).
  - unfold status_matches. repeat case_match; intuition congruence.
  - do 4 f_equiv. f_equiv; [|apply and_iff_compat_r].
    + unfold has_errors_excluded. destruct (sf_has_errors filter) as [b|]; [|naive_solver].
      rewrite negb_false_iff, Bool.eqb_true_iff.
      destruct (st_errors s), b; split; intros H; try (intros ? [= <-]); naive_solver.
    + unfold error_codes_excluded. destruct (sf_error_codes filter) as [codes|]; [|naive_solver].
      rewrite negb_false_iff, existsb_exists. unfold contains.
      setoid_rewrite bool_decide_eq_true. setoid_rewrite <- list_elem_of_In. naive_solver.
Qed.

Lemma max_by_key_spec {A} (cmp : A -> A -> comparison) `{!CmpLaws cmp} l :
  match max_by_key cmp l with
  | None => l = []
  | Some x => x ∈ l /\ ∀ y, y ∈ l -> cmp_le cmp y x
  end.
Proof.
  induction l as [|z l IH] using rev_ind; [done|].
  unfold max_by_key in *. rewrite fold_left_app. simpl.
  assert (cmp_le cmp z z) as Hrefl.
  { unfold cmp_le. pose proof (cmp_opp z z). by destruct (cmp z z). }
  destruct (fold_left _ l None) as [x|]; [|subst; set_solver].
  destruct IH as [Hx Hmax]. destruct (cmp x z) eqn:E; (split; [set_solver|]);
    intros y [Hy|Hy%list_elem_of_singleton]%elem_of_app; subst; auto.
  1,2: (eapply cmp_trans; [by apply Hmax|by rewrite E]).
  unfold cmp_le. by rewrite (cmp_opp x z), E.
Qed.
End InMemoryDeviceStatusRegistry.
Export (hints) InMemoryDeviceStatusRegistry.

(** ** Sequences of device operations *)

Module DeviceOps.
Import InMemoryDeviceRegistry.

Inductive op :=
  | Register (d : Device)
  | Update (id : DeviceId) (d : Device)
  | Suspend (id : DeviceId)
  | AddSensor (id : DeviceId) (s : Sensor)
  | AddSensors (id : DeviceId) (ss : Datatypes.list Sensor)
  | BatchRegister (ds : Datatypes.list Device).

Definition exec (o : op) (self : t) : t :=
  fst match o with
      | Register d => register d self
      | Update id d => update id d self
      | Suspend id => suspend id self
      | AddSensor id s => add_sensor id s self
      | AddSensors id ss => add_sensors id ss self
      | BatchRegister ds => batch_register ds self
      end.

Definition exec_all (ops : Datatypes.list op) (self : t) : t := fold_left (fun r o => exec o r) ops self.

(** [update] files the new value under the id it is called with, whatever id the value has. *)
Definition keeps_id (o : op) : Prop :=
  match o with Update id d => dev_id d = id | _ => True end.

Lemma wf_insert id d self : wf self -> dev_id d = id -> wf (mk (<[id := d]> (devices self))).
Proof.
  intros Hwf Hid k e. simpl. rewrite lookup_insert. case_decide; [congruence|apply Hwf].
Qed.

Lemma exec_wf o self : keeps_id o -> wf self -> wf (exec o self).
Proof.
  unfold exec. destruct o as [d|id d|id|id s|id ss|ds]; simpl; intros Hk Hwf.
  - by apply wf_insert.
  - by apply wf_insert.
  - unfold suspend, suspend_read. simpl. destruct (devices self !! id) as [d|] eqn:E; [|done].
    apply wf_insert; [done|]. exact (Hwf id d E).
  - unfold add_sensor. destruct (devices self !! id) as [d|] eqn:E; [|done].
    apply wf_insert; [done|]. exact (Hwf id d E).
  - unfold add_sensors. destruct (devices self !! id) as [d|] eqn:E; [|done].
    apply wf_insert; [done|]. exact (Hwf id d E).
  - revert self Hwf. induction ds as [|d ds IH]; intros self Hwf; [done|].
    simpl. by apply IH, wf_insert.
Qed.
End DeviceOps.

(** ** Properties *)

Section InMemoryProperties.
Import InMemoryDeviceRegistry.
Context `{!Lowercase} `{!HashIter DeviceId Device}.


(** C25: cursor pagination of devices is seamless: when every device is filed under its own id,
    the page that starts after the last device of the first page continues it, so the two
    together are the longer first page. *)
Theorem device_cursor_pages_tile f s o self n m p1 p2 d u :
  wf self -> 0 <= n -> 0 <= m ->
  snd (list (mkQueryOptions f s o (Pagination.Offset 0 n)) self) = Ok p1 ->
  last p1 = Some d -> dev_id d = mkDeviceId u ->
  snd (list (mkQueryOptions f s o (Pagination.Cursor (Some u) m)) self) = Ok p2 ->
  snd (list (mkQueryOptions f s o (Pagination.Offset 0 (n + m))) self) = Ok (p1 ++ p2).
Proof.
  rewrite !list_selection. simpl snd. intros Hwf Hn Hm [= <-] Hlast Hid [= <-]. f_equal. symmetry.
  by eapply paginate_by_tile; [apply selection_NoDup|..].
Qed.

(** [count] agrees with [list]: counting with a filter gives the length of the unpaginated
    listing, and counting without one gives the number of registered devices. *)
Theorem device_count_agrees f s o self limit l :
  Z.of_nat (size (devices self)) <= limit ->
  snd (list (mkQueryOptions f s o (Pagination.Offset 0 limit)) self) = Ok l ->
  count (Some f) self = (self, Ok (Z.of_nat (length l))) /\
  count None self = (self, Ok (Z.of_nat (size (devices self)))).
Proof.
  intros Hlim. rewrite list_selection. intros [= <-]. split; [|done].
  pose proof (List.filter_length_le (device_matches f) (hm_values (devices self))) as Hle.
  rewrite length_hm_values in Hle. cbn [filter_opt sort_by_opt sort_order_opt pagination_opt].
  rewrite take_z_take, skip_drop, drop_0, take_ge by (rewrite length_selection; lia).
  by rewrite length_selection.
Qed.

(** [DeviceFilter.ids] is ignored by the in-memory device registry: whatever ids a query asks
    for, [list] and [count] answer as if it asked for all of them. *)
Theorem device_filter_ids_ignored ids f s o p self :
  let g := mkDeviceFilter ids (df_states f) (df_kinds f) (df_locations f)
    (df_provisioned_after f) (df_provisioned_before f) (df_sensor_count f)
    (df_manufacturer_pattern f) in
  list (mkQueryOptions g s o p) self = list (mkQueryOptions f s o p) self /\
  count (Some g) self = count (Some f) self.
Proof. done. Qed.
End InMemoryProperties.

(** C29: along any sequence of operations on the in-memory device registry every device stays filed
    under its own id, provided [update] is only called with a device of the id it replaces. *)
Theorem device_registry_wf_invariant ops self :
  Forall DeviceOps.keeps_id ops -> InMemoryDeviceRegistry.wf self ->
  InMemoryDeviceRegistry.wf (DeviceOps.exec_all ops self).
Proof.
  intros Hops. revert self. induction Hops as [|o ops Ho _ IH]; intros self Hwf; [done|].
  simpl. by apply IH, DeviceOps.exec_wf.
Qed.

(** [suspend] of a known device changes its state to [Suspended] and nothing else, of an unknown
    one fails with [NotFound] and changes nothing; [add_sensors] appends in order or fails with
    [NotFound]. *)
Theorem device_suspend_add_sensors_branches id ss self :
  match InMemoryDeviceRegistry.devices self !! id with
  | None =>
      InMemoryDeviceRegistry.suspend id self = (self, Err NotFound) /\
      InMemoryDeviceRegistry.add_sensors id ss self = (self, Err NotFound)
  | Some d =>
      (∃ self', InMemoryDeviceRegistry.suspend id self = (self', Ok tt) /\
         (∃ d', InMemoryDeviceRegistry.devices self' !! id = Some d' /\
            dev_state d' = DeviceState.Suspended /\ dev_id d' = dev_id d /\
            dev_kind d' = dev_kind d /\ dev_location d' = dev_location d /\
            dev_manufacturer d' = dev_manufacturer d /\ dev_sensors d' = dev_sensors d /\
            dev_provisioned_at d' = dev_provisioned_at d) /\
         ∀ k, k <> id ->
           InMemoryDeviceRegistry.devices self' !! k = InMemoryDeviceRegistry.devices self !! k) /\
      (∃ self', InMemoryDeviceRegistry.add_sensors id ss self = (self', Ok tt) /\
         (∃ d', InMemoryDeviceRegistry.devices self' !! id = Some d' /\
            dev_sensors d' = dev_sensors d ++ ss /\ dev_state d' = dev_state d /\
            dev_id d' = dev_id d) /\
         ∀ k, k <> id ->
           InMemoryDeviceRegistry.devices self' !! k = InMemoryDeviceRegistry.devices self !! k)
  end.
Proof.
  unfold InMemoryDeviceRegistry.suspend, InMemoryDeviceRegistry.suspend_read,
    InMemoryDeviceRegistry.add_sensors. simpl.
  destruct (InMemoryDeviceRegistry.devices self !! id) as [d|] eqn:E; simpl; [|done].
  split; (eexists; split; [done|]); (split; [eexists; split; [apply lookup_insert_eq|done]|]);
    intros k Hk; by apply lookup_insert_ne.
Qed.

(** [suspend] is not atomic: when [add_sensor] runs between its read and its write, both report
    success and the sensor is lost. *)
Theorem device_suspend_race_loses_sensor id s self self1 self2 d :
  InMemoryDeviceRegistry.suspend_read id self = Ok d ->
  InMemoryDeviceRegistry.add_sensor id s self = (self1, Ok tt) ->
  InMemoryDeviceRegistry.suspend_write id d self1 = (self2, Ok tt) ->
  (∃ d1, InMemoryDeviceRegistry.devices self1 !! id = Some d1 /\ dev_sensors d1 = dev_sensors d ++ [s]) /\
  (∃ d2, InMemoryDeviceRegistry.devices self2 !! id = Some d2 /\ dev_sensors d2 = dev_sensors d).
Proof.
  unfold InMemoryDeviceRegistry.suspend_read, InMemoryDeviceRegistry.add_sensor. simpl.
  destruct (InMemoryDeviceRegistry.devices self !! id) as [d0|] eqn:E; simpl; [|done].
  intros [= <-] [= <-] [= <-]. simpl.
  split; (eexists; split; [by rewrite ?insert_insert_eq, lookup_insert_eq|done]).
Qed.

(** [get_latest] of the in-memory status registry returns a stored status of the device with the
    greatest timestamp, and [None] exactly when the device has no status. *)
Theorem status_get_latest_correct `{!HashIter StatusId DeviceStatus} dev self :
  ∃ o, InMemoryDeviceStatusRegistry.get_latest dev self = (self, Ok o) /\
    match o with
    | None => ∀ id s, InMemoryDeviceStatusRegistry.statuses self !! id = Some s -> st_device_id s <> dev
    | Some s =>
        (∃ id, InMemoryDeviceStatusRegistry.statuses self !! id = Some s) /\ st_device_id s = dev /\
        ∀ id s', InMemoryDeviceStatusRegistry.statuses self !! id = Some s' -> st_device_id s' = dev ->
          as_nanosecond (st_timestamp s') <= as_nanosecond (st_timestamp s)
    end.
Proof.
  unfold InMemoryDeviceStatusRegistry.get_latest. eexists; split; [done|].
  set (l := List.filter _ _).
  assert (∀ s, s ∈ l <-> st_device_id s = dev /\
    ∃ id, InMemoryDeviceStatusRegistry.statuses self !! id = Some s) as Hl.
  { intros s. unfold l. rewrite list_elem_of_In, filter_In, <- list_elem_of_In, elem_of_hm_values.
    rewrite bool_decide_eq_true. tauto. }
  pose proof (InMemoryDeviceStatusRegistry.max_by_key_spec (cmp_on st_timestamp ts_cmp) l) as H.
  destruct (InMemoryDeviceStatusRegistry.max_by_key _ l) as [s|].
  - destruct H as [Hs Hmax]. apply Hl in Hs as [Hd Hs]. split_and!; [done|done|].
    intros id s' Hs' Hd'. assert (s' ∈ l) as Hin by (apply Hl; eauto).
    exact (Hmax s' Hin).
  - intros id s Hs Hd. assert (s ∈ l) as Hin by (apply Hl; eauto). rewrite H in Hin. set_solver.
Qed.

(** [list] of the in-memory reading registry returns the requested page of the sorted sequence of
    exactly the stored readings that meet every criterion of the filter, the ids included. *)
Theorem reading_list_correct `{!HashIter ReadingId SensorReading} options self :
  ∃ sel, InMemoryReadingRegistry.list options self =
      (self, Ok (InMemoryReadingRegistry.paginate_readings sel (pagination_opt options))) /\
    StronglySorted (cmp_le (InMemoryReadingRegistry.reading_cmp (sort_by_opt options)
      (sort_order_opt options))) sel /\
    ∀ r, r ∈ sel <-> (∃ id, InMemoryReadingRegistry.readings self !! id = Some r) /\
      in_opt (rf_ids (filter_opt options)) (rd_id r) /\
      in_opt (rf_device_ids (filter_opt options)) (rd_device_id r) /\
      in_opt (rf_sensor_ids (filter_opt options)) (rd_sensor_id r) /\
      in_opt (rf_dispatcher_ids (filter_opt options)) (rd_dispatcher_id r) /\
      in_opt (rf_metric_types (filter_opt options)) (InMemoryReadingRegistry.metric_type (rd_metric r)) /\
      in_opt (rf_locations (filter_opt options)) (rd_location r) /\
      in_range_opt (rf_confidence_range (filter_opt options)) (percent (rd_confidence r)) /\
      in_window (rf_timestamp_after (filter_opt options)) (rf_timestamp_before (filter_opt options))
        (rd_timestamp r).
Proof.
  eexists. split; [reflexivity|]. split; [apply sort_by_sorted, InMemoryReadingRegistry.reading_cmp_laws|].
  intros r. rewrite <- InMemoryReadingRegistry.reading_matches_iff.
  etransitivity; [apply (elem_of_selection (InMemoryReadingRegistry.reading_matches _)
    (InMemoryReadingRegistry.reading_cmp _ _))|tauto].
Qed.

(** ** Witnesses *)

Module InMemoryWitness.
Definition three : InMemoryDeviceRegistry.t :=
  DeviceOps.exec (DeviceOps.BatchRegister (sample_device <$> [1; 2; 3])) InMemoryDeviceRegistry.new.

Lemma three_wf : InMemoryDeviceRegistry.wf three.
Proof. by apply DeviceOps.exec_wf. Qed.

Definition list_of (p : Pagination.t) : result (list Device) InMemoryError :=
  snd (@InMemoryDeviceRegistry.list lowercase_ascii hash_iter_std
    (mkQueryOptions DeviceFilter_default DeviceSortBy.ProvisionAt SortOrder.Desc p) three).

Lemma device_cursor_pages_tile_witness :
  list_of (Pagination.Offset 0 2) = Ok [sample_device 3; sample_device 2] /\
  list_of (Pagination.Cursor (Some 2) 1) = Ok [sample_device 1] /\
  list_of (Pagination.Offset 0 (2 + 1)) = Ok ([sample_device 3; sample_device 2] ++ [sample_device 1]).
Proof.
  split; [vm_compute; reflexivity|]. split; [vm_compute; reflexivity|].
  apply (@device_cursor_pages_tile lowercase_ascii hash_iter_std DeviceFilter_default
    DeviceSortBy.ProvisionAt SortOrder.Desc three 2 1 _ _ (sample_device 2) 2); try done.
  apply three_wf.
Defined.

Lemma device_count_agrees_witness :
  @InMemoryDeviceRegistry.count lowercase_ascii hash_iter_std (Some DeviceFilter_default) three =
    (three, Ok 3) /\
  @InMemoryDeviceRegistry.count lowercase_ascii hash_iter_std None three = (three, Ok 3).
Proof.
  apply (@device_count_agrees lowercase_ascii hash_iter_std DeviceFilter_default
    DeviceSortBy.ProvisionAt SortOrder.Desc three 3
    [sample_device 3; sample_device 2; sample_device 1]); vm_compute; done.
Defined.

Lemma device_registry_wf_invariant_witness :
  InMemoryDeviceRegistry.wf (DeviceOps.exec_all
    [DeviceOps.Suspend (mkDeviceId 2); DeviceOps.AddSensor (mkDeviceId 1) (sample_sensor 9);
     DeviceOps.Update (mkDeviceId 3) (sample_device 3)] three).
Proof. apply (device_registry_wf_invariant _ _); [repeat constructor|apply three_wf]. Defined.

Lemma device_suspend_race_loses_sensor_witness :
  let id := mkDeviceId 2 in
  let self1 := fst (InMemoryDeviceRegistry.add_sensor id (sample_sensor 9) three) in
  let self2 := fst (InMemoryDeviceRegistry.suspend_write id (sample_device 2) self1) in
  (∃ d1, InMemoryDeviceRegistry.devices self1 !! id = Some d1 /\
     dev_sensors d1 = dev_sensors (sample_device 2) ++ [sample_sensor 9]) /\
  (∃ d2, InMemoryDeviceRegistry.devices self2 !! id = Some d2 /\
     dev_sensors d2 = dev_sensors (sample_device 2)).
Proof.
  apply (device_suspend_race_loses_sensor _ _ three); vm_compute; reflexivity.
Defined.
End InMemoryWitness.
