(* ===== verification/PrimeHandlers.v ===== *)
(** * The RPC handlers of ersha-prime: ersha-prime/src/main.rs

    [AppState] holds the four registries, each behind its trait.  The handlers registered on the
    RPC server by [run_server] are functions of the request and the state.  A [get] that the
    handlers make goes through the trait, so what they do on a failing registry is part of the
    model.  [tracing] calls have no effect on the state and are left out. *)
From Stdlib Require Import ZArith Lia.
From stdpp Require Import base gmap strings list.
From S2P Require Import Prelude Platform Core Samples Filter Registry InMemory.
Open Scope Z_scope.

(** [ersha-prime/src/main.rs:53-64] AppState *)
Record AppState (D Dev R S : Type) := mkAppState {
  dispatcher_registry : D;
  device_registry : Dev;
  reading_registry : R;
  device_status_registry : S
}.
Arguments mkAppState {D Dev R S}.
Arguments dispatcher_registry {D Dev R S}.
Arguments device_registry {D Dev R S}.
Arguments reading_registry {D Dev R S}.
Arguments device_status_registry {D Dev R S}.

Section handlers.
Context {D Dev R S DE VE RE SE : Type} `{!DispatcherRegistry D DE} `{!DeviceRegistry Dev VE}
  `{!ReadingRegistry R RE} `{!DeviceStatusRegistry S SE}.

(** [ersha-prime/src/main.rs:187-225] on_hello handler *)
Definition on_hello (hello : HelloRequest) (state : AppState D Dev R S) :
    AppState D Dev R S * HelloResponse.t :=
  let (d, res) := dspr_get (hello_dispatcher_id hello) (dispatcher_registry state) in
  (mkAppState d (device_registry state) (reading_registry state) (device_status_registry state),
   match res with
   | Ok (Some dispatcher) =>
       if decide (disp_state dispatcher = DispatcherState.Active)
       then HelloResponse.Accepted (hello_dispatcher_id hello)
       else HelloResponse.Rejected HelloRejectionReason.DispatcherSuspended
   | Ok None => HelloResponse.Rejected HelloRejectionReason.UnknownDispatcher
   | Err _ => HelloResponse.Rejected HelloRejectionReason.InternalError
   end).

(** [ersha-prime/src/main.rs:239-267] the two loops of on_batch_upload, over readings and over statuses *)
Fixpoint keep_known {A} (device_id : A -> DeviceId) (items valid : list A) (rejected : Z) (r : Dev) :
    Dev * (list A * Z) :=
  match items with
  | [] => (r, (valid, rejected))
  | item :: items' =>
      let (r, res) := devr_get (device_id item) r in
      match res with
      | Ok (Some _) => keep_known device_id items' (valid ++ [item]) rejected r
      | _ => keep_known device_id items' valid (as_u32 (rejected + 1)) r
      end
  end.

(** [ersha-prime/src/main.rs:226-304] on_batch_upload handler *)
Definition on_batch_upload (request : BatchUploadRequest) (state : AppState D Dev R S) :
    AppState D Dev R S * BatchUploadResponse :=
  let '(dev, (valid_readings, rejected_readings)) :=
    keep_known rd_device_id (bu_readings request) [] 0 (device_registry state) in
  let '(dev, (valid_statuses, rejected_statuses)) :=
    keep_known st_device_id (bu_statuses request) [] 0 dev in
  let readings_stored := as_u32 (Z.of_nat (length valid_readings)) in
  let statuses_stored := as_u32 (Z.of_nat (length valid_statuses)) in
  let r := match valid_readings with
           | [] => reading_registry state
           | _ => fst (rdr_batch_store valid_readings (reading_registry state))
           end in
  let s := match valid_statuses with
           | [] => device_status_registry state
           | _ => fst (str_batch_store valid_statuses (device_status_registry state))
           end in
  (mkAppState (dispatcher_registry state) dev r s,
   mkBatchUploadResponse (bu_id request) readings_stored rejected_readings
     statuses_stored rejected_statuses).

(** [ersha-prime/src/main.rs:305-325] on_alert handler *)
Definition on_alert (request : AlertRequest) (state : AppState D Dev R S) :
    AppState D Dev R S * AlertResponse :=
  (state, mkAlertResponse (alert_id request) true).

(** [ersha-prime/src/main.rs:326-340] on_dispatcher_status handler *)
Definition on_dispatcher_status (request : DispatcherStatusRequest) (state : AppState D Dev R S) :
    AppState D Dev R S * DispatcherStatusResponse :=
  (state, mkDispatcherStatusResponse (dsr_dispatcher_id request)).

(** [ersha-prime/src/main.rs:341-354] on_device_disconnection handler *)
Definition on_device_disconnection (request : DeviceDisconnectionRequest) (state : AppState D Dev R S) :
    AppState D Dev R S * DeviceDisconnectionResponse :=
  (state, mkDeviceDisconnectionResponse (ddr_device_id request)).

(** The registry answers [Ok(Some(_))] for this device. *)
Definition known (r : Dev) (id : DeviceId) : bool :=
  match snd (devr_get id r) with Ok (Some _) => true | _ => false end.

Definition known_readings (request : BatchUploadRequest) (state : AppState D Dev R S) :=
  filter (fun x => known (device_registry state) (rd_device_id x) = true) (bu_readings request).
Definition known_statuses (request : BatchUploadRequest) (state : AppState D Dev R S) :=
  filter (fun x => known (device_registry state) (st_device_id x) = true) (bu_statuses request).

Lemma keep_known_spec `{!DeviceRegistryLaws Dev VE dview} {A} (key : A -> DeviceId) items :
  ∀ valid rej r, u32 rej ->
  keep_known key items valid rej r =
    (r, (valid ++ filter (fun x => known r (key x) = true) items,
         as_u32 (rej + (Z.of_nat (length items)
                        - Z.of_nat (length (filter (fun x => known r (key x) = true) items)))))).
Proof.
  induction items as [|x items IH]; intros valid rej r Hrej.
  - cbn. rewrite app_nil_r. rewrite Z.add_0_r. do 2 f_equal. symmetry.
    by apply wrap_small.
  - cbn [keep_known]. rewrite filter_cons, length_cons.
    destruct (devr_get (key x) r) as [r' res] eqn:Hget.
    pose proof (devr_get_spec _ _ _ _ Hget) as [-> _].
    assert (known r (key x) = match res with Ok (Some _) => true | _ => false end) as Hk
      by (unfold known; by rewrite Hget).
    destruct res as [[d|]|e]; [rewrite decide_True by done | rewrite decide_False by congruence..].
    + rewrite IH by done. rewrite <- app_assoc, length_cons. cbn [app]. do 3 f_equal. lia.
    + rewrite IH by (apply wrap_range; lia). unfold as_u32. rewrite wrap_add_l. do 3 f_equal. lia.
    + rewrite IH by (apply wrap_range; lia). unfold as_u32. rewrite wrap_add_l. do 3 f_equal. lia.
Qed.

Lemma length_filter_bound {A} (P : A -> Prop) `{!∀ x, Decision (P x)} (l : list A) :
  Z.of_nat (length (filter P l)) <= Z.of_nat (length l).
Proof. pose proof (length_filter P l). lia. Qed.

(** What the handler computes, in one equation: the known readings and statuses go to their
    registries, everything else is counted as rejected. *)
Lemma on_batch_upload_eq `{!DeviceRegistryLaws Dev VE dview} request state :
  Z.of_nat (length (bu_readings request)) < 2 ^ 32 ->
  Z.of_nat (length (bu_statuses request)) < 2 ^ 32 ->
  on_batch_upload request state =
    (mkAppState (dispatcher_registry state) (device_registry state)
       (match known_readings request state with
        | [] => reading_registry state
        | _ => fst (rdr_batch_store (known_readings request state) (reading_registry state)) end)
       (match known_statuses request state with
        | [] => device_status_registry state
        | _ => fst (str_batch_store (known_statuses request state) (device_status_registry state)) end),
     mkBatchUploadResponse (bu_id request)
       (Z.of_nat (length (known_readings request state)))
       (Z.of_nat (length (bu_readings request)) - Z.of_nat (length (known_readings request state)))
       (Z.of_nat (length (known_statuses request state)))
       (Z.of_nat (length (bu_statuses request)) - Z.of_nat (length (known_statuses request state)))).
Proof.
  intros Hr Hs. unfold on_batch_upload.
  rewrite !keep_known_spec by (unfold is_unsigned; lia). cbn [app].
  fold (known_readings request state) (known_statuses request state).
  assert (Z.of_nat (length (known_readings request state)) <= Z.of_nat (length (bu_readings request)))
    by apply length_filter_bound.
  assert (Z.of_nat (length (known_statuses request state)) <= Z.of_nat (length (bu_statuses request)))
    by apply length_filter_bound.
  unfold as_u32. rewrite !Z.add_0_l, !wrap_small by (unfold is_unsigned; lia). done.
Qed.
End handlers.

(** ** Hello *)

(** a hello is accepted, under the id it names, exactly when the dispatcher registry answers
    with an active dispatcher; a suspended, an unknown dispatcher and a failing registry each get
    their own rejection reason, and no other registry is touched. *)
Theorem hello_accepts_active_dispatchers {D Dev R S DE : Type} `{DispatcherRegistryLaws D DE dview}
    (hello : HelloRequest) (state state' : AppState D Dev R S) resp :
  on_hello hello state = (state', resp) ->
  state' = state /\
  (∀ i, resp = HelloResponse.Accepted i <->
     i = hello_dispatcher_id hello /\
     ∃ d, snd (dspr_get i (dispatcher_registry state)) = Ok (Some d) /\
       dview (dispatcher_registry state) !! i = Some d /\ disp_state d = DispatcherState.Active) /\
  (resp = HelloResponse.Rejected HelloRejectionReason.DispatcherSuspended <->
     ∃ d, snd (dspr_get (hello_dispatcher_id hello) (dispatcher_registry state)) = Ok (Some d) /\
       dview (dispatcher_registry state) !! hello_dispatcher_id hello = Some d /\
       disp_state d = DispatcherState.Suspended) /\
  (resp = HelloResponse.Rejected HelloRejectionReason.UnknownDispatcher <->
     snd (dspr_get (hello_dispatcher_id hello) (dispatcher_registry state)) = Ok None /\
     dview (dispatcher_registry state) !! hello_dispatcher_id hello = None) /\
  (resp = HelloResponse.Rejected HelloRejectionReason.InternalError <->
     ∃ e, snd (dspr_get (hello_dispatcher_id hello) (dispatcher_registry state)) = Err e).
Proof.
  unfold on_hello.
  destruct (dspr_get _ (dispatcher_registry state)) as [d res] eqn:Hget.
  pose proof (dspr_get_spec _ _ _ _ Hget) as [-> Hview]. intros [= <- <-].
  split; [by destruct state|]. cbn [snd].
  cbn [snd].
  destruct res as [[x|]|e]; [destruct (decide _) as [Ha|Ha]| |].
  - split_and!; [|naive_solver congruence..].
    intros i. split; [intros [= <-]; rewrite Hget; naive_solver|]. by intros [-> _].
  - assert (disp_state x = DispatcherState.Suspended) by (by destruct (disp_state x)).
    split_and!; [|naive_solver..].
    intros i. split; [done|]. intros [-> Hx]. rewrite Hget in Hx. naive_solver.
  - split_and!; [|naive_solver..].
    intros i. split; [done|]. intros [-> Hx]. rewrite Hget in Hx. naive_solver.
  - split_and!; [|naive_solver..].
    intros i. split; [done|]. intros [-> Hx]. rewrite Hget in Hx. naive_solver.
Qed.

(** ** Batch upload *)

(** a batch upload stores exactly the readings and the statuses of devices the registry knows,
    reports how many of each were kept and how many rejected, and changes neither the device nor
    the dispatcher registry. *)
Theorem batch_upload_stores_known_devices {D Dev R S VE RE SE : Type}
    `{DeviceRegistryLaws Dev VE dview} `{ReadingRegistryLaws R RE rview}
    `{DeviceStatusRegistryLaws S SE sview}
    (request : BatchUploadRequest) (state state' : AppState D Dev R S) resp :
  Z.of_nat (length (bu_readings request)) < 2 ^ 32 ->
  Z.of_nat (length (bu_statuses request)) < 2 ^ 32 ->
  on_batch_upload request state = (state', resp) ->
  dispatcher_registry state' = dispatcher_registry state /\
  device_registry state' = device_registry state /\
  (snd (rdr_batch_store (known_readings request state) (reading_registry state)) = Ok tt ->
     rview (reading_registry state')
       = insert_all rd_id (known_readings request state) (rview (reading_registry state))) /\
  (snd (str_batch_store (known_statuses request state) (device_status_registry state)) = Ok tt ->
     sview (device_status_registry state')
       = insert_all st_id (known_statuses request state) (sview (device_status_registry state))) /\
  bur_id resp = bu_id request /\
  bur_readings_stored resp = Z.of_nat (length (known_readings request state)) /\
  bur_readings_stored resp + bur_readings_rejected resp = Z.of_nat (length (bu_readings request)) /\
  bur_statuses_stored resp = Z.of_nat (length (known_statuses request state)) /\
  bur_statuses_stored resp + bur_statuses_rejected resp = Z.of_nat (length (bu_statuses request)).
Proof.
  intros Hr Hs. rewrite (on_batch_upload_eq (dview := dview)) by done. intros [= <- <-]. csimpl.
  split_and!; try done; try lia.
  - intros Hok. destruct (known_readings request state) as [|x l]; [done|].
    destruct (rdr_batch_store (x :: l) _) as [r' res] eqn:E. cbn in Hok; subst res.
    exact (rdr_batch_store_spec _ _ _ _ E).
  - intros Hok. destruct (known_statuses request state) as [|x l]; [done|].
    destruct (str_batch_store (x :: l) _) as [r' res] eqn:E. cbn in Hok; subst res.
    exact (str_batch_store_spec _ _ _ _ E).
Qed.

(** When the reading registry fails to store the batch, the response still reports the
    readings of known devices as stored, although none of them is. *)
Theorem batch_upload_acknowledges_failed_store {D Dev R S VE RE SE : Type}
    `{DeviceRegistryLaws Dev VE dview} `{!ReadingRegistry R RE} `{!DeviceStatusRegistry S SE}
    (request : BatchUploadRequest) (state : AppState D Dev R S) e :
  Z.of_nat (length (bu_readings request)) < 2 ^ 32 ->
  Z.of_nat (length (bu_statuses request)) < 2 ^ 32 ->
  rdr_batch_store (known_readings request state) (reading_registry state)
    = (reading_registry state, Err e) ->
  let (state', resp) := on_batch_upload request state in
  reading_registry state' = reading_registry state /\
  bur_readings_stored resp = Z.of_nat (length (known_readings request state)).
Proof.
  intros Hr Hs Hfail. rewrite (on_batch_upload_eq (dview := dview)) by done. cbn.
  split; [|done]. destruct (known_readings request state); [done|]. by rewrite Hfail.
Qed.

(** the batch handler never consults the dispatcher registry: whatever it contains, and
    whichever dispatcher the batch names, the response and the stored data are the same, so a
    suspended dispatcher uploads like an active one. *)
Theorem batch_upload_ignores_dispatcher {D Dev R S VE RE SE : Type} `{!DeviceRegistry Dev VE}
    `{!ReadingRegistry R RE} `{!DeviceStatusRegistry S SE}
    (request : BatchUploadRequest) (state : AppState D Dev R S) (d : D) (id : DispatcherId) :
  let other := mkAppState d (device_registry state) (reading_registry state)
                 (device_status_registry state) in
  let request' := mkBatchUploadRequest (bu_id request) id (bu_readings request)
                    (bu_statuses request) (bu_timestamp request) in
  let (s1, r1) := on_batch_upload request state in
  let (s2, r2) := on_batch_upload request' other in
  r2 = r1 /\ device_registry s2 = device_registry s1 /\ reading_registry s2 = reading_registry s1 /\
  device_status_registry s2 = device_status_registry s1.
Proof.
  cbn. unfold on_batch_upload. cbn.
  destruct (keep_known rd_device_id _ _ _ _) as [dev [vr nr]].
  by destruct (keep_known st_device_id _ _ _ dev) as [dev' [vs ns]].
Qed.

(** ** The handlers over the in-memory registries *)

Abbreviation MemState := (AppState InMemoryDispatcherRegistry.t InMemoryDeviceRegistry.t
  InMemoryReadingRegistry.t InMemoryDeviceStatusRegistry.t).

Section memory.
Context `{!Lowercase} `{!HashIter DeviceId Device} `{!HashIter ReadingId SensorReading}
  `{!HashIter StatusId DeviceStatus} (request : BatchUploadRequest) (state : MemState).

Lemma known_is_Some id :
  known (device_registry state) id = true <-> is_Some (InMemoryDeviceRegistry.devices (device_registry state) !! id).
Proof. unfold known. cbn. destruct (_ !! _); cbn; [done|]. split; [done|by intros []]. Qed.

(** The reading registry after a batch. *)
Lemma batch_upload_readings :
  InMemoryReadingRegistry.readings (reading_registry (fst (on_batch_upload request state))) =
  insert_all rd_id (known_readings request state) (InMemoryReadingRegistry.readings (reading_registry state)).
Proof.
  unfold on_batch_upload.
  rewrite !(keep_known_spec (dview := InMemoryDeviceRegistry.devices)) by (unfold is_unsigned; lia).
  cbn [app fst reading_registry]. fold (known_readings request state).
  destruct (known_readings request state) as [|x l]; [done|].
  change (rdr_batch_store ?rs) with (InMemoryReadingRegistry.batch_store rs).
  by rewrite InMemoryReadingRegistry.reading_batch_store_eq.
Qed.

(** The other registries a reading depends on are as they were. *)
Lemma batch_upload_devices : device_registry (fst (on_batch_upload request state)) = device_registry state.
Proof.
  unfold on_batch_upload.
  by rewrite !(keep_known_spec (dview := InMemoryDeviceRegistry.devices)) by (unfold is_unsigned; lia).
Qed.

(** One id at a time. *)
Lemma batch_upload_lookup (r : SensorReading) :
  NoDup (rd_id <$> bu_readings request) -> r ∈ bu_readings request ->
  InMemoryReadingRegistry.readings (reading_registry (fst (on_batch_upload request state)))
    !! rd_id r =
  match InMemoryDeviceRegistry.devices (device_registry state) !! rd_device_id r with
  | Some _ => Some r
  | None => InMemoryReadingRegistry.readings (reading_registry state) !! rd_id r
  end.
Proof.
  intros Hnd Hin. rewrite batch_upload_readings. unfold known_readings.
  destruct (InMemoryDeviceRegistry.devices _ !! rd_device_id r) as [d|] eqn:Hd.
  - apply lookup_insert_all_NoDup; [|apply list_elem_of_filter; split; [apply known_is_Some; eauto|done]].
    eapply sublist_NoDup; [exact Hnd|]. apply fmap_sublist, sublist_filter.
  - rewrite lookup_insert_all, filter_none; [done|].
    intros x [Hx Hxin]%list_elem_of_filter Heq.
    assert (x = r) as -> by (eapply NoDup_fmap_inj_on; done).
    apply known_is_Some in Hx as [? Hx]. congruence.
Qed.
End memory.

(** over the in-memory registries, after a batch with distinct reading ids every reading of a
    registered device is stored under its id, and a reading of an unregistered device leaves
    its id as it was. *)
Theorem batch_upload_in_memory `{!Lowercase} `{!HashIter DeviceId Device}
    `{!HashIter ReadingId SensorReading} `{!HashIter StatusId DeviceStatus}
    (request : BatchUploadRequest) (state : MemState) (r : SensorReading) :
  NoDup (rd_id <$> bu_readings request) -> r ∈ bu_readings request ->
  InMemoryReadingRegistry.readings (reading_registry (fst (on_batch_upload request state)))
    !! rd_id r =
  match InMemoryDeviceRegistry.devices (device_registry state) !! rd_device_id r with
  | Some _ => Some r
  | None => InMemoryReadingRegistry.readings (reading_registry state) !! rd_id r
  end.
Proof. apply batch_upload_lookup. Qed.

(** ** Witnesses *)

Module PrimeWitness.
#[local] Existing Instance hash_iter_std.
#[local] Existing Instance lowercase_ascii.

(** Dispatchers 1 (active) and 2 (suspended), device 1, nothing stored. *)
Definition state0 : MemState :=
  mkAppState
    (InMemoryDispatcherRegistry.mk
       (insert_all disp_id
          [sample_dispatcher 1;
           mkDispatcher (mkDispatcherId 2) (mkH3Cell 7) DispatcherState.Suspended (mkTimestamp 0)] ∅))
    (InMemoryDeviceRegistry.mk (insert_all dev_id [sample_device 1] ∅))
    InMemoryReadingRegistry.new InMemoryDeviceStatusRegistry.new.

(** One reading and one status of device 1, one reading of the unregistered device 9. *)
Definition request0 : BatchUploadRequest :=
  mkBatchUploadRequest (mkBatchId 5) (mkDispatcherId 2) [sample_reading 1 1; sample_reading 2 9]
    [sample_status 3 1 80] (mkTimestamp 0).

(** A reading registry whose store always fails. *)
#[local] Instance broken : ReadingRegistry unit unit := {|
  rdr_store _ r := (r, Err tt); rdr_get _ r := (r, Err tt); rdr_batch_store _ r := (r, Err tt);
  rdr_count _ r := (r, Err tt); rdr_list _ r := (r, Err tt)
|}.

Definition broken_state :=
  mkAppState (dispatcher_registry state0) (device_registry state0) tt (device_status_registry state0).

Lemma hello_accepts_active_dispatchers_witness :
  let hello := mkHelloRequest (mkDispatcherId 2) (mkH3Cell 7) in
  snd (on_hello hello state0)
    = HelloResponse.Rejected HelloRejectionReason.DispatcherSuspended /\
  ∃ d, InMemoryDispatcherRegistry.dispatchers (dispatcher_registry state0)
         !! mkDispatcherId 2 = Some d /\ disp_state d = DispatcherState.Suspended.
Proof.
  set (hello := mkHelloRequest (mkDispatcherId 2) (mkH3Cell 7)).
  assert (snd (on_hello hello state0)
    = HelloResponse.Rejected HelloRejectionReason.DispatcherSuspended) as E
    by (vm_compute; reflexivity).
  split; [exact E|].
  destruct (hello_accepts_active_dispatchers (dview := InMemoryDispatcherRegistry.dispatchers)
    hello state0 (fst (on_hello hello state0))
    (snd (on_hello hello state0)) (surjective_pairing _)) as (_ & _ & Hs & _).
  destruct (proj1 Hs E) as (d & _ & Hd & Hst). exists d. split; assumption.
Defined.

Lemma batch_upload_stores_known_devices_witness :
  let (s', resp) := on_batch_upload request0 state0 in
  bur_readings_stored resp = 1 /\ bur_readings_stored resp + bur_readings_rejected resp = 2 /\
  InMemoryReadingRegistry.readings (reading_registry s')
    = insert_all rd_id (known_readings request0 state0) ∅.
Proof.
  destruct (on_batch_upload request0 state0) as [s' resp] eqn:E.
  destruct (batch_upload_stores_known_devices (dview := InMemoryDeviceRegistry.devices)
    (rview := InMemoryReadingRegistry.readings) (sview := InMemoryDeviceStatusRegistry.statuses)
    request0 state0 s' resp ltac:(vm_compute; reflexivity) ltac:(vm_compute; reflexivity) E)
    as (_ & _ & Hr & _ & _ & H1 & H2 & _).
  split; [rewrite H1; vm_compute; reflexivity|]. split; [rewrite H2; reflexivity|].
  apply Hr. vm_compute. reflexivity.
Defined.

Lemma batch_upload_acknowledges_failed_store_witness :
  let (s', resp) := on_batch_upload request0 broken_state in
  reading_registry s' = tt /\ bur_readings_stored resp = 1.
Proof.
  pose proof (batch_upload_acknowledges_failed_store (dview := InMemoryDeviceRegistry.devices)
    request0 broken_state tt eq_refl eq_refl eq_refl) as H.
  vm_compute in H. vm_compute. exact H.
Defined.

Lemma batch_upload_in_memory_witness :
  InMemoryReadingRegistry.readings (reading_registry (fst (on_batch_upload request0 state0)))
    !! mkReadingId 1 = Some (sample_reading 1 1).
Proof.
  apply (batch_upload_in_memory request0 state0 (sample_reading 1 1)).
  - apply (bool_decide_unpack _). vm_compute. exact I.
  - apply (bool_decide_unpack _). vm_compute. exact I.
Defined.
End PrimeWitness.
