(* ===== verification/PrimeApi.v ===== *)
(** * The HTTP API of ersha-prime: ersha-prime/src/api/ and the routes of main.rs

    A handler is a function of the extracted request and the [ApiState] that returns the state after
    it and a [Response].  Values the handlers take from the environment are arguments: [now] is
    [jiff::Timestamp::now()], and the count of calls of [Ulid::new] is threaded.  JSON (serde_json) and query strings (serde_urlencoded) are the
    class [Serde]. *)
From Stdlib Require Import ZArith Lia Strings.String Strings.Ascii.
From stdpp Require Import base gmap strings list pretty.
From S2P Require Import Prelude Platform Core Samples Filter Registry InMemory PrimeHandlers.
Open Scope Z_scope.

(** [Display] of an error type. *)
Class Display (E : Type) := to_string : E -> string.

(** [ersha-prime/src/registry/memory/mod.rs:11-15] Display of InMemoryError *)
#[export] Instance InMemoryError_display : Display InMemoryError := fun e =>
  match e with NotFound => "not found"%string end.

(** [axum::response::Response]: the status code and the body. *)
Record Response := mkResponse { status : Z; body : string }.
#[export] Instance Response_eq_dec : EqDecision Response. Proof. solve_decision. Defined.

Definition OK := 200.
Definition CREATED := 201.
Definition BAD_REQUEST := 400.
Definition NOT_FOUND := 404.
Definition METHOD_NOT_ALLOWED := 405.
Definition INTERNAL_SERVER_ERROR := 500.

(** [ersha-prime/src/api/mod.rs:11-20] ApiState *)
Record ApiState (D Dev : Type) := mkApiState { api_dispatchers : D; api_devices : Dev }.
Arguments mkApiState {D Dev}.
Arguments api_dispatchers {D Dev}.
Arguments api_devices {D Dev}.

Module StateFilter.
(** [ersha-prime/src/api/dispatchers.rs:57-63] StateFilter *)
Inductive t := Active | Suspended.
End StateFilter.

Module QuerySortOrder.
(** [ersha-prime/src/api/dispatchers.rs:65-71] QuerySortOrder *)
Inductive t := Asc | Desc.
End QuerySortOrder.

(** The pagination both list handlers build: a cursor when [after] is given, else an offset. *)
Definition build_pagination `{UlidText} (offset limit : option Z) (after : option string) :
    result Pagination.t Response :=
  match after with
  | Some after_str =>
      match ulid_from_str after_str with
      | Some cursor => Ok (Pagination.Cursor (Some cursor) (Z.min (default 100 limit) 100))
      | None => Err (mkResponse BAD_REQUEST "Invalid cursor")
      end
  | None => Ok (Pagination.Offset (default 0 offset) (Z.min (default 100 limit) 100))
  end.

(** ** Dispatchers *)

(** [ersha-prime/src/api/dispatchers.rs:18-25] RegisterDispatcherRequest *)
Record RegisterDispatcherRequest := mkRegisterDispatcherRequest {
  rdq_id : option Ulid;
  rdq_location : Z
}.

(** [ersha-prime/src/api/dispatchers.rs:27-34] DispatcherResponse *)
Record DispatcherResponse := mkDispatcherResponse {
  dr_id : string;
  dr_location : Z;
  dr_state : string;
  dr_provisioned_at : string
}.

(** [ersha-prime/src/api/dispatchers.rs:36-48] From<Dispatcher> for DispatcherResponse *)
Definition DispatcherResponse_from `{UlidText, Jiff} (d : Dispatcher) : DispatcherResponse :=
  mkDispatcherResponse (ulid_to_string (dispatcher_ulid (disp_id d))) (h3_cell (disp_location d))
    (match disp_state d with
     | DispatcherState.Active => "active"
     | DispatcherState.Suspended => "suspended"
     end) (ts_to_string (disp_provisioned_at d)).

(** [ersha-prime/src/api/dispatchers.rs:50-55] ListDispatchersResponse *)
Record ListDispatchersResponse := mkListDispatchersResponse {
  ldr_dispatchers : list DispatcherResponse;
  ldr_total : Z
}.

(** [ersha-prime/src/api/dispatchers.rs:73-88] ListDispatchersQuery *)
Record ListDispatchersQuery := mkListDispatchersQuery {
  lsq_state : option StateFilter.t;
  lsq_location : option Z;
  lsq_sort_order : option QuerySortOrder.t;
  lsq_offset : option Z;
  lsq_limit : option Z;
  lsq_after : option string
}.

(** ** Devices *)

(** [ersha-prime/src/api/devices.rs:37-44] SensorRequest *)
Record SensorRequest := mkSensorRequest { sq_id : option Ulid; sq_kind : string }.

(** [ersha-prime/src/api/devices.rs:21-35] RegisterDeviceRequest *)
Record RegisterDeviceRequest := mkRegisterDeviceRequest {
  rq_id : option Ulid;
  rq_location : Z;
  rq_kind : option string;
  rq_manufacturer : option string;
  rq_sensors : list SensorRequest
}.

(** [ersha-prime/src/api/devices.rs:46-51] SensorResponse *)
Record SensorResponse := mkSensorResponse { sr_id : string; sr_kind : string }.

(** [ersha-prime/src/api/devices.rs:53-66] From<&Sensor> for SensorResponse *)
Definition SensorResponse_from `{UlidText} (s : Sensor) : SensorResponse :=
  mkSensorResponse (ulid_to_string (sensor_ulid (sensor_id s)))
    (match sensor_kind s with
     | SensorKind.SoilMoisture => "soil_moisture"
     | SensorKind.SoilTemp => "soil_temp"
     | SensorKind.AirTemp => "air_temp"
     | SensorKind.Humidity => "humidity"
     | SensorKind.Rainfall => "rainfall"
     end).

(** [ersha-prime/src/api/devices.rs:68-78] DeviceResponse *)
Record DeviceResponse := mkDeviceResponse {
  der_id : string;
  der_kind : string;
  der_state : string;
  der_location : Z;
  der_manufacturer : option string;
  der_provisioned_at : string;
  der_sensors : list SensorResponse
}.

(** [ersha-prime/src/api/devices.rs:80-97] From<Device> for DeviceResponse *)
Definition DeviceResponse_from `{UlidText, Jiff} (d : Device) : DeviceResponse :=
  mkDeviceResponse (ulid_to_string (device_ulid (dev_id d)))
    (match dev_kind d with DeviceKind.Sensor => "sensor" end)
    (match dev_state d with
     | DeviceState.Active => "active"
     | DeviceState.Suspended => "suspended"
     end)
    (h3_cell (dev_location d)) (dev_manufacturer d) (ts_to_string (dev_provisioned_at d))
    (SensorResponse_from <$> dev_sensors d).

(** [ersha-prime/src/api/devices.rs:99-104] ListDevicesResponse *)
Record ListDevicesResponse := mkListDevicesResponse {
  lder_devices : list DeviceResponse;
  lder_total : Z
}.

Module DeviceQuerySortBy.
(** [ersha-prime/src/api/devices.rs:109-117] DeviceQuerySortBy *)
Inductive t := State | Manufacturer | ProvisionedAt | SensorCount.
End DeviceQuerySortBy.

(** [ersha-prime/src/api/devices.rs:119-142] ListDevicesQuery *)
Record ListDevicesQuery := mkListDevicesQuery {
  lq_state : option StateFilter.t;
  lq_location : option Z;
  lq_manufacturer : option string;
  lq_provisioned_after : option string;
  lq_provisioned_before : option string;
  lq_sort_by : option DeviceQuerySortBy.t;
  lq_sort_order : option QuerySortOrder.t;
  lq_offset : option Z;
  lq_limit : option Z;
  lq_after : option string
}.

(** [ersha-prime/src/api/devices.rs:144-153] parse_sensor_kind *)
Definition parse_sensor_kind (kind : string) : option SensorKind.t :=
  if String.eqb kind "soil_moisture" then Some SensorKind.SoilMoisture
  else if String.eqb kind "soil_temp" then Some SensorKind.SoilTemp
  else if String.eqb kind "air_temp" then Some SensorKind.AirTemp
  else if String.eqb kind "humidity" then Some SensorKind.Humidity
  else if String.eqb kind "rainfall" then Some SensorKind.Rainfall
  else None.

(** [NotNan::new(0.0).unwrap()]. *)
Definition zero_f64 : NotNan := mkNotNan (Floats.SpecFloat.S754_zero false) eq_refl.

(** [ersha-prime/src/api/devices.rs:155-173] default_metric_for_kind *)
Definition default_metric_for_kind (kind : SensorKind.t) : SensorMetric.t :=
  match kind with
  | SensorKind.SoilMoisture => SensorMetric.SoilMoisture (mkPercentage 0)
  | SensorKind.SoilTemp => SensorMetric.SoilTemp zero_f64
  | SensorKind.AirTemp => SensorMetric.AirTemp zero_f64
  | SensorKind.Humidity => SensorMetric.Humidity (mkPercentage 0)
  | SensorKind.Rainfall => SensorMetric.Rainfall zero_f64
  end.

(** [opt.unwrap_or_else(Ulid::new)]: the id and the number of generated ids so far. *)
Definition or_new `{UlidGen} (o : option Ulid) (n : nat) : Ulid * nat :=
  match o with Some id => (id, n) | None => (ulid_new n, S n) end.

(** [ersha-prime/src/api/devices.rs:188-206] register_device: the loop over the sensors *)
Fixpoint parse_sensors `{UlidGen} (reqs : list SensorRequest) (n : nat) :
    nat * result (list Sensor) Response :=
  match reqs with
  | [] => (n, Ok [])
  | req :: reqs' =>
      match parse_sensor_kind (sq_kind req) with
      | None => (n, Err (mkResponse BAD_REQUEST ("Invalid sensor kind: " +:+ sq_kind req)))
      | Some sensor_kind =>
          let (id, n) := or_new (sq_id req) n in
          let (n, rest) := parse_sensors reqs' n in
          (n, match rest with
              | Ok sensors =>
                  Ok (mkSensor (mkSensorId id) (default_metric_for_kind sensor_kind) sensor_kind
                        :: sensors)
              | Err e => Err e
              end)
      end
  end.

(** ** Handlers *)

Definition state_of_filter_disp (f : StateFilter.t) : DispatcherState.t :=
  match f with
  | StateFilter.Active => DispatcherState.Active
  | StateFilter.Suspended => DispatcherState.Suspended
  end.
Definition state_of_filter_dev (f : StateFilter.t) : DeviceState.t :=
  match f with
  | StateFilter.Active => DeviceState.Active
  | StateFilter.Suspended => DeviceState.Suspended
  end.
Definition build_sort_order (o : option QuerySortOrder.t) : SortOrder.t :=
  match o with
  | Some QuerySortOrder.Asc => SortOrder.Asc
  | Some QuerySortOrder.Desc | None => SortOrder.Desc
  end.

(** [ersha-prime/src/api/dispatchers.rs:169-211] list_dispatchers: the query options *)
Definition dispatcher_query_options `{UlidText} (query : ListDispatchersQuery) :
    result (QueryOptions DispatcherFilter DispatcherSortBy.t) Response :=
  let filter := mkDispatcherFilter
    ((fun s => [state_of_filter_disp s]) <$> lsq_state query)
    ((fun l => [mkH3Cell l]) <$> lsq_location query) in
  let? pagination := build_pagination (lsq_offset query) (lsq_limit query) (lsq_after query) in
  Ok (mkQueryOptions filter DispatcherSortBy.ProvisionAt (build_sort_order (lsq_sort_order query))
        pagination).

(** A bound on the provisioning time: [ts_str.parse::<jiff::Timestamp>()]. *)
Definition parse_bound `{Jiff} (o : option string) (message : string) :
    result (option Timestamp) Response :=
  match o with
  | None => Ok None
  | Some ts_str =>
      match ts_from_str ts_str with
      | Some ts => Ok (Some ts)
      | None => Err (mkResponse BAD_REQUEST message)
      end
  end.

(** [ersha-prime/src/api/devices.rs:268-347] list_devices: the query options *)
Definition device_query_options `{UlidText, Jiff} (query : ListDevicesQuery) :
    result (QueryOptions DeviceFilter DeviceSortBy.t) Response :=
  let? provisioned_after :=
    parse_bound (lq_provisioned_after query) "Invalid provisioned_after timestamp" in
  let? provisioned_before :=
    parse_bound (lq_provisioned_before query) "Invalid provisioned_before timestamp" in
  let filter := mkDeviceFilter None
    ((fun s => [state_of_filter_dev s]) <$> lq_state query) None
    ((fun l => [mkH3Cell l]) <$> lq_location query)
    provisioned_after provisioned_before None (lq_manufacturer query) in
  let sort_by :=
    match lq_sort_by query with
    | Some DeviceQuerySortBy.State => DeviceSortBy.State
    | Some DeviceQuerySortBy.Manufacturer => DeviceSortBy.Manufacturer
    | Some DeviceQuerySortBy.SensorCount => DeviceSortBy.SensorCount
    | Some DeviceQuerySortBy.ProvisionedAt | None => DeviceSortBy.ProvisionAt
    end in
  let? pagination := build_pagination (lq_offset query) (lq_limit query) (lq_after query) in
  Ok (mkQueryOptions filter sort_by (build_sort_order (lq_sort_order query)) pagination).

Section handlers.
Context {D Dev DE VE : Type} `{!DispatcherRegistry D DE} `{!DeviceRegistry Dev VE} `{!Display DE}
  `{!UlidText} `{!Jiff} `{!UlidGen} `{!Serde DispatcherResponse} `{!Serde ListDispatchersResponse}
  `{!Serde DeviceResponse} `{!Serde ListDevicesResponse}.

(** [ersha-prime/src/api/dispatchers.rs:93-124] register_dispatcher *)
Definition register_dispatcher (request : RegisterDispatcherRequest) (now : Timestamp) (n : nat)
    (state : ApiState D Dev) : ApiState D Dev * nat * Response :=
  let (id, n) := or_new (rdq_id request) n in
  let dispatcher := mkDispatcher (mkDispatcherId id) (mkH3Cell (rdq_location request))
                      DispatcherState.Active now in
  let (d, res) := dspr_register dispatcher (api_dispatchers state) in
  (mkApiState d (api_devices state), n,
   match res with
   | Ok _ => mkResponse CREATED (serialize (DispatcherResponse_from dispatcher))
   | Err _ => mkResponse INTERNAL_SERVER_ERROR "Failed to register dispatcher"
   end).

(** [ersha-prime/src/api/dispatchers.rs:129-156] get_dispatcher *)
Definition get_dispatcher (id : string) (state : ApiState D Dev) : ApiState D Dev * Response :=
  match ulid_from_str id with
  | None => (state, mkResponse BAD_REQUEST "Invalid dispatcher ID")
  | Some ulid =>
      let (d, res) := dspr_get (mkDispatcherId ulid) (api_dispatchers state) in
      (mkApiState d (api_devices state),
       match res with
       | Ok (Some dispatcher) => mkResponse OK (serialize (DispatcherResponse_from dispatcher))
       | Ok None => mkResponse NOT_FOUND "Dispatcher not found"
       | Err _ => mkResponse INTERNAL_SERVER_ERROR "Failed to get dispatcher"
       end)
  end.

(** [ersha-prime/src/api/dispatchers.rs:161-234] list_dispatchers *)
Definition list_dispatchers (query : ListDispatchersQuery) (state : ApiState D Dev) :
    ApiState D Dev * Response :=
  match dispatcher_query_options query with
  | Err response => (state, response)
  | Ok options =>
      let (d, res) := dspr_list options (api_dispatchers state) in
      (mkApiState d (api_devices state),
       match res with
       | Ok dispatchers =>
           mkResponse OK (serialize (mkListDispatchersResponse
             (DispatcherResponse_from <$> dispatchers) (Z.of_nat (length dispatchers))))
       | Err _ => mkResponse INTERNAL_SERVER_ERROR "Failed to list dispatchers"
       end)
  end.

(** [ersha-prime/src/api/dispatchers.rs:239-284] suspend_dispatcher *)
Definition suspend_dispatcher (id : string) (state : ApiState D Dev) : ApiState D Dev * Response :=
  match ulid_from_str id with
  | None => (state, mkResponse BAD_REQUEST "Invalid dispatcher ID")
  | Some ulid =>
      let (d, res) := dspr_suspend (mkDispatcherId ulid) (api_dispatchers state) in
      match res with
      | Ok _ =>
          let (d, res) := dspr_get (mkDispatcherId ulid) d in
          (mkApiState d (api_devices state),
           match res with
           | Ok (Some dispatcher) => mkResponse OK (serialize (DispatcherResponse_from dispatcher))
           | Ok None => mkResponse NOT_FOUND "Dispatcher not found"
           | Err _ =>
               mkResponse INTERNAL_SERVER_ERROR "Dispatcher suspended but failed to fetch"
           end)
      | Err e =>
          let err_str := to_string e in
          (mkApiState d (api_devices state),
           if str_contains err_str "not found" || str_contains err_str "NotFound"
           then mkResponse NOT_FOUND "Dispatcher not found"
           else mkResponse INTERNAL_SERVER_ERROR "Failed to suspend dispatcher")
      end
  end.

(** [ersha-prime/src/api/devices.rs:178-229] register_device *)
Definition register_device (request : RegisterDeviceRequest) (now : Timestamp) (n : nat)
    (state : ApiState D Dev) : ApiState D Dev * nat * Response :=
  let (id, n) := or_new (rq_id request) n in
  match parse_sensors (rq_sensors request) n with
  | (n, Err response) => (state, n, response)
  | (n, Ok sensors) =>
      let device := mkDevice (mkDeviceId id) DeviceKind.Sensor DeviceState.Active
        (mkH3Cell (rq_location request)) (rq_manufacturer request) now sensors in
      let (dev, res) := devr_register device (api_devices state) in
      (mkApiState (api_dispatchers state) dev, n,
       match res with
       | Ok _ => mkResponse CREATED (serialize (DeviceResponse_from device))
       | Err _ => mkResponse INTERNAL_SERVER_ERROR "Failed to register device"
       end)
  end.

(** [ersha-prime/src/api/devices.rs:234-255] get_device *)
Definition get_device (id : string) (state : ApiState D Dev) : ApiState D Dev * Response :=
  match ulid_from_str id with
  | None => (state, mkResponse BAD_REQUEST "Invalid device ID")
  | Some ulid =>
      let (dev, res) := devr_get (mkDeviceId ulid) (api_devices state) in
      (mkApiState (api_dispatchers state) dev,
       match res with
       | Ok (Some device) => mkResponse OK (serialize (DeviceResponse_from device))
       | Ok None => mkResponse NOT_FOUND "Device not found"
       | Err _ => mkResponse INTERNAL_SERVER_ERROR "Failed to get device"
       end)
  end.

(** [ersha-prime/src/api/devices.rs:260-363] list_devices *)
Definition list_devices (query : ListDevicesQuery) (state : ApiState D Dev) : ApiState D Dev * Response :=
  match device_query_options query with
  | Err response => (state, response)
  | Ok options =>
      let (dev, res) := devr_list options (api_devices state) in
      (mkApiState (api_dispatchers state) dev,
       match res with
       | Ok devices =>
           mkResponse OK (serialize (mkListDevicesResponse
             (DeviceResponse_from <$> devices) (Z.of_nat (length devices))))
       | Err _ => mkResponse INTERNAL_SERVER_ERROR "Failed to list devices"
       end)
  end.
End handlers.

(** ** Routing *)

Inductive Method := GET | POST | OtherMethod.

(** A request as hyper hands it to the router: method, path, query string and body. *)
Record HttpRequest := mkHttpRequest {
  method : Method;
  path : string;
  query : string;
  req_body : string
}.

(** [axum]'s extractors: the percent-decoding of a path parameter, and the responses it gives itself
    when a path, query or JSON extractor fails. *)
Class Extract := {
  path_param : string -> option string;
  path_rejection : string -> Response;
  query_rejection : string -> Response;
  json_rejection : string -> Response
}.
Class ExtractLaws `{Extract} : Prop :=
  path_param_alphanumeric s : Forall is_alphanumeric (list_ascii_of_string s) -> path_param s = Some s.

(** The files the build embeds and the MIME table: [RegistryAssets::get] and
    [mime_guess::from_path(..).first_or_octet_stream()]. *)
Class Assets := {
  asset_get : string -> option string;
  mime_from_path : string -> string
}.

(** A response of [static_handler] has a content type. *)
Record StaticResponse := mkStaticResponse { static_response : Response; content_type : option string }.

(** [ersha-prime/src/main.rs:389-391] health_handler *)
Definition health_handler : string := "OK".

(** [ersha-prime/src/main.rs:393-418] static_handler *)
Definition static_handler `{Assets} (uri_path : string) : StaticResponse :=
  let path := trim_start_matches "/" uri_path in
  let file := match asset_get path with Some f => Some f | None => asset_get "index.html" end in
  match file with
  | Some content =>
      let mime := mime_from_path path in
      let mime := match asset_get path with None => "text/html"%string | Some _ => mime end in
      mkStaticResponse (mkResponse OK content) (Some mime)
  | None => mkStaticResponse (mkResponse NOT_FOUND "") None
  end.

Section router.
Context {D Dev DE VE : Type} `{!DispatcherRegistry D DE} `{!DeviceRegistry Dev VE} `{!Display DE}
  `{!UlidText} `{!Jiff} `{!UlidGen} `{!Serde DispatcherResponse} `{!Serde ListDispatchersResponse}
  `{!Serde DeviceResponse} `{!Serde ListDevicesResponse} `{!Serde RegisterDispatcherRequest}
  `{!Serde RegisterDeviceRequest} `{!Serde ListDispatchersQuery} `{!Serde ListDevicesQuery}
  `{!Extract} `{!Assets}.

(** [Path(id): Path<String>]. *)
Definition with_path (seg : string) (state : ApiState D Dev) (n : nat)
    (k : string -> ApiState D Dev * Response) : ApiState D Dev * nat * Response :=
  match path_param seg with
  | Some id => let (state, r) := k id in (state, n, r)
  | None => (state, n, path_rejection seg)
  end.

(** [Query(query)] and [Json(request)]. *)
Definition with_query {Q} `{!Serde Q} (q : string) (state : ApiState D Dev) (n : nat)
    (k : Q -> ApiState D Dev * Response) : ApiState D Dev * nat * Response :=
  match deserialize q with
  | Some query => let (state, r) := k query in (state, n, r)
  | None => (state, n, query_rejection q)
  end.
Definition with_json {Q} `{!Serde Q} (b : string) (state : ApiState D Dev) (n : nat)
    (k : Q -> ApiState D Dev * nat * Response) : ApiState D Dev * nat * Response :=
  match deserialize b with
  | Some request => k request
  | None => (state, n, json_rejection b)
  end.

(** [ersha-prime/src/api/mod.rs:22-54] api_router; [None] is a path no route matches *)
Definition api_router (now : Timestamp) (req : HttpRequest) (state : ApiState D Dev) (n : nat) :
    option (ApiState D Dev * nat * Response) :=
  let not_allowed := (state, n, mkResponse METHOD_NOT_ALLOWED "") in
  match split_on "/" (path req) with
  | [""; "api"; "dispatchers"] =>
      Some (match method req with
            | POST => with_json (req_body req) state n
                        (fun request => register_dispatcher request now n state)
            | GET => with_query (query req) state n (fun q => list_dispatchers q state)
            | OtherMethod => not_allowed
            end)
  | [""; "api"; "devices"] =>
      Some (match method req with
            | POST => with_json (req_body req) state n
                        (fun request => register_device request now n state)
            | GET => with_query (query req) state n (fun q => list_devices q state)
            | OtherMethod => not_allowed
            end)
  | [""; "api"; "dispatchers"; String c seg] =>
      Some (match method req with
            | GET => with_path (String c seg) state n (fun id => get_dispatcher id state)
            | _ => not_allowed
            end)
  | [""; "api"; "dispatchers"; String c seg; "suspend"] =>
      Some (match method req with
            | POST => with_path (String c seg) state n (fun id => suspend_dispatcher id state)
            | _ => not_allowed
            end)
  | [""; "api"; "devices"; String c seg] =>
      Some (match method req with
            | GET => with_path (String c seg) state n (fun id => get_device id state)
            | _ => not_allowed
            end)
  | _ => None
  end.

(** [ersha-prime/src/main.rs:356-362] axum_app *)
Definition axum_app (now : Timestamp) (req : HttpRequest) (state : ApiState D Dev) (n : nat) :
    ApiState D Dev * nat * Response :=
  match api_router now req state n with
  | Some result => result
  | None =>
      if String.eqb (path req) "/health"
      then (state, n, match method req with
                      | GET => mkResponse OK health_handler
                      | _ => mkResponse METHOD_NOT_ALLOWED ""
                      end)
      else (state, n, static_response (static_handler (path req)))
  end.
End router.

(** ** Properties *)

Lemma parse_sensor_kind_SensorResponse `{UlidText} s :
  parse_sensor_kind (sr_kind (SensorResponse_from s)) = Some (sensor_kind s).
Proof. by destruct s as [? ? []]. Qed.

(** The sensors a registration asks for: every kind parses, the ids are the given or the next
    generated ones, the readings are the kind's default. *)
Definition valid_kinds (reqs : list SensorRequest) : bool :=
  forallb (fun r => match parse_sensor_kind (sq_kind r) with Some _ => true | None => false end) reqs.

Definition requested (req : SensorRequest) (s : Sensor) : Prop :=
  parse_sensor_kind (sq_kind req) = Some (sensor_kind s) /\
  sensor_metric s = default_metric_for_kind (sensor_kind s) /\
  (∀ id, sq_id req = Some id -> sensor_id s = mkSensorId id).

Lemma parse_sensors_spec `{UlidGen} reqs : ∀ n,
  match parse_sensors reqs n with
  | (_, Ok ss) => valid_kinds reqs = true /\ Forall2 requested reqs ss
  | (_, Err r) => valid_kinds reqs = false /\ status r = BAD_REQUEST
  end.
Proof.
  induction reqs as [|req reqs IH]; intros n; [by split|]. cbn [parse_sensors valid_kinds forallb].
  destruct (parse_sensor_kind (sq_kind req)) as [k|] eqn:Hk; [|done].
  destruct (or_new (sq_id req) n) as [id n1] eqn:Hid. specialize (IH n1).
  destruct (parse_sensors reqs n1) as [n2 [ss|r]]; [|done].
  destruct IH as [Hv Hall]. split; [done|]. constructor; [|done].
  split_and!; [done..|]. intros i Hi. unfold or_new in Hid. rewrite Hi in Hid. by simplify_eq/=.
Qed.

Lemma length_paginate_by {K V} `{EqDecision K} (key : V -> K) mk l p :
  let limit := match p with Pagination.Offset _ n | Pagination.Cursor _ n => n end in
  0 <= limit -> Z.of_nat (length (paginate_by key mk l p)) <= limit.
Proof.
  destruct p as [o n|[u|] n]; cbn [paginate_by]; intros; rewrite ?take_z_take, ?length_take; cbn; lia.
Qed.

(** The query is rejected exactly for a malformed timestamp or cursor. *)
Definition query_ok `{UlidText, Jiff} (q : ListDevicesQuery) : Prop :=
  (∀ s, lq_provisioned_after q = Some s -> is_Some (ts_from_str s)) /\
  (∀ s, lq_provisioned_before q = Some s -> is_Some (ts_from_str s)) /\
  (∀ s, lq_after q = Some s -> is_Some (ulid_from_str s)).

Lemma device_query_options_spec `{UlidText, Jiff} (q : ListDevicesQuery) :
  match device_query_options q with
  | Ok o => query_ok q /\
      match pagination_opt o with
      | Pagination.Offset off n => off = default 0 (lq_offset q) /\ n = Z.min (default 100 (lq_limit q)) 100
      | Pagination.Cursor after n => is_Some after /\ n = Z.min (default 100 (lq_limit q)) 100
      end
  | Err r => ~ query_ok q /\ status r = BAD_REQUEST
  end.
Proof.
  unfold device_query_options, parse_bound, build_pagination, query_ok.
  destruct (lq_provisioned_after q) as [a|]; [destruct (ts_from_str a) eqn:Ea|]; cbn.
  2:{ split; [|done]. intros (Ha & _). destruct (Ha a eq_refl). congruence. }
  all: destruct (lq_provisioned_before q) as [b|]; [destruct (ts_from_str b) eqn:Eb|]; cbn;
    try (split; [|done]; intros (_ & Hb & _); destruct (Hb b eq_refl); congruence).
  all: destruct (lq_after q) as [c|]; [destruct (ulid_from_str c) eqn:Ec|]; cbn;
    try (split; [|done]; intros (_ & _ & Hc); destruct (Hc c eq_refl); congruence).
  all: split; [|eauto]; split_and!; intros ? [= <-]; eauto.
Qed.

(** over the in-memory registry [GET /api/devices] answers 400 exactly for a malformed bound or
    cursor, and otherwise 200 with one page of the sorted selection: at most [limit] and never
    more than 100 devices, and a [total] that counts this page, not the devices that match. *)
Theorem list_devices_page {D DE} `{!DispatcherRegistry D DE} `{!UlidText} `{!Jiff} `{!Lowercase}
    `{!HashIter DeviceId Device} `{!Serde ListDevicesResponse} (q : ListDevicesQuery)
    (state : ApiState D InMemoryDeviceRegistry.t) :
  (∀ l, lq_limit q = Some l -> 0 <= l) ->
  match device_query_options q with
  | Err r => ~ query_ok q /\ list_devices q state = (state, r) /\ status r = BAD_REQUEST
  | Ok o => query_ok q /\ ∃ page,
      list_devices q state =
        (state, mkResponse OK (serialize (mkListDevicesResponse (DeviceResponse_from <$> page)
                                            (Z.of_nat (length page))))) /\
      page `sublist_of` selection
        (InMemoryDeviceRegistry.device_matches (filter_opt o))
        (InMemoryDeviceRegistry.device_cmp (sort_by_opt o) (sort_order_opt o))
        (InMemoryDeviceRegistry.devices (api_devices state)) /\
      Z.of_nat (length page) <= Z.min (default 100 (lq_limit q)) 100
  end.
Proof.
  intros Hl. pose proof (device_query_options_spec q) as Hq. unfold list_devices.
  destruct (device_query_options q) as [o|r]; [|by destruct Hq].
  destruct Hq as [Hq Hp]. split; [done|].
  change (devr_list o (api_devices state)) with (InMemoryDeviceRegistry.list o (api_devices state)).
  rewrite InMemoryDeviceRegistry.list_selection. eexists. split; [by destruct state|].
  split; [apply paginate_by_sublist|].
  etrans; [apply length_paginate_by|]; destruct (pagination_opt o) as [off n|a n];
    destruct Hp as [_ ->]; try lia; destruct (lq_limit q) as [l|]; cbn; try lia;
    specialize (Hl l eq_refl); lia.
Qed.

(** [POST /api/devices] answers 400 and leaves the registry alone exactly when a sensor kind is
    not one of the five names; otherwise it registers one active device with the given location
    and manufacturer and one sensor per request in order, and a later [GET] of its id answers
    200 with the body the registration returned, provided the registry does not fail. *)
Theorem register_device_then_get {D Dev DE VE} `{!DispatcherRegistry D DE}
    `{DeviceRegistryLaws Dev VE dview} `{!UlidText} `{!Jiff} `{!UlidGen} `{!Serde DeviceResponse}
    `{!UlidTextLaws} (req : RegisterDeviceRequest) (now : Timestamp) n
    (state state' : ApiState D Dev) n' r id :
  id = fst (or_new (rq_id req) n) -> u128 id ->
  register_device req now n state = (state', n', r) ->
  if valid_kinds (rq_sensors req) then
    ∃ device,
      dev_id device = mkDeviceId id /\ dev_state device = DeviceState.Active /\
      dev_location device = mkH3Cell (rq_location req) /\
      dev_manufacturer device = rq_manufacturer req /\ dev_provisioned_at device = now /\
      Forall2 requested (rq_sensors req) (dev_sensors device) /\
      (status r = CREATED ->
         body r = serialize (DeviceResponse_from device) /\
         dview (api_devices state') = <[mkDeviceId id := device]> (dview (api_devices state)) /\
         ((∀ e, snd (devr_get (mkDeviceId id) (api_devices state')) <> Err e) ->
            snd (get_device (ulid_to_string id) state') = mkResponse OK (body r)))
  else status r = BAD_REQUEST /\ state' = state.
Proof.
  unfold register_device. destruct (or_new (rq_id req) n) as [i n1]. cbn. intros -> Hid.
  pose proof (parse_sensors_spec (rq_sensors req) n1) as Hs.
  destruct (parse_sensors (rq_sensors req) n1) as [n2 [ss|resp]]; destruct Hs as [-> Hs].
  2:{ intros [= <- _ <-]. done. }
  set (device := mkDevice _ _ _ _ _ _ _).
  destruct (devr_register device (api_devices state)) as [dev res] eqn:E.
  pose proof (devr_register_spec _ _ _ _ E) as Hreg. intros [= <- _ <-].
  exists device. split_and!; [done..|]. destruct res as [[]|e]; [|done]. intros _.
  split; [done|]. split; [done|]. cbn [api_devices body]. intros Hne.
  unfold get_device. rewrite ulid_from_to by done. cbn [api_devices].
  destruct (devr_get (mkDeviceId i) dev) as [dev' res] eqn:G.
  pose proof (devr_get_spec _ _ _ _ G) as [-> Hget].
  destruct res as [o|e]; [|by destruct (Hne e)]. subst o. by rewrite Hreg, lookup_insert_eq.
Qed.

(** [POST /api/dispatchers/{id}/suspend] over the in-memory registry: a registered dispatcher is
    answered with 200 and its suspended record, and a hello it sends afterwards is rejected as
    suspended; an unregistered one is answered with 404, a malformed id with 400, and in both
    cases the registry is unchanged. *)
Theorem suspend_dispatcher_then_hello {Dev R S} `{!UlidText} `{!Jiff} `{!Serde DispatcherResponse}
    `{!HashIter DispatcherId Dispatcher} (id : string) (d : InMemoryDispatcherRegistry.t) (dev : Dev)
    (rs : R) (ss : S) loc :
  let (state', r) := suspend_dispatcher id (mkApiState d dev) in
  match ulid_from_str id with
  | None => state' = mkApiState d dev /\ status r = BAD_REQUEST
  | Some u =>
      match InMemoryDispatcherRegistry.dispatchers d !! mkDispatcherId u with
      | None => state' = mkApiState d dev /\ status r = NOT_FOUND
      | Some x =>
          r = mkResponse OK (serialize (DispatcherResponse_from
                (mkDispatcher (disp_id x) (disp_location x) DispatcherState.Suspended
                   (disp_provisioned_at x)))) /\
          snd (on_hello (mkHelloRequest (mkDispatcherId u) loc)
                 (mkAppState (api_dispatchers state') dev rs ss)) =
            HelloResponse.Rejected HelloRejectionReason.DispatcherSuspended
      end
  end.
Proof.
  unfold suspend_dispatcher. destruct (ulid_from_str id) as [u|]; [|done].
  cbn [api_dispatchers].
  destruct (dspr_suspend (mkDispatcherId u) d) as [d' res] eqn:E.
  cbn in E. unfold InMemoryDispatcherRegistry.suspend in E. cbn in E.
  destruct (InMemoryDispatcherRegistry.dispatchers d !! mkDispatcherId u) as [x|] eqn:Hx;
    cbn in E; injection E as <- <-; [|done].
  unfold on_hello. cbn. by rewrite lookup_insert_eq.
Qed.

(** ** Countability of the exchanged types *)

Ltac solve_countable_tuple f g := refine (inj_countable' f g _); by intros [].

#[export] Instance SensorRequest_eq_dec : EqDecision SensorRequest. Proof. solve_decision. Defined.
#[export] Instance SensorRequest_countable : Countable SensorRequest.
Proof.
  solve_countable_tuple (fun r => (sq_id r, sq_kind r)) (fun '(a, b) => mkSensorRequest a b).
Defined.
#[export] Instance RegisterDeviceRequest_eq_dec : EqDecision RegisterDeviceRequest.
Proof. solve_decision. Defined.
#[export] Instance RegisterDeviceRequest_countable : Countable RegisterDeviceRequest.
Proof.
  solve_countable_tuple
    (fun r => (rq_id r, rq_location r, rq_kind r, rq_manufacturer r, rq_sensors r))
    (fun '(a, b, c, d, e) => mkRegisterDeviceRequest a b c d e).
Defined.
#[export] Instance SensorResponse_eq_dec : EqDecision SensorResponse. Proof. solve_decision. Defined.
#[export] Instance SensorResponse_countable : Countable SensorResponse.
Proof.
  solve_countable_tuple (fun r => (sr_id r, sr_kind r)) (fun '(a, b) => mkSensorResponse a b).
Defined.
#[export] Instance DeviceResponse_eq_dec : EqDecision DeviceResponse. Proof. solve_decision. Defined.
#[export] Instance DeviceResponse_countable : Countable DeviceResponse.
Proof.
  solve_countable_tuple
    (fun r => (der_id r, der_kind r, der_state r, der_location r, der_manufacturer r,
               der_provisioned_at r, der_sensors r))
    (fun '(a, b, c, d, e, f, g) => mkDeviceResponse a b c d e f g).
Defined.
#[export] Instance ListDevicesResponse_eq_dec : EqDecision ListDevicesResponse.
Proof. solve_decision. Defined.
#[export] Instance ListDevicesResponse_countable : Countable ListDevicesResponse.
Proof.
  solve_countable_tuple (fun r => (lder_devices r, lder_total r))
    (fun '(a, b) => mkListDevicesResponse a b).
Defined.
#[export] Instance DispatcherResponse_eq_dec : EqDecision DispatcherResponse.
Proof. solve_decision. Defined.
#[export] Instance DispatcherResponse_countable : Countable DispatcherResponse.
Proof.
  solve_countable_tuple (fun r => (dr_id r, dr_location r, dr_state r, dr_provisioned_at r))
    (fun '(a, b, c, d) => mkDispatcherResponse a b c d).
Defined.

(** ** Witnesses *)

Module PrimeApiWitness.
#[local] Existing Instance hash_iter_std.
#[local] Existing Instance lowercase_ascii.
#[local] Existing Instance ulid_crockford.
#[local] Existing Instance ulid_crockford_laws.
#[local] Existing Instance jiff_ns.
#[local] Existing Instance serde_countable.
#[local] Instance gen : UlidGen := fun n => 1000 + Z.of_nat n.

Definition state0 : ApiState InMemoryDispatcherRegistry.t InMemoryDeviceRegistry.t :=
  mkApiState (InMemoryDispatcherRegistry.mk (insert_all disp_id [sample_dispatcher 1] ∅))
    (InMemoryDeviceRegistry.mk (insert_all dev_id (sample_device <$> [1; 2; 3]) ∅)).

Definition query0 : ListDevicesQuery :=
  mkListDevicesQuery None None None None None None None None (Some 2) None.

Definition request0 : RegisterDeviceRequest :=
  mkRegisterDeviceRequest None 7 (Some "actuator"%string) (Some "Acme"%string)
    [mkSensorRequest None "air_temp"; mkSensorRequest (Some 5) "humidity"].

Lemma list_devices_page_witness :
  ∃ page, list_devices query0 state0 =
      (state0, mkResponse OK (serialize (mkListDevicesResponse (DeviceResponse_from <$> page)
                                           (Z.of_nat (length page))))) /\
    Z.of_nat (length page) <= 2.
Proof.
  assert (∀ l, lq_limit query0 = Some l -> 0 <= l) as Hl by (intros l [= <-]; lia).
  destruct (list_devices_page query0 state0 Hl) as (_ & page & H1 & _ & H2).
  exists page. split; [exact H1|exact H2].
Defined.

Lemma register_device_then_get_witness :
  let '(state', n', r) := register_device request0 (mkTimestamp 0) 0 state0 in
  status r = CREATED /\ n' = 2%nat /\
  snd (get_device (ulid_to_string 1000) state') = mkResponse OK (body r).
Proof.
  destruct (register_device request0 (mkTimestamp 0) 0 state0) as [[state' n'] r] eqn:E.
  assert (status r = CREATED) as Hs by (vm_compute in E; injection E as _ _ <-; reflexivity).
  assert (n' = 2%nat) as Hn by (vm_compute in E; injection E as _ <- _; reflexivity).
  split; [exact Hs|]. split; [exact Hn|].
  destruct (register_device_then_get (dview := InMemoryDeviceRegistry.devices)
    request0 (mkTimestamp 0) 0 state0 state' n' r 1000 eq_refl ltac:(split; lia) E)
    as (device & _ & _ & _ & _ & _ & _ & H).
  destruct (H Hs) as (_ & _ & Hget). apply Hget. intros e. discriminate.
Defined.
End PrimeApiWitness.
