(* ===== verification/PrimeClient.v ===== *)
(** * The HTTP client of ersha-prime: ersha-prime/src/client.rs

    [reqwest] is a parameter of the model: [HttpSend] takes the method, the URL, the query string and
    the body of a request and the state of the network, and returns the response, or [None] where
    [send] fails.  Every [Client] method is a function over it.  The last part runs the client
    against [axum_app]: [served] is the network with the server behind the client's base URL. *)
From Stdlib Require Import ZArith Lia Strings.String Strings.Ascii.
From stdpp Require Import base gmap strings list pretty.
From S2P Require Import Prelude Platform Core Samples Filter Registry InMemory PrimeHandlers PrimeApi.
Open Scope Z_scope.

Module ClientError.
(** [ersha-prime/src/client.rs:20-34] ClientError *)
Inductive t :=
  | Request
  | ServerError (status : Z) (message : string)
  | NotFound
  | BadRequest (message : string).
End ClientError.

(** [ersha-prime/src/client.rs:257-278] handle_response *)
Definition handle_response {T} `{!Serde T} (response : Response) : result T ClientError.t :=
  if Z.leb 200 (status response) && Z.ltb (status response) 300 then
    ok_or (deserialize (body response)) ClientError.Request
  else if Z.eqb (status response) NOT_FOUND then Err ClientError.NotFound
  else if Z.eqb (status response) BAD_REQUEST then Err (ClientError.BadRequest (body response))
  else Err (ClientError.ServerError (status response) (body response)).

Class HttpSend (Net : Type) :=
  send : Method -> string -> string -> string -> Net -> Net * option Response.

(** [ersha-prime/src/client.rs:36-45] Client *)
Record Client := mkClient { base_url : string }.

(** [ersha-prime/src/client.rs:47-61] Client::new *)
Definition Client_new (base_url : string) : Client := mkClient (trim_end_matches "/" base_url).

(** [ersha-prime/src/client.rs:63-71] Client::with_http_client *)
Definition Client_with_http_client (base_url : string) : Client :=
  mkClient (trim_end_matches "/" base_url).

Definition ListDispatchersQuery_default : ListDispatchersQuery :=
  mkListDispatchersQuery None None None None None None.
Definition ListDevicesQuery_default : ListDevicesQuery :=
  mkListDevicesQuery None None None None None None None None None None.

Module ClientOps.
Section client.
Context {Net : Type} `{!HttpSend Net} `{!UlidText} `{!Serde DispatcherResponse}
  `{!Serde ListDispatchersResponse} `{!Serde DeviceResponse} `{!Serde ListDevicesResponse}
  `{!Serde RegisterDispatcherRequest} `{!Serde RegisterDeviceRequest} `{!Serde ListDispatchersQuery}
  `{!Serde ListDevicesQuery}.

(** [.send().await?] followed by [handle_response]. *)
Definition request {T} `{!Serde T} (m : Method) (url query body : string) (net : Net) :
    Net * result T ClientError.t :=
  let (net, r) := send m url query body net in
  (net, match r with Some response => handle_response response | None => Err ClientError.Request end).

(** [ersha-prime/src/client.rs:91-110] register_dispatcher_with_id *)
Definition register_dispatcher_with_id (self : Client) (id : option Ulid) (location : Z) (net : Net) :
    Net * result DispatcherResponse ClientError.t :=
  request POST (base_url self +:+ "/api/dispatchers") ""
    (serialize (mkRegisterDispatcherRequest id location)) net.

(** [ersha-prime/src/client.rs:77-89] register_dispatcher *)
Definition register_dispatcher (self : Client) (location : Z) (net : Net) :
    Net * result DispatcherResponse ClientError.t :=
  register_dispatcher_with_id self None location net.

(** [ersha-prime/src/client.rs:112-125] get_dispatcher *)
Definition get_dispatcher (self : Client) (id : Ulid) (net : Net) :
    Net * result DispatcherResponse ClientError.t :=
  request GET (base_url self +:+ "/api/dispatchers/" +:+ ulid_to_string id) "" "" net.

(** [ersha-prime/src/client.rs:136-152] list_dispatchers_with_query *)
Definition list_dispatchers_with_query (self : Client) (query : ListDispatchersQuery) (net : Net) :
    Net * result ListDispatchersResponse ClientError.t :=
  request GET (base_url self +:+ "/api/dispatchers") (serialize query) "" net.

(** [ersha-prime/src/client.rs:127-134] list_dispatchers *)
Definition list_dispatchers (self : Client) (net : Net) :
    Net * result ListDispatchersResponse ClientError.t :=
  list_dispatchers_with_query self ListDispatchersQuery_default net.

(** [ersha-prime/src/client.rs:154-169] suspend_dispatcher *)
Definition suspend_dispatcher (self : Client) (id : Ulid) (net : Net) :
    Net * result DispatcherResponse ClientError.t :=
  request POST (base_url self +:+ "/api/dispatchers/" +:+ ulid_to_string id +:+ "/suspend") "" "" net.

(** [ersha-prime/src/client.rs:175-191] register_device *)
Definition register_device (self : Client) (req : RegisterDeviceRequest) (net : Net) :
    Net * result DeviceResponse ClientError.t :=
  request POST (base_url self +:+ "/api/devices") "" (serialize req) net.

(** [ersha-prime/src/client.rs:193-212] register_device_simple *)
Definition register_device_simple (self : Client) (location : Z) (net : Net) :
    Net * result DeviceResponse ClientError.t :=
  register_device self (mkRegisterDeviceRequest None location None None []) net.

(** [ersha-prime/src/client.rs:214-227] get_device *)
Definition get_device (self : Client) (id : Ulid) (net : Net) :
    Net * result DeviceResponse ClientError.t :=
  request GET (base_url self +:+ "/api/devices/" +:+ ulid_to_string id) "" "" net.

(** [ersha-prime/src/client.rs:238-254] list_devices_with_query *)
Definition list_devices_with_query (self : Client) (query : ListDevicesQuery) (net : Net) :
    Net * result ListDevicesResponse ClientError.t :=
  request GET (base_url self +:+ "/api/devices") (serialize query) "" net.

(** [ersha-prime/src/client.rs:229-236] list_devices *)
Definition list_devices (self : Client) (net : Net) :
    Net * result ListDevicesResponse ClientError.t :=
  list_devices_with_query self ListDevicesQuery_default net.
End client.
End ClientOps.

(** ** Builders: each method sets one field and returns the builder *)

Module ListDispatchersQueryBuilder.
(** [ersha-prime/src/client.rs:280-284] ListDispatchersQueryBuilder *)
Record t := mk { query : ListDispatchersQuery }.

(** [ersha-prime/src/client.rs:286-290] ListDispatchersQueryBuilder::new *)
Definition new : t := mk ListDispatchersQuery_default.

(** [ersha-prime/src/client.rs:292-296] ListDispatchersQueryBuilder::state *)
Definition state (v : StateFilter.t) (self : t) : t :=
  let 'mkListDispatchersQuery _ f1 f2 f3 f4 f5 := query self in
  mk (mkListDispatchersQuery (Some v) f1 f2 f3 f4 f5).

(** [ersha-prime/src/client.rs:298-302] ListDispatchersQueryBuilder::location *)
Definition location (v : Z) (self : t) : t :=
  let 'mkListDispatchersQuery f0 _ f2 f3 f4 f5 := query self in
  mk (mkListDispatchersQuery f0 (Some v) f2 f3 f4 f5).

(** [ersha-prime/src/client.rs:304-308] ListDispatchersQueryBuilder::sort_order *)
Definition sort_order (v : QuerySortOrder.t) (self : t) : t :=
  let 'mkListDispatchersQuery f0 f1 _ f3 f4 f5 := query self in
  mk (mkListDispatchersQuery f0 f1 (Some v) f3 f4 f5).

(** [ersha-prime/src/client.rs:310-314] ListDispatchersQueryBuilder::offset *)
Definition offset (v : Z) (self : t) : t :=
  let 'mkListDispatchersQuery f0 f1 f2 _ f4 f5 := query self in
  mk (mkListDispatchersQuery f0 f1 f2 (Some v) f4 f5).

(** [ersha-prime/src/client.rs:316-320] ListDispatchersQueryBuilder::limit *)
Definition limit (v : Z) (self : t) : t :=
  let 'mkListDispatchersQuery f0 f1 f2 f3 _ f5 := query self in
  mk (mkListDispatchersQuery f0 f1 f2 f3 (Some v) f5).

(** [ersha-prime/src/client.rs:322-326] ListDispatchersQueryBuilder::after *)
Definition after (v : string) (self : t) : t :=
  let 'mkListDispatchersQuery f0 f1 f2 f3 f4 _ := query self in
  mk (mkListDispatchersQuery f0 f1 f2 f3 f4 (Some v)).

(** [ersha-prime/src/client.rs:328-331] ListDispatchersQueryBuilder::build *)
Definition build (self : t) : ListDispatchersQuery := query self.
End ListDispatchersQueryBuilder.

Module ListDevicesQueryBuilder.
(** [ersha-prime/src/client.rs:334-338] ListDevicesQueryBuilder *)
Record t := mk { query : ListDevicesQuery }.

(** [ersha-prime/src/client.rs:340-344] ListDevicesQueryBuilder::new *)
Definition new : t := mk ListDevicesQuery_default.

(** [ersha-prime/src/client.rs:346-350] ListDevicesQueryBuilder::state *)
Definition state (v : StateFilter.t) (self : t) : t :=
  let 'mkListDevicesQuery _ f1 f2 f3 f4 f5 f6 f7 f8 f9 := query self in
  mk (mkListDevicesQuery (Some v) f1 f2 f3 f4 f5 f6 f7 f8 f9).

(** [ersha-prime/src/client.rs:352-356] ListDevicesQueryBuilder::location *)
Definition location (v : Z) (self : t) : t :=
  let 'mkListDevicesQuery f0 _ f2 f3 f4 f5 f6 f7 f8 f9 := query self in
  mk (mkListDevicesQuery f0 (Some v) f2 f3 f4 f5 f6 f7 f8 f9).

(** [ersha-prime/src/client.rs:358-362] ListDevicesQueryBuilder::manufacturer *)
Definition manufacturer (v : string) (self : t) : t :=
  let 'mkListDevicesQuery f0 f1 _ f3 f4 f5 f6 f7 f8 f9 := query self in
  mk (mkListDevicesQuery f0 f1 (Some v) f3 f4 f5 f6 f7 f8 f9).

(** [ersha-prime/src/client.rs:364-368] ListDevicesQueryBuilder::provisioned_after *)
Definition provisioned_after (v : string) (self : t) : t :=
  let 'mkListDevicesQuery f0 f1 f2 _ f4 f5 f6 f7 f8 f9 := query self in
  mk (mkListDevicesQuery f0 f1 f2 (Some v) f4 f5 f6 f7 f8 f9).

(** [ersha-prime/src/client.rs:370-374] ListDevicesQueryBuilder::provisioned_before *)
Definition provisioned_before (v : string) (self : t) : t :=
  let 'mkListDevicesQuery f0 f1 f2 f3 _ f5 f6 f7 f8 f9 := query self in
  mk (mkListDevicesQuery f0 f1 f2 f3 (Some v) f5 f6 f7 f8 f9).

(** [ersha-prime/src/client.rs:376-380] ListDevicesQueryBuilder::sort_by *)
Definition sort_by (v : DeviceQuerySortBy.t) (self : t) : t :=
  let 'mkListDevicesQuery f0 f1 f2 f3 f4 _ f6 f7 f8 f9 := query self in
  mk (mkListDevicesQuery f0 f1 f2 f3 f4 (Some v) f6 f7 f8 f9).

(** [ersha-prime/src/client.rs:382-386] ListDevicesQueryBuilder::sort_order *)
Definition sort_order (v : QuerySortOrder.t) (self : t) : t :=
  let 'mkListDevicesQuery f0 f1 f2 f3 f4 f5 _ f7 f8 f9 := query self in
  mk (mkListDevicesQuery f0 f1 f2 f3 f4 f5 (Some v) f7 f8 f9).

(** [ersha-prime/src/client.rs:388-392] ListDevicesQueryBuilder::offset *)
Definition offset (v : Z) (self : t) : t :=
  let 'mkListDevicesQuery f0 f1 f2 f3 f4 f5 f6 _ f8 f9 := query self in
  mk (mkListDevicesQuery f0 f1 f2 f3 f4 f5 f6 (Some v) f8 f9).

(** [ersha-prime/src/client.rs:394-398] ListDevicesQueryBuilder::limit *)
Definition limit (v : Z) (self : t) : t :=
  let 'mkListDevicesQuery f0 f1 f2 f3 f4 f5 f6 f7 _ f9 := query self in
  mk (mkListDevicesQuery f0 f1 f2 f3 f4 f5 f6 f7 (Some v) f9).

(** [ersha-prime/src/client.rs:400-404] ListDevicesQueryBuilder::after *)
Definition after (v : string) (self : t) : t :=
  let 'mkListDevicesQuery f0 f1 f2 f3 f4 f5 f6 f7 f8 _ := query self in
  mk (mkListDevicesQuery f0 f1 f2 f3 f4 f5 f6 f7 f8 (Some v)).

(** [ersha-prime/src/client.rs:406-409] ListDevicesQueryBuilder::build *)
Definition build (self : t) : ListDevicesQuery := query self.
End ListDevicesQueryBuilder.

Module RegisterDeviceBuilder.
(** [ersha-prime/src/client.rs:412-422] RegisterDeviceBuilder *)
Record t := mk {
  id_ : option Ulid; location_ : Z; kind_ : option string; manufacturer_ : option string;
  sensors_ : list SensorRequest
}.

(** [ersha-prime/src/client.rs:424-431] RegisterDeviceBuilder::new *)
Definition new (location : Z) : t := mk None location None None [].

(** [ersha-prime/src/client.rs:433-437] RegisterDeviceBuilder::id *)
Definition id (v : Ulid) (self : t) : t :=
  mk (Some v) (location_ self) (kind_ self) (manufacturer_ self) (sensors_ self).

(** [ersha-prime/src/client.rs:439-443] RegisterDeviceBuilder::kind *)
Definition kind (v : string) (self : t) : t :=
  mk (id_ self) (location_ self) (Some v) (manufacturer_ self) (sensors_ self).

(** [ersha-prime/src/client.rs:445-449] RegisterDeviceBuilder::manufacturer *)
Definition manufacturer (v : string) (self : t) : t :=
  mk (id_ self) (location_ self) (kind_ self) (Some v) (sensors_ self).

(** [ersha-prime/src/client.rs:451-458] RegisterDeviceBuilder::sensor *)
Definition sensor (v : string) (self : t) : t :=
  mk (id_ self) (location_ self) (kind_ self) (manufacturer_ self)
    (sensors_ self ++ [mkSensorRequest None v]).

(** [ersha-prime/src/client.rs:460-467] RegisterDeviceBuilder::sensor_with_id *)
Definition sensor_with_id (i : Ulid) (v : string) (self : t) : t :=
  mk (id_ self) (location_ self) (kind_ self) (manufacturer_ self)
    (sensors_ self ++ [mkSensorRequest (Some i) v]).

(** [ersha-prime/src/client.rs:469-478] RegisterDeviceBuilder::build *)
Definition build (self : t) : RegisterDeviceRequest :=
  mkRegisterDeviceRequest (id_ self) (location_ self) (kind_ self) (manufacturer_ self)
    (sensors_ self).
End RegisterDeviceBuilder.

(** ** The client against the server *)

Section served.
Context {D Dev DE VE : Type} `{!DispatcherRegistry D DE} `{!DeviceRegistry Dev VE} `{!Display DE}
  `{!UlidText} `{!Jiff} `{!UlidGen} `{!Serde DispatcherResponse} `{!Serde ListDispatchersResponse}
  `{!Serde DeviceResponse} `{!Serde ListDevicesResponse} `{!Serde RegisterDispatcherRequest}
  `{!Serde RegisterDeviceRequest} `{!Serde ListDispatchersQuery} `{!Serde ListDevicesQuery}
  `{!Extract} `{!Assets}.

(** The server listens behind [base]; a URL elsewhere is not answered. *)
Definition served (base : string) (now : Timestamp) : HttpSend (ApiState D Dev * nat) :=
  fun m url query body '(state, n) =>
    match strip_prefix base url with
    | None => ((state, n), None)
    | Some p =>
        let '(state, n, r) := axum_app now (mkHttpRequest m p query body) state n in
        ((state, n), Some r)
    end.
End served.

(** ** Every client request reaches the handler it is meant for *)

Section end_to_end.
Context {D Dev DE VE : Type} `{!DispatcherRegistry D DE} `{!DeviceRegistry Dev VE} `{!Display DE}
  `{!UlidText} `{!UlidTextLaws} `{!Jiff} `{!UlidGen} `{!Serde DispatcherResponse}
  `{!Serde ListDispatchersResponse} `{!Serde DeviceResponse} `{!Serde ListDevicesResponse}
  `{!Serde RegisterDispatcherRequest} `{!Serde RegisterDeviceRequest}
  `{!Serde ListDispatchersQuery} `{!Serde ListDevicesQuery} `{!Extract} `{!ExtractLaws} `{!Assets}
  (base : string) (now : Timestamp).

Lemma served_path m p q b (state : ApiState D Dev) n :
  served base now m (base +:+ p) q b (state, n) =
    let '(state, n, r) := axum_app now (mkHttpRequest m p q b) state n in ((state, n), Some r).
Proof. unfold served. by rewrite strip_prefix_app. Qed.

(** A ULID is a path segment of its own and a path parameter that decodes to itself. *)
Lemma ulid_segment id rest : u128 id -> rest = EmptyString \/ (∃ r, rest = String "/" r) ->
  split_on "/" (ulid_to_string id +:+ rest) =
    ulid_to_string id :: match rest with EmptyString => [] | String _ r => split_on "/" r end.
Proof.
  intros Hid Hrest. assert (count_char "/" (ulid_to_string id) = 0%nat) as Hc
    by (by apply ulid_to_string_no_char).
  destruct Hrest as [->|[r ->]].
  - by rewrite string_app_nil, split_on_none.
  - by rewrite split_on_app.
Qed.

Lemma ulid_string_cons id : u128 id -> ∃ c s, ulid_to_string id = String c s.
Proof.
  intros Hid. destruct (ulid_to_string_segment id Hid) as [Hne _].
  destruct (ulid_to_string id); [done|eauto].
Qed.

Lemma with_path_ulid id state n (k : string -> ApiState D Dev * Response) : u128 id ->
  with_path (ulid_to_string id) state n k =
    let (state, r) := k (ulid_to_string id) in (state, n, r).
Proof.
  intros Hid. unfold with_path.
  by rewrite path_param_alphanumeric by apply (ulid_to_string_segment id Hid).
Qed.

Lemma served_get_device id state n : u128 id ->
  served base now GET (base +:+ "/api/devices/" +:+ ulid_to_string id) "" "" (state, n) =
    let (state, r) := get_device (D := D) (ulid_to_string id) state in ((state, n), Some r).
Proof.
  intros Hid. rewrite served_path. unfold axum_app, api_router. cbn [path method].
  change (split_on "/" ("/api/devices/" +:+ ulid_to_string id))
    with (""%string :: "api"%string :: "devices"%string :: split_on "/" (ulid_to_string id)).
  rewrite split_on_none by (by apply ulid_to_string_no_char).
  destruct (ulid_string_cons id Hid) as (c & s & E). rewrite E. cbv iota. rewrite <- E.
  rewrite with_path_ulid by done. by destruct (get_device _ _).
Qed.

Lemma served_suspend id state n : u128 id ->
  served base now POST (base +:+ "/api/dispatchers/" +:+ ulid_to_string id +:+ "/suspend") "" "" (state, n) =
    let (state, r) := suspend_dispatcher (ulid_to_string id) state in ((state, n), Some r).
Proof.
  intros Hid. rewrite served_path. unfold axum_app, api_router. cbn [path method].
  change (split_on "/" ("/api/dispatchers/" +:+ ulid_to_string id +:+ "/suspend"))
    with (""%string :: "api"%string :: "dispatchers"%string
            :: split_on "/" (ulid_to_string id +:+ "/suspend")).
  rewrite ulid_segment by eauto.
  change (split_on "/" "suspend") with ["suspend"%string].
  destruct (ulid_string_cons id Hid) as (c & s & E). rewrite E. cbv iota. rewrite <- E.
  rewrite with_path_ulid by done. by destruct (suspend_dispatcher _ _).
Qed.

Lemma served_register_device body state n :
  served base now POST (base +:+ "/api/devices") "" body (state, n) =
    let '(state, n, r) := with_json body state n (fun request => register_device request now n state) in
    ((state, n), Some r).
Proof.
  rewrite served_path. unfold axum_app, api_router. cbn [path method req_body].
  change (split_on "/" "/api/devices") with [""%string; "api"%string; "devices"%string]. done.
Qed.
End end_to_end.

(** against a running server, [get_device] of the client returns the registered device's
    description, [NotFound] for an unregistered one and a 500 [ServerError] when the registry
    fails, and leaves the server's state unchanged; whatever path the base URL carries. *)
Theorem client_get_device_end_to_end {D Dev DE VE} `{!DispatcherRegistry D DE}
    `{DeviceRegistryLaws Dev VE dview} `{!Display DE} `{!UlidText} `{!UlidTextLaws} `{!Jiff}
    `{!UlidGen} `{!Serde DispatcherResponse} `{!Serde ListDispatchersResponse}
    `{!Serde DeviceResponse} `{!SerdeLaws DeviceResponse} `{!Serde ListDevicesResponse}
    `{!Serde RegisterDispatcherRequest} `{!Serde RegisterDeviceRequest}
    `{!Serde ListDispatchersQuery} `{!Serde ListDevicesQuery} `{!Extract} `{!ExtractLaws} `{!Assets}
    (url : string) (now : Timestamp) (id : Ulid) (state : ApiState D Dev) (n : nat) :
  let client := Client_new url in
  u128 id ->
  ClientOps.get_device (HttpSend0 := served (base_url client) now) client id (state, n) =
    ((state, n),
     match snd (devr_get (mkDeviceId id) (api_devices state)) with
     | Err _ => Err (ClientError.ServerError 500 "Failed to get device")
     | Ok _ =>
         match dview (api_devices state) !! mkDeviceId id with
         | Some d => Ok (DeviceResponse_from d)
         | None => Err ClientError.NotFound
         end
     end).
Proof.
  intros client Hid. unfold ClientOps.get_device, ClientOps.request, send.
  rewrite served_get_device by done. unfold get_device. rewrite ulid_from_to by done.
  destruct (devr_get _ _) as [r' res] eqn:G. pose proof (devr_get_spec _ _ _ _ G) as [-> Hget].
  destruct state as [d dev]. cbn [snd api_dispatchers api_devices] in *.
  destruct res as [o|e]; [subst o|done]. destruct (dview dev !! mkDeviceId id) as [x|]; [|done].
  unfold handle_response. cbn. by rewrite deserialize_serialize.
Qed.

(** C33: against a running server over an infallible registry, [register_device] of the client returns
    the description of the device that the registry then holds under the new id, or
    [BadRequest] with the registry unchanged when a sensor kind is not one of the five names. *)
Theorem client_register_device_end_to_end {D Dev DE VE} `{!DispatcherRegistry D DE}
    `{DeviceRegistryLaws Dev VE dview} `{!Display DE} `{!UlidText} `{!UlidTextLaws} `{!Jiff}
    `{!UlidGen} `{!Serde DispatcherResponse} `{!Serde ListDispatchersResponse}
    `{!Serde DeviceResponse} `{!SerdeLaws DeviceResponse} `{!Serde ListDevicesResponse}
    `{!Serde RegisterDispatcherRequest} `{!Serde RegisterDeviceRequest}
    `{!SerdeLaws RegisterDeviceRequest} `{!Serde ListDispatchersQuery} `{!Serde ListDevicesQuery}
    `{!Extract} `{!Assets}
    (url : string) (now : Timestamp) (req : RegisterDeviceRequest) (state : ApiState D Dev) (n : nat)
    net' res :
  (∀ d r e, snd (devr_register d r) <> Err e) ->
  ClientOps.register_device (HttpSend0 := served (base_url (Client_new url)) now) (Client_new url)
    req (state, n) = (net', res) ->
  if valid_kinds (rq_sensors req) then
    ∃ device, dev_id device = mkDeviceId (fst (or_new (rq_id req) n)) /\
      dview (api_devices (fst net')) = <[dev_id device := device]> (dview (api_devices state)) /\
      Forall2 requested (rq_sensors req) (dev_sensors device) /\
      res = Ok (DeviceResponse_from device)
  else fst net' = state /\ ∃ m, res = Err (ClientError.BadRequest m).
Proof.
  intros Hok. unfold ClientOps.register_device, ClientOps.request, send.
  rewrite served_register_device. unfold with_json. rewrite deserialize_serialize.
  unfold register_device. destruct (or_new (rq_id req) n) as [i n1]. cbn [fst].
  pose proof (parse_sensors_spec (rq_sensors req) n1) as Hs.
  destruct (parse_sensors (rq_sensors req) n1) as [n2 [ss|resp]]; destruct Hs as [-> Hs].
  2:{ intros [= <- <-]. split; [done|]. unfold handle_response. rewrite Hs. eauto. }
  set (device := mkDevice _ _ _ _ _ _ _).
  destruct (devr_register device (api_devices state)) as [dev r] eqn:E.
  pose proof (devr_register_spec _ _ _ _ E) as Hreg.
  destruct r as [[]|e]; [|destruct (Hok device (api_devices state) e); by rewrite E].
  intros [= <- <-]. exists device. split_and!; [done..|].
  unfold handle_response. cbn. by rewrite deserialize_serialize.
Qed.

(** ** Witnesses *)

Module PrimeClientWitness.
#[local] Existing Instance hash_iter_std.
#[local] Existing Instance lowercase_ascii.
#[local] Existing Instance ulid_crockford.
#[local] Existing Instance ulid_crockford_laws.
#[local] Existing Instance jiff_ns.
#[local] Existing Instance PrimeApiWitness.gen.
#[local] Instance serde_devices : Serde DeviceResponse := serde_countable.
#[local] Instance serde_devices_laws : SerdeLaws DeviceResponse := serde_countable_laws.
#[local] Instance serde_requests : Serde RegisterDeviceRequest := serde_countable.
#[local] Instance serde_requests_laws : SerdeLaws RegisterDeviceRequest := serde_countable_laws.
#[local] Instance serde_other {T} : Serde T | 100 :=
  {| serialize _ := EmptyString; deserialize _ := None |}.
#[local] Instance extract : Extract := {|
  path_param s := Some s; path_rejection _ := mkResponse 400 ""; query_rejection _ := mkResponse 400 "";
  json_rejection _ := mkResponse 422 ""
|}.
#[local] Instance extract_laws : ExtractLaws.
Proof. intros s _. reflexivity. Defined.
#[local] Instance assets : Assets :=
  {| asset_get _ := None; mime_from_path _ := "application/octet-stream"%string |}.

Lemma client_get_device_end_to_end_witness :
  let client := Client_new "http://localhost:8080/" in
  base_url client = "http://localhost:8080"%string /\
  snd (ClientOps.get_device (HttpSend0 := served (base_url client) (mkTimestamp 0)) client 2
         (PrimeApiWitness.state0, 0%nat)) = Ok (DeviceResponse_from (sample_device 2)).
Proof.
  split; [reflexivity|].
  rewrite (client_get_device_end_to_end (dview := InMemoryDeviceRegistry.devices)
    "http://localhost:8080/" (mkTimestamp 0) 2 PrimeApiWitness.state0 0) by (split; lia).
  reflexivity.
Defined.

Lemma client_register_device_end_to_end_witness :
  let client := Client_new "http://localhost:8080" in
  let '(net', res) :=
    ClientOps.register_device (HttpSend0 := served (base_url client) (mkTimestamp 0)) client
      PrimeApiWitness.request0 (PrimeApiWitness.state0, 0%nat) in
  ∃ device, dev_id device = mkDeviceId 1000 /\
    InMemoryDeviceRegistry.devices (api_devices (fst net')) !! mkDeviceId 1000 = Some device /\
    res = Ok (DeviceResponse_from device).
Proof.
  cbv zeta.
  assert (∀ d (r : InMemoryDeviceRegistry.t) (e : InMemoryError), snd (devr_register d r) <> Err e)
    as Hok by (intros d r e; discriminate).
  destruct (ClientOps.register_device _ _ _) as [net' res] eqn:E.
  destruct (client_register_device_end_to_end (dview := InMemoryDeviceRegistry.devices)
    "http://localhost:8080" (mkTimestamp 0) PrimeApiWitness.request0 PrimeApiWitness.state0 0
    net' res Hok E) as (device & Hid & Hv & _ & Hres).
  exists device. split; [exact Hid|]. split; [|exact Hres].
  rewrite Hv. change (mkDeviceId 1000) with (mkDeviceId (fst (or_new (rq_id PrimeApiWitness.request0) 0))).
  rewrite <- Hid. apply lookup_insert_eq.
Defined.
End PrimeClientWitness.
