(* ===== verification/Sql.v ===== *)
(** * The database layer under the registries: what the files of ersha-prime/src/registry/sqlite/ use of
    sqlx and of SQLite

    Rows with dynamically typed columns and the typed access [try_get]; sqlx's [QueryBuilder], which
    accumulates the text of a query and its bound values; the fragment of SELECT that the registries
    build with it, as a syntax with its text ([select_text]) and its meaning on a table ([select_rows],
    SQL's documented one: NULL fails every comparison and sorts first, a negative LIMIT is no limit,
    LIKE ignores the case of ASCII letters); and statements run against a database that may fail at
    any of them, with transactions that roll back. *)
From Stdlib Require Import ZArith Lia Strings.String Strings.Ascii Floats.SpecFloat.
From stdpp Require Import base gmap strings list pretty sorting.
From S2P Require Import Prelude Platform Filter.
Open Scope Z_scope.

(** ** Values and rows *)

(** A value SQLite stores: NULL, INTEGER, REAL or TEXT. *)
Inductive Value := VNull | VInt (z : Z) | VReal (x : f64) | VText (s : string).
#[export] Instance Value_eq_dec : EqDecision Value. Proof. solve_decision. Defined.

(** A row of a table or of a result: its columns by name. *)
Abbreviation SRow := (list (string * Value)).

Fixpoint column (c : string) (r : SRow) : option Value :=
  match r with
  | [] => None
  | (c', v) :: r => if String.eqb c c' then Some v else column c r
  end.

(** What [sqlx::Error] distinguishes here. *)
Inductive DbError :=
  | Unavailable                  (* the statement could not be executed *)
  | Locked                       (* another connection holds the write lock *)
  | ForeignKeyViolation
  | ColumnNotFound (c : string)
  | ColumnDecode (c : string).

(** How a Rust type reads a value: [i32], [i64], [f64], [String] and their [Option]s.  SQLite stores
    integers of 64 bits; reading a wider one as [i32] is an error. *)
Definition as_text (v : Value) : option string := match v with VText s => Some s | _ => None end.
Definition as_int64 (v : Value) : option Z := match v with VInt z => Some z | _ => None end.
Definition as_int32 (v : Value) : option Z :=
  match v with VInt z => if decide (- 2 ^ 31 <= z < 2 ^ 31) then Some z else None | _ => None end.
Definition as_real (v : Value) : option f64 := match v with VReal x => Some x | _ => None end.
Definition as_opt {A} (f : Value -> option A) (v : Value) : option (option A) :=
  match v with VNull => Some None | _ => Some <$> f v end.

(** [Row::try_get]. *)
Definition try_get {A} (decode : Value -> option A) (c : string) (r : SRow) : result A DbError :=
  let? v := ok_or (column c r) (ColumnNotFound c) in ok_or (decode v) (ColumnDecode c).

Definition text_opt (o : option string) : Value := match o with Some s => VText s | None => VNull end.
Definition int_opt (o : option Z) : Value := match o with Some z => VInt z | None => VNull end.

(** ** [sqlx::QueryBuilder] *)

Record QueryBuilder := mkQueryBuilder { sql : string; binds : list Value }.
Definition qb_new (init : string) : QueryBuilder := mkQueryBuilder init [].
Definition push (s : string) (qb : QueryBuilder) : QueryBuilder := mkQueryBuilder (sql qb +:+ s) (binds qb).
Definition push_bind (v : Value) (qb : QueryBuilder) : QueryBuilder :=
  mkQueryBuilder (sql qb +:+ "?") (binds qb ++ [v]).

(** [let mut separated = qb.separated(sep); for v in vs { separated.push_bind(v); }]: the separator is
    pushed before every value but the first. *)
Fixpoint push_separated_from (first : bool) (sep : string) (vs : list Value) (qb : QueryBuilder) : QueryBuilder :=
  match vs with
  | [] => qb
  | v :: vs =>
      push_separated_from false sep vs (push_bind v (if first then qb else push sep qb))
  end.
Definition push_separated : string -> list Value -> QueryBuilder -> QueryBuilder := push_separated_from true.

(** A builder and its [has_where]; [prefix] is the closure of that name in each registry. *)
Definition prefix (x : QueryBuilder * bool) : QueryBuilder * bool :=
  let (qb, has_where) := x in
  if (has_where : bool) then (push " AND " qb, true) else (push " WHERE " qb, true).

(** [if let Some(vs) = filter.vs && !vs.is_empty() { prefix; push("col IN ("); ...; push(")") }]. *)
Definition push_in (col : string) (vs : option (list Value)) (x : QueryBuilder * bool) : QueryBuilder * bool :=
  match vs with
  | Some ((_ :: _) as vs) =>
      let (qb, has_where) := prefix x in
      (push ")" (push_separated ", " vs (push (col +:+ " IN (") qb)), has_where)
  | _ => x
  end.

(** [if let Some(v) = filter.v { prefix; push("col op ").push_bind(v) }]. *)
Definition push_op (col_op : string) (v : option Value) (x : QueryBuilder * bool) : QueryBuilder * bool :=
  match v with
  | Some v => let (qb, has_where) := prefix x in (push_bind v (push col_op qb), has_where)
  | None => x
  end.

(** [if let Some(range) = filter.r { prefix; push("col BETWEEN ").push_bind(..).push(" AND ").. }]. *)
Definition push_between (col : string) (r : option (Value * Value)) (x : QueryBuilder * bool) : QueryBuilder * bool :=
  match r with
  | Some (lo, hi) =>
      let (qb, has_where) := prefix x in
      (push_bind hi (push " AND " (push_bind lo (push (col +:+ " BETWEEN ") qb))), has_where)
  | None => x
  end.

(** [if let Some(..) { prefix; push(cond) }]. *)
Definition push_cond (cond : option string) (x : QueryBuilder * bool) : QueryBuilder * bool :=
  match cond with
  | Some c => let (qb, has_where) := prefix x in (push c qb, has_where)
  | None => x
  end.

(** ** The SELECT fragment: syntax and text *)

(** A column as the text names it, and the column of the row it denotes. *)
Record Col := mkCol { col_text : string; col_name : string }.
Definition plain (c : string) : Col := mkCol c c.

Inductive Cond :=
  | In (c : Col) (vs : list Value)
  | AtLeast (c : Col) (v : Value)
  | AtMost (c : Col) (v : Value)
  | Between (c : Col) (lo hi : Value)
  | Like (c : Col) (pattern : string)
  | IsNull (c : Col) (null : bool).

Definition cond_text (c : Cond) : string :=
  match c with
  | In c vs => col_text c +:+ " IN (" +:+ join ", " ((fun _ => "?"%string) <$> vs) +:+ ")"
  | AtLeast c _ => col_text c +:+ " >= ?"
  | AtMost c _ => col_text c +:+ " <= ?"
  | Between c _ _ => col_text c +:+ " BETWEEN ? AND ?"
  | Like c _ => col_text c +:+ " LIKE ?"
  | IsNull c null => col_text c +:+ (if null then " IS NULL" else " IS NOT NULL")
  end.
Definition cond_binds (c : Cond) : list Value :=
  match c with
  | In _ vs => vs
  | AtLeast _ v | AtMost _ v => [v]
  | Between _ lo hi => [lo; hi]
  | Like _ p => [VText p]
  | IsNull _ _ => []
  end.

Definition where_text (cs : list Cond) : string :=
  match cs with [] => EmptyString | _ => " WHERE " +:+ join " AND " (cond_text <$> cs) end.
Definition where_binds (cs : list Cond) : list Value := mjoin (cond_binds <$> cs).

(** What follows the conditions: the ORDER BY clause as the text has it and the column it names, the
    direction, and a LIMIT and an OFFSET when the query has them. *)
Record Tail := mkTail {
  order_text : string;
  order_col : string;
  direction : SortOrder.t;
  limit : option Z;
  offset : option Z
}.

Definition direction_text (o : SortOrder.t) : string :=
  match o with SortOrder.Asc => " ASC " | SortOrder.Desc => " DESC " end.
Definition tail_text (t : Tail) : string :=
  order_text t +:+ direction_text (direction t) +:+
  (if limit t then " LIMIT ?" else EmptyString) +:+ (if offset t then " OFFSET ?" else EmptyString).
Definition tail_binds (t : Tail) : list Value :=
  from_option (fun z => [VInt z]) [] (limit t) ++ from_option (fun z => [VInt z]) [] (offset t).

(** ** The SELECT fragment: meaning *)

(** SQLite's order of values: NULL, then numbers, then text by its bytes.  The queries compare no REAL
    column, so reals are ordered by their class only. *)
Definition value_key (v : Value) : Z * Z * string :=
  match v with
  | VNull => (0, 0, EmptyString)
  | VInt z => (1, z, EmptyString)
  | VReal _ => (2, 0, EmptyString)
  | VText s => (3, 0, s)
  end.
Definition value_cmp (v w : Value) : comparison :=
  let '(a, b, s) := value_key v in
  let '(a', b', s') := value_key w in
  match Z.compare a a' with Eq => match Z.compare b b' with Eq => String.compare s s' | c => c end | c => c end.

Definition value_le (v w : Value) : bool :=
  match v, w with
  | VNull, _ | _, VNull => false
  | _, _ => match value_cmp v w with Gt => false | _ => true end
  end.

(** [LIKE]: [%] is any sequence, [_] any character, and ASCII letters match in either case. *)
Fixpoint like (pattern : list ascii) : list ascii -> bool :=
  match pattern with
  | [] => fun s => match s with [] => true | _ => false end
  | p :: pattern =>
      if Ascii.eqb p "%" then
        fix any s := like pattern s || match s with [] => false | _ :: s => any s end
      else fun s =>
        match s with
        | [] => false
        | c :: s => (Ascii.eqb p "_" || Ascii.eqb (ascii_lower p) (ascii_lower c)) && like pattern s
        end
  end.
Definition sql_like (pattern s : string) : bool := like (list_ascii_of_string pattern) (list_ascii_of_string s).

Definition col (c : string) (r : SRow) : Value := default VNull (column c r).

(** Whether a condition is true of a row; NULL makes it false or unknown, which selects nothing. *)
Definition holds (r : SRow) (c : Cond) : bool :=
  match c with
  | In c vs => match col (col_name c) r with VNull => false | v => bool_decide (v ∈ vs) end
  | AtLeast c v => value_le v (col (col_name c) r)
  | AtMost c v => value_le (col (col_name c) r) v
  | Between c lo hi => value_le lo (col (col_name c) r) && value_le (col (col_name c) r) hi
  | Like c p => match col (col_name c) r with VText s => sql_like p s | _ => false end
  | IsNull c null => Bool.eqb null (match col (col_name c) r with VNull => true | _ => false end)
  end.
Definition where_ (cs : list Cond) (rows : list SRow) : list SRow := List.filter (fun r => forallb (holds r) cs) rows.

(** The order in which rows that the ORDER BY does not distinguish come is not specified. *)
Class RowOrder := { scan : list SRow -> list SRow; scan_perm l : scan l ≡ₚ l }.

(** The order of the table: one possible instance, which the witnesses compute with. *)
Definition row_order_std : RowOrder := {| scan l := l; scan_perm l := Permutation_refl l |}.

Definition row_cmp (t : Tail) (r r' : SRow) : comparison :=
  let c := value_cmp (col (order_col t) r) (col (order_col t) r') in
  match direction t with SortOrder.Asc => c | SortOrder.Desc => CompOpp c end.
Definition apply_limit {A} (n : option Z) (l : list A) : list A :=
  match n with Some z => if Z.ltb z 0 then l else take (Z.to_nat z) l | None => l end.
Definition apply_offset {A} (n : option Z) (l : list A) : list A :=
  match n with Some z => drop (Z.to_nat z) l | None => l end.

(** The rows in the order asked for, cut to the page. *)
Definition order_page `{!RowOrder} (t : Tail) (rows : list SRow) : list SRow :=
  apply_limit (limit t) (apply_offset (offset t) (sort_by (row_cmp t) (scan rows))).
Definition select_rows `{!RowOrder} (cs : list Cond) (t : Tail) (rows : list SRow) : list SRow :=
  order_page t (where_ cs rows).

(** [INSERT OR REPLACE INTO table (..) VALUES (..)] of a table whose primary key is [id]. *)
Definition replace_row (r : SRow) (rows : list SRow) : list SRow :=
  filter (fun r' => col "id" r' <> col "id" r) rows ++ [r].

(** [SELECT .. WHERE col = ?]. *)
Definition rows_where (c : string) (v : Value) (rows : list SRow) : list SRow :=
  filter (fun r => col c r = v /\ v <> VNull) rows.

(** ** Running statements *)

(** The database as one connection of the pool sees it: its tables, and which of the coming
    statements will fail. *)
Record Conn (T : Type) := mkConn { tables : T; faults : list bool }.
Arguments mkConn {T}.
Arguments tables {T}.
Arguments faults {T}.

(** An operation: what it does to the connection, and its [Result]. *)
Definition M (T E A : Type) : Type := Conn T -> Conn T * result A E.
Definition ret {T E A} (a : A) : M T E A := fun c => (c, Ok a).
Definition throw {T E A} (e : E) : M T E A := fun c => (c, Err e).
Definition bind {T E A B} (m : M T E A) (k : A -> M T E B) : M T E B := fun c =>
  match m c with (c, Ok a) => k a c | (c, Err e) => (c, Err e) end.
Definition lift {T E A} (r : result A E) : M T E A := fun c => (c, r).
Notation "x <-- m ;; k" := (bind m (fun x => k)) (at level 100, m at next level, right associativity) : ersha_scope.

(** [for x in xs { f(x).await?; }]. *)
Fixpoint for_each {T E X} (f : X -> M T E unit) (xs : list X) : M T E unit :=
  match xs with
  | [] => ret tt
  | x :: xs => _ <-- f x ;; for_each f xs
  end.
(** [for x in xs { ys.push(f(x).await?); }]. *)
Fixpoint map_m {T E X Y} (f : X -> M T E Y) (xs : list X) : M T E (list Y) :=
  match xs with
  | [] => ret []
  | x :: xs => y <-- f x ;; ys <-- map_m f xs ;; ret (y :: ys)
  end.

Section statements.
Context {T E : Type} (of_sqlx : DbError -> E).

(** One round trip to the database. *)
Definition round_trip : M T E unit := fun c =>
  (mkConn (tables c) (tl (faults c)), if hd false (faults c) then Err (of_sqlx Unavailable) else Ok tt).

(** [.execute(..).await?] and [.fetch_*(..).await?] of a statement. *)
Definition run {A} (stmt : T -> result (A * T) DbError) : M T E A :=
  _ <-- round_trip ;;
  fun c => match stmt (tables c) with
           | Ok (a, t) => (mkConn t (faults c), Ok a)
           | Err e => (c, Err (of_sqlx e))
           end.

(** [let mut tx = pool.begin().await?; body; tx.commit().await?]: a transaction that is dropped before
    the commit leaves the tables as they were. *)
Definition transaction {A} (body : M T E A) : M T E A := fun c =>
  let m := _ <-- round_trip ;; a <-- body ;; _ <-- round_trip ;; ret a in
  match m c with
  | (c', Ok a) => (c', Ok a)
  | (c', Err e) => (mkConn (tables c) (faults c'), Err e)
  end.
End statements.

(** [SELECT .. FROM .. WHERE ..] read as values, or as a number of rows. *)
Section queries.
Context `{!RowOrder} {E A : Type} (of_sqlx : DbError -> E) (dec : SRow -> result A E).

Definition fetch_all (cs : list Cond) (t : Tail) : M (list SRow) E (list A) :=
  rows <-- run of_sqlx (fun tbl => Ok (select_rows cs t tbl, tbl)) ;; lift (collect (dec <$> rows)).
Definition fetch_optional (c : string) (v : Value) : M (list SRow) E (option A) :=
  rows <-- run of_sqlx (fun tbl => Ok (rows_where c v tbl, tbl)) ;;
  match rows with [] => ret None | r :: _ => lift (map_ok Some (dec r)) end.
Definition fetch_count (cs : list Cond) : M (list SRow) E Z :=
  run of_sqlx (fun tbl => Ok (Z.of_nat (length (where_ cs tbl)), tbl)).
End queries.

Definition read {T A} (f : T -> A) : T -> result (A * T) DbError := fun t => Ok (f t, t).
Definition write {T} (f : T -> T) : T -> result (unit * T) DbError := fun t => Ok (tt, f t).

(** ** The text a builder holds is the text of the query it stands for *)

Abbreviation marks vs := ((fun _ : Value => "?"%string) <$> vs).

Lemma push_separated_false sep vs qb :
  push_separated_from false sep vs qb =
    mkQueryBuilder (sql qb +:+ match vs with [] => EmptyString | _ => sep +:+ join sep (marks vs) end)
      (binds qb ++ vs).
Proof.
  revert qb. induction vs as [|v vs IH]; intros [s bs].
  - simpl. by rewrite string_app_nil, app_nil_r.
  - cbn [push_separated_from]. rewrite IH. unfold push_bind, push. cbn [sql binds]. f_equal.
    + destruct vs as [|w vs]; [rewrite string_app_nil; cbn; by rewrite <- !(assoc_L String.append)|].
      cbn [fmap list_fmap]. rewrite (join_cons sep "?" ("?" :: _)) by done. by rewrite <- !(assoc_L String.append).
    + by rewrite <- (assoc_L (++)).
Qed.

Lemma push_separated_spec sep v vs qb :
  push_separated sep (v :: vs) qb =
    mkQueryBuilder (sql qb +:+ join sep (marks (v :: vs))) (binds qb ++ v :: vs).
Proof.
  unfold push_separated. cbn [push_separated_from]. rewrite push_separated_false. f_equal; simpl.
  - destruct vs as [|w vs]; simpl; [by rewrite string_app_nil|]. by rewrite <- !(assoc_L String.append).
  - by rewrite <- (assoc_L (++)).
Qed.

(** The builder after [init] and the conditions [cs], with its [has_where]. *)
Definition where_state (init : string) (cs : list Cond) : QueryBuilder * bool :=
  (mkQueryBuilder (init +:+ where_text cs) (where_binds cs), match cs with [] => false | _ => true end).

Definition in_cond (c : Col) (vs : option (list Value)) : list Cond :=
  match vs with Some ((_ :: _) as vs) => [In c vs] | _ => [] end.
Definition opt_cond {A} (f : A -> Cond) (o : option A) : list Cond :=
  match o with Some a => [f a] | None => [] end.

Lemma qb_new_state init : (qb_new init, false) = where_state init [].
Proof. unfold where_state, qb_new. simpl. by rewrite string_app_nil. Qed.

Lemma where_binds_snoc cs c : where_binds (cs ++ [c]) = where_binds cs ++ cond_binds c.
Proof. unfold where_binds. rewrite fmap_app, join_app. simpl. by rewrite app_nil_r. Qed.

(** Any way of adding a condition that pushes its text and its values after [prefix] keeps the shape. *)
Lemma prefix_state init cs c :
  (let (qb, b) := prefix (where_state init cs) in
   (mkQueryBuilder (sql qb +:+ cond_text c) (binds qb ++ cond_binds c), b)) = where_state init (cs ++ [c]).
Proof.
  unfold where_state. destruct cs as [|c' cs]; cbn -[join where_binds].
  - rewrite string_app_nil. unfold where_binds. simpl. by rewrite <- (assoc_L String.append), app_nil_r.
  - f_equal. f_equal.
    + rewrite <- !(assoc_L String.append). do 2 f_equal.
      change (cond_text c' :: (cond_text <$> cs ++ [c])) with (cond_text <$> (c' :: cs) ++ [c]).
      rewrite fmap_app. cbn [fmap list_fmap]. rewrite join_snoc by done. reflexivity.
    + change (c' :: cs ++ [c]) with ((c' :: cs) ++ [c]). by rewrite where_binds_snoc.
Qed.

Lemma push_in_state init cs c vs :
  push_in (col_text c) vs (where_state init cs) = where_state init (cs ++ in_cond c vs).
Proof.
  destruct vs as [[|v vs]|]; cbn [push_in in_cond]; [by rewrite app_nil_r| |by rewrite app_nil_r].
  rewrite <- prefix_state. destruct (prefix _) as [qb b]. rewrite push_separated_spec.
  unfold push. cbn [sql binds cond_text cond_binds]. rewrite <- ?(assoc_L String.append). reflexivity.
Qed.

Lemma push_cond_state {A} init cs (text : A -> string) (c : A -> Cond) (o : option A) :
  (∀ a, cond_text (c a) = text a /\ cond_binds (c a) = []) ->
  push_cond (text <$> o) (where_state init cs) = where_state init (cs ++ opt_cond c o).
Proof.
  intros Hc. destruct o as [a|]; cbn [push_cond opt_cond fmap option_fmap option_map]; [|by rewrite app_nil_r].
  destruct (Hc a) as [Ht Hb]. rewrite <- prefix_state. destruct (prefix _) as [qb b].
  unfold push. by rewrite Ht, Hb, app_nil_r.
Qed.

(** Conditions whose text is some [col op ] followed by one mark. *)
Lemma push_op_state {A} init cs text (f : A -> Value) (c : A -> Cond) (o : option A) :
  (∀ a, cond_text (c a) = text +:+ "?" /\ cond_binds (c a) = [f a]) ->
  push_op text (f <$> o) (where_state init cs) = where_state init (cs ++ opt_cond c o).
Proof.
  intros Hc. destruct o as [a|]; cbn [push_op push_between opt_cond fmap option_fmap option_map]; [|by rewrite app_nil_r].
  destruct (Hc a) as [Ht Hb]. rewrite <- prefix_state, Ht, Hb. destruct (prefix _) as [qb b].
  unfold push_bind, push. cbn [sql binds]. rewrite <- !(assoc_L String.append). reflexivity.
Qed.

Lemma push_between_state {A} init cs c (lo hi : A -> Value) (o : option A) :
  push_between (col_text c) ((fun r => (lo r, hi r)) <$> o) (where_state init cs)
    = where_state init (cs ++ opt_cond (fun r => Between c (lo r) (hi r)) o).
Proof.
  destruct o as [r|]; cbn [push_op push_between opt_cond fmap option_fmap option_map]; [|by rewrite app_nil_r].
  rewrite <- prefix_state. destruct (prefix _) as [qb b].
  unfold push_bind, push. cbn [sql binds cond_text cond_binds].
  rewrite <- ?(assoc_L String.append), <- ?(assoc_L (++)). reflexivity.
Qed.

(** The whole query: what comes before the conditions, the conditions, and the rest. *)
Definition query (init : string) (cs : list Cond) (t : Tail) : QueryBuilder :=
  mkQueryBuilder (init +:+ where_text cs +:+ tail_text t) (where_binds cs ++ tail_binds t).

(** One mark for every value that is bound: no text of this development holds another one. *)
Definition marks_in (s : string) : nat := count_char "?" s.
Definition no_marks (s : string) : Prop := marks_in s = 0%nat.

Lemma marks_in_app s u : marks_in (s +:+ u) = (marks_in s + marks_in u)%nat.
Proof. apply count_char_app. Qed.

Lemma marks_in_join sep l : no_marks sep -> marks_in (join sep l) = sum_list (marks_in <$> l).
Proof. unfold no_marks, marks_in. intros Hs. by rewrite count_char_join, Hs, Nat.mul_0_r, Nat.add_0_r. Qed.

Lemma marks_count sep vs : no_marks sep -> marks_in (join sep (marks vs)) = length vs.
Proof.
  intros Hs. rewrite marks_in_join by done. induction vs as [|v vs IH]; [done|]. csimpl. by rewrite IH.
Qed.

Definition cond_no_marks (c : Cond) : Prop :=
  match c with In c _ | AtLeast c _ | AtMost c _ | Between c _ _ | Like c _ | IsNull c _ => no_marks (col_text c) end.

Lemma cond_marks c : cond_no_marks c -> marks_in (cond_text c) = length (cond_binds c).
Proof.
  unfold no_marks. destruct c as [c vs|c v|c v|c lo hi|c p|c [|]];
    cbn [cond_no_marks cond_text cond_binds]; intros Hc; rewrite !marks_in_app, Hc; [|reflexivity..].
  rewrite marks_count by done. cbn. lia.
Qed.

Lemma where_marks cs : Forall cond_no_marks cs -> marks_in (where_text cs) = length (where_binds cs).
Proof.
  intros Hall. unfold where_binds.
  assert (sum_list (marks_in <$> (cond_text <$> cs)) = length (mjoin (cond_binds <$> cs))) as Hsum.
  { induction Hall as [|c cs Hc _ IH]; [done|]. csimpl. by rewrite IH, cond_marks, length_app. }
  destruct cs as [|c cs]; [done|]. unfold where_text. by rewrite marks_in_app, marks_in_join, Hsum.
Qed.

Lemma query_marks init cs t :
  no_marks init -> no_marks (order_text t) -> Forall cond_no_marks cs ->
  marks_in (sql (query init cs t)) = length (binds (query init cs t)).
Proof.
  intros Hi Ho Hcs. cbn [query sql binds]. unfold tail_text, tail_binds.
  rewrite !marks_in_app, where_marks, Hi, Ho by done. rewrite !length_app.
  destruct (direction t), (limit t), (offset t); cbn; lia.
Qed.

(** ** What a SELECT returns *)

Definition key_cmp (x y : Z * Z * string) : comparison :=
  match Z.compare x.1.1 y.1.1 with
  | Eq => match Z.compare x.1.2 y.1.2 with Eq => String.compare x.2 y.2 | c => c end
  | c => c
  end.

Lemma value_cmp_key v w : value_cmp v w = cmp_on value_key key_cmp v w.
Proof. unfold value_cmp, cmp_on, key_cmp. by destruct (value_key v) as [[] ?], (value_key w) as [[] ?]. Qed.

#[export] Instance key_cmp_laws : CmpLaws key_cmp.
Proof.
  split; unfold key_cmp.
  - intros [[a b] s] [[a' b'] s']; simpl. rewrite (Z.compare_antisym a a'), (Z.compare_antisym b b').
    destruct (Z.compare a a'); simpl; [|done..]. destruct (Z.compare b b'); simpl; [|done..]. apply cmp_opp.
  - intros [[a b] s] [[a' b'] s'] [[a'' b''] s'']; simpl.
    destruct (Z.compare_spec a a'), (Z.compare_spec a' a''), (Z.compare_spec a a''); intros; try done; try lia.
    destruct (Z.compare_spec b b'), (Z.compare_spec b' b''), (Z.compare_spec b b''); try done; try lia.
    by eapply cmp_trans.
Qed.

#[export] Instance value_cmp_laws : CmpLaws value_cmp.
Proof. split; intros *; rewrite !value_cmp_key; [apply cmp_opp|apply cmp_trans]. Qed.

#[export] Instance row_cmp_laws t : CmpLaws (row_cmp t).
Proof.
  unfold row_cmp. destruct (direction t).
  - exact (cmp_on_laws (col (order_col t)) value_cmp).
  - exact (reverse_cmp_laws (cmp_on (col (order_col t)) value_cmp)).
Qed.

Lemma StronglySorted_fmap_inv {A B} (f : A -> B) (R : B -> B -> Prop) l :
  StronglySorted R (f <$> l) -> StronglySorted (fun a b => R (f a) (f b)) l.
Proof.
  induction l as [|a l IH]; csimpl; [constructor|]. intros [Hs Ha]%StronglySorted_inv.
  constructor; [by apply IH|]. exact (proj1 (Forall_fmap _ _ _) Ha).
Qed.

Lemma List_filter_perm {A} (p : A -> bool) l k : l ≡ₚ k -> List.filter p l ≡ₚ List.filter p k.
Proof.
  induction 1 as [|a l k _ IH|a b l|]; simpl; [done| | |by etrans].
  - destruct (p a); by rewrite IH.
  - destruct (p a), (p b); try done. constructor.
Qed.

Section select.
Context `{!RowOrder} {A : Type} (enc : A -> SRow).
Implicit Types l : list A.

(** The conditions read on the value a row encodes. *)
Definition satisfies (cs : list Cond) (a : A) : bool := forallb (holds (enc a)) cs.

Lemma where_fmap cs l : where_ cs (enc <$> l) = enc <$> List.filter (satisfies cs) l.
Proof.
  unfold where_. induction l as [|a l IH]; [done|]. csimpl. fold (satisfies cs a).
  rewrite IH. by destruct (satisfies cs a).
Qed.

Lemma order_page_spec t rows l : rows ≡ₚ enc <$> l -> ∃ s,
  order_page t rows = enc <$> apply_limit (limit t) (apply_offset (offset t) s) /\
  s ≡ₚ l /\ StronglySorted (cmp_le (cmp_on enc (row_cmp t))) s.
Proof.
  intros Hrows. set (k := sort_by (row_cmp t) (scan rows)).
  assert (enc <$> l ≡ₚ k) as Hp by (unfold k; by rewrite sort_by_perm, scan_perm, Hrows).
  destruct (Permutation_map_inv enc _ (symmetry Hp)) as (s & Hs & Hperm).
  change (map enc s) with (enc <$> s) in Hs. exists s. split; [|split; [done|]].
  - unfold order_page. fold k. rewrite Hs. destruct (limit t) as [z|], (offset t) as [z'|]; simpl;
      [destruct (z <? 0)|destruct (z <? 0)|..]; by rewrite ?fmap_take, ?fmap_drop.
  - apply (StronglySorted_fmap_inv enc (cmp_le (row_cmp t))). rewrite <- Hs. apply sort_by_sorted, _.
Qed.

(** The rows that satisfy the conditions in the order asked for, cut to the page. *)
Lemma select_rows_spec cs t l : ∃ s,
  select_rows cs t (enc <$> l) = enc <$> apply_limit (limit t) (apply_offset (offset t) s) /\
  s ≡ₚ List.filter (satisfies cs) l /\
  StronglySorted (cmp_le (cmp_on enc (row_cmp t))) s.
Proof. apply order_page_spec. by rewrite where_fmap. Qed.
End select.

Lemma page_sublist {A} n m (l : list A) : apply_limit n (apply_offset m l) `sublist_of` l.
Proof.
  assert (apply_offset m l `sublist_of` l) by (destruct m; [apply sublist_drop|done]).
  destruct n as [z|]; [|done]. simpl. destruct (z <? 0); [done|]. etrans; [apply sublist_take|done].
Qed.

(** ** Tables of encoded values, one row per key *)

Section table.
Context {A : Type} (enc : A -> SRow) (id : A -> string) (enc_id : ∀ a, col "id" (enc a) = VText (id a)).
Implicit Types l : list A.

(** What the table holds after [INSERT OR REPLACE] of a value. *)
Definition put (a : A) l : list A := filter (fun b => id b <> id a) l ++ [a].

Lemma replace_row_put a l : replace_row (enc a) (enc <$> l) = enc <$> put a l.
Proof.
  unfold replace_row, put. rewrite fmap_app. f_equal. apply filter_fmap_ext.
  intros b. rewrite !enc_id. split; intros Hne Heq; congruence.
Qed.

Lemma put_NoDup a l : NoDup (id <$> l) -> NoDup (id <$> put a l).
Proof.
  intros Hnd. unfold put. rewrite fmap_app. apply NoDup_app. split_and!.
  - eapply sublist_NoDup; [exact Hnd|]. apply fmap_sublist, sublist_filter.
  - intros x Hx Hin. apply list_elem_of_singleton in Hin as ->.
    apply list_elem_of_fmap in Hx as (b & Heq & [Hne _]%list_elem_of_filter). congruence.
  - apply NoDup_singleton.
Qed.

Lemma elem_of_put a b l : b ∈ put a l <-> b = a \/ (b ∈ l /\ id b <> id a).
Proof. unfold put. rewrite elem_of_app, list_elem_of_filter, list_elem_of_singleton. tauto. Qed.

Lemma find_put a l s :
  List.find (fun b => String.eqb (id b) s) (put a l) =
    if String.eqb (id a) s then Some a else List.find (fun b => String.eqb (id b) s) l.
Proof.
  unfold put. induction l as [|b l IH]; [simpl; by destruct (String.eqb (id a) s)|].
  rewrite filter_cons. destruct (decide (id b <> id a)) as [Hne|Heq]; simpl.
  - rewrite IH. destruct (String.eqb_spec (id b) s), (String.eqb_spec (id a) s); congruence.
  - rewrite IH. apply dec_stable in Heq. rewrite Heq. by destruct (String.eqb (id a) s).
Qed.

Lemma Forall_put (P : A -> Prop) a l : P a -> Forall P l -> Forall P (put a l).
Proof. rewrite !Forall_forall. intros Ha Hl b [->|[Hb _]]%elem_of_put; auto. Qed.

Lemma rows_where_none s l : s ∉ id <$> l -> rows_where "id" (VText s) (enc <$> l) = [].
Proof.
  unfold rows_where. induction l as [|a l IH]; intros Hs; [done|]. csimpl in *.
  apply not_elem_of_cons in Hs as [Ha Hs]. rewrite filter_cons, enc_id, decide_False; [by apply IH|].
  intros [[= Heq] _]. congruence.
Qed.

Lemma rows_where_id s l : NoDup (id <$> l) ->
  rows_where "id" (VText s) (enc <$> l) =
    match List.find (fun a => String.eqb (id a) s) l with Some a => [enc a] | None => [] end.
Proof.
  induction l as [|a l IH]; intros Hnd; [done|]. csimpl in *.
  apply NoDup_cons in Hnd as [Ha Hnd]. unfold rows_where. rewrite filter_cons, enc_id.
  destruct (String.eqb_spec (id a) s) as [<-|Hne].
  - rewrite decide_True by done. f_equal. by apply rows_where_none.
  - rewrite decide_False by (intros [[= ?] _]; done). by apply IH.
Qed.
End table.

(** ** What running statements does

    [run] either executes its statement or leaves the tables as they were; a transaction does the
    work of its body or nothing; a database that fails nothing ([calm]) executes everything. *)

Definition calm {T} (t : T) : Conn T := mkConn t [].

Section statements.
Context {T E : Type} (of_sqlx : DbError -> E).
Implicit Types (c : Conn T) (t : T).

Lemma run_eq {A} (stmt : T -> result (A * T) DbError) c :
  run of_sqlx stmt c =
    let c1 := mkConn (tables c) (tl (faults c)) in
    if hd false (faults c) then (c1, Err (of_sqlx Unavailable)) else
    match stmt (tables c) with
    | Ok (a, t) => (mkConn t (tl (faults c)), Ok a)
    | Err e => (c1, Err (of_sqlx e))
    end.
Proof. unfold run, bind, round_trip. by destruct (hd false (faults c)). Qed.

Lemma run_cases {A} (stmt : T -> result (A * T) DbError) c :
  (∃ a t, stmt (tables c) = Ok (a, t) /\ run of_sqlx stmt c = (mkConn t (tl (faults c)), Ok a)) \/
  (∃ e, run of_sqlx stmt c = (mkConn (tables c) (tl (faults c)), Err (of_sqlx e))).
Proof.
  unfold run, bind, round_trip. destruct (hd false (faults c)); [by eauto|]. cbn.
  destruct (stmt (tables c)) as [[a t]|e]; eauto 6.
Qed.

(** Some coming statement fails. *)
Definition faulty c : Prop := true ∈ faults c.

Lemma faulty_tl c : true ∈ tl (faults c) -> faulty c.
Proof. unfold faulty. destruct (faults c); [done|]. simpl. by right. Qed.

(** A statement whose meaning does not fail. *)
Lemma run_total {A} (f : T -> A) (g : T -> T) c c' r :
  run of_sqlx (fun t => Ok (f t, g t)) c = (c', r) ->
  faults c' = tl (faults c) /\
  match r with
  | Ok a => a = f (tables c) /\ tables c' = g (tables c)
  | Err e => tables c' = tables c /\ e = of_sqlx Unavailable /\ faulty c
  end.
Proof.
  unfold run, bind, round_trip, faulty. destruct (faults c) as [|[|] fs]; cbn; intros [= <- <-]; cbn; try done.
  split_and!; try done. by left.
Qed.

Lemma run_calm {A} (stmt : T -> result (A * T) DbError) t :
  run of_sqlx stmt (calm t) =
    match stmt t with Ok (a, t') => (calm t', Ok a) | Err e => (calm t, Err (of_sqlx e)) end.
Proof. unfold run, bind, round_trip, calm. cbn. by destruct (stmt t) as [[a t']|]. Qed.

Lemma transaction_cases {A} (body : M T E A) c c' r :
  transaction of_sqlx body c = (c', r) ->
  match r with
  | Ok a => ∃ c1 c2, tables c1 = tables c /\ faults c1 = tl (faults c) /\ body c1 = (c2, Ok a) /\
      tables c' = tables c2
  | Err e => tables c' = tables c /\
      (e = of_sqlx Unavailable \/
       ∃ c1 c2, tables c1 = tables c /\ faults c1 = tl (faults c) /\ body c1 = (c2, Err e))
  end.
Proof.
  unfold transaction, bind, round_trip. destruct (hd false (faults c)); cbn; [intros [= <- <-]; auto|].
  destruct (body (mkConn (tables c) _)) as [c2 [a|e]] eqn:Hb.
  - destruct (hd false (faults c2)); cbn; intros [= <- <-]; [by auto|]. by exists (mkConn (tables c) (tl (faults c))), c2.
  - intros [= <- <-]. split; [done|]. right. by exists (mkConn (tables c) (tl (faults c))), c2.
Qed.

Lemma transaction_calm {A} (body : M T E A) t t' (res : result A E) :
  body (calm t) = (calm t', res) ->
  transaction of_sqlx body (calm t) = (calm (match res with Ok _ => t' | Err _ => t end), res).
Proof. intros Hb. unfold transaction, bind, round_trip, calm in *. cbn. rewrite Hb. by destruct res. Qed.

Lemma for_each_writes {X} (f : X -> T -> T) xs c c' :
  for_each (fun x => run of_sqlx (write (f x))) xs c = (c', Ok tt) ->
  tables c' = fold_left (fun t x => f x t) xs (tables c).
Proof.
  revert c. induction xs as [|x xs IH]; intros c; cbn [for_each fold_left]; [by intros [= <-]|].
  unfold bind. destruct (run _ _ c) as [c1 [[]|e]] eqn:Hr; [|done]. intros Hf%IH.
  apply run_total in Hr as (_ & _ & Hr). by rewrite Hf, Hr.
Qed.

Lemma for_each_calm {X} (m : X -> M T E unit) (f : X -> T -> T) xs t :
  (∀ x t, m x (calm t) = (calm (f x t), Ok tt)) ->
  for_each m xs (calm t) = (calm (fold_left (fun t x => f x t) xs t), Ok tt).
Proof.
  intros Hm. revert t. induction xs as [|x xs IH]; intros t; [done|].
  cbn [for_each fold_left]. unfold bind. by rewrite Hm, IH.
Qed.

(** A query, and what is done with its result without the database. *)
Lemma read_then_frame {A B} (f : T -> A) (k : A -> M T E B) c c' r :
  (∀ a c c' r, k a c = (c', r) -> tables c' = tables c) ->
  (a <-- run of_sqlx (fun t => Ok (f t, t)) ;; k a) c = (c', r) -> tables c' = tables c.
Proof.
  intros Hk. unfold bind. destruct (run _ _ c) as [c1 [a|e]] eqn:Hr; apply run_total in Hr as [_ Hr].
  - destruct Hr as [_ Ht]. intros Hb%Hk. by rewrite Hb, Ht.
  - intros [= <- _]. by destruct Hr.
Qed.

(** [map_m] of operations that read. *)
Lemma map_m_calm {X Y} (m : X -> M T E Y) (f : X -> result Y E) xs t :
  (∀ x, x ∈ xs -> m x (calm t) = (calm t, f x)) -> map_m m xs (calm t) = (calm t, collect (f <$> xs)).
Proof.
  induction xs as [|x xs IH]; intros Hm; [done|]. csimpl. unfold bind.
  rewrite Hm, IH by set_solver. destruct (f x); [|done]. by destruct (collect _).
Qed.

Lemma map_m_frame {X Y} (m : X -> M T E Y) xs c c' r :
  (∀ x c c' r, m x c = (c', r) -> tables c' = tables c) -> map_m m xs c = (c', r) -> tables c' = tables c.
Proof.
  intros Hm. revert c c' r. induction xs as [|x xs IH]; intros c c' r; cbn [map_m]; unfold bind, ret.
  - by intros [= <- _].
  - destruct (m x c) as [c1 [y|e]] eqn:H1; apply Hm in H1; [|by intros [= <- _]].
    destruct (map_m m xs c1) as [c2 [ys|e]] eqn:H2; apply IH in H2; intros [= <- _]; congruence.
Qed.
End statements.

(** ** What an operation establishes

    [wp m Q c]: run on [c], the operation [m] answers a value with [Q] of it and of the tables it
    leaves, or a statement of it fails because the database does. *)

Section wp.
Context {T E : Type} (of_sqlx : DbError -> E).
Implicit Types (c : Conn T) (t : T).

Definition wp {A} (m : M T E A) (Q : A -> T -> Prop) c : Prop :=
  let (c', r) := m c in
  (faulty c' -> faulty c) /\
  match r with Ok a => Q a (tables c') | Err e => e = of_sqlx Unavailable /\ faulty c end.

Lemma wp_elim {A} (m : M T E A) Q c c' r : wp m Q c -> m c = (c', r) ->
  match r with Ok a => Q a (tables c') | Err e => e = of_sqlx Unavailable /\ faulty c end.
Proof. intros Hm Heq. unfold wp in Hm. rewrite Heq in Hm. by destruct Hm. Qed.

(** A database that fails nothing lets the operation answer. *)
Lemma wp_calm {A} (m : M T E A) Q t : wp m Q (calm t) -> ∃ c' a, m (calm t) = (c', Ok a) /\ Q a (tables c').
Proof.
  unfold wp. destruct (m (calm t)) as [c' [a|e]]; intros [_ Hm]; [by eauto|].
  destruct Hm as [_ Hf%elem_of_nil]. done.
Qed.

Lemma wp_ret {A} (a : A) Q c : Q a (tables c) -> wp (ret a) Q c.
Proof. unfold wp, ret. auto. Qed.

Lemma wp_lift {A} (r : result A E) a Q c : r = Ok a -> Q a (tables c) -> wp (lift r) Q c.
Proof. unfold wp, lift. intros ->. auto. Qed.

Lemma wp_mono {A} (m : M T E A) (Q Q' : A -> T -> Prop) c :
  wp m Q c -> (∀ a t, Q a t -> Q' a t) -> wp m Q' c.
Proof. unfold wp. intros Hm HQ. destruct (m c) as [c' [a|e]]; naive_solver. Qed.

Lemma wp_bind {A B} (m : M T E A) (k : A -> M T E B) (Q : A -> T -> Prop) Q' c :
  wp m Q c -> (∀ a c', Q a (tables c') -> wp (k a) Q' c') -> wp (bind m k) Q' c.
Proof.
  unfold wp, bind. intros Hm Hk. destruct (m c) as [c1 [a|e]]; [|done]. destruct Hm as [Hf Ha].
  specialize (Hk a c1 Ha). destruct (k a c1) as [c2 [b|e]]; naive_solver.
Qed.

Lemma wp_round_trip Q c : Q tt (tables c) -> wp (round_trip of_sqlx) Q c.
Proof.
  unfold wp, round_trip, faulty. intros HQ. destruct (faults c) as [|[|] fs]; cbn; [done|set_solver..].
Qed.

Lemma wp_run {A} (stmt : T -> result (A * T) DbError) a t Q c :
  stmt (tables c) = Ok (a, t) -> Q a t -> wp (run of_sqlx stmt) Q c.
Proof.
  intros Hs HQ. eapply wp_bind; [by apply (wp_round_trip (fun _ t' => t' = tables c))|].
  intros [] c1 Ht. unfold wp. rewrite Ht, Hs. auto.
Qed.

Lemma wp_read {A} (f : T -> A) (Q : A -> T -> Prop) c :
  Q (f (tables c)) (tables c) -> wp (run of_sqlx (read f)) Q c.
Proof. by eapply wp_run. Qed.

Lemma wp_write (f : T -> T) (Q : unit -> T -> Prop) c : Q tt (f (tables c)) -> wp (run of_sqlx (write f)) Q c.
Proof. by eapply wp_run. Qed.

(** A statement and what follows it. *)
Lemma wp_read_bind {A B} (f : T -> A) (k : A -> M T E B) Q c :
  (∀ c', tables c' = tables c -> wp (k (f (tables c))) Q c') -> wp (bind (run of_sqlx (read f)) k) Q c.
Proof.
  intros Hk. eapply wp_bind; [by apply (wp_read _ (fun a t => a = f (tables c) /\ t = tables c))|].
  intros a c' [-> Ht]. by apply Hk.
Qed.

Lemma wp_write_bind {B} (f : T -> T) (k : unit -> M T E B) Q c :
  (∀ c', tables c' = f (tables c) -> wp (k tt) Q c') -> wp (bind (run of_sqlx (write f)) k) Q c.
Proof.
  intros Hk. eapply wp_bind; [by apply (wp_write _ (fun _ t => t = f (tables c)))|].
  intros [] c' Ht. by apply Hk.
Qed.

Lemma wp_lift_bind {A B} (r : result A E) a (k : A -> M T E B) Q c :
  r = Ok a -> wp (k a) Q c -> wp (bind (lift r) k) Q c.
Proof. unfold wp, bind, lift. by intros ->. Qed.

Lemma wp_transaction {A} (m : M T E A) Q c :
  (∀ c1, tables c1 = tables c -> wp m Q c1) -> wp (transaction of_sqlx m) Q c.
Proof.
  intros Hm. assert (wp (_ <-- round_trip of_sqlx ;; a <-- m ;; _ <-- round_trip of_sqlx ;; ret a) Q c) as Hw.
  { eapply wp_bind; [by apply (wp_round_trip (fun _ t => t = tables c))|]. intros [] c1 Ht.
    eapply wp_bind; [by apply Hm|]. intros a c2 Ha.
    eapply wp_bind; [by apply (wp_round_trip (fun _ t => t = tables c2))|]. intros [] c3 Ht'.
    apply wp_ret. by rewrite Ht'. }
  unfold wp, transaction in *. cbv zeta. destruct (bind _ _ c) as [c' [a|e]]; done.
Qed.

(** The invariant [P] speaks of what is left to do. *)
Lemma wp_for_each {X} (f : X -> M T E unit) (P : list X -> T -> Prop) xs c :
  (∀ x xs c, P (x :: xs) (tables c) -> wp (f x) (fun _ t => P xs t) c) ->
  P xs (tables c) -> wp (for_each f xs) (fun _ t => P [] t) c.
Proof.
  intros Hf. revert c. induction xs as [|x xs IH]; intros c HP; cbn [for_each]; [by apply wp_ret|].
  eapply wp_bind; [by apply Hf|]. intros [] c1 H1. by apply IH.
Qed.

Lemma map_m_fmap {X Y Z} (g : X -> Y) (f : Y -> M T E Z) xs : map_m f (g <$> xs) = map_m (fun x => f (g x)) xs.
Proof. induction xs as [|x xs IH]; [done|]. csimpl. by rewrite IH. Qed.

(** Operations that only read: the tables stay as they are. *)
Lemma wp_map_m {X Y} (f : X -> M T E Y) (R : X -> Y -> Prop) xs c :
  (∀ x c', x ∈ xs -> tables c' = tables c -> wp (f x) (fun y t => t = tables c /\ R x y) c') ->
  wp (map_m f xs) (fun ys t => t = tables c /\ Forall2 R xs ys) c.
Proof.
  intros Hf. enough (∀ c', tables c' = tables c -> wp (map_m f xs) (fun ys t => t = tables c /\ Forall2 R xs ys) c') as He
    by by apply He.
  induction xs as [|x xs IH]; intros c' Ht; cbn [map_m]; [by apply wp_ret|].
  eapply wp_bind; [apply Hf; [left|done]|]. intros y c1 [Ht1 Hy].
  eapply wp_bind; [apply IH; [intros; apply Hf; [by right|done]|done]|]. intros ys c2 [Ht2 Hys].
  apply wp_ret. auto.
Qed.
End wp.

(** ** A table of encoded values as a map

    A [Codec] says how a registry writes a value as a row, reads it back and files it; [CodecLaws]
    is what makes the table a map. *)

Record Codec (A B K E : Type) := mkCodec {
  cd_enc : A -> SRow;               (* the row an INSERT binds *)
  cd_dec : SRow -> result B E;      (* the value a row is read as *)
  cd_key : A -> K;
  cd_bkey : B -> K;
  cd_text : K -> string;            (* the key as the column [id] has it *)
  cd_wf : A -> Prop;                (* the widths of its fields *)
  cd_valid : K -> Prop;
  cd_stored : A -> B                (* what is read after it was written *)
}.
Arguments mkCodec {A B K E}.
Arguments cd_enc {A B K E}.
Arguments cd_dec {A B K E}.
Arguments cd_key {A B K E}.
Arguments cd_bkey {A B K E}.
Arguments cd_text {A B K E}.
Arguments cd_wf {A B K E}.
Arguments cd_valid {A B K E}.
Arguments cd_stored {A B K E}.

Class CodecLaws {A B K E} (cd : Codec A B K E) : Prop := {
  enc_id a : col "id" (cd_enc cd a) = VText (cd_text cd (cd_key cd a));
  text_inj k k' : cd_valid cd k -> cd_valid cd k' -> cd_text cd k = cd_text cd k' -> k = k';
  wf_key a : cd_wf cd a -> cd_valid cd (cd_key cd a);
  dec_enc a : cd_wf cd a -> cd_dec cd (cd_enc cd a) = Ok (cd_stored cd a);
  bkey_stored a : cd_bkey cd (cd_stored cd a) = cd_key cd a
}.

Lemma elem_of_map_values {K B} `{Countable K} (m : gmap K B) b :
  b ∈ snd <$> map_to_list m <-> ∃ k, m !! k = Some b.
Proof.
  rewrite list_elem_of_fmap. split.
  - intros ([k b'] & -> & Hin). exists k. by apply elem_of_map_to_list in Hin.
  - intros [k Hk]. exists (k, b). by rewrite elem_of_map_to_list.
Qed.

Section mapped.
Context {A B : Type} (g : A -> B).
Implicit Types l : list A.

Lemma StronglySorted_fmap_on (R : A -> A -> Prop) (R' : B -> B -> Prop) (P : A -> Prop) l :
  (∀ a b, P a -> P b -> R a b -> R' (g a) (g b)) -> Forall P l ->
  StronglySorted R l -> StronglySorted R' (g <$> l).
Proof.
  intros HR Hall. induction Hall as [|a l Ha Hl IH]; csimpl; [constructor|].
  intros [Hs Hf]%StronglySorted_inv. constructor; [by apply IH|]. apply Forall_fmap.
  rewrite !Forall_forall in *. intros b Hb. cbn. auto.
Qed.

Lemma filter_mapped (p : A -> bool) (q : B -> bool) l :
  Forall (fun a => p a = q (g a)) l -> g <$> List.filter p l = List.filter q (g <$> l).
Proof.
  induction 1 as [|a l Ha _ IH]; [done|]. csimpl. rewrite <- Ha. by destruct (p a); csimpl; rewrite IH.
Qed.
End mapped.

Section keyed.
Context `{!RowOrder} {K A B E : Type} `{Countable K} (of_sqlx : DbError -> E).
Context (cd : Codec A B K E) `{!CodecLaws cd}.
Abbreviation enc := (cd_enc cd).
Abbreviation dec := (cd_dec cd).
Abbreviation key := (cd_key cd).
Abbreviation bkey := (cd_bkey cd).
Abbreviation text := (cd_text cd).
Abbreviation wf := (cd_wf cd).
Abbreviation valid := (cd_valid cd).
Abbreviation stored := (cd_stored cd).
Implicit Types (l : list A) (tbl : list SRow).

(** The table holds the rows of [l], at most one for each key. *)
Definition represents tbl l : Prop := tbl = enc <$> l /\ NoDup ((text ∘ key) <$> l) /\ Forall wf l.

(** What can be read from it. *)
Definition contents l : gmap K B := list_to_map ((fun a => (key a, stored a)) <$> l).

Lemma represents_nil : represents [] [].
Proof. split_and!; constructor. Qed.

Lemma represents_put tbl l a : wf a -> represents tbl l ->
  represents (replace_row (enc a) tbl) (put (text ∘ key) a l).
Proof.
  intros Ha (-> & Hnd & Hwf). split_and!.
  - apply (replace_row_put _ (text ∘ key)). intros b. apply enc_id.
  - by apply put_NoDup.
  - by apply Forall_put.
Qed.

Lemma lookup_contents l k b : NoDup ((text ∘ key) <$> l) ->
  contents l !! k = Some b <-> ∃ a, a ∈ l /\ key a = k /\ stored a = b.
Proof.
  intros Hnd. unfold contents. rewrite <- elem_of_list_to_map.
  - rewrite list_elem_of_fmap. split; [intros (a & [= -> ->] & Ha)|intros (a & Ha & <- & <-)]; eauto.
  - rewrite <- list_fmap_compose. rewrite list_fmap_compose in Hnd. by apply NoDup_fmap_1 in Hnd.
Qed.

Lemma contents_put l a : wf a -> Forall wf l -> NoDup ((text ∘ key) <$> l) ->
  contents (put (text ∘ key) a l) = <[key a := stored a]> (contents l).
Proof.
  intros Ha Hwf Hnd. apply map_eq. intros k.
  apply option_eq. intros b. rewrite lookup_insert_Some, !lookup_contents by auto using put_NoDup, Forall_put.
  setoid_rewrite elem_of_put. rewrite Forall_forall in Hwf. split.
  - intros (a' & [->|[Hin Hne]] & <- & <-); [by left|]. right. split; [|by eauto].
    intros Heq. apply Hne. cbn. by rewrite Heq.
  - intros [[<- <-]|(Hne & a' & Hin & <- & <-)]; [by eauto|]. exists a'. split; [|done]. right.
    split; [done|]. cbn. intros Heq. apply Hne. symmetry. eapply text_inj; eauto using wf_key.
Qed.

Lemma find_contents l k : valid k -> Forall wf l -> NoDup ((text ∘ key) <$> l) ->
  stored <$> List.find (fun a => String.eqb (text (key a)) (text k)) l = contents l !! k.
Proof.
  intros Hk Hwf Hnd. apply option_eq. intros b. rewrite lookup_contents by done. rewrite Forall_forall in Hwf.
  rewrite fmap_Some. split.
  - intros (a & [Hin Heq%String.eqb_eq]%find_some & ->). exists a. apply list_elem_of_In in Hin.
    split_and!; [done| |done]. eapply text_inj; eauto using wf_key.
  - intros (a & Hin & <- & <-). destruct (List.find _ l) as [a'|] eqn:Hf.
    + exists a'. split; [done|]. apply find_some in Hf as [Hin' Heq%String.eqb_eq]. f_equal.
      apply list_elem_of_In in Hin'. eapply (NoDup_fmap_inj_on (text ∘ key)); eauto.
    + exfalso. apply list_elem_of_In in Hin. pose proof (find_none _ _ Hf _ Hin) as Hno. cbn in Hno.
      by rewrite String.eqb_refl in Hno.
Qed.

(** Writing: [INSERT OR REPLACE] of one value, and of several in one transaction. *)
Lemma store_spec a c c' r l : wf a -> represents (tables c) l ->
  run of_sqlx (write (replace_row (enc a))) c = (c', r) ->
  match r with
  | Ok _ => represents (tables c') (put (text ∘ key) a l)
  | Err e => tables c' = tables c /\ e = of_sqlx Unavailable /\ faulty c
  end.
Proof.
  intros Ha Hrep [_ Hrun]%run_total. destruct r; [|done]. destruct Hrun as [_ ->].
  by apply represents_put.
Qed.

Definition put_all (xs : list A) l : list A := fold_left (fun l a => put (text ∘ key) a l) xs l.

Lemma represents_put_all xs tbl l : Forall wf xs -> represents tbl l ->
  represents (fold_left (fun tbl a => replace_row (enc a) tbl) xs tbl) (put_all xs l).
Proof.
  intros Hxs. revert tbl l. induction Hxs as [|a xs Ha _ IH]; intros tbl l Hrep; [done|].
  apply IH. by apply represents_put.
Qed.

Lemma store_all_spec xs c c' r l : Forall wf xs -> represents (tables c) l ->
  transaction of_sqlx (for_each (fun a => run of_sqlx (write (replace_row (enc a)))) xs) c = (c', r) ->
  match r with
  | Ok _ => represents (tables c') (put_all xs l)
  | Err e => tables c' = tables c /\ e = of_sqlx Unavailable /\ faulty c
  end.
Proof.
  intros Hxs Hrep Htx. pose proof Htx as Hcases. apply transaction_cases in Hcases.
  assert (wp of_sqlx (transaction of_sqlx (for_each (fun a => run of_sqlx (write (replace_row (enc a)))) xs))
    (fun _ t => represents t (put_all xs l)) c) as Hwp.
  { apply wp_transaction. intros c1 Ht.
    refine (wp_mono _ _ _ _ _ (wp_for_each of_sqlx _ (fun ys t => Forall wf ys /\ exists l', represents t l' /\ put_all ys l' = put_all xs l) _ _ _ _) _).
    - intros x ys c2 (Hys & l' & Hl' & Heq). inversion_clear Hys. apply wp_write. split; [done|].
      exists (put (text ∘ key) x l'). split; [by apply represents_put|done].
    - split; [done|]. exists l. by rewrite Ht.
    - intros _ t (_ & l' & Hl' & <-). done. }
  pose proof (wp_elim _ _ _ _ _ _ Hwp Htx) as Hr. destruct r as [[]|e]; [done|]. by destruct Hcases.
Qed.

Lemma contents_put_all xs l : Forall wf xs -> Forall wf l -> NoDup ((text ∘ key) <$> l) ->
  contents (put_all xs l) = fold_left (fun m a => <[key a := stored a]> m) xs (contents l).
Proof.
  intros Hxs. revert l. induction Hxs as [|a xs Ha _ IH]; intros l Hwf Hnd; [done|].
  cbn [put_all fold_left]. rewrite <- contents_put by done. apply IH; auto using put_NoDup, Forall_put.
Qed.

(** Reading one value. *)
Lemma fetch_optional_spec k c c' r l : valid k -> represents (tables c) l ->
  fetch_optional of_sqlx dec "id" (VText (text k)) c = (c', r) ->
  tables c' = tables c /\ match r with
                              | Ok o => o = contents l !! k
                              | Err e => e = of_sqlx Unavailable /\ faulty c
                              end.
Proof.
  intros Hk (Ht & Hnd & Hwf). unfold fetch_optional, bind.
  destruct (run _ _ c) as [c1 [rows|e]] eqn:Hrun; apply run_total in Hrun as [_ Hrun].
  - destruct Hrun as [-> Htab]. rewrite Ht, (rows_where_id enc (text ∘ key)) by (done || (intros b; apply enc_id)).
    rewrite <- find_contents by done. cbn. destruct (List.find _ l) as [a|] eqn:Hf.
    + apply find_some in Hf as [Hin%list_elem_of_In _]. rewrite Forall_forall in Hwf.
      rewrite dec_enc by auto. cbn. unfold lift. intros [= <- <-]. by rewrite Htab.
    + unfold ret. intros [= <- <-]. by rewrite Htab.
  - by intros [= <- <-].
Qed.

(** Listing. *)
Lemma fetch_all_spec cs t c c' r l : represents (tables c) l -> fetch_all of_sqlx dec cs t c = (c', r) ->
  tables c' = tables c /\
  match r with
  | Ok bs => ∃ s, bs = stored <$> apply_limit (limit t) (apply_offset (offset t) s) /\
      s ≡ₚ List.filter (satisfies enc cs) l /\ StronglySorted (cmp_le (cmp_on enc (row_cmp t))) s
  | Err e => e = of_sqlx Unavailable /\ faulty c
  end.
Proof.
  intros (Ht & _ & Hwf). unfold fetch_all, bind.
  destruct (run _ _ c) as [c1 [rows|e]] eqn:Hrun; apply run_total in Hrun as [_ Hrun];
    [|by intros [= <- <-]].
  destruct Hrun as [-> Htab]. unfold lift. rewrite Ht. destruct (select_rows_spec enc cs t l) as (s & -> & Hperm & Hsort).
  rewrite <- list_fmap_compose, (collect_map_Ok _ stored).
  - intros [= <- <-]. split; [by rewrite Htab|]. eauto.
  - intros a Ha. apply dec_enc. rewrite Forall_forall in Hwf. apply Hwf.
    pose proof (elem_of_sublist _ _ _ Ha (page_sublist _ _ _)) as Hin. rewrite Hperm in Hin. apply list_elem_of_In, filter_In in Hin as [Hin _]. by apply list_elem_of_In.
Qed.

Lemma fetch_count_spec cs c c' r l : represents (tables c) l -> fetch_count of_sqlx cs c = (c', r) ->
  tables c' = tables c /\
  match r with
  | Ok n => n = Z.of_nat (length (List.filter (satisfies enc cs) l))
  | Err e => e = of_sqlx Unavailable /\ faulty c
  end.
Proof.
  intros (Ht & _ & _) [_ Hrun]%run_total. destruct r as [n|e]; [|done].
  destruct Hrun as [-> Htab]. split; [done|]. by rewrite Ht, where_fmap, length_fmap.
Qed.
(** ** The same, in terms of what the rows decode to *)

Definition well_formed tbl : Prop := ∃ l, represents tbl l.

(** The map that reading every row gives. *)
Definition view tbl : gmap K B :=
  list_to_map (omap (fun r => match dec r with Ok b => Some (bkey b, b) | Err _ => None end) tbl).

Lemma view_contents tbl l : represents tbl l -> view tbl = contents l.
Proof.
  intros (-> & _ & Hwf). unfold view, contents. f_equal.
  induction Hwf as [|a l Ha _ IH]; [done|]. csimpl. by rewrite dec_enc, bkey_stored, IH by done.
Qed.

Lemma view_nil : well_formed [].
Proof. exists []. apply represents_nil. Qed.

Lemma lookup_view tbl k b : well_formed tbl ->
  view tbl !! k = Some b -> ∃ a, wf a /\ key a = k /\ stored a = b.
Proof.
  intros [l Hl]. rewrite (view_contents _ _ Hl). destruct Hl as (_ & Hnd & Hwf).
  rewrite lookup_contents by done. intros (a & Ha & Hk & Hb). rewrite Forall_forall in Hwf. eauto.
Qed.

Lemma store_view a c c' r : wf a -> well_formed (tables c) ->
  run of_sqlx (write (replace_row (enc a))) c = (c', r) ->
  well_formed (tables c') /\
  match r with
  | Ok _ => view (tables c') = <[key a := stored a]> (view (tables c))
  | Err e => tables c' = tables c /\ e = of_sqlx Unavailable /\ faulty c
  end.
Proof.
  intros Ha [l Hl] Hr. pose proof Hl as (_ & Hnd & Hwf).
  apply (store_spec _ _ _ _ l Ha Hl) in Hr. destruct r as [[]|e].
  - split; [by eexists|]. rewrite (view_contents _ _ Hl), (view_contents _ _ Hr). by apply contents_put.
  - destruct Hr as [E1 ?]. split; [by exists l; rewrite E1|done].
Qed.

Lemma store_all_view xs c c' r : Forall wf xs -> well_formed (tables c) ->
  transaction of_sqlx (for_each (fun a => run of_sqlx (write (replace_row (enc a)))) xs) c = (c', r) ->
  well_formed (tables c') /\
  match r with
  | Ok _ => view (tables c') = fold_left (fun m a => <[key a := stored a]> m) xs (view (tables c))
  | Err e => tables c' = tables c /\ e = of_sqlx Unavailable /\ faulty c
  end.
Proof.
  intros Hxs [l Hl] Hr. pose proof Hl as (_ & Hnd & Hwf).
  apply (store_all_spec _ _ _ _ l Hxs Hl) in Hr. destruct r as [[]|e].
  - split; [by eexists|]. rewrite (view_contents _ _ Hl), (view_contents _ _ Hr). by apply contents_put_all.
  - destruct Hr as [E1 ?]. split; [by exists l; rewrite E1|done].
Qed.

Lemma fetch_view k c c' r : valid k -> well_formed (tables c) ->
  fetch_optional of_sqlx dec "id" (VText (text k)) c = (c', r) ->
  tables c' = tables c /\
  match r with Ok o => o = view (tables c) !! k | Err e => e = of_sqlx Unavailable /\ faulty c end.
Proof.
  intros Hk [l Hl] Hr. rewrite (view_contents _ _ Hl). by eapply fetch_optional_spec.
Qed.

Lemma view_values tbl l : represents tbl l -> snd <$> map_to_list (view tbl) ≡ₚ stored <$> l.
Proof.
  intros Hl. rewrite (view_contents _ _ Hl). destruct Hl as (_ & Hnd & _). unfold contents.
  rewrite map_to_list_to_map; [by rewrite <- list_fmap_compose|].
  rewrite <- list_fmap_compose. rewrite list_fmap_compose in Hnd. by apply NoDup_fmap_1 in Hnd.
Qed.

Lemma fetch_all_view (matches : B -> bool) (cmp : B -> B -> comparison) cs t c c' r :
  (∀ a, wf a -> satisfies enc cs a = matches (stored a)) ->
  (∀ a b, wf a -> wf b -> cmp_on enc (row_cmp t) a b = cmp (stored a) (stored b)) ->
  well_formed (tables c) -> fetch_all of_sqlx dec cs t c = (c', r) ->
  tables c' = tables c /\
  match r with
  | Ok bs => ∃ s, bs = apply_limit (limit t) (apply_offset (offset t) s) /\
      s ≡ₚ List.filter matches (snd <$> map_to_list (view (tables c))) /\ StronglySorted (cmp_le cmp) s
  | Err e => e = of_sqlx Unavailable /\ faulty c
  end.
Proof.
  intros Hm Hcmp [l Hl] Hr. pose proof Hl as (_ & _ & Hwf).
  destruct (fetch_all_spec _ _ _ _ _ l Hl Hr) as [? Hres]. split; [done|].
  destruct r as [bs|e]; [|done]. destruct Hres as (s & -> & Hperm & Hsort).
  exists (stored <$> s). split_and!.
  - unfold apply_limit, apply_offset. repeat case_match; by rewrite ?fmap_take, ?fmap_drop.
  - rewrite Hperm, (filter_mapped _ _ matches); [|eapply Forall_impl; [exact Hwf|]; auto].
    rewrite (List_filter_perm _ _ _ (view_values _ _ Hl)). done.
  - eapply (StronglySorted_fmap_on _ _ _ wf); [|rewrite Hperm|exact Hsort].
    + intros a b Ha Hb. unfold cmp_le. by rewrite Hcmp.
    + rewrite Forall_forall in *. intros a Ha. apply Hwf. apply list_elem_of_In.
      by apply list_elem_of_In, filter_In in Ha as [? _].
Qed.

Lemma fetch_count_view (matches : B -> bool) cs c c' r :
  (∀ a, wf a -> satisfies enc cs a = matches (stored a)) ->
  well_formed (tables c) -> fetch_count of_sqlx cs c = (c', r) ->
  tables c' = tables c /\
  match r with
  | Ok n => n = Z.of_nat (length (List.filter matches (snd <$> map_to_list (view (tables c)))))
  | Err e => e = of_sqlx Unavailable /\ faulty c
  end.
Proof.
  intros Hm [l Hl] Hr. pose proof Hl as (_ & _ & Hwf).
  destruct (fetch_count_spec _ _ _ _ l Hl Hr) as [? Hres]. split; [done|].
  destruct r as [n|e]; [|done]. rewrite Hres. rewrite (List_filter_perm _ _ _ (view_values _ _ Hl)).
  rewrite <- (filter_mapped _ (satisfies enc cs)); [by rewrite length_fmap|].
  eapply Forall_impl; [exact Hwf|]; auto.
Qed.
End keyed.
