(* ===== verification/SqlCodec.v ===== *)
(** * What the SQL registries share: the encoding of the domain types in columns, and their queries

    Both backends of ersha-prime/src/registry/ that speak SQL write an identifier as its text, an
    instant as its seconds, a metric as a kind and a number, a cell as a signed 64-bit integer and
    an enum as its discriminant.  Reading a value back either answers it, or answers an error of the
    registry, or panics (an [expect] or an [unwrap] in the code).  [dispatcher_conds] and its
    siblings are the conditions a filter stands for; the texts that the two backends build from
    a filter are proved to be renderings of them. *)
From Stdlib Require Import ZArith Lia Strings.String Strings.Ascii Floats.SpecFloat.
From stdpp Require Import base gmap strings list pretty.
From S2P Require Import Prelude Platform Core Filter InMemory Sql.
Open Scope Z_scope.

(** ** How an operation of a SQL registry fails *)

Inductive Fail (E : Type) := Failed (e : E) | Panicked.
Arguments Failed {E} e.
Arguments Panicked {E}.

(** The constructors that the error enums of the registries share. *)
Class SqlError (E : Type) := {
  e_sqlx : DbError -> E;
  e_ulid : string -> E;
  e_timestamp : Z -> E
}.
(** [InvalidMetricType], where rows hold metrics. *)
Class MetricError (E : Type) := e_metric : Z -> E.

(** The [?] on a [sqlx::Result]. *)
Definition of_sqlx {E} `{SqlError E} (e : DbError) : Fail E := Failed (e_sqlx e).

(** ** Enums as integers: [as i32], and the matches that read them back *)

Definition device_state_code (s : DeviceState.t) : Z :=
  match s with DeviceState.Active => 0 | DeviceState.Suspended => 1 end.
Definition device_state_of (z : Z) : option DeviceState.t :=
  match z with 0 => Some DeviceState.Active | 1 => Some DeviceState.Suspended | _ => None end.

Definition device_kind_code (k : DeviceKind.t) : Z := match k with DeviceKind.Sensor => 0 end.
Definition device_kind_of (z : Z) : option DeviceKind.t :=
  match z with 0 => Some DeviceKind.Sensor | _ => None end.

Definition dispatcher_state_code (s : DispatcherState.t) : Z :=
  match s with DispatcherState.Active => 0 | DispatcherState.Suspended => 1 end.
Definition dispatcher_state_of (z : Z) : option DispatcherState.t :=
  match z with 0 => Some DispatcherState.Active | 1 => Some DispatcherState.Suspended | _ => None end.

Definition sensor_kind_code (k : SensorKind.t) : Z :=
  match k with
  | SensorKind.SoilMoisture => 0 | SensorKind.SoilTemp => 1 | SensorKind.AirTemp => 2
  | SensorKind.Humidity => 3 | SensorKind.Rainfall => 4
  end.
Definition sensor_kind_of (z : Z) : option SensorKind.t :=
  match z with
  | 0 => Some SensorKind.SoilMoisture | 1 => Some SensorKind.SoilTemp | 2 => Some SensorKind.AirTemp
  | 3 => Some SensorKind.Humidity | 4 => Some SensorKind.Rainfall | _ => None
  end.

Definition error_code_code (c : DeviceErrorCode.t) : Z :=
  match c with
  | DeviceErrorCode.LowBattery => 0 | DeviceErrorCode.SensorFault => 1
  | DeviceErrorCode.RadioFault => 2 | DeviceErrorCode.Unknown => 3
  end.
Definition error_code_of (z : Z) : option DeviceErrorCode.t :=
  match z with
  | 0 => Some DeviceErrorCode.LowBattery | 1 => Some DeviceErrorCode.SensorFault
  | 2 => Some DeviceErrorCode.RadioFault | 3 => Some DeviceErrorCode.Unknown | _ => None
  end.

Definition sensor_state_code (s : SensorState.t) : Z :=
  match s with SensorState.Active => 0 | SensorState.Faulty => 1 | SensorState.Inactive => 2 end.
Definition sensor_state_of (z : Z) : option SensorState.t :=
  match z with
  | 0 => Some SensorState.Active | 1 => Some SensorState.Faulty | 2 => Some SensorState.Inactive
  | _ => None
  end.

Definition metric_type_code (t : SensorMetricType.t) : Z :=
  match t with
  | SensorMetricType.SoilMoisture => 0 | SensorMetricType.SoilTemp => 1 | SensorMetricType.AirTemp => 2
  | SensorMetricType.Humidity => 3 | SensorMetricType.Rainfall => 4
  end.

Lemma device_state_of_code s : device_state_of (device_state_code s) = Some s.
Proof. by destruct s. Qed.
Lemma device_kind_of_code k : device_kind_of (device_kind_code k) = Some k.
Proof. by destruct k. Qed.
Lemma dispatcher_state_of_code s : dispatcher_state_of (dispatcher_state_code s) = Some s.
Proof. by destruct s. Qed.
Lemma sensor_kind_of_code k : sensor_kind_of (sensor_kind_code k) = Some k.
Proof. by destruct k. Qed.
Lemma error_code_of_code c : error_code_of (error_code_code c) = Some c.
Proof. by destruct c. Qed.
Lemma sensor_state_of_code s : sensor_state_of (sensor_state_code s) = Some s.
Proof. by destruct s. Qed.
#[export] Hint Rewrite device_state_of_code device_kind_of_code dispatcher_state_of_code
  sensor_kind_of_code error_code_of_code sensor_state_of_code : ersha.

(** ** Metrics *)

(** [ersha-prime/src/registry/sqlite/reading.rs:353-361] disect_metric *)
Definition disect_metric (metric : SensorMetric.t) : Z * f64 :=
  match metric with
  | SensorMetric.SoilMoisture value => (0, f64_of_int (percent value))
  | SensorMetric.SoilTemp value => (1, into_inner value)
  | SensorMetric.AirTemp value => (2, into_inner value)
  | SensorMetric.Humidity value => (3, f64_of_int (percent value))
  | SensorMetric.Rainfall value => (4, into_inner value)
  end.

Section decoding.
Context {E : Type} `{!SqlError E} `{!MetricError E} `{!UlidText} `{!Jiff}.

(** [Ulid::from_str(&s).map_err(|_| InvalidUlid(s))?]. *)
Definition parse_ulid (s : string) : result Ulid (Fail E) := ok_or (ulid_from_str s) (Failed (e_ulid s)).
(** [Timestamp::from_second(s).map_err(|_| InvalidTimestamp(s))?]. *)
Definition parse_second (s : Z) : result Timestamp (Fail E) := ok_or (from_second s) (Failed (e_timestamp s)).
(** [NotNan::new(x).expect("database should not contain NaN")]. *)
Definition expect_not_nan (x : f64) : result NotNan (Fail E) := ok_or (NotNan_new x) Panicked.

(** [ersha-prime/src/registry/sqlite/reading.rs:198-215] map_row_to_reading: match metric_type *)
Definition metric_of (metric_type : Z) (metric_value : f64) : result SensorMetric.t (Fail E) :=
  match metric_type with
  | 0 => Ok (SensorMetric.SoilMoisture (mkPercentage (f64_as_u8 metric_value)))
  | 1 => map_ok SensorMetric.SoilTemp (expect_not_nan metric_value)
  | 2 => map_ok SensorMetric.AirTemp (expect_not_nan metric_value)
  | 3 => Ok (SensorMetric.Humidity (mkPercentage (f64_as_u8 metric_value)))
  | 4 => map_ok SensorMetric.Rainfall (expect_not_nan metric_value)
  | other => Err (Failed (e_metric other))
  end.

(** [r.try_get::<T, _>(c)?]. *)
Definition get_col {A} (decode : Value -> option A) (c : string) (r : SRow) : result A (Fail E) :=
  map_err of_sqlx (try_get decode c r).

Definition get_ulid (c : string) (r : SRow) : result Ulid (Fail E) :=
  let? s := get_col as_text c r in parse_ulid s.

Definition get_second (c : string) (r : SRow) : result Timestamp (Fail E) :=
  let? s := get_col as_int64 c r in parse_second s.

(** [H3Cell(r.try_get::<i64, _>("location")? as u64)]. *)
Definition get_location (r : SRow) : result H3Cell (Fail E) :=
  let? z := get_col as_int64 "location" r in Ok (mkH3Cell (as_u64 z)).
End decoding.

(** The instant a registry of whole seconds gives back. *)
Definition whole_second `{Jiff} (t : Timestamp) : Timestamp := default t (from_second (as_second t)).

Section roundtrip.
Context {E : Type} `{!SqlError E} `{!MetricError E} `{UlidTextLaws} `{JiffLaws}.

Lemma metric_of_disect m : metric_wf m ->
  metric_of (E := E) (fst (disect_metric m)) (snd (disect_metric m)) = Ok m.
Proof.
  destruct m as [[p]|x|x|[p]|x]; cbn [disect_metric fst snd metric_of metric_wf percent]; intros Hwf;
    [by rewrite f64_of_u8_as_u8| | |by rewrite f64_of_u8_as_u8|];
    unfold expect_not_nan; by rewrite NotNan_new_into_inner.
Qed.

Lemma disect_metric_type m : 0 <= fst (disect_metric m) <= 4.
Proof. destruct m; simpl; lia. Qed.

Lemma parse_ulid_to_string u : u128 u -> parse_ulid (E := E) (ulid_to_string u) = Ok u.
Proof. intros Hu. unfold parse_ulid. by rewrite ulid_from_to. Qed.

Lemma parse_second_as_second t : valid_timestamp t ->
  parse_second (E := E) (as_second t) = Ok (whole_second t).
Proof.
  intros Ht. unfold parse_second, whole_second. by destruct (from_as_second t Ht) as [t' ->].
Qed.

Lemma get_ulid_column c r u : u128 u -> column c r = Some (VText (ulid_to_string u)) ->
  get_ulid (E := E) c r = Ok u.
Proof. intros Hu Hc. unfold get_ulid, get_col, try_get. rewrite Hc. by apply parse_ulid_to_string. Qed.

Lemma get_second_column c r t : valid_timestamp t -> column c r = Some (VInt (as_second t)) ->
  get_second (E := E) c r = Ok (whole_second t).
Proof. intros Ht Hc. unfold get_second, get_col, try_get. rewrite Hc. by apply parse_second_as_second. Qed.

Lemma get_location_column r l : u64 (h3_cell l) -> column "location" r = Some (VInt (as_i64 (h3_cell l))) ->
  get_location (E := E) r = Ok l.
Proof.
  intros Hl Hc. unfold get_location, get_col, try_get. rewrite Hc. cbn.
  unfold as_u64, as_i64. rewrite wrap_to_signed by (lia || done). by destruct l.
Qed.

Lemma get_int32_column c r z : - 2 ^ 31 <= z < 2 ^ 31 -> column c r = Some (VInt z) ->
  get_col (E := E) as_int32 c r = Ok z.
Proof. intros Hz Hc. unfold get_col, try_get. rewrite Hc. cbn -[Z.pow]. by rewrite decide_True. Qed.

Lemma get_text_column c r s : column c r = Some (VText s) -> get_col (E := E) as_text c r = Ok s.
Proof. intros Hc. unfold get_col, try_get. by rewrite Hc. Qed.

Lemma get_real_column c r x : column c r = Some (VReal x) -> get_col (E := E) as_real c r = Ok x.
Proof. intros Hc. unfold get_col, try_get. by rewrite Hc. Qed.

Lemma whole_second_valid t : valid_timestamp t ->
  valid_timestamp (whole_second t) /\ as_second (whole_second t) = as_second t.
Proof.
  intros Ht. unfold whole_second. destruct (from_as_second t Ht) as [t' E']. rewrite E'.
  by apply from_second_spec.
Qed.

Lemma whole_second_idemp t : valid_timestamp t -> whole_second (whole_second t) = whole_second t.
Proof.
  intros Ht. destruct (whole_second_valid t Ht) as [_ Hs]. unfold whole_second at 1. rewrite Hs.
  unfold whole_second. by destruct (from_second (as_second t)).
Qed.
End roundtrip.

(** ** The conditions a filter stands for *)

Definition text_values {A} (u : A -> Ulid) `{UlidText} (l : list A) : list Value :=
  (fun a => VText (ulid_to_string (u a))) <$> l.
Definition int_values {A} (f : A -> Z) (l : list A) : list Value := (fun a => VInt (f a)) <$> l.
Definition second_value `{Jiff} (t : Timestamp) : Value := VInt (as_second t).
Definition cell_code (l : H3Cell) : Z := as_i64 (h3_cell l).

Section conditions.
Context `{!UlidText} `{!Jiff}.

Definition dispatcher_conds (f : DispatcherFilter) : list Cond :=
  in_cond (plain "state") (int_values dispatcher_state_code <$> dsf_states f) ++
  in_cond (plain "location") (int_values cell_code <$> dsf_locations f).

Definition reading_conds (f : ReadingFilter) : list Cond :=
  in_cond (plain "id") (text_values reading_ulid <$> rf_ids f) ++
  in_cond (plain "device_id") (text_values device_ulid <$> rf_device_ids f) ++
  in_cond (plain "sensor_id") (text_values sensor_ulid <$> rf_sensor_ids f) ++
  in_cond (plain "dispatcher_id") (text_values dispatcher_ulid <$> rf_dispatcher_ids f) ++
  in_cond (plain "metric_type") (int_values metric_type_code <$> rf_metric_types f) ++
  in_cond (plain "location") (int_values cell_code <$> rf_locations f) ++
  opt_cond (fun t => AtLeast (plain "timestamp") (second_value t)) (rf_timestamp_after f) ++
  opt_cond (fun t => AtMost (plain "timestamp") (second_value t)) (rf_timestamp_before f) ++
  opt_cond (fun r => Between (plain "confidence") (VInt (range_start r)) (VInt (range_end r)))
    (rf_confidence_range f).

(** [count] is the column of the sensor count as the backend writes it. *)
Definition device_conds (count : Col) (f : DeviceFilter) : list Cond :=
  in_cond (plain "id") (text_values device_ulid <$> df_ids f) ++
  in_cond (plain "state") (int_values device_state_code <$> df_states f) ++
  in_cond (plain "kind") (int_values device_kind_code <$> df_kinds f) ++
  in_cond (plain "location") (int_values cell_code <$> df_locations f) ++
  opt_cond (fun t => AtLeast (plain "provisioned_at") (second_value t)) (df_provisioned_after f) ++
  opt_cond (fun t => AtMost (plain "provisioned_at") (second_value t)) (df_provisioned_before f) ++
  opt_cond (fun r => Between count (VInt (as_i64 (range_start r))) (VInt (as_i64 (range_end r))))
    (df_sensor_count f) ++
  opt_cond (fun p => Like (plain "manufacturer") ("%" +:+ p +:+ "%")) (df_manufacturer_pattern f).

Definition status_only_conds (f : DeviceStatusFilter) : list Cond :=
  in_cond (mkCol "device_statuses.id" "id") (text_values status_ulid <$> sf_ids f) ++
  in_cond (plain "device_id") (text_values device_ulid <$> sf_device_ids f) ++
  in_cond (plain "dispatcher_id") (text_values dispatcher_ulid <$> sf_dispatcher_ids f) ++
  opt_cond (fun t => AtLeast (plain "timestamp") (second_value t)) (sf_timestamp_after f) ++
  opt_cond (fun t => AtMost (plain "timestamp") (second_value t)) (sf_timestamp_before f) ++
  opt_cond (fun r => Between (plain "battery_percent") (VInt (range_start r)) (VInt (range_end r)))
    (sf_battery_range f).

(** [error] is the column that is NULL for a status without an error, in the backend's join. *)
Definition error_conds (error : Col) (f : DeviceStatusFilter) : list Cond :=
  opt_cond (fun b : bool => IsNull error (negb b)) (sf_has_errors f) ++
  in_cond (mkCol "device_status_errors.error_code" "error_code")
    (int_values error_code_code <$> sf_error_codes f).

Definition status_conds (error : Col) (f : DeviceStatusFilter) : list Cond :=
  status_only_conds f ++ error_conds error f.

(** [needs_error_join]: the query looks at the errors. *)
Definition needs_error_join (f : DeviceStatusFilter) : bool :=
  match sf_has_errors f with
  | Some _ => true
  | None => match sf_error_codes f with Some (_ :: _) => true | _ => false end
  end.
End conditions.

(** ** The page of a query *)

(** The LIMIT and OFFSET of a query: [usize as i64]. *)
Definition page (order_text order_col : string) (o : SortOrder.t) (p : Pagination.t) : Tail :=
  match p with
  | Pagination.Offset offset limit =>
      mkTail order_text order_col o (Some (as_i64 limit)) (Some (as_i64 offset))
  | Pagination.Cursor _ limit => mkTail order_text order_col o (Some (as_i64 limit)) None
  end.

(** [ersha-prime/src/registry/sqlite/reading.rs:162-170] list: match options.pagination *)
Definition push_page (p : Pagination.t) (qb : QueryBuilder) : QueryBuilder :=
  match p with
  | Pagination.Offset offset limit =>
      push_bind (VInt (as_i64 offset)) (push " OFFSET " (push_bind (VInt (as_i64 limit)) (push " LIMIT " qb)))
  | Pagination.Cursor _ limit => push_bind (VInt (as_i64 limit)) (push " LIMIT " qb)
  end.

Lemma push_page_query init cs order_text order_col o p :
  push_page p (push (direction_text o) (push order_text (fst (where_state init cs)))) =
    query init cs (page order_text order_col o p).
Proof.
  unfold query, tail_text, tail_binds, push_page, push_bind, push.
  destruct p as [skipped n|after n];
    cbn [fst where_state sql binds page from_option app Sql.order_text direction limit offset];
    rewrite ?string_app_nil, <- ?(assoc_L String.append), <- ?(assoc_L (++)); reflexivity.
Qed.

(** Decides that no condition's text holds a mark of its own. *)
Lemma in_cond_no_marks c vs : no_marks (col_text c) -> Forall cond_no_marks (in_cond c vs).
Proof. intros Hc. destruct vs as [[|v vs]|]; simpl; repeat constructor; done. Qed.
Lemma opt_cond_no_marks {A} (f : A -> Cond) o :
  (∀ a, cond_no_marks (f a)) -> Forall cond_no_marks (opt_cond f o).
Proof. intros Hf. destruct o; simpl; repeat constructor; done. Qed.
Ltac solve_no_marks :=
  repeat (apply Forall_app; split); first [by apply in_cond_no_marks | by apply opt_cond_no_marks].

(** ** What the conditions mean of a row *)

Lemma reading_ulid_inj a b : reading_ulid a = reading_ulid b -> a = b.
Proof. destruct a, b. simpl. congruence. Qed.
Lemma device_ulid_inj a b : device_ulid a = device_ulid b -> a = b.
Proof. destruct a, b. simpl. congruence. Qed.
Lemma status_ulid_inj a b : status_ulid a = status_ulid b -> a = b.
Proof. destruct a, b. simpl. congruence. Qed.
Lemma dispatcher_ulid_inj a b : dispatcher_ulid a = dispatcher_ulid b -> a = b.
Proof. destruct a, b. simpl. congruence. Qed.
Lemma sensor_ulid_inj a b : sensor_ulid a = sensor_ulid b -> a = b.
Proof. destruct a, b. simpl. congruence. Qed.
#[export] Hint Resolve reading_ulid_inj device_ulid_inj status_ulid_inj dispatcher_ulid_inj sensor_ulid_inj : ersha.

Lemma value_le_int a b : value_le (VInt a) (VInt b) = Z.leb a b.
Proof. unfold value_le, value_cmp, Z.leb. simpl. by destruct (Z.compare a b). Qed.

Lemma forallb_app_iff {A} (p : A -> bool) l k :
  forallb p (l ++ k) = true <-> forallb p l = true /\ forallb p k = true.
Proof. by rewrite forallb_app, andb_true_iff. Qed.

(** A list of values that a query can express: not empty, and of the width of its type. *)
Definition exact_list {A} (P : A -> Prop) (o : option (list A)) : Prop :=
  match o with Some l => l <> [] /\ Forall P l | None => True end.
(** A bound that falls on a whole second. *)
Definition exact_bound `{Jiff} (o : option Timestamp) : Prop :=
  match o with Some t => valid_timestamp t /\ whole_second t = t | None => True end.

Lemma col_column c r v : column c r = Some v -> col c r = v.
Proof. unfold col. by intros ->. Qed.

Section meaning.
Context `{UlidTextLaws} `{JiffLaws} (r : SRow).

Lemma holds_in c v vs : column (col_name c) r = Some v -> v <> VNull -> holds r (In c vs) = bool_decide (v ∈ vs).
Proof. intros Hc Hv. cbn [holds]. unfold col. rewrite Hc. by destruct v. Qed.

Lemma in_cond_iff {A} (f : A -> Value) (P : A -> Prop) c o x :
  column (col_name c) r = Some (f x) -> f x <> VNull -> exact_list P o -> P x ->
  (∀ a, P a -> f a = f x -> a = x) ->
  forallb (holds r) (in_cond c ((fun l : list A => f <$> l) <$> o)) = true <-> in_opt o x.
Proof.
  intros Hc Hnn Ho Hx Hinj. unfold in_opt. destruct o as [[|a l]|]; cbn [exact_list fmap option_fmap option_map] in *.
  - by destruct Ho.
  - destruct Ho as [_ Ho]. rewrite Forall_forall in Ho. cbn [in_cond forallb].
    cbn [fmap list_fmap forallb]. rewrite (holds_in c (f x)), andb_true_r by done.
    change (f a :: list_fmap _ _ f l) with (f <$> a :: l). rewrite bool_decide_eq_true, list_elem_of_fmap. split.
    + intros (y & Heq & Hy) ? [= <-]. rewrite <- (Hinj y); auto.
    + intros Hin. exists x. auto.
  - split; [by intros _ ?|done].
Qed.

Lemma in_cond_ulid_iff {A} (u : A -> Ulid) c o x :
  column (col_name c) r = Some (VText (ulid_to_string (u x))) -> (∀ a, u a = u x -> a = x) ->
  exact_list (fun a => u128 (u a)) o -> u128 (u x) ->
  forallb (holds r) (in_cond c (text_values u <$> o)) = true <-> in_opt o x.
Proof.
  intros Hc Hu Ho Hx. apply (in_cond_iff (fun a => VText (ulid_to_string (u a))) (fun a => u128 (u a))); try done.
  intros a Ha [= Heq]. apply Hu. by apply ulid_to_string_inj.
Qed.

Lemma in_cond_int_iff {A} (f : A -> Z) (P : A -> Prop) c o x :
  column (col_name c) r = Some (VInt (f x)) -> exact_list P o -> P x -> (∀ a, P a -> f a = f x -> a = x) ->
  forallb (holds r) (in_cond c (int_values f <$> o)) = true <-> in_opt o x.
Proof. intros Hc Ho Hx Hinj. apply (in_cond_iff (fun a => VInt (f a)) P); try done. intros a Ha [=]. auto. Qed.

Lemma in_cond_cell_iff c o l :
  column (col_name c) r = Some (VInt (as_i64 (h3_cell l))) -> exact_list (fun l => u64 (h3_cell l)) o ->
  u64 (h3_cell l) -> forallb (holds r) (in_cond c (int_values cell_code <$> o)) = true <-> in_opt o l.
Proof.
  intros Hc Ho Hl. apply (in_cond_int_iff cell_code (fun l => u64 (h3_cell l))); try done.
  intros [a] Ha Heq. destruct l as [l]. f_equal. unfold cell_code, as_i64 in Heq. by apply (to_signed_inj 64) in Heq.
Qed.

Lemma between_iff c g o x :
  column (col_name c) r = Some (VInt x) ->
  (∀ b, o = Some b -> g (range_start b) = range_start b /\ g (range_end b) = range_end b) ->
  forallb (holds r) (opt_cond (fun b => Between c (VInt (g (range_start b))) (VInt (g (range_end b)))) o) = true
    <-> in_range_opt o x.
Proof.
  intros Hc Hg. unfold in_range_opt. destruct o as [b|]; cbn [opt_cond forallb]; [|naive_solver].
  destruct (Hg b eq_refl) as [-> ->]. cbn [holds]. rewrite (col_column _ _ _ Hc).
  rewrite !value_le_int, andb_true_r, andb_true_iff, !Z.leb_le. split; [by intros ? ? [= <-]|eauto].
Qed.

Lemma whole_second_le a b : valid_timestamp a -> valid_timestamp b -> whole_second a = a -> whole_second b = b ->
  as_second a <= as_second b <-> as_nanosecond a <= as_nanosecond b.
Proof.
  intros Ha Hb Ea Eb. split; [|apply as_second_mono]. intros Hle.
  destruct (Z.le_gt_cases (as_nanosecond a) (as_nanosecond b)) as [|Hlt]; [done|].
  pose proof (as_second_mono b a ltac:(lia)) as Hge. assert (as_second a = as_second b) as Heq by lia.
  enough (a = b) as -> by lia. rewrite <- Ea, <- Eb. unfold whole_second.
  destruct (from_as_second a Ha) as [a' Ha']. rewrite Ha', <- Heq, Ha'. done.
Qed.

Lemma window_iff c after before t :
  column (col_name c) r = Some (VInt (as_second t)) -> valid_timestamp t ->
  exact_bound after -> exact_bound before ->
  forallb (holds r) (opt_cond (fun t => AtLeast c (second_value t)) after) = true /\
  forallb (holds r) (opt_cond (fun t => AtMost c (second_value t)) before) = true
    <-> in_window after before (whole_second t).
Proof.
  intros Hc Ht Ha Hb. unfold in_window.
  assert (valid_timestamp (whole_second t) /\ as_second (whole_second t) = as_second t) as [Hv Hs]
    by by apply whole_second_valid.
  pose proof (whole_second_idemp t Ht) as Hi.
  f_equiv; [destruct after as [a|]|destruct before as [a|]]; cbn [opt_cond forallb];
    try (split; [by intros _ ? [=]|done]); cbn [holds]; unfold second_value; rewrite (col_column _ _ _ Hc),
      value_le_int, andb_true_r, Z.leb_le, <- Hs.
  - destruct Ha as [Hva Hwa]. rewrite whole_second_le by done. split; [by intros ? ? [= <-]|eauto].
  - destruct Hb as [Hva Hwa]. rewrite whole_second_le by done. split; [by intros ? ? [= <-]|eauto].
Qed.

(** Comparing two values the way ORDER BY does. *)
Lemma value_cmp_int a b : value_cmp (VInt a) (VInt b) = Z.compare a b.
Proof. unfold value_cmp. simpl. by destruct (Z.compare a b). Qed.

Lemma value_cmp_ulid u v : u128 u -> u128 v ->
  value_cmp (VText (ulid_to_string u)) (VText (ulid_to_string v)) = Z.compare u v.
Proof. intros Hu Hv. unfold value_cmp. cbn. by apply ulid_to_string_compare. Qed.

Lemma value_cmp_second a b : valid_timestamp a -> valid_timestamp b ->
  value_cmp (VInt (as_second a)) (VInt (as_second b)) = ts_cmp (whole_second a) (whole_second b).
Proof.
  intros Ha Hb. rewrite value_cmp_int. unfold ts_cmp, cmp_on.
  destruct (whole_second_valid a Ha) as [Va Ea], (whole_second_valid b Hb) as [Vb Eb].
  pose proof (whole_second_le _ _ Va Vb (whole_second_idemp a Ha) (whole_second_idemp b Hb)) as Hab.
  pose proof (whole_second_le _ _ Vb Va (whole_second_idemp b Hb) (whole_second_idemp a Ha)) as Hba.
  rewrite Ea, Eb in Hab, Hba.
  destruct (Z.compare_spec (as_second a) (as_second b)),
    (Z.compare_spec (as_nanosecond (whole_second a)) (as_nanosecond (whole_second b))); try done; lia.
Qed.
End meaning.

(** The page of a query is the page of a list when its bounds fit an [i64]. *)
Definition page_fits (p : Pagination.t) : Prop :=
  match p with
  | Pagination.Offset offset limit => 0 <= offset < 2 ^ 63 /\ 0 <= limit < 2 ^ 63
  | Pagination.Cursor _ _ => False
  end.

Lemma page_offset {A} order_text order_col o p (l : list A) : page_fits p ->
  ∃ offset n, p = Pagination.Offset offset n /\
    apply_limit (limit (page order_text order_col o p)) (apply_offset (Sql.offset (page order_text order_col o p)) l)
      = take (Z.to_nat n) (drop (Z.to_nat offset) l).
Proof.
  destruct p as [offset n|after n]; [|done]. intros [Ho Hn]. exists offset, n. split; [done|].
  cbn [page limit Sql.offset apply_limit apply_offset]. unfold as_i64. rewrite !to_signed_small by lia.
  destruct (Z.ltb_spec n 0); [lia|done].
Qed.

(** ** LIKE against [contains] *)

(** The characters LIKE gives a meaning. *)
Definition no_wildcard (c : Ascii.ascii) : Prop := c <> "%"%char /\ c <> "_"%char.

Lemma like_any s : like (list_ascii_of_string "%") s = true.
Proof. by induction s as [|c s IH]. Qed.

Lemma like_char a p s : a <> "%"%char ->
  like (a :: p) s = match s with
                    | [] => false
                    | c :: s => (Ascii.eqb a "_" || Ascii.eqb (ascii_lower a) (ascii_lower c)) && like p s
                    end.
Proof. intros Ha. cbn [like]. by rewrite (proj2 (Ascii.eqb_neq a "%") Ha). Qed.

Lemma like_prefix p s : Forall no_wildcard (list_ascii_of_string p) ->
  like (list_ascii_of_string p ++ ["%"%char]) (list_ascii_of_string s) =
    String.prefix (lowercase_ascii p) (lowercase_ascii s).
Proof.
  revert s. induction p as [|a p IH]; intros s.
  - intros _. change (like (list_ascii_of_string "%") (list_ascii_of_string s) = String.prefix "" (lowercase_ascii s)).
    rewrite like_any. by destruct s.
  - change (list_ascii_of_string (String a p)) with (a :: list_ascii_of_string p).
    intros [[Ha1 Ha2] Hp]%Forall_cons.
    change (lowercase_ascii (String a p)) with (String (ascii_lower a) (lowercase_ascii p)).
    cbn [app]. rewrite like_char by done.
    destruct s as [|c s]; [done|].
    change (list_ascii_of_string (String c s)) with (c :: list_ascii_of_string s).
    change (lowercase_ascii (String c s)) with (String (ascii_lower c) (lowercase_ascii s)).
    cbv iota. rewrite IH, (proj2 (Ascii.eqb_neq a "_") Ha2) by done. cbn [orb String.prefix].
    destruct (Ascii.eqb_spec (ascii_lower a) (ascii_lower c)) as [->|Hne]; cbn [andb].
    + by destruct (Ascii.ascii_dec _ _).
    + by destruct (Ascii.ascii_dec _ _).
Qed.

Lemma str_contains_cons c s p :
  str_contains (String c s) p = String.prefix p (String c s) || str_contains s p.
Proof.
  unfold str_contains. cbn [String.index]. destruct (String.prefix p (String c s)); [done|]. cbn [orb].
  by destruct (String.index 0 p s).
Qed.

(** A pattern without wildcards: LIKE '%p%' is a search that ignores the case of ASCII letters. *)
Lemma like_contains p s : Forall no_wildcard (list_ascii_of_string p) ->
  sql_like ("%" +:+ p +:+ "%") s = str_contains (lowercase_ascii s) (lowercase_ascii p).
Proof.
  intros Hp. unfold sql_like.
  assert (list_ascii_of_string ("%" +:+ p +:+ "%") = "%"%char :: list_ascii_of_string p ++ ["%"%char]) as ->.
  { change (list_ascii_of_string ("%" +:+ p +:+ "%")) with ("%"%char :: list_ascii_of_string (p +:+ "%")).
    f_equal. clear. induction p as [|a p IH]; [done|].
    change (a :: list_ascii_of_string (p +:+ "%") = a :: (list_ascii_of_string p ++ ["%"%char])). by rewrite IH. }
  induction s as [|c s IH].
  - change (like (list_ascii_of_string p ++ ["%"%char]) (list_ascii_of_string "") || false =
      str_contains "" (lowercase_ascii p)).
    rewrite like_prefix, orb_false_r by done. by destruct p.
  - change (like (list_ascii_of_string p ++ ["%"%char]) (list_ascii_of_string (String c s))
        || like ("%"%char :: list_ascii_of_string p ++ ["%"%char]) (list_ascii_of_string s) =
      str_contains (String (ascii_lower c) (lowercase_ascii s)) (lowercase_ascii p)).
    by rewrite IH, like_prefix, str_contains_cons by done.
Qed.
