(* ===== verification/SqliteDispatcher.v ===== *)
(** * The SQLite dispatcher registry: ersha-prime/src/registry/sqlite/dispatcher.rs

    The registry is the table [dispatchers] behind its connection; the layout is that of
    SqliteReading.v.  [update] and [suspend] are a read and a write in two statements, between which
    another connection may write: [suspend] here is what one call does when nothing intervenes. *)
From Stdlib Require Import ZArith Lia Strings.String.
From stdpp Require Import base gmap strings list sorting.
From S2P Require Import Prelude Platform Core Samples Filter Registry InMemory Sql SqlCodec.
Open Scope Z_scope.

(** [ersha-prime/src/registry/sqlite/dispatcher.rs:16-30] SqliteDispatcherError *)
Inductive SqliteDispatcherError :=
  | Sqlx (e : DbError)
  | Migration
  | InvalidUlid (s : string)
  | InvalidTimestamp (s : Z)
  | InvalidState (z : Z)
  | NotFound.

#[export] Instance dispatcher_error : SqlError SqliteDispatcherError :=
  {| e_sqlx := Sqlx; e_ulid := InvalidUlid; e_timestamp := InvalidTimestamp |}.

Module SqliteDispatcherRegistry.
(** [ersha-prime/src/registry/sqlite/dispatcher.rs:32-35] SqliteDispatcherRegistry: the rows of dispatchers *)
Definition t : Type := Conn (list SRow).

Section operations.
Context `{!UlidText} `{!Jiff} `{!RowOrder}.
Abbreviation Op := (M (list SRow) (Fail SqliteDispatcherError)).

(** [ersha-prime/src/registry/sqlite/dispatcher.rs:62-70] the values register binds *)
Definition dispatcher_row (dispatcher : Dispatcher) : SRow :=
  [("id", VText (ulid_to_string (dispatcher_ulid (disp_id dispatcher))));
   ("state", VInt (dispatcher_state_code (disp_state dispatcher)));
   ("location", VInt (as_i64 (h3_cell (disp_location dispatcher))));
   ("provisioned_at", VInt (as_second (disp_provisioned_at dispatcher)))]%string.

(** [ersha-prime/src/registry/sqlite/dispatcher.rs:60-75] SqliteDispatcherRegistry::register *)
Definition register (dispatcher : Dispatcher) : Op unit :=
  run of_sqlx (write (replace_row (dispatcher_row dispatcher))).

(** [ersha-prime/src/registry/sqlite/dispatcher.rs:194-217] the closure of get and of list *)
Definition map_row_to_dispatcher (r : SRow) : result Dispatcher (Fail SqliteDispatcherError) :=
  let? ulid := get_ulid "id" r in
  let? provisioned_at := get_second "provisioned_at" r in
  let? state := get_col as_int32 "state" r in
  let? state := ok_or (dispatcher_state_of state) (Failed (InvalidState state)) in
  let? location := get_location r in
  Ok (mkDispatcher (mkDispatcherId ulid) location state provisioned_at).

(** [ersha-prime/src/registry/sqlite/dispatcher.rs:77-110] SqliteDispatcherRegistry::get *)
Definition get (id : DispatcherId) : Op (option Dispatcher) :=
  fetch_optional of_sqlx map_row_to_dispatcher "id" (VText (ulid_to_string (dispatcher_ulid id))).

(** [ersha-prime/src/registry/sqlite/dispatcher.rs:112-117] SqliteDispatcherRegistry::update *)
Definition update (id : DispatcherId) (new : Dispatcher) : Op unit :=
  old <-- get id ;;
  old <-- lift (ok_or old (Failed NotFound)) ;;
  register (mkDispatcher (disp_id old) (disp_location new) (disp_state new) (disp_provisioned_at new)).

(** [ersha-prime/src/registry/sqlite/dispatcher.rs:122-125] suspend: the struct update *)
Definition suspended (dispatcher : Dispatcher) : Dispatcher :=
  mkDispatcher (disp_id dispatcher) (disp_location dispatcher) DispatcherState.Suspended
    (disp_provisioned_at dispatcher).

(** [ersha-prime/src/registry/sqlite/dispatcher.rs:119-128] SqliteDispatcherRegistry::suspend *)
Definition suspend (id : DispatcherId) : Op unit :=
  dispatcher <-- get id ;;
  dispatcher <-- lift (ok_or dispatcher (Failed NotFound)) ;;
  register (suspended dispatcher).

(** [ersha-prime/src/registry/sqlite/dispatcher.rs:130-150] SqliteDispatcherRegistry::batch_register *)
Definition batch_register (dispatchers : list Dispatcher) : Op unit :=
  transaction of_sqlx (for_each register dispatchers).

(** [ersha-prime/src/registry/sqlite/dispatcher.rs:221-259] filter_dispatchers *)
Definition filter_dispatchers (query_builder : QueryBuilder) (filter : DispatcherFilter) : QueryBuilder :=
  let x :=
    match dsf_states filter with
    | Some ((_ :: _) as states) =>
        (push ")" (push_separated ", " (int_values dispatcher_state_code states)
                     (push " WHERE state IN (" query_builder)), true)
    | _ => (query_builder, false)
    end in
  let (query_builder, has_where) := x in
  match dsf_locations filter with
  | Some ((_ :: _) as locations) =>
      let query_builder := push (if (has_where : bool) then " AND " else " WHERE ") query_builder in
      push ")" (push_separated ", " (int_values cell_code locations) (push "location IN (" query_builder))
  | _ => query_builder
  end.

(** [ersha-prime/src/registry/sqlite/dispatcher.rs:153-159] the query of count *)
Definition count_sql (filter : option DispatcherFilter) : QueryBuilder :=
  let query_builder := qb_new "SELECT COUNT(*) FROM dispatchers " in
  match filter with Some filter => filter_dispatchers query_builder filter | None => query_builder end.

(** [ersha-prime/src/registry/sqlite/dispatcher.rs:152-163] SqliteDispatcherRegistry::count *)
Definition count (filter : option DispatcherFilter) : Op Z :=
  n <-- fetch_count of_sqlx (from_option dispatcher_conds [] filter) ;; ret (as_u64 n).

Definition list_from : string := "SELECT id, state, location, provisioned_at FROM dispatchers".

(** A cursor has no LIMIT here, unlike in the other registries. *)
Definition dispatcher_page (o : SortOrder.t) (p : Pagination.t) : Tail :=
  match p with
  | Pagination.Offset _ _ => page " ORDER BY provisioned_at" "provisioned_at" o p
  | Pagination.Cursor _ _ => mkTail " ORDER BY provisioned_at" "provisioned_at" o None None
  end.

(** [ersha-prime/src/registry/sqlite/dispatcher.rs:169-191] the query of list *)
Definition list_sql (options : QueryOptions DispatcherFilter DispatcherSortBy.t) : QueryBuilder :=
  let qb := filter_dispatchers (qb_new list_from) (filter_opt options) in
  let qb := match sort_by_opt options with DispatcherSortBy.ProvisionAt => push " ORDER BY provisioned_at" qb end in
  let qb := match sort_order_opt options with SortOrder.Asc => push " ASC " qb | SortOrder.Desc => push " DESC " qb end in
  match pagination_opt options with
  | Pagination.Offset offset limit =>
      push_bind (VInt (as_i64 offset)) (push " OFFSET " (push_bind (VInt (as_i64 limit)) (push " LIMIT " qb)))
  | Pagination.Cursor _ _ => qb
  end.

(** [ersha-prime/src/registry/sqlite/dispatcher.rs:165-218] SqliteDispatcherRegistry::list *)
Definition list (options : QueryOptions DispatcherFilter DispatcherSortBy.t) : Op (list Dispatcher) :=
  fetch_all of_sqlx map_row_to_dispatcher (dispatcher_conds (filter_opt options))
    (dispatcher_page (sort_order_opt options) (pagination_opt options)).

(** [ersha-prime/src/registry/sqlite/dispatcher.rs:56-219] impl DispatcherRegistry for SqliteDispatcherRegistry *)
#[export] Instance registry : DispatcherRegistry t (Fail SqliteDispatcherError) := {|
  dspr_register := register; dspr_get := get; dspr_update := update; dspr_suspend := suspend;
  dspr_batch_register := batch_register; dspr_count := count; dspr_list := list
|}.
End operations.
End SqliteDispatcherRegistry.
Export (hints) SqliteDispatcherRegistry.

Module SqliteDispatcherProofs.
Import SqliteDispatcherRegistry.

Section text.
Context `{!UlidText} `{!Jiff}.

Lemma filter_dispatchers_state init filter :
  filter_dispatchers (qb_new init) filter = fst (where_state init (dispatcher_conds filter)).
Proof.
  transitivity (fst (push_in "location" (int_values cell_code <$> dsf_locations filter)
    (push_in "state" (int_values dispatcher_state_code <$> dsf_states filter) (qb_new init, false)))).
  - assert (∀ qb, push " WHERE state IN (" qb = push "state IN (" (push " WHERE " qb)) as Hpush.
    { intros qb. unfold push. cbn [sql binds]. by rewrite <- (assoc_L String.append). }
    unfold filter_dispatchers. rewrite Hpush.
    destruct (dsf_states filter) as [[|s ss]|], (dsf_locations filter) as [[|l ls]|]; reflexivity.
  - rewrite qb_new_state, (push_in_state init [] (plain "state")), (push_in_state _ _ (plain "location")).
    reflexivity.
Qed.

Lemma lite_dispatcher_list_sql_query options :
  list_sql options = query list_from (dispatcher_conds (filter_opt options))
    (dispatcher_page (sort_order_opt options) (pagination_opt options)).
Proof.
  unfold list_sql. rewrite filter_dispatchers_state.
  destruct options as [f [] o p]; cbn [filter_opt sort_by_opt sort_order_opt pagination_opt].
  destruct p as [n m|a n]; cbn [dispatcher_page].
  - rewrite <- (push_page_query list_from (dispatcher_conds f) _ _ o (Pagination.Offset n m)). by destruct o.
  - unfold query, tail_text, tail_binds, push. cbn. rewrite app_nil_r.
    destruct o; by rewrite <- !(assoc_L String.append).
Qed.
End text.

Section view.
Context `{UlidTextLaws} `{JiffLaws} `{!RowOrder}.

(** What the registry keeps of a dispatcher: everything but the fraction of the second. *)
Definition stored (d : Dispatcher) : Dispatcher :=
  mkDispatcher (disp_id d) (disp_location d) (disp_state d) (whole_second (disp_provisioned_at d)).

Lemma map_row_to_dispatcher_row d : dispatcher_wf d -> map_row_to_dispatcher (dispatcher_row d) = Ok (stored d).
Proof.
  intros (Hu & Hl & Ht). unfold map_row_to_dispatcher. set (row := dispatcher_row d).
  rewrite (get_ulid_column "id" row _ Hu), (get_second_column "provisioned_at" row _ Ht) by done.
  rewrite (get_int32_column "state" row (dispatcher_state_code (disp_state d)))
    by (done || (destruct (disp_state d); simpl; lia)).
  rewrite dispatcher_state_of_code. cbn [ok_or]. rewrite (get_location_column row _ Hl) by done.
  by destruct d as [[] ? ? ?].
Qed.

Definition codec : Codec Dispatcher Dispatcher DispatcherId (Fail SqliteDispatcherError) :=
  mkCodec dispatcher_row map_row_to_dispatcher disp_id disp_id (fun k => ulid_to_string (dispatcher_ulid k))
    dispatcher_wf (fun k => u128 (dispatcher_ulid k)) stored.

#[export] Instance codec_laws : CodecLaws codec.
Proof.
  split; cbn; [done| |by intros d []|apply map_row_to_dispatcher_row|done].
  intros k k' Hk Hk' Heq. by apply dispatcher_ulid_inj, ulid_to_string_inj.
Qed.

Lemma satisfies_dispatcher f d :
  exact_list (fun _ => True) (dsf_states f) -> exact_list (fun l => u64 (h3_cell l)) (dsf_locations f) ->
  dispatcher_wf d ->
  satisfies dispatcher_row (dispatcher_conds f) d = InMemoryDispatcherRegistry.dispatcher_matches f (stored d).
Proof.
  intros Hs Hl (_ & Wl & _). apply eq_true_iff_eq. rewrite InMemoryDispatcherRegistry.dispatcher_matches_iff.
  unfold satisfies, dispatcher_conds. rewrite forallb_app_iff.
  rewrite (in_cond_int_iff _ _ (fun _ => True) _ _ (disp_state d)) by (try done; intros [] _; by destruct (disp_state d)).
  rewrite (in_cond_cell_iff _ _ _ (disp_location d)) by done. tauto.
Qed.
End view.
End SqliteDispatcherProofs.

(** ** Properties *)

Section properties.
Context `{UlidTextLaws} `{JiffLaws} `{!RowOrder}.
Import SqliteDispatcherProofs.
Implicit Types c : SqliteDispatcherRegistry.t.

Lemma stored_wf d : dispatcher_wf d -> dispatcher_wf (stored d) /\ stored (stored d) = stored d.
Proof.
  intros (Hu & Hl & Ht). unfold stored. cbn. rewrite whole_second_idemp by done.
  split; [|done]. split_and!; cbn; [done..|]. by apply whole_second_valid.
Qed.

(** [get], then a write that depends on what was read. *)
Lemma get_then_register id (f : Dispatcher -> Dispatcher) c c' res :
  well_formed codec (tables c) -> u128 (dispatcher_ulid id) ->
  (∀ d, dispatcher_wf d -> disp_id d = id -> dispatcher_wf (f (stored d))) ->
  (d <-- SqliteDispatcherRegistry.get id ;; d <-- lift (ok_or d (Failed NotFound)) ;;
   SqliteDispatcherRegistry.register (f d)) c = (c', res) ->
  well_formed codec (tables c') /\
  match res with
  | Ok _ => ∃ d, view codec (tables c) !! id = Some d /\
      view codec (tables c') = <[disp_id (f d) := stored (f d)]> (view codec (tables c))
  | Err e => tables c' = tables c /\
      (e = Failed NotFound /\ view codec (tables c) !! id = None \/ e = of_sqlx Unavailable)
  end.
Proof.
  intros Hwf Hid Hf. unfold bind. destruct (SqliteDispatcherRegistry.get id c) as [c1 [o|e]] eqn:Hget;
    apply (fetch_view of_sqlx codec) in Hget as [Ht Ho]; try done.
  - subst o. change (disp_id : Dispatcher -> DispatcherId) with (cd_bkey codec).
    destruct (view codec (tables c) !! id) as [d|] eqn:Hd; cbn [ok_or lift].
    + destruct (lookup_view codec _ _ _ Hwf Hd) as (d0 & Hd0 & Hk & Hst).
      cbn in Hk, Hst. intros Hreg. rewrite <- Ht in Hwf.
      apply (store_view of_sqlx codec) in Hreg as [Hwf' Hres]; [|subst d; by apply Hf|done].
      split; [done|]. rewrite Ht in Hres. destruct res as [[]|e]; [by eexists|]. naive_solver.
    + intros [= <- <-]. rewrite Ht. auto.
  - intros [= <- <-]. rewrite Ht. split; [done|]. split; [done|]. right. by destruct Ho.
Qed.

(** the SQLite dispatcher registry is a map from ids to dispatchers that keeps whole seconds:
    registering, alone or in a batch, inserts; [update] replaces and [suspend] suspends a dispatcher
    that is registered and answers NotFound, changing nothing, for another; a failed operation
    changes nothing. *)
Theorem sqlite_dispatchers_refine_map c : well_formed codec (tables c) ->
  (∀ ds c' res, Forall dispatcher_wf ds -> SqliteDispatcherRegistry.batch_register ds c = (c', res) ->
     well_formed codec (tables c') /\
     match res with
     | Ok _ => view codec (tables c') = insert_all disp_id (stored <$> ds) (view codec (tables c))
     | Err e => tables c' = tables c /\ e = of_sqlx Unavailable /\ faulty c
     end) /\
  (∀ id new c' res, u128 (dispatcher_ulid id) -> dispatcher_wf new ->
     SqliteDispatcherRegistry.update id new c = (c', res) ->
     well_formed codec (tables c') /\
     match res with
     | Ok _ => is_Some (view codec (tables c) !! id) /\
         view codec (tables c') =
           <[id := stored (mkDispatcher id (disp_location new) (disp_state new) (disp_provisioned_at new))]>
             (view codec (tables c))
     | Err e => tables c' = tables c /\
         (e = Failed NotFound /\ view codec (tables c) !! id = None \/ e = of_sqlx Unavailable)
     end) /\
  (∀ id c' res, u128 (dispatcher_ulid id) -> SqliteDispatcherRegistry.suspend id c = (c', res) ->
     well_formed codec (tables c') /\
     match res with
     | Ok _ => ∃ d, view codec (tables c) !! id = Some d /\
         view codec (tables c') = <[id := SqliteDispatcherRegistry.suspended d]> (view codec (tables c))
     | Err e => tables c' = tables c /\
         (e = Failed NotFound /\ view codec (tables c) !! id = None \/ e = of_sqlx Unavailable)
     end).
Proof.
  intros Hwf. split_and!.
  - intros ds c' res Hds Hst. rewrite insert_all_fmap. by apply (store_all_view of_sqlx codec) in Hst.
  - intros id new c' res Hid (Hu & Hl & Ht) Hup.
    apply (get_then_register id (fun old => mkDispatcher (disp_id old) (disp_location new) (disp_state new)
      (disp_provisioned_at new))) in Hup as [Hwf' Hres]; [|done|done|].
    + split; [done|]. destruct res as [[]|e]; [|done]. destruct Hres as (d & Hd & ->).
      destruct (lookup_view codec _ _ _ Hwf Hd) as (d0 & _ & Hk & <-). cbn in Hk |- *. rewrite Hk. by split.
    + intros d (Hd & _) Hk. split_and!; cbn; [by rewrite Hk|done..].
  - intros id c' res Hid Hsus.
    apply (get_then_register id SqliteDispatcherRegistry.suspended) in Hsus as [Hwf' Hres]; [|done|done|].
    + split; [done|]. destruct res as [[]|e]; [|done]. destruct Hres as (d & Hd & ->). exists d. split; [done|].
      destruct (lookup_view codec _ _ _ Hwf Hd) as (d0 & Hd0 & Hk & <-). cbn in Hk |- *. rewrite Hk. f_equal.
      destruct (stored_wf d0 Hd0) as [_ E]. unfold stored in *. cbn in *. by injection E as ->.
    + intros d Hd _. destruct (stored_wf d Hd) as [(? & ? & ?) _]. by split_and!.
Qed.

(** a cursor page of the SQLite dispatcher registry has no limit: whatever the limit and the
    position of the cursor, every dispatcher that the filter selects is listed. *)
Theorem sqlite_dispatcher_cursor_unlimited f o after limit c c' ds :
  well_formed codec (tables c) ->
  exact_list (fun _ => True) (dsf_states f) -> exact_list (fun l => u64 (h3_cell l)) (dsf_locations f) ->
  SqliteDispatcherRegistry.list
    (mkQueryOptions f DispatcherSortBy.ProvisionAt o (Pagination.Cursor after limit)) c = (c', Ok ds) ->
  ∀ d, d ∈ ds <-> (∃ id, view codec (tables c) !! id = Some d) /\
                  InMemoryDispatcherRegistry.dispatcher_matches f d = true.
Proof.
  intros Hwf Hs Hl Hlist d.
  eapply (fetch_all_view of_sqlx codec _ (fun a b => row_cmp
    (SqliteDispatcherRegistry.dispatcher_page o (Pagination.Cursor after limit))
    (SqliteDispatcherRegistry.dispatcher_row a) (SqliteDispatcherRegistry.dispatcher_row b)))
    in Hlist as [_ Hres]; [|by intros a; apply satisfies_dispatcher| |done].
  - destruct Hres as (s & -> & Hperm & _). cbn. rewrite Hperm, list_elem_of_In, filter_In, <- list_elem_of_In.
    by rewrite elem_of_map_values.
  - intros a b Ha Hb. unfold cmp_on, row_cmp. cbn. unfold col. cbn.
    destruct (whole_second_valid (disp_provisioned_at a)) as [_ ->]; [by destruct Ha as (? & ? & ?)|].
    destruct (whole_second_valid (disp_provisioned_at b)) as [_ ->]; [by destruct Hb as (? & ? & ?)|]. done.
Qed.
End properties.

(** ** Witnesses *)

Module SqliteDispatcherWitness.
Import SqliteDispatcherProofs.
#[local] Existing Instance ulid_crockford.
#[local] Existing Instance ulid_crockford_laws.
#[local] Existing Instance jiff_ns.
#[local] Existing Instance jiff_ns_laws.
#[local] Existing Instance row_order_std.

Definition table2 : SqliteDispatcherRegistry.t :=
  calm (SqliteDispatcherRegistry.dispatcher_row <$> [sample_dispatcher 1; sample_dispatcher 2]).

Lemma sample_dispatcher_wf n : 0 <= n < 100 -> dispatcher_wf (sample_dispatcher n).
Proof.
  intros Hn. unfold dispatcher_wf, sample_dispatcher. cbn -[Z.mul Z.pow is_unsigned valid_timestamp].
  unfold is_unsigned, valid_timestamp, ts_min_second, ts_max_second. cbn -[Z.mul Z.pow].
  split_and!; lia.
Qed.

Lemma table2_well_formed : well_formed codec (tables table2).
Proof.
  exists [sample_dispatcher 1; sample_dispatcher 2]. split_and!; [done| |].
  - apply (bool_decide_unpack _). vm_compute. exact I.
  - do 2 (constructor; [apply sample_dispatcher_wf; lia|]). constructor.
Qed.

Lemma sqlite_dispatchers_refine_map_witness :
  let '(c', res) := SqliteDispatcherRegistry.suspend (mkDispatcherId 2) table2 in
  res = Ok tt /\
  view codec (tables c') !! mkDispatcherId 2 = Some (SqliteDispatcherRegistry.suspended (sample_dispatcher 2)).
Proof.
  destruct (SqliteDispatcherRegistry.suspend (mkDispatcherId 2) table2) as [c' res] eqn:Hs.
  destruct (sqlite_dispatchers_refine_map table2 table2_well_formed) as (_ & _ & Hsus).
  assert (u128 2) as H2 by (split; [lia|reflexivity]).
  destruct (Hsus (mkDispatcherId 2) _ _ H2 Hs) as [_ H].
  assert (res = Ok tt) as -> by (vm_compute in Hs; injection Hs as <- <-; reflexivity).
  split; [reflexivity|]. destruct H as (d & Hd & ->).
  vm_compute in Hd. injection Hd as <-. vm_compute. reflexivity.
Defined.

Lemma sqlite_dispatcher_cursor_unlimited_witness :
  let opts := mkQueryOptions DispatcherFilter_default DispatcherSortBy.ProvisionAt SortOrder.Asc
                (Pagination.Cursor None 1) in
  SqliteDispatcherRegistry.list opts table2 = (table2, Ok [sample_dispatcher 1; sample_dispatcher 2]) /\
  ∃ id, view codec (tables table2) !! id = Some (sample_dispatcher 2).
Proof.
  cbv zeta. assert (∀ c', SqliteDispatcherRegistry.list (mkQueryOptions DispatcherFilter_default
    DispatcherSortBy.ProvisionAt SortOrder.Asc (Pagination.Cursor None 1)) table2 = c' ->
    c' = (table2, Ok [sample_dispatcher 1; sample_dispatcher 2])) as E
    by (intros c' <-; vm_compute; reflexivity).
  split; [exact (E _ eq_refl)|].
  destruct (sqlite_dispatcher_cursor_unlimited DispatcherFilter_default SortOrder.Asc None 1 table2 table2
    [sample_dispatcher 1; sample_dispatcher 2] table2_well_formed I I (E _ eq_refl) (sample_dispatcher 2)) as [H _].
  destruct H as [H _]; [|exact H]. right. left.
Defined.
End SqliteDispatcherWitness.
