(* ===== verification/SqliteReading.v ===== *)
(** * The SQLite reading registry: ersha-prime/src/registry/sqlite/reading.rs

    The registry is the table [readings] behind its connection.  [reading_row] is the row the
    INSERT binds and [map_row_to_reading] reads it back; [filter_readings] and [list_sql] build the
    text of the queries, and [list] runs the query that text stands for ([reading_conds] and
    [page]), which [reading_list_sql] justifies. *)
From Stdlib Require Import ZArith Lia Strings.String.
From stdpp Require Import base gmap strings list sorting.
From S2P Require Import Prelude Platform Core Samples Filter Registry InMemory Sql SqlCodec.
Open Scope Z_scope.

(** [ersha-prime/src/registry/sqlite/reading.rs:19-31] SqliteReadingError *)
Inductive SqliteReadingError :=
  | Sqlx (e : DbError)
  | Migration
  | InvalidUlid (s : string)
  | InvalidTimestamp (s : Z)
  | InvalidMetricType (z : Z).

#[export] Instance reading_error : SqlError SqliteReadingError :=
  {| e_sqlx := Sqlx; e_ulid := InvalidUlid; e_timestamp := InvalidTimestamp |}.
#[export] Instance reading_metric_error : MetricError SqliteReadingError := InvalidMetricType.

Module SqliteReadingRegistry.
(** [ersha-prime/src/registry/sqlite/reading.rs:33-36] SqliteReadingRegistry: the rows of readings *)
Definition t : Type := Conn (list SRow).

Section operations.
Context `{!UlidText} `{!Jiff} `{!RowOrder}.
Abbreviation Op := (M (list SRow) (Fail SqliteReadingError)).

(** [ersha-prime/src/registry/sqlite/reading.rs:62-78] the values store binds *)
Definition reading_row (reading : SensorReading) : SRow :=
  let (metric_type, metric_value) := disect_metric (rd_metric reading) in
  [("id", VText (ulid_to_string (reading_ulid (rd_id reading))));
   ("device_id", VText (ulid_to_string (device_ulid (rd_device_id reading))));
   ("dispatcher_id", VText (ulid_to_string (dispatcher_ulid (rd_dispatcher_id reading))));
   ("sensor_id", VText (ulid_to_string (sensor_ulid (rd_sensor_id reading))));
   ("metric_type", VInt metric_type);
   ("metric_value", VReal metric_value);
   ("location", VInt (as_i64 (h3_cell (rd_location reading))));
   ("confidence", VInt (percent (rd_confidence reading)));
   ("timestamp", VInt (as_second (rd_timestamp reading)))]%string.

(** [ersha-prime/src/registry/sqlite/reading.rs:179-231] map_row_to_reading *)
Definition map_row_to_reading (r : SRow) : result SensorReading (Fail SqliteReadingError) :=
  let? id := get_ulid "id" r in
  let? device_id := get_ulid "device_id" r in
  let? dispatcher_id := get_ulid "dispatcher_id" r in
  let? sensor_id := get_ulid "sensor_id" r in
  let? metric_type := get_col as_int32 "metric_type" r in
  let? metric_value := get_col as_real "metric_value" r in
  let? metric := metric_of metric_type metric_value in
  let? timestamp := get_second "timestamp" r in
  let? location := get_location r in
  let? confidence := get_col as_int32 "confidence" r in
  Ok (mkSensorReading (mkReadingId id) (mkDeviceId device_id) (mkDispatcherId dispatcher_id) metric
        location (mkPercentage (as_u8 confidence)) timestamp (mkSensorId sensor_id)).

(** [ersha-prime/src/registry/sqlite/reading.rs:61-83] SqliteReadingRegistry::store *)
Definition store (reading : SensorReading) : Op unit :=
  run of_sqlx (write (replace_row (reading_row reading))).

(** [ersha-prime/src/registry/sqlite/reading.rs:85-97] SqliteReadingRegistry::get *)
Definition get (id : ReadingId) : Op (option SensorReading) :=
  fetch_optional of_sqlx map_row_to_reading "id" (VText (ulid_to_string (reading_ulid id))).

(** [ersha-prime/src/registry/sqlite/reading.rs:99-126] SqliteReadingRegistry::batch_store *)
Definition batch_store (readings : list SensorReading) : Op unit :=
  transaction of_sqlx (for_each store readings).

(** [ersha-prime/src/registry/sqlite/reading.rs:233-352] filter_readings *)
Definition filter_readings (query_builder : QueryBuilder) (filter : ReadingFilter) : QueryBuilder :=
  let x := (query_builder, false) in
  let x := push_in "id" (text_values reading_ulid <$> rf_ids filter) x in
  let x := push_in "device_id" (text_values device_ulid <$> rf_device_ids filter) x in
  let x := push_in "sensor_id" (text_values sensor_ulid <$> rf_sensor_ids filter) x in
  let x := push_in "dispatcher_id" (text_values dispatcher_ulid <$> rf_dispatcher_ids filter) x in
  let x := push_in "metric_type" (int_values metric_type_code <$> rf_metric_types filter) x in
  let x := push_in "location" (int_values cell_code <$> rf_locations filter) x in
  let x := push_op "timestamp >= " (second_value <$> rf_timestamp_after filter) x in
  let x := push_op "timestamp <= " (second_value <$> rf_timestamp_before filter) x in
  let x := push_between "confidence"
    ((fun r => (VInt (range_start r), VInt (range_end r))) <$> rf_confidence_range filter) x in
  fst x.

(** [ersha-prime/src/registry/sqlite/reading.rs:129-135] the query of count *)
Definition count_sql (filter : option ReadingFilter) : QueryBuilder :=
  let query_builder := qb_new "SELECT COUNT(*) FROM readings " in
  match filter with Some filter => filter_readings query_builder filter | None => query_builder end.

(** [ersha-prime/src/registry/sqlite/reading.rs:128-139] SqliteReadingRegistry::count *)
Definition count (filter : option ReadingFilter) : Op Z :=
  n <-- fetch_count of_sqlx (from_option reading_conds [] filter) ;; ret (as_u64 n).

(** [ersha-prime/src/registry/sqlite/reading.rs:151-155] list: ORDER BY *)
Definition order_by (sort_by : ReadingSortBy.t) : string * string :=
  match sort_by with
  | ReadingSortBy.Timestamp => (" ORDER BY timestamp", "timestamp")
  | ReadingSortBy.Confidence => (" ORDER BY confidence", "confidence")
  | ReadingSortBy.DeviceId => (" ORDER BY device_id", "device_id")
  end%string.

Definition list_from : string :=
  "SELECT id, device_id, dispatcher_id, sensor_id, metric_type, metric_value, location, confidence, timestamp FROM readings ".

(** [ersha-prime/src/registry/sqlite/reading.rs:145-170] the query of list *)
Definition list_sql (options : QueryOptions ReadingFilter ReadingSortBy.t) : QueryBuilder :=
  let qb := filter_readings (qb_new list_from) (filter_opt options) in
  let qb := push (fst (order_by (sort_by_opt options))) qb in
  push_page (pagination_opt options) (push (direction_text (sort_order_opt options)) qb).

(** [ersha-prime/src/registry/sqlite/reading.rs:141-176] SqliteReadingRegistry::list *)
Definition list (options : QueryOptions ReadingFilter ReadingSortBy.t) : Op (list SensorReading) :=
  let (order_text, order_col) := order_by (sort_by_opt options) in
  fetch_all of_sqlx map_row_to_reading (reading_conds (filter_opt options))
    (page order_text order_col (sort_order_opt options) (pagination_opt options)).

#[export] Instance registry : ReadingRegistry t (Fail SqliteReadingError) := {|
  rdr_store := store; rdr_get := get; rdr_batch_store := batch_store; rdr_count := count; rdr_list := list
|}.
End operations.
End SqliteReadingRegistry.
Export (hints) SqliteReadingRegistry.

(** ** The text of the queries *)

Section text.
Context `{!UlidText} `{!Jiff}.
Import SqliteReadingRegistry.

Lemma filter_readings_state init filter :
  filter_readings (qb_new init) filter = fst (where_state init (reading_conds filter)).
Proof.
  unfold filter_readings, reading_conds. rewrite qb_new_state.
  rewrite (push_in_state init [] (plain "id")), (push_in_state _ _ (plain "device_id")),
    (push_in_state _ _ (plain "sensor_id")), (push_in_state _ _ (plain "dispatcher_id")),
    (push_in_state _ _ (plain "metric_type")), (push_in_state _ _ (plain "location")).
  rewrite (push_op_state _ _ "timestamp >= " second_value (fun t => AtLeast (plain "timestamp") (second_value t))),
    (push_op_state _ _ "timestamp <= " second_value (fun t => AtMost (plain "timestamp") (second_value t))),
    (push_between_state _ _ (plain "confidence")) by done.
  by rewrite <- !(assoc_L (++)).
Qed.

Lemma lite_reading_list_sql_query options :
  list_sql options =
    query list_from (reading_conds (filter_opt options))
      (page (fst (order_by (sort_by_opt options))) (snd (order_by (sort_by_opt options)))
         (sort_order_opt options) (pagination_opt options)).
Proof. unfold list_sql. rewrite filter_readings_state. apply push_page_query. Qed.

Lemma reading_conds_no_marks filter : Forall cond_no_marks (reading_conds filter).
Proof. unfold reading_conds. solve_no_marks. Qed.
End text.

(** the queries that the registry sends to count and to list readings are exactly the SELECT
    statements their options stand for: the text has the conditions of the filter that are set and
    not empty, joined by AND, the ORDER BY clause and the page, and holds one mark for each value
    that is bound, in the same order. *)
Theorem reading_queries_text `{!UlidText} `{!Jiff} (options : QueryOptions ReadingFilter ReadingSortBy.t) :
  let tail := page (fst (SqliteReadingRegistry.order_by (sort_by_opt options)))
                (snd (SqliteReadingRegistry.order_by (sort_by_opt options)))
                (sort_order_opt options) (pagination_opt options) in
  let q := SqliteReadingRegistry.list_sql options in
  let n := SqliteReadingRegistry.count_sql (Some (filter_opt options)) in
  sql q = SqliteReadingRegistry.list_from +:+ where_text (reading_conds (filter_opt options)) +:+ tail_text tail /\
  binds q = where_binds (reading_conds (filter_opt options)) ++ tail_binds tail /\
  marks_in (sql q) = length (binds q) /\
  sql n = "SELECT COUNT(*) FROM readings " +:+ where_text (reading_conds (filter_opt options)) /\
  binds n = where_binds (reading_conds (filter_opt options)).
Proof.
  cbv zeta. unfold SqliteReadingRegistry.count_sql. rewrite lite_reading_list_sql_query, filter_readings_state. split_and!; try done.
  apply query_marks; [done| |apply reading_conds_no_marks].
  by destruct options as [f [] o [??|??]].
Qed.

(** ** Rows *)

Module SqliteReadingProofs.
Import SqliteReadingRegistry.

(** What the registry keeps of a reading: everything but the fraction of the second. *)
Definition stored `{Jiff} (r : SensorReading) : SensorReading :=
  mkSensorReading (rd_id r) (rd_device_id r) (rd_dispatcher_id r) (rd_metric r) (rd_location r)
    (rd_confidence r) (whole_second (rd_timestamp r)) (rd_sensor_id r).

Lemma map_row_to_reading_row `{UlidTextLaws} `{JiffLaws} r :
  reading_wf r -> map_row_to_reading (reading_row r) = Ok (stored r).
Proof.
  intros (Hu1 & Hu2 & Hu3 & Hu4 & Hm & Hl & Hc & Ht). unfold map_row_to_reading, reading_row.
  pose proof (metric_of_disect (E := SqliteReadingError) (rd_metric r) Hm) as Hmetric.
  pose proof (disect_metric_type (rd_metric r)) as Htype.
  destruct (disect_metric (rd_metric r)) as [mt mv]. cbn [fst snd] in *.
  set (row := _ :: _).
  rewrite (get_ulid_column "id" row _ Hu1), (get_ulid_column "device_id" row _ Hu2),
    (get_ulid_column "dispatcher_id" row _ Hu3), (get_ulid_column "sensor_id" row _ Hu4) by done.
  rewrite (get_int32_column "metric_type" row mt) by (lia || done).
  rewrite (get_real_column "metric_value" row mv), Hmetric by done.
  rewrite (get_second_column "timestamp" row _ Ht), (get_location_column row _ Hl) by done.
  unfold is_unsigned in Hc. rewrite (get_int32_column "confidence" row (percent (rd_confidence r))) by (lia || done).
  unfold as_u8. rewrite wrap_small by done. destruct r as [[] [] [] ? ? [] ? []]. reflexivity.
Qed.

Section view.
Context `{UlidTextLaws} `{JiffLaws} `{!RowOrder}.

Lemma reading_row_columns r :
  column "id" (reading_row r) = Some (VText (ulid_to_string (reading_ulid (rd_id r)))) /\
  column "device_id" (reading_row r) = Some (VText (ulid_to_string (device_ulid (rd_device_id r)))) /\
  column "sensor_id" (reading_row r) = Some (VText (ulid_to_string (sensor_ulid (rd_sensor_id r)))) /\
  column "dispatcher_id" (reading_row r) = Some (VText (ulid_to_string (dispatcher_ulid (rd_dispatcher_id r)))) /\
  column "metric_type" (reading_row r) = Some (VInt (metric_type_code (InMemoryReadingRegistry.metric_type (rd_metric r)))) /\
  column "location" (reading_row r) = Some (VInt (as_i64 (h3_cell (rd_location r)))) /\
  column "timestamp" (reading_row r) = Some (VInt (as_second (rd_timestamp r))) /\
  column "confidence" (reading_row r) = Some (VInt (percent (rd_confidence r))).
Proof. unfold reading_row. by destruct (rd_metric r). Qed.

(** How readings are kept. *)
Definition codec : Codec SensorReading SensorReading ReadingId (Fail SqliteReadingError) :=
  mkCodec reading_row map_row_to_reading rd_id rd_id (fun k => ulid_to_string (reading_ulid k)) reading_wf
    (fun k => u128 (reading_ulid k)) stored.

#[export] Instance codec_laws : CodecLaws codec.
Proof.
  split; cbn.
  - intros r. apply col_column, reading_row_columns.
  - intros k k' Hk Hk' Heq. by apply reading_ulid_inj, ulid_to_string_inj.
  - by intros r [].
  - apply map_row_to_reading_row.
  - done.
Qed.

(** A filter whose lists are not empty, of the width of their types, with bounds on whole seconds. *)
Definition filter_exact (f : ReadingFilter) : Prop :=
  exact_list (fun k => u128 (reading_ulid k)) (rf_ids f) /\
  exact_list (fun k => u128 (device_ulid k)) (rf_device_ids f) /\
  exact_list (fun k => u128 (sensor_ulid k)) (rf_sensor_ids f) /\
  exact_list (fun k => u128 (dispatcher_ulid k)) (rf_dispatcher_ids f) /\
  exact_list (fun _ => True) (rf_metric_types f) /\
  exact_list (fun l => u64 (h3_cell l)) (rf_locations f) /\
  exact_bound (rf_timestamp_after f) /\ exact_bound (rf_timestamp_before f).

Lemma satisfies_reading f r : filter_exact f -> reading_wf r ->
  satisfies reading_row (reading_conds f) r = InMemoryReadingRegistry.reading_matches f (stored r).
Proof.
  intros (F1 & F2 & F3 & F4 & F5 & F6 & F7 & F8) (W1 & W2 & W3 & W4 & _ & W6 & _ & W8).
  destruct (reading_row_columns r) as (C1 & C2 & C3 & C4 & C5 & C6 & C7 & C8).
  apply eq_true_iff_eq. rewrite InMemoryReadingRegistry.reading_matches_iff. unfold satisfies, reading_conds.
  rewrite !forallb_app_iff. cbn [stored rd_id rd_device_id rd_sensor_id rd_dispatcher_id rd_metric rd_location
    rd_confidence rd_timestamp].
  rewrite (in_cond_ulid_iff _ _ _ _ (rd_id r)), (in_cond_ulid_iff _ _ _ _ (rd_device_id r)),
    (in_cond_ulid_iff _ _ _ _ (rd_sensor_id r)), (in_cond_ulid_iff _ _ _ _ (rd_dispatcher_id r)) by eauto with ersha.
  rewrite (in_cond_int_iff _ _ (fun _ => True) _ _ (InMemoryReadingRegistry.metric_type (rd_metric r)))
    by (try done; intros [] _; by destruct (InMemoryReadingRegistry.metric_type _)).
  rewrite (in_cond_cell_iff _ _ _ (rd_location r)), (between_iff _ _ (fun z => z) _ (percent (rd_confidence r))) by done.
  rewrite <- (window_iff (reading_row r) (plain "timestamp")) by done. tauto.
Qed.

Lemma row_cmp_reading sort_by o p r r' : reading_wf r -> reading_wf r' ->
  cmp_on reading_row (row_cmp (page (fst (order_by sort_by)) (snd (order_by sort_by)) o p)) r r' =
    InMemoryReadingRegistry.reading_cmp sort_by o (stored r) (stored r').
Proof.
  intros (_ & W2 & _ & _ & _ & _ & _ & W8) (_ & V2 & _ & _ & _ & _ & _ & V8).
  destruct (reading_row_columns r) as (_ & C2 & _ & _ & _ & _ & C7 & C8).
  destruct (reading_row_columns r') as (_ & D2 & _ & _ & _ & _ & D7 & D8).
  unfold cmp_on, row_cmp, InMemoryReadingRegistry.reading_cmp, directed.
  assert (direction (page (fst (order_by sort_by)) (snd (order_by sort_by)) o p) = o) as -> by by destruct p.
  assert (order_col (page (fst (order_by sort_by)) (snd (order_by sort_by)) o p) = snd (order_by sort_by)) as ->
    by by destruct p.
  destruct sort_by; cbn [order_by snd];
    rewrite ?(col_column _ _ _ C2), ?(col_column _ _ _ D2), ?(col_column _ _ _ C7), ?(col_column _ _ _ D7),
      ?(col_column _ _ _ C8), ?(col_column _ _ _ D8);
    rewrite ?value_cmp_second, ?value_cmp_ulid, ?value_cmp_int by done; by destruct o.
Qed.
End view.
End SqliteReadingProofs.

(** ** Properties *)

Section properties.
Context `{UlidTextLaws} `{JiffLaws} `{!RowOrder}.
Import SqliteReadingProofs.
Implicit Types c : SqliteReadingRegistry.t.

(** C10: the SQLite reading registry is a map from ids to readings that keeps whole seconds: storing
    a reading, or a batch in one transaction, inserts them, later ones over earlier ones, and a
    store that fails changes nothing; reading an id answers what the map has; and unless the
    database fails a statement no operation fails, so no row is ever undecodable and nothing
    panics. *)
Theorem sqlite_readings_refine_map c : well_formed codec (tables c) ->
  (∀ r c' res, reading_wf r -> SqliteReadingRegistry.store r c = (c', res) ->
     well_formed codec (tables c') /\
     match res with
     | Ok _ => view codec (tables c') = <[rd_id r := stored r]> (view codec (tables c))
     | Err e => tables c' = tables c /\ e = of_sqlx Unavailable /\ faulty c
     end) /\
  (∀ rs c' res, Forall reading_wf rs -> SqliteReadingRegistry.batch_store rs c = (c', res) ->
     well_formed codec (tables c') /\
     match res with
     | Ok _ => view codec (tables c') = insert_all rd_id (stored <$> rs) (view codec (tables c))
     | Err e => tables c' = tables c /\ e = of_sqlx Unavailable /\ faulty c
     end) /\
  (∀ id c' res, u128 (reading_ulid id) -> SqliteReadingRegistry.get id c = (c', res) ->
     tables c' = tables c /\
     match res with
     | Ok o => o = view codec (tables c) !! id
     | Err e => e = of_sqlx Unavailable /\ faulty c
     end).
Proof.
  intros Hwf. split_and!.
  - intros r c' res Hr Hst. by apply (store_view of_sqlx codec) in Hst.
  - intros rs c' res Hrs Hst. rewrite insert_all_fmap. by apply (store_all_view of_sqlx codec) in Hst.
  - intros id c' res Hid Hget. by apply (fetch_view of_sqlx codec) in Hget.
Qed.

Lemma values_perm `{!HashIter ReadingId SensorReading} f m :
  List.filter (InMemoryReadingRegistry.reading_matches f) (snd <$> map_to_list m) ≡ₚ
  InMemoryReadingRegistry.filter_readings m f.
Proof. apply List_filter_perm. unfold hm_values. rewrite hm_iter_perm. reflexivity. Qed.

Lemma count_agrees `{!HashIter ReadingId SensorReading} f c c' n :
  well_formed codec (tables c) -> filter_exact f ->
  SqliteReadingRegistry.count (Some f) c = (c', Ok n) ->
  n = as_u64 (Z.of_nat (length (InMemoryReadingRegistry.filter_readings (view codec (tables c)) f))).
Proof.
  intros Hwf Hf. unfold SqliteReadingRegistry.count, bind, ret. cbn [from_option].
  destruct (fetch_count _ _ c) as [c1 [k|e]] eqn:Hc; [|done]. intros [= _ <-].
  eapply (fetch_count_view of_sqlx codec) in Hc as [_ ->]; [|by intros r; apply satisfies_reading|done].
  by rewrite values_perm.
Qed.

(** for a filter whose lists are not empty and whose bounds fall on whole seconds, the SQLite
    registry lists a page of the same readings that the in-memory registry holding the same
    content selects, in an order that the in-memory comparison allows, and counts as many. *)
Theorem sqlite_reading_list_agrees `{!HashIter ReadingId SensorReading} options c c' res :
  well_formed codec (tables c) -> filter_exact (filter_opt options) -> page_fits (pagination_opt options) ->
  SqliteReadingRegistry.list options c = (c', res) ->
  tables c' = tables c /\
  match res with
  | Ok rs => ∃ s offset n, pagination_opt options = Pagination.Offset offset n /\
      rs = take (Z.to_nat n) (drop (Z.to_nat offset) s) /\
      s ≡ₚ InMemoryReadingRegistry.filter_readings (view codec (tables c)) (filter_opt options) /\
      StronglySorted (cmp_le (InMemoryReadingRegistry.reading_cmp (sort_by_opt options) (sort_order_opt options))) s
  | Err e => e = of_sqlx Unavailable /\ faulty c
  end /\
  ∀ c' n, SqliteReadingRegistry.count (Some (filter_opt options)) c = (c', Ok n) ->
    n = as_u64 (Z.of_nat (length
          (InMemoryReadingRegistry.filter_readings (view codec (tables c)) (filter_opt options)))).
Proof.
  intros Hwf Hf Hp Hl. apply Logic.and_assoc. split; [|intros c2 n Hc; by eapply count_agrees]. unfold SqliteReadingRegistry.list in Hl.
  rewrite (surjective_pairing (SqliteReadingRegistry.order_by _)) in Hl.
  eapply (fetch_all_view of_sqlx codec) in Hl as [Ht Hres];
    [|by intros r; apply satisfies_reading|by intros r r'; apply row_cmp_reading|done].
  split; [done|]. destruct res as [rs|e]; [|done]. destruct Hres as (s & -> & Hperm & Hsort).
  destruct (page_offset (fst (SqliteReadingRegistry.order_by (sort_by_opt options)))
    (snd (SqliteReadingRegistry.order_by (sort_by_opt options))) (sort_order_opt options) _ s Hp)
    as (offset & n & -> & Hpage).
  exists s, offset, n. split_and!; try done. by rewrite Hperm, values_perm.
Qed.
End properties.

(** ** Witnesses *)

Module SqliteReadingWitness.
Import SqliteReadingProofs.
#[local] Existing Instance ulid_crockford.
#[local] Existing Instance ulid_crockford_laws.
#[local] Existing Instance jiff_ns.
#[local] Existing Instance jiff_ns_laws.
#[local] Existing Instance row_order_std.
#[local] Existing Instance hash_iter_std.

(** A table with three readings of two devices. *)
Definition readings3 : list SensorReading := [sample_reading 1 7; sample_reading 2 8; sample_reading 3 7].
Definition table3 : SqliteReadingRegistry.t := calm (SqliteReadingRegistry.reading_row <$> readings3).

Lemma sample_reading_wf n d : 0 <= n < 100 -> 0 <= d < 100 -> reading_wf (sample_reading n d).
Proof.
  intros Hn Hd. unfold reading_wf, sample_reading, metric_wf. cbn -[Z.mul Z.pow is_unsigned valid_timestamp].
  unfold is_unsigned, valid_timestamp, ts_min_second, ts_max_second. cbn -[Z.mul Z.pow].
  split_and!; lia.
Qed.

Lemma table3_well_formed : well_formed codec (tables table3).
Proof.
  exists readings3. split_and!; [done| |].
  - apply (bool_decide_unpack _). vm_compute. exact I.
  - do 3 (constructor; [apply sample_reading_wf; lia|]). constructor.
Qed.

(** The readings of device 7, latest first. *)
Definition options7 : QueryOptions ReadingFilter ReadingSortBy.t :=
  mkQueryOptions
    (mkReadingFilter None (Some [mkDeviceId 7]) None None None None None None None)
    ReadingSortBy.Timestamp SortOrder.Desc (Pagination.Offset 0 10).

Lemma sqlite_readings_refine_map_witness :
  let '(c', res) := SqliteReadingRegistry.store (sample_reading 4 9) table3 in
  res = Ok tt /\ view codec (tables c') !! mkReadingId 4 = Some (sample_reading 4 9).
Proof.
  destruct (SqliteReadingRegistry.store (sample_reading 4 9) table3) as [c' res] eqn:Hs.
  destruct (sqlite_readings_refine_map table3 table3_well_formed) as [Hstore _].
  destruct (Hstore _ _ _ (sample_reading_wf 4 9 ltac:(lia) ltac:(lia)) Hs) as [_ H].
  destruct res as [[]|e].
  - split; [reflexivity|]. rewrite H. vm_compute. reflexivity.
  - destruct H as (_ & _ & Hf). exfalso. apply elem_of_nil in Hf. exact Hf.
Defined.

Lemma sqlite_reading_list_agrees_witness :
  SqliteReadingRegistry.list options7 table3 = (table3, Ok [sample_reading 3 7; sample_reading 1 7]) /\
  tables (fst (SqliteReadingRegistry.list options7 table3)) = tables table3.
Proof.
  split; [vm_compute; reflexivity|].
  refine (proj1 (sqlite_reading_list_agrees options7 table3 _ _ table3_well_formed _ _ (surjective_pairing _))).
  - repeat split; try exact I; [discriminate|]. repeat constructor; simpl; discriminate.
  - simpl. lia.
Defined.
End SqliteReadingWitness.
