(* ===== verification/SqliteDevice.v ===== *)
(** * The SQLite device registry: ersha-prime/src/registry/sqlite/device.rs

    The registry is two tables behind a connection: [devices], whose rows carry a [sensor_count] that
    only the triggers of the migration write, and [sensors], whose [device_id] must be the id of a
    device.  An INSERT OR REPLACE of a sensor fires the insert trigger, and no delete trigger for the
    row it replaces (recursive triggers are off by default); one of a device resets its count and
    leaves its sensors.  The database is a file, as [new] opens it: it admits one writer at a time,
    so a write on a second connection fails while a transaction has written. *)
From Stdlib Require Import ZArith Lia Strings.String.
From stdpp Require Import base gmap strings list sorting.
From S2P Require Import Prelude Platform Core Samples Filter Registry InMemory Sql SqlCodec.
Open Scope Z_scope.

(** [ersha-prime/src/registry/sqlite/device.rs:23-43] SqliteDeviceError *)
Inductive SqliteDeviceError :=
  | Sqlx (e : DbError)
  | Migration
  | InvalidUlid (s : string)
  | InvalidTimestamp (s : Z)
  | InvalidState (z : Z)
  | InvalidDeviceKind (z : Z)
  | InvalidMetricType (z : Z)
  | InvalidSensorKind (z : Z)
  | NotFound.

#[export] Instance device_error : SqlError SqliteDeviceError :=
  {| e_sqlx := Sqlx; e_ulid := InvalidUlid; e_timestamp := InvalidTimestamp |}.
#[export] Instance device_metric_error : MetricError SqliteDeviceError := InvalidMetricType.

(** The two tables. *)
Record Tables := mkTables { devices : list SRow; sensors : list SRow }.

Module SqliteDeviceRegistry.
(** [ersha-prime/src/registry/sqlite/device.rs:45-48] SqliteDeviceRegistry: the tables and the connection *)
Definition t : Type := Conn Tables.

(** [ersha-prime/src/registry/sqlite/device.rs:542-550] disect_metric *)
Definition disect_metric : SensorMetric.t -> Z * f64 := SqlCodec.disect_metric.

Section operations.
Context `{!UlidText} `{!Jiff} `{!RowOrder}.
Abbreviation Op := (M Tables (Fail SqliteDeviceError)).

(** [ersha-prime/src/registry/sqlite/device.rs:74-86] the values register binds, and the default of sensor_count *)
Definition device_row (device : Device) : SRow :=
  [("id", VText (ulid_to_string (device_ulid (dev_id device))));
   ("kind", VInt (device_kind_code (dev_kind device)));
   ("state", VInt (device_state_code (dev_state device)));
   ("location", VInt (as_i64 (h3_cell (dev_location device))));
   ("manufacturer", text_opt (dev_manufacturer device));
   ("provisioned_at", VInt (as_second (dev_provisioned_at device)));
   ("sensor_count", VInt 0)]%string.

(** [ersha-prime/src/registry/sqlite/device.rs:96-108] the values add_sensor binds *)
Definition sensor_row (id : DeviceId) (sensor : Sensor) : SRow :=
  let (metric_type, metric_value) := disect_metric (sensor_metric sensor) in
  [("id", VText (ulid_to_string (sensor_ulid (sensor_id sensor))));
   ("kind", VInt (sensor_kind_code (sensor_kind sensor)));
   ("metric_type", VInt metric_type);
   ("metric_value", VReal metric_value);
   ("device_id", VText (ulid_to_string (device_ulid id)))]%string.

(** [ersha-prime/migrations/001_init.sql:27-33] trg_increment_sensor_count:
    UPDATE devices SET sensor_count = sensor_count + 1 WHERE id = .. *)
Definition bump (id : Value) (r : SRow) : SRow :=
  if bool_decide (col "id" r = id) then
    (fun '(c, v) => (c, match v with
                        | VInt n => if String.eqb c "sensor_count" then VInt (n + 1) else v
                        | _ => v
                        end)) <$> r
  else r.

(** [ersha-prime/src/registry/sqlite/device.rs:76-77] register: INSERT OR REPLACE INTO devices *)
Definition insert_device (r : SRow) (db : Tables) : Tables := mkTables (replace_row r (devices db)) (sensors db).

(** [ersha-prime/src/registry/sqlite/device.rs:100-101] add_sensor: INSERT OR REPLACE INTO sensors, with
    the foreign key and the trigger of the migration *)
Definition insert_sensor (r : SRow) (db : Tables) : result (unit * Tables) DbError :=
  let device_id := col "device_id" r in
  if bool_decide (device_id ∈ col "id" <$> devices db)
  then Ok (tt, mkTables (bump device_id <$> devices db) (replace_row r (sensors db)))
  else Err ForeignKeyViolation.

(** [ersha-prime/src/registry/sqlite/device.rs:95-113] SqliteDeviceRegistry::add_sensor *)
Definition add_sensor (id : DeviceId) (sensor : Sensor) : Op unit :=
  run of_sqlx (insert_sensor (sensor_row id sensor)).

(** [ersha-prime/src/registry/sqlite/device.rs:115-142] SqliteDeviceRegistry::add_sensors *)
Definition add_sensors (id : DeviceId) (ss : list Sensor) : Op unit :=
  transaction of_sqlx (for_each (add_sensor id) ss).

(** [ersha-prime/src/registry/sqlite/device.rs:73-93] SqliteDeviceRegistry::register *)
Definition register (device : Device) : Op unit :=
  _ <-- run of_sqlx (write (insert_device (device_row device))) ;;
  add_sensors (dev_id device) (dev_sensors device).

(** [ersha-prime/src/registry/sqlite/device.rs:164-202] get: one row of sensors *)
Definition sensor_of_row (s_row : SRow) : result Sensor (Fail SqliteDeviceError) :=
  let? s_ulid := get_ulid "id" s_row in
  let? kind := get_col as_int32 "kind" s_row in
  let? kind := ok_or (sensor_kind_of kind) (Failed (InvalidSensorKind kind)) in
  let? metric_type := get_col as_int32 "metric_type" s_row in
  let? metric :=
    match metric_type with
    | 0 | 1 | 2 | 3 | 4 =>
        let? metric_value := get_col as_real "metric_value" s_row in metric_of metric_type metric_value
    | other => Err (Failed (InvalidMetricType other))
    end in
  Ok (mkSensor (mkSensorId s_ulid) metric kind).

(** [ersha-prime/src/registry/sqlite/device.rs:204-231] get: the row of the device *)
Definition device_of_row (id : DeviceId) (ss : list Sensor) (r : SRow) : result Device (Fail SqliteDeviceError) :=
  let? provisioned_at := get_second "provisioned_at" r in
  let? state := get_col as_int32 "state" r in
  let? state := ok_or (device_state_of state) (Failed (InvalidState state)) in
  let? kind := get_col as_int32 "kind" r in
  let? kind := ok_or (device_kind_of kind) (Failed (InvalidDeviceKind kind)) in
  let? manufacturer := get_col (as_opt as_text) "manufacturer" r in
  let? location := get_location r in
  Ok (mkDevice id kind state location manufacturer provisioned_at ss).

(** [ersha-prime/src/registry/sqlite/device.rs:144-232] SqliteDeviceRegistry::get *)
Definition get (id : DeviceId) : Op (option Device) :=
  let key := VText (ulid_to_string (device_ulid id)) in
  rows <-- run of_sqlx (read (fun db => rows_where "id" key (devices db))) ;;
  match rows with
  | [] => ret None
  | r :: _ =>
      sensor_rows <-- run of_sqlx (read (fun db => scan (rows_where "device_id" key (sensors db)))) ;;
      lift (let? ss := collect (sensor_of_row <$> sensor_rows) in map_ok Some (device_of_row id ss r))
  end.

(** [ersha-prime/src/registry/sqlite/device.rs:234-239] SqliteDeviceRegistry::update *)
Definition update (id : DeviceId) (new : Device) : Op unit :=
  old <-- get id ;;
  old <-- lift (ok_or old (Failed NotFound)) ;;
  register (mkDevice (dev_id old) (dev_kind new) (dev_state new) (dev_location new) (dev_manufacturer new)
              (dev_provisioned_at new) (dev_sensors new)).

(** [ersha-prime/src/registry/sqlite/device.rs:244-247] suspend: the struct update *)
Definition suspended (device : Device) : Device :=
  mkDevice (dev_id device) (dev_kind device) DeviceState.Suspended (dev_location device)
    (dev_manufacturer device) (dev_provisioned_at device) (dev_sensors device).

(** [ersha-prime/src/registry/sqlite/device.rs:241-250] SqliteDeviceRegistry::suspend *)
Definition suspend (id : DeviceId) : Op unit :=
  device <-- get id ;;
  device <-- lift (ok_or device (Failed NotFound)) ;;
  register (suspended device).

(** [ersha-prime/src/registry/sqlite/device.rs:271-272] batch_register: add_sensors on a second connection,
    while the transaction of the first holds the write lock *)
Definition add_sensors_locked (ss : list Sensor) : Op unit :=
  _ <-- round_trip of_sqlx ;;
  match ss with
  | [] => round_trip of_sqlx
  | _ => _ <-- round_trip of_sqlx ;; throw (of_sqlx Locked)
  end.

(** [ersha-prime/src/registry/sqlite/device.rs:252-277] SqliteDeviceRegistry::batch_register *)
Definition batch_register (ds : list Device) : Op unit :=
  transaction of_sqlx (for_each (fun device =>
    _ <-- run of_sqlx (write (insert_device (device_row device))) ;;
    add_sensors_locked (dev_sensors device)) ds).

(** [ersha-prime/src/registry/sqlite/device.rs:438-538] filter_devices *)
Definition filter_devices (query_builder : QueryBuilder) (filter : DeviceFilter) : QueryBuilder :=
  let x := (query_builder, false) in
  let x := push_in "id" (text_values device_ulid <$> df_ids filter) x in
  let x := push_in "state" (int_values device_state_code <$> df_states filter) x in
  let x := push_in "kind" (int_values device_kind_code <$> df_kinds filter) x in
  let x := push_in "location" (int_values cell_code <$> df_locations filter) x in
  let x := push_op "provisioned_at >= " (second_value <$> df_provisioned_after filter) x in
  let x := push_op "provisioned_at <= " (second_value <$> df_provisioned_before filter) x in
  let x := push_between " sensor_count"
    ((fun r => (VInt (as_i64 (range_start r)), VInt (as_i64 (range_end r)))) <$> df_sensor_count filter) x in
  let x := push_op "manufacturer LIKE " ((fun p => VText ("%" +:+ p +:+ "%")) <$> df_manufacturer_pattern filter) x in
  fst x.

(** The conditions of the queries: the count is the column the triggers maintain. *)
Definition conds : DeviceFilter -> list Cond := device_conds (mkCol " sensor_count" "sensor_count").

(** [ersha-prime/src/registry/sqlite/device.rs:280-286] the query of count *)
Definition count_sql (filter : option DeviceFilter) : QueryBuilder :=
  let query_builder := qb_new "SELECT COUNT(*) FROM devices " in
  match filter with Some filter => filter_devices query_builder filter | None => query_builder end.

(** [ersha-prime/src/registry/sqlite/device.rs:279-290] SqliteDeviceRegistry::count *)
Definition count (filter : option DeviceFilter) : Op Z :=
  n <-- run of_sqlx (read (fun db => Z.of_nat (length (where_ (from_option conds [] filter) (devices db))))) ;;
  ret (as_u64 n).

(** [ersha-prime/src/registry/sqlite/device.rs:302-307] list: ORDER BY *)
Definition order_by (sort_by : DeviceSortBy.t) : string * string :=
  match sort_by with
  | DeviceSortBy.State => (" ORDER BY state", "state")
  | DeviceSortBy.Manufacturer => (" ORDER BY manufacturer", "manufacturer")
  | DeviceSortBy.ProvisionAt => (" ORDER BY provisioned_at ", "provisioned_at")
  | DeviceSortBy.SensorCount => (" ORDER BY sensor_count", "sensor_count")
  end%string.

Definition list_from : string :=
  "SELECT id, kind, state, location, manufacturer, provisioned_at, sensor_count FROM devices ".

(** [ersha-prime/src/registry/sqlite/device.rs:296-326] the query of list *)
Definition list_sql (options : QueryOptions DeviceFilter DeviceSortBy.t) : QueryBuilder :=
  let qb := filter_devices (qb_new list_from) (filter_opt options) in
  let qb := push (fst (order_by (sort_by_opt options))) qb in
  push_page (pagination_opt options) (push (direction_text (sort_order_opt options)) qb).

(** [ersha-prime/src/registry/sqlite/device.rs:343-350] list: the query of the sensors *)
Definition sensors_sql (device_ids : list string) : QueryBuilder :=
  push ")" (push_separated ", " (VText <$> device_ids)
    (qb_new "SELECT id, kind, metric_type, metric_value, device_id FROM sensors WHERE device_id IN (")).

(** [ersha-prime/src/registry/sqlite/device.rs:369-393] map_row_to_device *)
Definition map_row_to_device (r : SRow) : result Device (Fail SqliteDeviceError) :=
  let? ulid := get_ulid "id" r in
  let? provisioned_at := get_col as_int64 "provisioned_at" r in
  let? kind := get_col as_int32 "kind" r in
  let? kind := ok_or (device_kind_of kind) (Failed (InvalidDeviceKind kind)) in
  let? state := get_col as_int32 "state" r in
  let? state := ok_or (device_state_of state) (Failed (InvalidState state)) in
  let? location := get_location r in
  let? manufacturer := get_col (as_opt as_text) "manufacturer" r in
  let? provisioned_at := ok_or (from_second provisioned_at) Panicked in
  Ok (mkDevice (mkDeviceId ulid) kind state location manufacturer provisioned_at []).

(** [ersha-prime/src/registry/sqlite/device.rs:395-436] map_row_to_sensor *)
Definition map_row_to_sensor (row : SRow) : result Sensor (Fail SqliteDeviceError) :=
  let? ulid := get_ulid "id" row in
  let? kind := get_col as_int32 "kind" row in
  let? metric_type := get_col as_int32 "metric_type" row in
  let? metric_value := get_col as_real "metric_value" row in
  let? kind := ok_or (sensor_kind_of kind) (Failed (InvalidSensorKind kind)) in
  let? metric := metric_of metric_type metric_value in
  Ok (mkSensor (mkSensorId ulid) metric kind).

(** [ersha-prime/src/registry/sqlite/device.rs:358-362] list: the sensor goes to the first device of its id *)
Fixpoint attach (d_id : string) (sensor : Sensor) (ds : list Device) : list Device :=
  match ds with
  | [] => []
  | d :: ds =>
      if String.eqb (ulid_to_string (device_ulid (dev_id d))) d_id
      then mkDevice (dev_id d) (dev_kind d) (dev_state d) (dev_location d) (dev_manufacturer d)
             (dev_provisioned_at d) (dev_sensors d ++ [sensor]) :: ds
      else d :: attach d_id sensor ds
  end.

(** [ersha-prime/src/registry/sqlite/device.rs:354-363] list: for s_row in sensor_rows *)
Fixpoint attach_rows (sensor_rows : list SRow) (ds : list Device) : result (list Device) (Fail SqliteDeviceError) :=
  match sensor_rows with
  | [] => Ok ds
  | s_row :: sensor_rows =>
      let? d_id := get_col as_text "device_id" s_row in
      let? sensor := map_row_to_sensor s_row in
      attach_rows sensor_rows (attach d_id sensor ds)
  end.

(** [ersha-prime/src/registry/sqlite/device.rs:292-366] SqliteDeviceRegistry::list *)
Definition list (options : QueryOptions DeviceFilter DeviceSortBy.t) : Op (list Device) :=
  let (order_text, order_col) := order_by (sort_by_opt options) in
  rows <-- run of_sqlx (read (fun db => select_rows (conds (filter_opt options))
             (page order_text order_col (sort_order_opt options) (pagination_opt options)) (devices db))) ;;
  match rows with
  | [] => ret []
  | _ =>
      devices <-- lift (collect ((fun row =>
        let? id_str := get_col as_text "id" row in
        let? device := map_row_to_device row in Ok (id_str, device)) <$> rows)) ;;
      let device_ids := fst <$> devices in
      sensor_rows <-- run of_sqlx (read (fun db =>
        scan (where_ [In (plain "device_id") (VText <$> device_ids)] (sensors db)))) ;;
      lift (attach_rows sensor_rows (snd <$> devices))
  end.

(** [ersha-prime/src/registry/sqlite/device.rs:69-367] impl DeviceRegistry for SqliteDeviceRegistry *)
#[export] Instance registry : DeviceRegistry t (Fail SqliteDeviceError) := {|
  devr_register := register; devr_get := get; devr_update := update; devr_suspend := suspend;
  devr_add_sensor := add_sensor; devr_add_sensors := add_sensors;
  devr_batch_register := batch_register; devr_count := count; devr_list := list
|}.
End operations.
End SqliteDeviceRegistry.
Export (hints) SqliteDeviceRegistry.

(** ** The text of the queries *)

Module SqliteDeviceProofs.
Import SqliteDeviceRegistry.

Section text.
Context `{!UlidText} `{!Jiff}.

Lemma filter_devices_state init filter :
  filter_devices (qb_new init) filter = fst (where_state init (conds filter)).
Proof.
  unfold filter_devices, conds, device_conds. rewrite qb_new_state.
  rewrite (push_in_state init [] (plain "id")), (push_in_state _ _ (plain "state")),
    (push_in_state _ _ (plain "kind")), (push_in_state _ _ (plain "location")).
  rewrite (push_op_state _ _ "provisioned_at >= " second_value
      (fun t => AtLeast (plain "provisioned_at") (second_value t))),
    (push_op_state _ _ "provisioned_at <= " second_value
      (fun t => AtMost (plain "provisioned_at") (second_value t))) by done.
  rewrite (push_between_state _ _ (mkCol " sensor_count" "sensor_count")
    (fun r => VInt (as_i64 (range_start r))) (fun r => VInt (as_i64 (range_end r)))).
  rewrite (push_op_state _ _ "manufacturer LIKE " (fun p => VText ("%" +:+ p +:+ "%"))
    (fun p => Like (plain "manufacturer") ("%" +:+ p +:+ "%"))) by done.
  by rewrite <- !(assoc_L (++)).
Qed.

Lemma lite_device_list_sql_query options :
  list_sql options =
    query list_from (conds (filter_opt options))
      (page (fst (order_by (sort_by_opt options))) (snd (order_by (sort_by_opt options)))
         (sort_order_opt options) (pagination_opt options)).
Proof. unfold list_sql. rewrite filter_devices_state. apply push_page_query. Qed.

Lemma lite_device_conds_no_marks filter : Forall cond_no_marks (conds filter).
Proof. unfold conds, device_conds. solve_no_marks. Qed.
End text.

(** ** Rows *)

(** A device as its row has it, without its sensors, and the value of its [sensor_count]. *)
Definition device_row_count `{UlidText, Jiff} (x : Device * Z) : SRow :=
  take 6 (device_row (fst x)) ++ [("sensor_count", VInt (snd x))]%string.
Definition sensor_row_of `{UlidText} (x : DeviceId * Sensor) : SRow := sensor_row (fst x) (snd x).

Section rows.
Context `{UlidTextLaws} `{JiffLaws}.

(** What the registry keeps of a device, with the sensors it is found with. *)
Definition stored (ss : Datatypes.list Sensor) (d : Device) : Device :=
  mkDevice (dev_id d) (dev_kind d) (dev_state d) (dev_location d) (dev_manufacturer d)
    (whole_second (dev_provisioned_at d)) ss.

Definition device_key (x : Device * Z) : string := ulid_to_string (device_ulid (dev_id (fst x))).
Definition sensor_key (x : DeviceId * Sensor) : string := ulid_to_string (sensor_ulid (sensor_id (snd x))).
Definition bump_device (id : DeviceId) (x : Device * Z) : Device * Z :=
  if decide (dev_id (fst x) = id) then (fst x, snd x + 1) else x.

Lemma bump_row id x : u128 (device_ulid id) -> u128 (device_ulid (dev_id (fst x))) ->
  bump (VText (ulid_to_string (device_ulid id))) (device_row_count x) = device_row_count (bump_device id x).
Proof.
  intros Hid Hx. unfold bump, bump_device.
  change (col "id" (device_row_count x)) with (VText (device_key x)).
  destruct (decide (dev_id (fst x) = id)) as [<-|Hne].
  - rewrite bool_decide_true by done. destruct x as [[? ? ? ? [m|] ? ?] n]; reflexivity.
  - rewrite bool_decide_false; [done|]. intros [= Heq]. apply Hne.
    by apply device_ulid_inj, ulid_to_string_inj.
Qed.

Lemma get_manufacturer d n : get_col (E := SqliteDeviceError) (as_opt as_text) "manufacturer" (device_row_count (d, n))
  = Ok (dev_manufacturer d).
Proof. by destruct d as [? ? ? ? [m|] ? ?]. Qed.

Lemma device_columns d n :
  column "id" (device_row_count (d, n)) = Some (VText (ulid_to_string (device_ulid (dev_id d)))) /\
  column "kind" (device_row_count (d, n)) = Some (VInt (device_kind_code (dev_kind d))) /\
  column "state" (device_row_count (d, n)) = Some (VInt (device_state_code (dev_state d))) /\
  column "location" (device_row_count (d, n)) = Some (VInt (as_i64 (h3_cell (dev_location d)))) /\
  column "provisioned_at" (device_row_count (d, n)) = Some (VInt (as_second (dev_provisioned_at d))) /\
  column "sensor_count" (device_row_count (d, n)) = Some (VInt n).
Proof. by split_and!. Qed.

Lemma device_of_row_row id ss d n : device_wf d -> id = dev_id d ->
  device_of_row id ss (device_row_count (d, n)) = Ok (stored ss d).
Proof.
  intros (Hu & Hl & Ht & _) ->. destruct (device_columns d n) as (C1 & C2 & C3 & C4 & C5 & _).
  unfold device_of_row. rewrite (get_second_column "provisioned_at" _ _ Ht C5).
  rewrite (get_int32_column "state" _ (device_state_code (dev_state d)) ltac:(destruct (dev_state d); simpl; lia) C3), device_state_of_code.
  cbn [ok_or]. rewrite (get_int32_column "kind" _ (device_kind_code (dev_kind d)) ltac:(destruct (dev_kind d); simpl; lia) C2), device_kind_of_code.
  cbn [ok_or]. by rewrite get_manufacturer, (get_location_column _ _ Hl C4).
Qed.

Lemma map_row_to_device_row d n : device_wf d ->
  map_row_to_device (device_row_count (d, n)) = Ok (stored [] d).
Proof.
  intros (Hu & Hl & Ht & _). destruct (device_columns d n) as (C1 & C2 & C3 & C4 & C5 & _).
  unfold map_row_to_device. rewrite (get_ulid_column "id" _ _ Hu C1).
  unfold get_col at 1, try_get. rewrite C5. cbn [ok_or as_int64 map_err].
  rewrite (get_int32_column "kind" _ (device_kind_code (dev_kind d)) ltac:(destruct (dev_kind d); simpl; lia) C2), device_kind_of_code.
  cbn [ok_or]. rewrite (get_int32_column "state" _ (device_state_code (dev_state d)) ltac:(destruct (dev_state d); simpl; lia) C3), device_state_of_code.
  cbn [ok_or]. rewrite (get_location_column _ _ Hl C4), get_manufacturer.
  unfold stored, whole_second. destruct (from_as_second _ Ht) as [t Hsec]. rewrite Hsec. by destruct d as [[] ? ? ? ? ? ?].
Qed.

Lemma sensor_columns id s :
  column "id" (sensor_row id s) = Some (VText (ulid_to_string (sensor_ulid (sensor_id s)))) /\
  column "kind" (sensor_row id s) = Some (VInt (sensor_kind_code (sensor_kind s))) /\
  column "metric_type" (sensor_row id s) = Some (VInt (fst (SqlCodec.disect_metric (sensor_metric s)))) /\
  column "metric_value" (sensor_row id s) = Some (VReal (snd (SqlCodec.disect_metric (sensor_metric s)))) /\
  column "device_id" (sensor_row id s) = Some (VText (ulid_to_string (device_ulid id))).
Proof. unfold sensor_row, disect_metric. by destruct (SqlCodec.disect_metric (sensor_metric s)). Qed.

Lemma sensor_rows_decode id s : sensor_wf s ->
  sensor_of_row (sensor_row id s) = Ok s /\ map_row_to_sensor (sensor_row id s) = Ok s.
Proof.
  intros [Hu Hm]. destruct (sensor_columns id s) as (C1 & C2 & C3 & C4 & C5).
  pose proof (metric_of_disect (E := SqliteDeviceError) (sensor_metric s) Hm) as Hmetric.
  pose proof (disect_metric_type (sensor_metric s)) as Htype.
  unfold sensor_of_row, map_row_to_sensor. rewrite (get_ulid_column "id" _ _ Hu C1).
  rewrite (get_int32_column "kind" _ (sensor_kind_code (sensor_kind s)) ltac:(destruct (sensor_kind s); simpl; lia) C2), sensor_kind_of_code.
  rewrite (get_int32_column "metric_type" _ (fst (SqlCodec.disect_metric (sensor_metric s))) ltac:(lia) C3), (get_real_column "metric_value" _ _ C4), Hmetric.
  cbn [ok_or]. split; [|by destruct s as [[] ? ?]].
  destruct (sensor_metric s) eqn:Hs; cbn [SqlCodec.disect_metric fst]; by destruct s as [[] ? ?]; simpl in Hs; subst.
Qed.
End rows.

(** ** The tables as values *)

(** The devices with their counts, and the sensors with the device each belongs to. *)
Record Abs := mkAbs { a_devices : Datatypes.list (Device * Z); a_sensors : Datatypes.list (DeviceId * Sensor) }.

Definition device_ids (a : Abs) : Datatypes.list DeviceId := (fun x => dev_id (fst x)) <$> a_devices a.

(** The sensors of a device. *)
Definition sensors_of (id : DeviceId) (a : Abs) : Datatypes.list Sensor :=
  snd <$> filter (fun p => fst p = id) (a_sensors a).

Section state.
Context `{UlidTextLaws} `{JiffLaws} `{!RowOrder}.
Implicit Types (c : SqliteDeviceRegistry.t) (db : Tables) (a : Abs).

(** Ids are keys, every value has the width of its type, and every sensor belongs to a device. *)
Record represents db a : Prop := {
  rep_devices : devices db = device_row_count <$> a_devices a;
  rep_sensors : sensors db = sensor_row_of <$> a_sensors a;
  rep_device_keys : NoDup (device_key <$> a_devices a);
  rep_sensor_keys : NoDup (sensor_key <$> a_sensors a);
  rep_device_wf : Forall (fun x => device_wf (fst x)) (a_devices a);
  rep_sensor_wf : Forall (fun p => sensor_wf (snd p)) (a_sensors a);
  rep_foreign_key : Forall (fun p => fst p ∈ device_ids a) (a_sensors a)
}.

Definition put_device (d : Device) a : Abs := mkAbs (put device_key (d, 0) (a_devices a)) (a_sensors a).
Definition put_sensor (id : DeviceId) (s : Sensor) a : Abs :=
  mkAbs (bump_device id <$> a_devices a) (put sensor_key (id, s) (a_sensors a)).
Definition put_sensors (id : DeviceId) (ss : Datatypes.list Sensor) a : Abs :=
  fold_left (fun a s => put_sensor id s a) ss a.
Definition registered (d : Device) a : Abs := put_sensors (dev_id d) (dev_sensors d) (put_device d a).

Lemma device_id_valid db a id : represents db a -> id ∈ device_ids a -> u128 (device_ulid id).
Proof.
  intros R (x & -> & Hx)%list_elem_of_fmap. pose proof (rep_device_wf _ _ R) as Hwf.
  rewrite Forall_forall in Hwf. by destruct (Hwf x Hx).
Qed.

Lemma device_ids_put d a : device_wf d -> Forall (fun x => device_wf (fst x)) (a_devices a) ->
  ∀ id, id ∈ device_ids (put_device d a) <-> id = dev_id d \/ id ∈ device_ids a.
Proof.
  intros [Hd _] Hwf id. unfold device_ids, put_device. cbn [a_devices]. rewrite Forall_forall in Hwf.
  rewrite !list_elem_of_fmap. setoid_rewrite elem_of_put. split.
  - intros (x & -> & [->|[Hx _]]); eauto.
  - intros [->|(x & -> & Hx)]; [by exists (d, 0); auto|].
    destruct (decide (device_key x = device_key (d, 0))) as [Heq|Hne]; [|by exists x; auto].
    exists (d, 0). split; [|by left]. apply device_ulid_inj. eapply ulid_to_string_inj; [|done|exact Heq].
    by destruct (Hwf x Hx).
Qed.

Lemma represents_put_device d db a : device_wf d -> represents db a ->
  represents (insert_device (device_row d) db) (put_device d a).
Proof.
  intros Hd R. destruct R as [R1 R2 R3 R4 R5 R6 R7]. split; cbn [insert_device devices sensors put_device a_devices a_sensors].
  - rewrite R1. change (device_row d) with (device_row_count (d, 0)).
    by apply (replace_row_put device_row_count device_key).
  - done.
  - by apply put_NoDup.
  - done.
  - by apply Forall_put.
  - done.
  - eapply Forall_impl; [exact R7|]. intros p Hp. apply device_ids_put; auto.
Qed.

Lemma device_ids_bump id (l : Datatypes.list (Device * Z)) : (fun x : Device * Z => dev_id (fst x)) <$> (bump_device id <$> l) = (fun x => dev_id (fst x)) <$> l.
Proof.
  rewrite <- list_fmap_compose. apply list_fmap_ext. intros i x _. cbn. unfold bump_device.
  by destruct (decide _).
Qed.

Lemma device_keys_bump id (l : Datatypes.list (Device * Z)) : device_key <$> (bump_device id <$> l) = device_key <$> l.
Proof.
  rewrite <- list_fmap_compose. apply list_fmap_ext. intros i x _. cbn. unfold bump_device.
  by destruct (decide _).
Qed.

(** A sensor is inserted exactly when its device is there. *)
Lemma insert_sensor_spec id s db a : u128 (device_ulid id) -> sensor_wf s -> represents db a ->
  match insert_sensor (sensor_row id s) db with
  | Ok (_, db') => id ∈ device_ids a /\ represents db' (put_sensor id s a)
  | Err e => e = ForeignKeyViolation /\ id ∉ device_ids a
  end.
Proof.
  intros Hid Hs R. pose proof R as [R1 R2 R3 R4 R5 R6 R7]. unfold insert_sensor.
  destruct (sensor_columns id s) as (_ & _ & _ & _ & C5). rewrite (col_column _ _ _ C5).
  assert (VText (ulid_to_string (device_ulid id)) ∈ col "id" <$> devices db <-> id ∈ device_ids a) as Hin.
  { rewrite R1, <- list_fmap_compose. unfold device_ids. rewrite !list_elem_of_fmap. rewrite Forall_forall in R5. split.
    - intros (x & [= Heq] & Hx). exists x. split; [|done]. apply device_ulid_inj.
      eapply ulid_to_string_inj; [done| |exact Heq]. by destruct (R5 x Hx).
    - intros (x & -> & Hx). by exists x. }
  destruct (bool_decide _) eqn:Hb; [apply bool_decide_eq_true in Hb|apply bool_decide_eq_false in Hb];
    rewrite Hin in Hb; [|done]. split; [done|].
  split; cbn [devices sensors put_sensor a_devices a_sensors].
  - rewrite R1, <- !list_fmap_compose. apply list_fmap_ext. intros i x Hx. cbn. apply bump_row; [done|].
    rewrite Forall_forall in R5. apply list_elem_of_lookup_2 in Hx. by destruct (R5 x Hx).
  - rewrite R2. change (sensor_row id s) with (sensor_row_of (id, s)).
    apply (replace_row_put sensor_row_of sensor_key). intros [i x]. apply col_column, sensor_columns.
  - by rewrite device_keys_bump.
  - by apply put_NoDup.
  - apply Forall_fmap. eapply Forall_impl; [exact R5|]. intros x Hx. cbn. unfold bump_device.
    by destruct (decide _).
  - by apply Forall_put.
  - unfold device_ids. cbn [put_sensor a_devices]. rewrite device_ids_bump. apply Forall_put; done.
Qed.

(** ** The operations on represented tables *)

Lemma add_sensor_spec id s c c' r a : u128 (device_ulid id) -> sensor_wf s -> represents (tables c) a ->
  add_sensor id s c = (c', r) ->
  match r with
  | Ok _ => id ∈ device_ids a /\ represents (tables c') (put_sensor id s a)
  | Err e => tables c' = tables c /\
      (e = of_sqlx Unavailable \/ e = of_sqlx ForeignKeyViolation /\ id ∉ device_ids a)
  end.
Proof.
  intros Hid Hs R. unfold add_sensor. rewrite run_eq. pose proof (insert_sensor_spec id s _ _ Hid Hs R) as Hins.
  destruct (hd false (faults c)); [intros [= <- <-]; auto|].
  destruct (insert_sensor _ _) as [[[] db']|e]; intros [= <- <-]; [done|]. destruct Hins as [-> ?]. auto.
Qed.

Lemma device_ids_put_sensor id s a : device_ids (put_sensor id s a) = device_ids a.
Proof. apply device_ids_bump. Qed.

Lemma add_each_spec id ss c c' r a : u128 (device_ulid id) -> Forall sensor_wf ss -> represents (tables c) a ->
  for_each (add_sensor id) ss c = (c', r) ->
  match r with
  | Ok _ => (ss = [] \/ id ∈ device_ids a) /\ represents (tables c') (put_sensors id ss a)
  | Err e => e = of_sqlx Unavailable \/ e = of_sqlx ForeignKeyViolation /\ id ∉ device_ids a
  end.
Proof.
  intros Hid Hss. revert c a. induction Hss as [|s ss Hs _ IH]; intros c a R; cbn [for_each]; [intros [= <- <-]; auto|].
  unfold bind. destruct (add_sensor id s c) as [c1 [[]|e]] eqn:Ha.
  - apply (add_sensor_spec _ _ _ _ _ _ Hid Hs R) in Ha as [Hin R1]. intros Hf.
    apply (IH _ _ R1) in Hf. rewrite device_ids_put_sensor in Hf. destruct r as [[]|e]; [|naive_solver].
    destruct Hf as [_ Hf]. auto.
  - apply (add_sensor_spec _ _ _ _ _ _ Hid Hs R) in Ha as [_ He]. by intros [= <- <-].
Qed.

Lemma add_sensors_spec id ss c c' r a : u128 (device_ulid id) -> Forall sensor_wf ss -> represents (tables c) a ->
  add_sensors id ss c = (c', r) ->
  match r with
  | Ok _ => (ss = [] \/ id ∈ device_ids a) /\ represents (tables c') (put_sensors id ss a)
  | Err e => tables c' = tables c /\
      (e = of_sqlx Unavailable \/ e = of_sqlx ForeignKeyViolation /\ id ∉ device_ids a)
  end.
Proof.
  intros Hid Hss R Htx. apply transaction_cases in Htx. destruct r as [[]|e].
  - destruct Htx as (c1 & c2 & Ht & _ & Hf & ->). rewrite <- Ht in R. by apply (add_each_spec _ _ _ _ _ _ Hid Hss R) in Hf.
  - destruct Htx as [Ht [He|(c1 & c2 & Ht1 & _ & Hf)]]; split; auto.
    rewrite <- Ht1 in R. by apply (add_each_spec _ _ _ _ _ _ Hid Hss R) in Hf.
Qed.

Lemma register_spec d c c' r a : device_wf d -> represents (tables c) a -> register d c = (c', r) ->
  match r with
  | Ok _ => represents (tables c') (registered d a)
  | Err e => e = of_sqlx Unavailable /\
      (tables c' = tables c \/ tables c' = insert_device (device_row d) (tables c))
  end.
Proof.
  intros Hd R. unfold register, bind.
  destruct (run of_sqlx (write _) c) as [c1 [[]|e]] eqn:Hrun; apply run_total in Hrun as [_ Hrun].
  - destruct Hrun as [_ Ht]. intros Hadd. pose proof (represents_put_device d _ _ Hd R) as R1. rewrite <- Ht in R1.
    apply (add_sensors_spec _ _ _ _ _ (put_device d a)) in Hadd; [|by destruct Hd|by destruct Hd as (? & ? & ? & ?)|done].
    destruct r as [[]|e]; [by destruct Hadd|].
    destruct Hadd as [Ht' [->|[_ Hno]]]; [rewrite Ht', Ht; auto|].
    exfalso. apply Hno. eapply (device_ids_put d); [done|by apply (rep_device_wf _ _ R)|by left].
  - intros [= <- <-]. destruct Hrun as (-> & -> & _). auto.
Qed.

(** ** What [get] answers *)

Definition lookup (id : DeviceId) a : option Device :=
  fst <$> List.find (fun x => String.eqb (device_key x) (ulid_to_string (device_ulid id))) (a_devices a).

Lemma sensor_rows_of id l : u128 (device_ulid id) ->
  Forall (fun p => u128 (device_ulid (fst p))) l ->
  rows_where "device_id" (VText (ulid_to_string (device_ulid id))) (sensor_row_of <$> l) =
    sensor_row_of <$> filter (fun p => fst p = id) l.
Proof.
  intros Hid Hl. unfold rows_where. apply filter_fmap_on. eapply Forall_impl; [exact Hl|].
  intros [i s] Hi. cbn [fst] in *.
  assert (col "device_id" (sensor_row_of (i, s)) = VText (ulid_to_string (device_ulid i))) as ->
    by apply col_column, sensor_columns.
  split; [|by intros ->]. intros [[= Heq] _]. by apply device_ulid_inj, ulid_to_string_inj.
Qed.

Lemma collect_sensors ss l : (∀ p, p ∈ l -> sensor_wf (snd p)) -> ss ≡ₚ sensor_row_of <$> l ->
  ∃ k, collect (sensor_of_row <$> ss) = Ok k /\ k ≡ₚ snd <$> l.
Proof.
  intros Hl Hp. destruct (Permutation_map_inv sensor_row_of _ Hp) as (l' & -> & Hp').
  exists (snd <$> l'). split; [|by rewrite Hp'].
  change (map sensor_row_of l') with (sensor_row_of <$> l'). rewrite <- list_fmap_compose.
  apply collect_map_Ok. intros [i s] Hin. apply sensor_rows_decode. apply (Hl (i, s)). by rewrite Hp'.
Qed.

Lemma get_spec id c c' r a : u128 (device_ulid id) -> represents (tables c) a -> get id c = (c', r) ->
  tables c' = tables c /\
  match r with
  | Ok None => lookup id a = None
  | Ok (Some d') => ∃ d ss, lookup id a = Some d /\ dev_id d = id /\ device_wf d /\ d' = stored ss d /\ ss ≡ₚ sensors_of id a
  | Err e => e = of_sqlx Unavailable /\ faulty c
  end.
Proof.
  intros Hid R. pose proof R as [R1 R2 R3 R4 R5 R6 R7]. unfold get, bind.
  destruct (run _ _ c) as [c1 [rows|e]] eqn:Hrun; apply run_total in Hrun as [Hf Hrun]; [|by intros [= <- <-]].
  destruct Hrun as [-> Ht]. rewrite R1.
  rewrite (rows_where_id device_row_count device_key) by done. unfold lookup.
  destruct (List.find _ (a_devices a)) as [[d n]|] eqn:Hfind; [|by intros [= <- <-]].
  apply find_some in Hfind as [Hin%list_elem_of_In Heq%String.eqb_eq].
  rewrite Forall_forall in R5. pose proof (R5 _ Hin) as Hd. cbn in Hd.
  assert (dev_id d = id) as Hdid. { apply device_ulid_inj. eapply ulid_to_string_inj; [by destruct Hd|done|exact Heq]. }
  destruct (run _ _ c1) as [c2 [srows|e]] eqn:Hrun2; apply run_total in Hrun2 as [_ Hrun2].
  - destruct Hrun2 as [-> Ht2]. rewrite Ht, R2, sensor_rows_of; [|done|].
    + destruct (collect_sensors (scan (sensor_row_of <$> filter (fun p => fst p = id) (a_sensors a)))
        (filter (fun p => fst p = id) (a_sensors a))) as (ss & -> & Hss).
      * rewrite Forall_forall in R6. intros p [_ Hp]%list_elem_of_filter. auto.
      * apply scan_perm.
      * rewrite (device_of_row_row id ss d n) by done. unfold lift. intros [= <- <-].
        split; [congruence|]. exists d, ss. by split_and!.
    + rewrite Forall_forall in *. intros p Hp. by eapply device_id_valid, R7.
  - destruct Hrun2 as (Ht2 & -> & Hfaulty). unfold faulty in *. rewrite Hf in Hfaulty.
    intros [= <- <-]. split; [congruence|]. split; [done|]. by apply faulty_tl.
Qed.

(** ** What registering changes *)

Lemma lookup_put_sensor id id' s a : lookup id (put_sensor id' s a) = lookup id a.
Proof.
  unfold lookup. cbn [put_sensor a_devices]. induction (a_devices a) as [|x l IH]; [done|]. csimpl.
  unfold bump_device at 1, device_key at 1. destruct (decide (dev_id (fst x) = id')); cbn [fst];
    change (ulid_to_string (device_ulid (dev_id x.1))) with (device_key x); destruct (String.eqb _ _); try done;
    unfold bump_device; by destruct (decide _).
Qed.

Lemma lookup_put_sensors id id' ss a : lookup id (put_sensors id' ss a) = lookup id a.
Proof.
  unfold put_sensors. revert a. induction ss as [|s ss IH]; intros a; [done|]. cbn [fold_left].
  by rewrite IH, lookup_put_sensor.
Qed.

Lemma lookup_registered d a : lookup (dev_id d) (registered d a) = Some d.
Proof.
  unfold registered. rewrite lookup_put_sensors. unfold lookup, put_device. cbn [a_devices].
  rewrite find_put. cbn. by rewrite String.eqb_refl.
Qed.

Lemma sensors_of_put id s a : sensor_wf s -> Forall sensor_wf (sensors_of id a) ->
  sensors_of id (put_sensor id s a) = filter (fun x => sensor_id x <> sensor_id s) (sensors_of id a) ++ [s].
Proof.
  intros [Hs _] Hold. unfold sensors_of in *. cbn [put_sensor a_sensors]. unfold put.
  rewrite filter_app, fmap_app, filter_cons, decide_True, filter_nil by done. f_equal. symmetry.
  apply (Forall_fmap snd sensor_wf) in Hold.
  assert (Forall (fun p => sensor_id (snd p) <> sensor_id s <-> sensor_key p <> sensor_key (id, s))
    (filter (fun p => fst p = id) (a_sensors a))) as Hkey.
  { eapply Forall_impl; [exact Hold|]. intros [i x] [Hx _]. cbn in Hx |- *. f_equiv. unfold sensor_key. cbn [snd]. split; [by intros ->|].
    intros Heq. by apply sensor_ulid_inj, ulid_to_string_inj. }
  rewrite (filter_fmap_on snd _ _ _ Hkey). f_equal. rewrite !list_filter_filter. apply list_filter_iff. tauto.
Qed.

Lemma sensors_of_put_wf id s a : sensor_wf s -> Forall sensor_wf (sensors_of id a) ->
  Forall sensor_wf (sensors_of id (put_sensor id s a)).
Proof.
  intros Hs Hold. rewrite sensors_of_put by done. rewrite Forall_app, Forall_singleton. split; [|done].
  rewrite Forall_forall in *. intros x [_ Hx]%list_elem_of_filter. auto.
Qed.

Lemma sensors_of_put_sensors id ss a : NoDup (sensor_id <$> ss) -> Forall sensor_wf ss -> Forall sensor_wf (sensors_of id a) ->
  sensors_of id (put_sensors id ss a) = filter (fun x => sensor_id x ∉ sensor_id <$> ss) (sensors_of id a) ++ ss.
Proof.
  intros Hnd Hss. unfold put_sensors. revert a. induction ss as [|s ss IH]; intros a Hold; cbn [fold_left].
  - rewrite app_nil_r. symmetry. apply filter_true. set_solver.
  - apply Forall_cons in Hss as [Hs Hss]. rewrite fmap_cons in *. apply NoDup_cons in Hnd as [Hnew Hnd].
    rewrite IH by auto using sensors_of_put_wf. rewrite sensors_of_put by done.
    rewrite filter_app, filter_cons, filter_nil, decide_True by done. rewrite <- app_assoc. f_equal.
    rewrite list_filter_filter. apply list_filter_iff. intros x. rewrite not_elem_of_cons. tauto.
Qed.

(** The [sensor_count] column of a device. *)
Definition sensor_count (id : DeviceId) db : option Z :=
  match rows_where "id" (VText (ulid_to_string (device_ulid id))) (devices db) with
  | [] => None
  | r :: _ => as_int64 (col "sensor_count" r)
  end.
(** The rows of its sensors. *)
Definition sensor_rows (id : DeviceId) db : Datatypes.list SRow :=
  rows_where "device_id" (VText (ulid_to_string (device_ulid id))) (sensors db).

Definition count_of (id : DeviceId) a : option Z :=
  snd <$> List.find (fun x => String.eqb (device_key x) (ulid_to_string (device_ulid id))) (a_devices a).

Lemma sensor_count_of id db a : represents db a -> sensor_count id db = count_of id a.
Proof.
  intros [R1 _ R3 _ _ _ _]. unfold sensor_count, count_of. rewrite R1.
  rewrite (rows_where_id device_row_count device_key) by done.
  by destruct (List.find _ _) as [[d n]|].
Qed.

Lemma sensor_rows_length id db a : u128 (device_ulid id) -> represents db a ->
  length (sensor_rows id db) = length (sensors_of id a).
Proof.
  intros Hid R. pose proof R as [_ R2 _ _ _ _ R7]. unfold sensor_rows, sensors_of. rewrite R2, sensor_rows_of.
  - by rewrite !length_fmap.
  - done.
  - rewrite Forall_forall in *. intros p Hp. by eapply device_id_valid, R7.
Qed.

Lemma count_of_put_sensor id s a : u128 (device_ulid id) -> Forall (fun x => device_wf (fst x)) (a_devices a) ->
  count_of id (put_sensor id s a) = (fun n => n + 1) <$> count_of id a.
Proof.
  intros Hid Hwf. unfold count_of. cbn [put_sensor a_devices]. induction Hwf as [|x l Hx _ IH]; [done|]. csimpl.
  assert (device_key (bump_device id x) = device_key x) as -> by (unfold bump_device; by destruct (decide _)).
  destruct (String.eqb_spec (device_key x) (ulid_to_string (device_ulid id))) as [Heq|_]; [|done]. cbn.
  unfold bump_device. rewrite decide_True; [done|]. apply device_ulid_inj. eapply ulid_to_string_inj; [|done|exact Heq].
  by destruct Hx.
Qed.

Lemma count_of_registered d db a : device_wf d -> represents db a ->
  count_of (dev_id d) (registered d a) = Some (Z.of_nat (length (dev_sensors d))).
Proof.
  intros Hd R. pose proof (represents_put_device d _ _ Hd R) as R1.
  assert (count_of (dev_id d) (put_device d a) = Some 0) as Hz.
  { unfold count_of. cbn [put_device a_devices]. rewrite find_put. cbn. by rewrite String.eqb_refl. }
  pose proof (rep_device_wf _ _ R1) as Hwf. clear R1. unfold registered, put_sensors.
  replace (Z.of_nat (length (dev_sensors d))) with (0 + Z.of_nat (length (dev_sensors d))) by lia.
  revert Hz Hwf. generalize 0. generalize (put_device d a).
  induction (dev_sensors d) as [|s ss IH]; intros b n Hn Hwf; cbn [fold_left length].
  - rewrite Hn. f_equal. lia.
  - rewrite (IH _ (n + 1)); [f_equal; lia| |].
    + rewrite count_of_put_sensor, Hn by (done || by destruct Hd). done.
    + apply Forall_fmap. eapply Forall_impl; [exact Hwf|]. intros x Hx. cbn. unfold bump_device. by destruct (decide _).
Qed.

(** ** What [list] answers *)

Lemma device_key_with d ss : device_key (stored ss d, 0) = device_key (d, 0).
Proof. done. Qed.

(** The sensor goes to the device of its id, and to no other. *)
Lemma attach_spec id s ds : u128 (device_ulid id) -> Forall (fun d => u128 (device_ulid (dev_id d))) ds ->
  NoDup (dev_id <$> ds) ->
  attach (ulid_to_string (device_ulid id)) s ds =
    (fun d => if decide (dev_id d = id)
              then mkDevice (dev_id d) (dev_kind d) (dev_state d) (dev_location d) (dev_manufacturer d)
                     (dev_provisioned_at d) (dev_sensors d ++ [s])
              else d) <$> ds.
Proof.
  intros Hid Hds. induction Hds as [|d ds Hd Hds IH]; csimpl; [done|]. intros [Hnew Hnd]%NoDup_cons.
  destruct (String.eqb_spec (ulid_to_string (device_ulid (dev_id d))) (ulid_to_string (device_ulid id))) as [Heq|Hne].
  - assert (dev_id d = id) as <- by by apply device_ulid_inj, ulid_to_string_inj. rewrite decide_True by done.
    f_equal. symmetry. etrans; [|apply list_fmap_id]. apply list_fmap_ext. intros i x Hx. cbn.
    apply decide_False. intros Heq'. apply Hnew. rewrite <- Heq'. apply list_elem_of_fmap_2. by eapply list_elem_of_lookup_2.
  - rewrite decide_False by (intros <-; done). by rewrite IH.
Qed.

Definition with_sensors (l : Datatypes.list (DeviceId * Sensor)) (d : Device) : Device :=
  mkDevice (dev_id d) (dev_kind d) (dev_state d) (dev_location d) (dev_manufacturer d) (dev_provisioned_at d)
    (dev_sensors d ++ (snd <$> filter (fun p => fst p = dev_id d) l)).

Lemma attach_rows_spec l ds : Forall (fun p => u128 (device_ulid (fst p)) /\ sensor_wf (snd p)) l ->
  Forall (fun d => u128 (device_ulid (dev_id d))) ds -> NoDup (dev_id <$> ds) ->
  attach_rows (sensor_row_of <$> l) ds = Ok (with_sensors l <$> ds).
Proof.
  intros Hl. revert ds. induction Hl as [|[id s] l [Hid Hs] _ IH]; intros ds Hds Hnd.
  - cbn. f_equal. symmetry. etrans; [|apply list_fmap_id]. apply list_fmap_ext. intros i [] _.
    unfold with_sensors. cbn. by rewrite app_nil_r.
  - rewrite fmap_cons. cbn [attach_rows]. destruct (sensor_columns id s) as (_ & _ & _ & _ & C5).
    assert (get_col (E := SqliteDeviceError) as_text "device_id" (sensor_row_of (id, s)) = Ok (ulid_to_string (device_ulid id))) as ->.
    { by apply get_text_column. }
    change (sensor_row_of (id, s)) with (sensor_row id s). rewrite (proj2 (sensor_rows_decode id s Hs)).
    cbn [fst] in Hid. rewrite attach_spec by done. rewrite IH.
    + f_equal. rewrite <- list_fmap_compose. apply list_fmap_ext. intros i d _. cbn. unfold with_sensors.
      rewrite filter_cons. cbn [fst]. destruct (decide (dev_id d = id)) as [<-|Hne]; cbn.
      * rewrite decide_True by done. by rewrite <- app_assoc.
      * by rewrite decide_False by congruence.
    + apply Forall_fmap. eapply Forall_impl; [exact Hds|]. intros d Hd. cbn. by destruct (decide _).
    + rewrite <- list_fmap_compose. erewrite list_fmap_ext; [exact Hnd|]. intros i d _. cbn. by destruct (decide _).
Qed.

(** A page of the devices that satisfy the conditions holds devices of the table, each once. *)
Lemma page_of_devices cs l o s a : NoDup (device_key <$> a_devices a) ->
  s ≡ₚ List.filter (satisfies device_row_count cs) (a_devices a) ->
  (∀ x, x ∈ apply_limit l (apply_offset o s) -> x ∈ a_devices a) /\
  NoDup (device_key <$> apply_limit l (apply_offset o s)).
Proof.
  intros Hnodup Hperm. pose proof (page_sublist l o s) as Hsub. split.
  - intros x Hx. apply (elem_of_sublist _ _ _ Hx) in Hsub. rewrite Hperm in Hsub.
    by apply (elem_of_sublist _ _ _ Hsub), List_filter_sublist.
  - eapply sublist_NoDup; [|by apply fmap_sublist, Hsub]. rewrite Hperm.
    eapply sublist_NoDup; [exact Hnodup|]. apply fmap_sublist, List_filter_sublist.
Qed.

(** The devices of a page with their sensors. *)
Lemma list_spec options c c' r a : represents (tables c) a -> list options c = (c', r) ->
  tables c' = tables c /\
  match r with
  | Ok ds => ∃ s,
      let t := page (fst (order_by (sort_by_opt options))) (snd (order_by (sort_by_opt options)))
                 (sort_order_opt options) (pagination_opt options) in
      s ≡ₚ List.filter (satisfies device_row_count (conds (filter_opt options))) (a_devices a) /\
      StronglySorted (cmp_le (cmp_on device_row_count (row_cmp t))) s /\
      Forall2 (fun x d => ∃ ss, d = stored ss (fst x) /\ ss ≡ₚ sensors_of (dev_id (fst x)) a)
        (apply_limit (limit t) (apply_offset (offset t) s)) ds
  | Err e => e = of_sqlx Unavailable /\ faulty c
  end.
Proof.
  intros R. pose proof R as [R1 R2 R3 R4 R5 R6 R7]. unfold list.
  rewrite (surjective_pairing (order_by _)). set (t := page _ _ _ _). unfold bind.
  destruct (run _ _ c) as [c1 [rows|e]] eqn:Hrun; apply run_total in Hrun as [Hf Hrun]; [|by intros [= <- <-]].
  destruct Hrun as [-> Ht]. rewrite R1.
  destruct (select_rows_spec device_row_count (conds (filter_opt options)) t (a_devices a)) as (s & -> & Hperm & Hsort).
  destruct (page_of_devices _ (limit t) (offset t) s a R3 Hperm) as [Hpg Hnd]. set (pg := apply_limit _ _) in *.
  assert (apply_limit (limit t) (apply_offset (offset t) s) = pg) as Hpage by done. clearbody pg.
  assert (∀ ds, Forall2 (fun x d => ∃ ss, d = stored ss (fst x) /\ ss ≡ₚ sensors_of (dev_id (fst x)) a) pg ds ->
    ∃ s, s ≡ₚ List.filter (satisfies device_row_count (conds (filter_opt options))) (a_devices a) /\
      StronglySorted (cmp_le (cmp_on device_row_count (row_cmp t))) s /\
      Forall2 (fun x d => ∃ ss, d = stored ss (fst x) /\ ss ≡ₚ sensors_of (dev_id (fst x)) a)
        (apply_limit (limit t) (apply_offset (offset t) s)) ds) as Hdone.
  { intros ds Hds. exists s. rewrite Hpage. by split_and!. }
  destruct pg as [|x0 pg0]; [intros [= <- <-]; split; [done|]; apply Hdone; constructor|].
  rewrite fmap_cons. cbv iota. rewrite <- fmap_cons. set (pg := x0 :: pg0) in *. clearbody pg. clear x0 pg0.
  rewrite <- list_fmap_compose.
  rewrite (collect_map_Ok _ (fun x => (device_key x, stored [] (fst x)))).
  2: { intros [d n] Hx. unfold compose. destruct (device_columns d n) as (C1 & _). rewrite Forall_forall in R5.
       rewrite (get_text_column _ _ _ C1). by rewrite map_row_to_device_row by apply (R5 (d, n)), Hpg, Hx. }
  cbn [lift]. rewrite <- !list_fmap_compose.
  destruct (run _ _ c1) as [c2 [srows|e]] eqn:Hrun2; apply run_total in Hrun2 as [_ Hrun2].
  2: { destruct Hrun2 as (Ht2 & -> & Hfaulty). unfold faulty in *. rewrite Hf in Hfaulty.
       intros [= <- <-]. split; [congruence|]. split; [done|]. by apply faulty_tl. }
  destruct Hrun2 as [-> Ht2]. rewrite Ht, R2, where_fmap.
  match goal with |- context [scan (_ <$> ?L)] => set (kept := L) end.
  destruct (Permutation_map_inv sensor_row_of kept (scan_perm (sensor_row_of <$> kept))) as (l & Hs & Hl).
  match goal with |- context [attach_rows ?X _] => replace X with (sensor_row_of <$> l) by (symmetry; exact Hs) end.
  assert (∀ x, x ∈ pg -> snd <$> filter (fun p => fst p = dev_id (fst x)) l ≡ₚ sensors_of (dev_id (fst x)) a) as Hkept.
  { intros x Hx. unfold sensors_of. rewrite <- Hl. unfold kept. rewrite filter_List_filter; [done|].
    intros [i y] _ Hi. cbn in Hi. unfold satisfies. cbn [forallb]. rewrite andb_true_r.
    erewrite holds_in; [|by apply sensor_columns|done]. apply bool_decide_eq_true.
    apply list_elem_of_fmap. exists x. by rewrite Hi. }
  rewrite attach_rows_spec.
  - unfold lift. intros [= <- <-]. split; [congruence|]. apply Hdone. rewrite <- list_fmap_compose.
    apply Forall2_fmap_r, Forall_Forall2_diag.
    apply Forall_forall. intros x Hx. cbn. eexists. split; [reflexivity|]. cbn. by apply Hkept.
  - rewrite <- Hl. apply Forall_forall. intros p Hp.
    apply elem_of_sublist with (l2 := a_sensors a) in Hp; [|apply List_filter_sublist].
    rewrite Forall_forall in R6, R7. split; [|by apply R6]. by eapply device_id_valid, R7.
  - apply Forall_fmap, Forall_forall. intros x Hx. rewrite Forall_forall in R5. by destruct (R5 x (Hpg x Hx)).
  - rewrite <- list_fmap_compose. apply (NoDup_fmap_1 (fun i => ulid_to_string (device_ulid i))).
    by rewrite <- list_fmap_compose.
Qed.
End state.
End SqliteDeviceProofs.

(** ** Properties *)

Section properties.
Context `{UlidTextLaws} `{JiffLaws} `{!RowOrder}.
Import SqliteDeviceProofs.
Implicit Types c : SqliteDeviceRegistry.t.

Definition tables_wf (db : Tables) : Prop := ∃ a, represents db a.

Lemma sensors_of_wf id db a : represents db a -> Forall sensor_wf (sensors_of id a).
Proof.
  intros R. pose proof (rep_sensor_wf _ _ R) as Hwf. rewrite Forall_forall in Hwf. apply Forall_forall.
  intros s (p & -> & [_ Hp]%list_elem_of_filter)%list_elem_of_fmap. by apply Hwf.
Qed.

Lemma lookup_elem db a d n : represents db a -> (d, n) ∈ a_devices a -> lookup (dev_id d) a = Some d.
Proof.
  intros R Hin. unfold lookup. destruct (List.find _ (a_devices a)) as [[d' n']|] eqn:Hf.
  - apply find_some in Hf as [Hin'%list_elem_of_In Heq%String.eqb_eq]. cbn. f_equal.
    enough ((d', n') = (d, n)) by congruence.
    eapply (NoDup_fmap_inj_on device_key); [apply (rep_device_keys _ _ R)|done..].
  - apply list_elem_of_In in Hin. pose proof (find_none _ _ Hf _ Hin) as Hno. cbn in Hno.
    unfold device_key in Hno. cbn in Hno. by rewrite String.eqb_refl in Hno.
Qed.

Lemma sensors_of_NoDup id db a : represents db a -> NoDup (sensor_id <$> sensors_of id a).
Proof.
  intros R. pose proof (rep_sensor_keys _ _ R) as Hnd. unfold sensors_of. rewrite <- list_fmap_compose.
  apply (NoDup_fmap_1 (fun i => ulid_to_string (sensor_ulid i))). rewrite <- list_fmap_compose.
  eapply sublist_NoDup; [exact Hnd|]. apply (fmap_sublist sensor_key), sublist_filter.
Qed.

Lemma rep_owners_valid db a : represents db a -> Forall (fun p => u128 (device_ulid (fst p))) (a_sensors a).
Proof.
  intros R. pose proof (rep_foreign_key _ _ R) as Hfk. rewrite Forall_forall in *. intros p Hp.
  by eapply device_id_valid, Hfk.
Qed.

Lemma sensors_of_absent id db a : represents db a -> u128 (device_ulid id) -> lookup id a = None -> sensors_of id a = [].
Proof.
  intros R Hid Hno. unfold sensors_of.
  destruct (filter (fun p => fst p = id) (a_sensors a)) as [|p l] eqn:Hf; [done|]. exfalso.
  assert (p ∈ filter (fun p => fst p = id) (a_sensors a)) as [Hp Hin]%list_elem_of_filter by (rewrite Hf; left).
  pose proof (rep_foreign_key _ _ R) as Hfk. rewrite Forall_forall in Hfk.
  apply Hfk, list_elem_of_fmap in Hin as (x & Hx & Hin). unfold lookup in Hno.
  destruct (List.find _ _) eqn:Hfind; [done|]. apply list_elem_of_In in Hin.
  pose proof (find_none _ _ Hfind _ Hin) as Hne. cbn in Hne. unfold device_key in Hne.
  by rewrite <- Hp, Hx, String.eqb_refl in Hne.
Qed.

(** C20: registering a device in SQLite, and so updating it, adds to the sensors it had: afterwards
    [get] answers the device as given with its listed sensors and also every former sensor that
    the list leaves out; only a database that fails a statement keeps [get] from answering. *)
Theorem sqlite_register_keeps_sensors d c0 c1 c2 c2' c3 old res :
  tables_wf (tables c0) -> device_wf d -> NoDup (sensor_id <$> dev_sensors d) ->
  SqliteDeviceRegistry.get (dev_id d) c0 = (c1, Ok old) ->
  SqliteDeviceRegistry.register d c1 = (c2, Ok tt) ->
  tables c2' = tables c2 -> SqliteDeviceRegistry.get (dev_id d) c2' = (c3, res) ->
  match res with
  | Ok o => ∃ ss, o = Some (stored ss d) /\
      ss ≡ₚ filter (fun s => sensor_id s ∉ sensor_id <$> dev_sensors d) (from_option dev_sensors [] old)
              ++ dev_sensors d
  | Err e => e = of_sqlx Unavailable /\ faulty c2'
  end.
Proof.
  intros [a R] Hd Hnd Hget Hreg Ht Hget2. pose proof Hd as (Hid & _ & _ & Hss).
  apply (get_spec _ _ _ _ _ Hid R) in Hget as [Ht1 Hold]. rewrite <- Ht1 in R.
  pose proof Hreg as Hreg'. apply (register_spec _ _ _ _ _ Hd R) in Hreg'. rewrite <- Ht in Hreg'.
  apply (get_spec _ _ _ _ _ Hid Hreg') in Hget2 as [_ Hres]. destruct res as [[d'|]|e]; [| |done].
  - destruct Hres as (d0 & ss & Hd0 & _ & _ & -> & Hperm). rewrite lookup_registered in Hd0. injection Hd0 as <-.
    exists ss. split; [done|]. rewrite Hperm.
    pose proof (represents_put_device d _ _ Hd R) as R1.
    unfold registered. rewrite sensors_of_put_sensors by (done || by eapply sensors_of_wf). f_equiv.
    change (sensors_of (dev_id d) (put_device d a)) with (sensors_of (dev_id d) a).
    destruct old as [old|]; cbn [from_option].
    + destruct Hold as (d1 & ss1 & _ & _ & _ & -> & Hss1). cbn [stored dev_sensors]. by rewrite Hss1.
    + by rewrite (sensors_of_absent _ _ _ R Hid Hold).
  - by rewrite lookup_registered in Hres.
Qed.

(** [sensor_count] counts insertions since the device was registered, not sensors: it is the
    number of listed sensors after a successful registration, whatever sensors the device kept from
    before, and adding a sensor raises it by one even when the device has that sensor already, in
    which case the device has as many sensors as before. *)
Theorem sqlite_sensor_count_drifts c c' : tables_wf (tables c) ->
  (∀ d, device_wf d -> SqliteDeviceRegistry.register d c = (c', Ok tt) ->
     sensor_count (dev_id d) (tables c') = Some (Z.of_nat (length (dev_sensors d)))) /\
  (∀ id s, u128 (device_ulid id) -> sensor_wf s -> SqliteDeviceRegistry.add_sensor id s c = (c', Ok tt) ->
     sensor_count id (tables c') = (fun n => n + 1) <$> sensor_count id (tables c) /\
     (col "id" (SqliteDeviceRegistry.sensor_row id s) ∈ col "id" <$> sensor_rows id (tables c) ->
      length (sensor_rows id (tables c')) = length (sensor_rows id (tables c)))).
Proof.
  intros [a R]. split.
  - intros d Hd Hreg. pose proof (register_spec _ _ _ _ _ Hd R Hreg) as R'. cbn in R'.
    rewrite (sensor_count_of _ _ _ R'). by eapply count_of_registered.
  - intros id s Hid Hs Hadd. apply (add_sensor_spec _ _ _ _ _ _ Hid Hs R) in Hadd as [_ R'].
    rewrite (sensor_count_of _ _ _ R), (sensor_count_of _ _ _ R').
    rewrite count_of_put_sensor by (done || apply (rep_device_wf _ _ R)). split; [done|].
    rewrite (sensor_rows_length _ _ _ Hid R), (sensor_rows_length _ _ _ Hid R').
    rewrite sensors_of_put by (done || by eapply sensors_of_wf). intros Hin.
    rewrite length_app, Nat.add_1_r. apply filter_out_length; [by eapply sensors_of_NoDup|].
    apply list_elem_of_fmap in Hin as (r & Hr & Hin). pose proof (sensors_of_wf id _ _ R) as Hwf. unfold sensors_of in *.
    unfold sensor_rows in Hin. rewrite (rep_sensors _ _ R), sensor_rows_of in Hin; [|done|by eapply rep_owners_valid].
    apply list_elem_of_fmap in Hin as ([i x] & -> & Hin).
    assert (x ∈ snd <$> filter (fun p => fst p = id) (a_sensors a)) as Hx by (by apply (list_elem_of_fmap_2 snd) in Hin).
    apply list_elem_of_fmap. exists x. split; [|done]. rewrite Forall_forall in Hwf. destruct (Hwf x Hx) as [Hux _].
    destruct Hs as [Hus _]. destruct (sensor_columns id s) as (C & _), (sensor_columns i x) as (C' & _).
    change (sensor_row_of (i, x)) with (SqliteDeviceRegistry.sensor_row i x) in Hr.
    rewrite (col_column _ _ _ C), (col_column _ _ _ C') in Hr. injection Hr as Heq.
    by apply sensor_ulid_inj, ulid_to_string_inj.
Qed.

(** Every operation of the registry. *)
Inductive op :=
  | Register (d : Device)
  | AddSensor (id : DeviceId) (s : Sensor)
  | AddSensors (id : DeviceId) (ss : list Sensor)
  | Update (id : DeviceId) (d : Device)
  | Suspend (id : DeviceId)
  | BatchRegister (ds : list Device).

Definition exec (o : op) c : SqliteDeviceRegistry.t :=
  match o with
  | Register d => fst (SqliteDeviceRegistry.register d c)
  | AddSensor id s => fst (SqliteDeviceRegistry.add_sensor id s c)
  | AddSensors id ss => fst (SqliteDeviceRegistry.add_sensors id ss c)
  | Update id d => fst (SqliteDeviceRegistry.update id d c)
  | Suspend id => fst (SqliteDeviceRegistry.suspend id c)
  | BatchRegister ds => fst (SqliteDeviceRegistry.batch_register ds c)
  end.

(** The arguments have the widths of their types. *)
Definition op_wf (o : op) : Prop :=
  match o with
  | Register d => device_wf d
  | AddSensor id s => u128 (device_ulid id) /\ sensor_wf s
  | AddSensors id ss => u128 (device_ulid id) /\ Forall sensor_wf ss
  | Update id d => u128 (device_ulid id) /\ device_wf d
  | Suspend id => u128 (device_ulid id)
  | BatchRegister ds => Forall device_wf ds
  end.

Lemma register_tables_wf d c : device_wf d -> tables_wf (tables c) ->
  tables_wf (tables (fst (SqliteDeviceRegistry.register d c))).
Proof.
  intros Hd [a R]. destruct (SqliteDeviceRegistry.register d c) as [c' r] eqn:Hreg.
  apply (register_spec _ _ _ _ _ Hd R) in Hreg. destruct r as [[]|e]; [by eexists|].
  destruct Hreg as (_ & [Ht|Ht]); cbn; rewrite Ht; [by exists a|]. eexists. by apply represents_put_device.
Qed.

(** [get], then [register] of something made from what was read. *)
Lemma get_register_tables_wf id (f : Device -> Device) c :
  u128 (device_ulid id) -> (∀ d ss, device_wf d -> dev_id d = id -> Forall sensor_wf ss -> device_wf (f (stored ss d))) ->
  tables_wf (tables c) ->
  tables_wf (tables (fst ((d <-- SqliteDeviceRegistry.get id ;; d <-- lift (ok_or d (Failed NotFound)) ;;
    SqliteDeviceRegistry.register (f d)) c))).
Proof.
  intros Hid Hf [a R]. unfold bind. destruct (SqliteDeviceRegistry.get id c) as [c1 r] eqn:Hget.
  apply (get_spec _ _ _ _ _ Hid R) in Hget as [Ht Hr].
  assert (tables_wf (tables c1)) as Hc1 by (rewrite Ht; by exists a).
  destruct r as [[d|]|e]; cbn [lift ok_or]; [|done|done].
  destruct Hr as (d0 & ss & _ & Hd0 & Hwf & -> & Hss). apply register_tables_wf; [|done]. apply Hf; [done..|].
  rewrite Hss. by eapply sensors_of_wf.
Qed.

Lemma add_sensors_locked_spec ss c c' r : SqliteDeviceRegistry.add_sensors_locked ss c = (c', r) ->
  tables c' = tables c /\
  match r with
  | Ok _ => ss = []
  | Err e => e = of_sqlx Unavailable \/ e = of_sqlx Locked /\ ss <> []
  end.
Proof.
  unfold SqliteDeviceRegistry.add_sensors_locked, bind, round_trip, throw.
  destruct (hd false (faults c)); cbn; [intros [= <- <-]; auto|].
  destruct ss; cbn; destruct (hd false (tl (faults c))); intros [= <- <-]; cbn; auto.
Qed.

Definition insert_devices (ds : list Device) (db : Tables) : Tables :=
  fold_left (fun db d => SqliteDeviceRegistry.insert_device (SqliteDeviceRegistry.device_row d) db) ds db.

Lemma batch_body_spec ds c c' r :
  for_each (fun device =>
    _ <-- run of_sqlx (write (SqliteDeviceRegistry.insert_device (SqliteDeviceRegistry.device_row device))) ;;
    SqliteDeviceRegistry.add_sensors_locked (dev_sensors device)) ds c = (c', r) ->
  match r with
  | Ok _ => Forall (fun d => dev_sensors d = []) ds /\ tables c' = insert_devices ds (tables c)
  | Err e => e = of_sqlx Unavailable \/ e = of_sqlx Locked
  end.
Proof.
  revert c. induction ds as [|d ds IH]; intros c; cbn [for_each]; [intros [= <- <-]; auto|]. unfold bind.
  destruct (run _ _ c) as [c1 [[]|e]] eqn:Hrun; apply run_total in Hrun as [_ Hrun]; [|intros [= <- <-]; tauto].
  destruct (SqliteDeviceRegistry.add_sensors_locked _ c1) as [c2 [[]|e]] eqn:Hadd;
    apply add_sensors_locked_spec in Hadd as [Ht Hadd]; [|intros [= <- <-]; tauto].
  intros Hrest%IH. destruct r as [[]|e]; [|done]. destruct Hrest as [Hall Hrest]. destruct Hrun as [_ Hrun].
  split; [by constructor|]. by rewrite Hrest, Ht, Hrun.
Qed.

Lemma batch_body_calm ds db : Forall (fun d => dev_sensors d = []) ds ->
  for_each (fun device =>
    _ <-- run of_sqlx (write (SqliteDeviceRegistry.insert_device (SqliteDeviceRegistry.device_row device))) ;;
    SqliteDeviceRegistry.add_sensors_locked (dev_sensors device)) ds (calm db)
  = (calm (insert_devices ds db), Ok tt).
Proof.
  intros Hall. revert db. induction Hall as [|d ds Hd _ IH]; intros db; [done|]. cbn [for_each].
  unfold bind at 1 2. rewrite run_calm. cbn [write]. rewrite Hd. apply IH.
Qed.

Lemma insert_devices_tables_wf ds db : Forall device_wf ds -> tables_wf db -> tables_wf (insert_devices ds db).
Proof.
  intros Hds. revert db. induction Hds as [|d ds Hd _ IH]; intros db Hdb; [done|]. apply IH.
  destruct Hdb as [a R]. eexists. by apply represents_put_device.
Qed.



(** A filter whose lists are not empty, of the width of their types, with bounds on whole seconds and
    counts that an [i64] holds. *)
Definition device_filter_exact (f : DeviceFilter) : Prop :=
  exact_list (fun k => u128 (device_ulid k)) (df_ids f) /\
  exact_list (fun _ => True) (df_states f) /\ exact_list (fun _ => True) (df_kinds f) /\
  exact_list (fun l => u64 (h3_cell l)) (df_locations f) /\
  exact_bound (df_provisioned_after f) /\ exact_bound (df_provisioned_before f) /\
  (∀ r, df_sensor_count f = Some r -> 0 <= range_start r < 2 ^ 63 /\ 0 <= range_end r < 2 ^ 63).

Definition no_pattern (f : DeviceFilter) : DeviceFilter :=
  mkDeviceFilter (df_ids f) (df_states f) (df_kinds f) (df_locations f) (df_provisioned_after f)
    (df_provisioned_before f) (df_sensor_count f) None.

Lemma device_conds_pattern count f :
  device_conds count f = device_conds count (no_pattern f) ++
    opt_cond (fun p => Like (plain "manufacturer") ("%" +:+ p +:+ "%")) (df_manufacturer_pattern f).
Proof. unfold device_conds. cbn [no_pattern df_manufacturer_pattern opt_cond]. by rewrite app_nil_r, <- !(assoc_L (++)). Qed.

(** The conditions other than the one on the manufacturer, evaluated on a device's row. *)
Lemma device_conds_iff count f d n :
  col_name count = "sensor_count"%string -> device_filter_exact f -> device_wf d ->
  forallb (holds (device_row_count (d, n))) (device_conds count (no_pattern f)) = true <->
    in_opt (df_ids f) (dev_id d) /\ in_opt (df_states f) (dev_state d) /\ in_opt (df_kinds f) (dev_kind d) /\
    in_opt (df_locations f) (dev_location d) /\ in_range_opt (df_sensor_count f) n /\
    in_window (df_provisioned_after f) (df_provisioned_before f) (whole_second (dev_provisioned_at d)).
Proof.
  intros Hcount (F1 & F2 & F3 & F4 & F5 & F6 & F7) (W1 & W4 & W5 & _). set (r := device_row_count _).
  destruct (device_columns d n) as (C1 & C2 & C3 & C4 & C5 & C6).
  unfold device_conds. rewrite !forallb_app_iff. unfold no_pattern.
  cbn [df_ids df_states df_kinds df_locations df_provisioned_after df_provisioned_before df_sensor_count df_manufacturer_pattern].
  rewrite (in_cond_ulid_iff _ _ _ _ (dev_id d)) by eauto with ersha.
  rewrite (in_cond_int_iff _ _ (fun _ => True) _ _ (dev_state d)) by (try done; intros [] _; by destruct (dev_state d)).
  rewrite (in_cond_int_iff _ _ (fun _ => True) _ _ (dev_kind d)) by (try done; intros [] _; by destruct (dev_kind d)).
  rewrite (in_cond_cell_iff _ _ _ (dev_location d)) by done.
  rewrite (between_iff r count as_i64 _ n)
    by (rewrite ?Hcount; done || (intros b Hb; destruct (F7 b Hb); unfold as_i64; by rewrite !to_signed_small by lia)).
  rewrite <- (window_iff r (plain "provisioned_at")) by done. cbn [opt_cond forallb]. tauto.
Qed.

Lemma pattern_iff d n o :
  (∀ p, o = Some p -> Forall no_wildcard (list_ascii_of_string p)) ->
  forallb (holds (device_row_count (d, n)))
    (opt_cond (fun p => Like (plain "manufacturer") ("%" +:+ p +:+ "%")) o) = true <->
  ∀ pat, o = Some pat -> ∃ m, dev_manufacturer d = Some m /\
    str_contains (@to_lowercase lowercase_ascii m) (@to_lowercase lowercase_ascii pat) = true.
Proof.
  intros Ho. destruct o as [p|]; cbn [opt_cond forallb]; [|naive_solver]. rewrite andb_true_r. cbn [holds].
  change (col (col_name (plain "manufacturer")) (device_row_count (d, n))) with (text_opt (dev_manufacturer d)).
  destruct (dev_manufacturer d) as [m|]; cbn [text_opt].
  - rewrite like_contains by auto. unfold to_lowercase. naive_solver.
  - split; [done|]. intros Hp. by destruct (Hp p eq_refl) as (m & Hm & _).
Qed.


(** a page that [list] answers has no device twice and at most [limit] of them, and each is what
    [get] answers for its id, up to the order of the sensors: attaching the sensors of all devices
    after one query gives each device its own. *)
Theorem sqlite_device_list_agrees_with_get options c c' res :
  tables_wf (tables c) -> page_fits (pagination_opt options) ->
  SqliteDeviceRegistry.list options c = (c', res) ->
  tables c' = tables c /\
  match res with
  | Ok ds =>
      NoDup (dev_id <$> ds) /\
      (∀ offset limit, pagination_opt options = Pagination.Offset offset limit ->
         Z.of_nat (length ds) <= limit) /\
      ∀ d c1 c2 o, d ∈ ds -> tables c1 = tables c ->
        SqliteDeviceRegistry.get (dev_id d) c1 = (c2, Ok o) ->
        ∃ ss, o = Some (stored ss d) /\ ss ≡ₚ dev_sensors d
  | Err e => e = of_sqlx Unavailable /\ faulty c
  end.
Proof.
  intros [a R] Hp Hl. apply (list_spec _ _ _ _ _ R) in Hl as [Ht Hres]. split; [done|].
  destruct res as [ds|e]; [|done]. destruct Hres as (s & Hperm & _ & Hds).
  set (t := page _ _ _ _) in *. pose proof (page_sublist (limit t) (offset t) s) as Hsub.
  assert (dev_id <$> ds = (fun x => dev_id (fst x)) <$> apply_limit (limit t) (apply_offset (offset t) s)) as Hids.
  { clear -Hds. induction Hds as [|x d l k (ss & -> & _) _ IH]; csimpl; congruence. }
  split_and!.
  - rewrite Hids. eapply sublist_NoDup; [|apply fmap_sublist, Hsub]. rewrite Hperm.
    eapply sublist_NoDup; [|apply fmap_sublist, List_filter_sublist].
    apply (NoDup_fmap_1 (fun i => ulid_to_string (device_ulid i))). rewrite <- list_fmap_compose.
    apply (rep_device_keys _ _ R).
  - intros o n Ho. rewrite <- (Forall2_length _ _ _ Hds). unfold t. rewrite Ho in *. destruct Hp as [Hpo Hpn].
    cbn [page limit offset apply_limit]. unfold as_i64. rewrite !to_signed_small by lia.
    destruct (Z.ltb_spec n 0); [lia|]. rewrite length_take. lia.
  - intros d c1 c2 o Hd Hc1 Hget. apply list_elem_of_lookup in Hd as [i Hi].
    destruct (Forall2_lookup_r _ _ _ _ _ Hds Hi) as ([d0 n] & Hx & ss0 & -> & Hss0). cbn in *.
    apply list_elem_of_lookup_2 in Hx. apply (elem_of_sublist _ _ _ Hx) in Hsub. rewrite Hperm in Hsub.
    pose proof (elem_of_sublist _ _ _ Hsub (List_filter_sublist _ _)) as Hin.
    pose proof (rep_device_wf _ _ R) as Hwf. rewrite Forall_forall in Hwf. pose proof (Hwf _ Hin) as Hd0. cbn in Hd0.
    rewrite <- Hc1 in R. apply (get_spec _ _ _ _ _ ltac:(by destruct Hd0) R) in Hget as [_ Ho].
    rewrite (lookup_elem _ _ _ _ R Hin) in Ho. destruct o as [d'|]; [|done].
    destruct Ho as (d1 & ss & [= <-] & _ & _ & -> & Hss). exists ss. split; [|by rewrite Hss, Hss0].
    unfold stored. cbn. by rewrite whole_second_idemp by by destruct Hd0 as (? & ? & ? & ?).
Qed.
End properties.

(** ** Witnesses *)

Module SqliteDeviceWitness.
Import SqliteDeviceProofs.
#[local] Existing Instance ulid_crockford.
#[local] Existing Instance ulid_crockford_laws.
#[local] Existing Instance jiff_ns.
#[local] Existing Instance jiff_ns_laws.
#[local] Existing Instance row_order_std.

Definition empty : SqliteDeviceRegistry.t := calm (mkTables [] []).

Lemma empty_wf : tables_wf (tables empty).
Proof. exists (mkAbs [] []). split; constructor. Qed.

Lemma sample_sensor_wf n : 0 <= n < 200 -> sensor_wf (sample_sensor n).
Proof.
  intros Hn. unfold sensor_wf, sample_sensor, metric_wf. cbn -[Z.pow is_unsigned].
  unfold is_unsigned. split_and!; lia.
Qed.

Lemma sample_device_wf n : 0 <= n < 100 -> device_wf (sample_device n).
Proof.
  intros Hn. unfold device_wf, sample_device. cbn -[Z.mul Z.pow is_unsigned valid_timestamp].
  unfold is_unsigned, valid_timestamp, ts_min_second, ts_max_second. cbn -[Z.mul Z.pow].
  split_and!; try lia. constructor; [|constructor]. apply sample_sensor_wf. lia.
Qed.

(** Device 1 with its sensor 101. *)
Definition one : SqliteDeviceRegistry.t := fst (SqliteDeviceRegistry.register (sample_device 1) empty).

Lemma one_wf : tables_wf (tables one).
Proof. apply register_tables_wf; [apply sample_device_wf; lia|apply empty_wf]. Qed.

(** Device 1 listed with sensor 102 only. *)
Definition device1' : Device :=
  mkDevice (mkDeviceId 1) DeviceKind.Sensor DeviceState.Active (mkH3Cell 7) None (mkTimestamp 0) [sample_sensor 102].

Lemma device1'_wf : device_wf device1'.
Proof.
  unfold device_wf, device1'. cbn -[Z.mul Z.pow is_unsigned valid_timestamp].
  unfold is_unsigned, valid_timestamp, ts_min_second, ts_max_second. cbn -[Z.mul Z.pow].
  split_and!; try lia. constructor; [|constructor]. apply sample_sensor_wf. lia.
Qed.

Definition two : SqliteDeviceRegistry.t := fst (SqliteDeviceRegistry.register device1' one).

Lemma sqlite_register_keeps_sensors_witness :
  ∃ ss, snd (SqliteDeviceRegistry.get (mkDeviceId 1) two) = Ok (Some (stored ss device1')) /\
    ss ≡ₚ [sample_sensor 101; sample_sensor 102].
Proof.
  assert (SqliteDeviceRegistry.get (mkDeviceId 1) one = (one, Ok (Some (sample_device 1)))) as Hget
    by (vm_compute; reflexivity).
  assert (SqliteDeviceRegistry.register device1' one = (two, Ok tt)) as Hreg by (vm_compute; reflexivity).
  assert (NoDup (sensor_id <$> dev_sensors device1')) as Hnd by (apply (bool_decide_unpack _); vm_compute; exact I).
  pose proof (sqlite_register_keeps_sensors device1' one one two two (fst (SqliteDeviceRegistry.get (mkDeviceId 1) two))
    (Some (sample_device 1)) (snd (SqliteDeviceRegistry.get (mkDeviceId 1) two))
    one_wf device1'_wf Hnd Hget Hreg eq_refl (surjective_pairing _)) as Hres.
  destruct (snd (SqliteDeviceRegistry.get (mkDeviceId 1) two)) as [o|e].
  - destruct Hres as (ss & -> & Hss). exists ss. split; [reflexivity|]. exact Hss.
  - destruct Hres as [_ Hf]. exfalso. apply elem_of_nil in Hf. exact Hf.
Defined.

(** Sensor 101 is added to device 1 again. *)
Definition again : SqliteDeviceRegistry.t :=
  fst (SqliteDeviceRegistry.add_sensor (mkDeviceId 1) (sample_sensor 101) one).

Lemma sqlite_sensor_count_drifts_witness :
  sensor_count (mkDeviceId 1) (tables one) = Some 1 /\ sensor_count (mkDeviceId 1) (tables again) = Some 2 /\
  length (sensor_rows (mkDeviceId 1) (tables again)) = 1%nat.
Proof.
  assert (u128 (device_ulid (mkDeviceId 1))) as Hid by (split; [discriminate|reflexivity]).
  assert (sensor_wf (sample_sensor 101)) as Hs by (apply sample_sensor_wf; lia).
  assert (SqliteDeviceRegistry.add_sensor (mkDeviceId 1) (sample_sensor 101) one = (again, Ok tt)) as Hadd
    by (vm_compute; reflexivity).
  assert (sensor_count (mkDeviceId 1) (tables one) = Some 1) as Hone by (vm_compute; reflexivity).
  destruct (sqlite_sensor_count_drifts one again one_wf) as [_ Hdrift].
  destruct (Hdrift _ _ Hid Hs Hadd) as [Hcount Hlen]. split; [exact Hone|]. split.
  - rewrite Hcount, Hone. reflexivity.
  - rewrite Hlen; [vm_compute; reflexivity|]. apply (bool_decide_unpack _). vm_compute. exact I.
Defined.




Definition all_devices : QueryOptions DeviceFilter DeviceSortBy.t :=
  mkQueryOptions DeviceFilter_default DeviceSortBy.State SortOrder.Asc (Pagination.Offset 0 10).

Lemma sqlite_device_list_agrees_with_get_witness :
  SqliteDeviceRegistry.list all_devices one = (one, Ok [sample_device 1]) /\
  Z.of_nat (length [sample_device 1]) <= 10.
Proof.
  assert (SqliteDeviceRegistry.list all_devices one = (one, Ok [sample_device 1])) as Hl by (vm_compute; reflexivity).
  split; [exact Hl|]. assert (page_fits (pagination_opt all_devices)) as Hp by (simpl; lia).
  destruct (sqlite_device_list_agrees_with_get _ _ _ _ one_wf Hp Hl) as (_ & _ & Hlen & _).
  exact (Hlen 0 10 eq_refl).
Defined.
End SqliteDeviceWitness.
