(* ===== verification/SqliteStatus.v ===== *)
(** * The SQLite device-status registry: ersha-prime/src/registry/sqlite/device_status.rs

    A status is a row of [device_statuses] and the rows of two child tables, its errors and the
    states of its sensors, which [store] replaces together in one transaction.  The queries over the
    statuses join the errors when the filter looks at them; [joined] is that join, and [list] and
    [count] keep one row for each status. *)
From Stdlib Require Import ZArith Lia Strings.String.
From stdpp Require Import base gmap strings list sorting.
From S2P Require Import Prelude Platform Core Samples Filter Registry InMemory Sql SqlCodec.
Open Scope Z_scope.

(** [ersha-prime/src/registry/sqlite/device_status.rs:19-33] SqliteDeviceStatusError *)
Inductive SqliteDeviceStatusError :=
  | Sqlx (e : DbError)
  | Migration
  | InvalidUlid (s : string)
  | InvalidTimestamp (s : Z)
  | InvalidErrorCode (z : Z)
  | InvalidSensorState (z : Z).

#[export] Instance status_error : SqlError SqliteDeviceStatusError :=
  {| e_sqlx := Sqlx; e_ulid := InvalidUlid; e_timestamp := InvalidTimestamp |}.

(** The three tables, and the last id that each AUTOINCREMENT column gave. *)
Record Tables := mkTables {
  statuses : list SRow;
  errors : list SRow;
  sensor_statuses : list SRow;
  last_error_id : Z;
  last_sensor_status_id : Z
}.

Module SqliteDeviceStatusRegistry.
(** [ersha-prime/src/registry/sqlite/device_status.rs:35-38] SqliteDeviceStatusRegistry: the tables and the connection *)
Definition t : Type := Conn Tables.

Section operations.
Context `{!UlidText} `{!Jiff} `{!RowOrder}.
Abbreviation Op := (M Tables (Fail SqliteDeviceStatusError)).

Definition id_value (id : StatusId) : Value := VText (ulid_to_string (status_ulid id)).

(** [ersha-prime/src/registry/sqlite/device_status.rs:67-79] the values store binds *)
Definition status_row (status : DeviceStatus) : SRow :=
  [("id", id_value (st_id status));
   ("device_id", VText (ulid_to_string (device_ulid (st_device_id status))));
   ("dispatcher_id", VText (ulid_to_string (dispatcher_ulid (st_dispatcher_id status))));
   ("battery_percent", VInt (percent (st_battery_percent status)));
   ("uptime_seconds", VInt (as_i64 (st_uptime_seconds status)));
   ("signal_rssi", VInt (st_signal_rssi status));
   ("timestamp", VInt (as_second (st_timestamp status)))]%string.

(** [ersha-prime/src/registry/sqlite/device_status.rs:88-103] store: the values of one error *)
Definition error_row (id : StatusId) (error : DeviceError) : SRow :=
  [("status_id", id_value id);
   ("error_code", VInt (error_code_code (err_code error)));
   ("message", text_opt (err_message error))]%string.

(** [ersha-prime/src/registry/sqlite/device_status.rs:114-129] store: the values of one sensor's state *)
Definition sensor_status_row (id : StatusId) (s : SensorStatus) : SRow :=
  [("status_id", id_value id);
   ("sensor_id", VText (ulid_to_string (sensor_ulid (ss_sensor_id s))));
   ("state", VInt (sensor_state_code (ss_state s)));
   ("last_reading", int_opt (as_second <$> ss_last_reading s))]%string.

(** [ersha-prime/src/registry/sqlite/device_status.rs:68-69] store: INSERT OR REPLACE INTO device_statuses *)
Definition insert_status (r : SRow) (db : Tables) : Tables :=
  mkTables (replace_row r (statuses db)) (errors db) (sensor_statuses db)
    (last_error_id db) (last_sensor_status_id db).

(** DELETE FROM .. WHERE status_id = ? *)
Definition delete_where (id : Value) (rows : list SRow) : list SRow :=
  filter (fun r => ~ (col "status_id" r = id /\ id <> VNull)) rows.
(** [ersha-prime/src/registry/sqlite/device_status.rs:82-85] store: DELETE FROM device_status_errors *)
Definition delete_errors (id : StatusId) (db : Tables) : Tables :=
  mkTables (statuses db) (delete_where (id_value id) (errors db)) (sensor_statuses db)
    (last_error_id db) (last_sensor_status_id db).
(** [ersha-prime/src/registry/sqlite/device_status.rs:108-111] store: DELETE FROM device_status_sensor_statuses *)
Definition delete_sensor_statuses (id : StatusId) (db : Tables) : Tables :=
  mkTables (statuses db) (errors db) (delete_where (id_value id) (sensor_statuses db))
    (last_error_id db) (last_sensor_status_id db).

(** [ersha-prime/src/registry/sqlite/device_status.rs:97-98] store: INSERT INTO device_status_errors, with its
    foreign key and the id the row is given *)
Definition insert_error (r : SRow) (db : Tables) : result (unit * Tables) DbError :=
  if bool_decide (col "status_id" r ∈ col "id" <$> statuses db) then
    let id := last_error_id db + 1 in
    Ok (tt, mkTables (statuses db) (errors db ++ [("id"%string, VInt id) :: r]) (sensor_statuses db)
              id (last_sensor_status_id db))
  else Err ForeignKeyViolation.
(** [ersha-prime/src/registry/sqlite/device_status.rs:122-123] store: INSERT INTO
    device_status_sensor_statuses, with its foreign key and the id the row is given *)
Definition insert_sensor_status (r : SRow) (db : Tables) : result (unit * Tables) DbError :=
  if bool_decide (col "status_id" r ∈ col "id" <$> statuses db) then
    let id := last_sensor_status_id db + 1 in
    Ok (tt, mkTables (statuses db) (errors db) (sensor_statuses db ++ [("id"%string, VInt id) :: r])
              (last_error_id db) id)
  else Err ForeignKeyViolation.

(** [ersha-prime/src/registry/sqlite/device_status.rs:64-136] SqliteDeviceStatusRegistry::store *)
Definition store (status : DeviceStatus) : Op unit :=
  transaction of_sqlx (
    _ <-- run of_sqlx (write (insert_status (status_row status))) ;;
    _ <-- run of_sqlx (write (delete_errors (st_id status))) ;;
    _ <-- for_each (fun error => run of_sqlx (insert_error (error_row (st_id status) error))) (st_errors status) ;;
    _ <-- run of_sqlx (write (delete_sensor_statuses (st_id status))) ;;
    for_each (fun s => run of_sqlx (insert_sensor_status (sensor_status_row (st_id status) s)))
      (st_sensor_statuses status)).

(** [ersha-prime/src/registry/sqlite/device_status.rs:291-305] fetch_errors: one row *)
Definition error_of_row (row : SRow) : result DeviceError (Fail SqliteDeviceStatusError) :=
  let? code := get_col as_int32 "error_code" row in
  let? code := ok_or (error_code_of code) (Failed (InvalidErrorCode code)) in
  let? message := get_col (as_opt as_text) "message" row in
  Ok (mkDeviceError code message).

(** [ersha-prime/src/registry/sqlite/device_status.rs:279-309] fetch_errors *)
Definition fetch_errors (status_id : StatusId) : Op (list DeviceError) :=
  rows <-- run of_sqlx (read (fun db => scan (rows_where "status_id" (id_value status_id) (errors db)))) ;;
  lift (collect (error_of_row <$> rows)).

(** [ersha-prime/src/registry/sqlite/device_status.rs:323-347] fetch_sensor_statuses: one row *)
Definition sensor_status_of_row (row : SRow) : result SensorStatus (Fail SqliteDeviceStatusError) :=
  let? sensor_id := get_ulid "sensor_id" row in
  let? state := get_col as_int32 "state" row in
  let? state := ok_or (sensor_state_of state) (Failed (InvalidSensorState state)) in
  let? last_reading := get_col (as_opt as_int64) "last_reading" row in
  let? last_reading := match last_reading with Some ts => map_ok Some (parse_second ts) | None => Ok None end in
  Ok (mkSensorStatus (mkSensorId sensor_id) state last_reading).

(** [ersha-prime/src/registry/sqlite/device_status.rs:311-351] fetch_sensor_statuses *)
Definition fetch_sensor_statuses (status_id : StatusId) : Op (list SensorStatus) :=
  rows <-- run of_sqlx (read (fun db => scan (rows_where "status_id" (id_value status_id) (sensor_statuses db)))) ;;
  lift (collect (sensor_status_of_row <$> rows)).

(** [ersha-prime/src/registry/sqlite/device_status.rs:243-277] map_row_to_status *)
Definition map_row_to_status (r : SRow) : Op DeviceStatus :=
  id <-- lift (get_ulid "id" r) ;;
  device_id <-- lift (get_ulid "device_id" r) ;;
  dispatcher_id <-- lift (get_ulid "dispatcher_id" r) ;;
  timestamp <-- lift (get_second "timestamp" r) ;;
  errors <-- fetch_errors (mkStatusId id) ;;
  sensor_statuses <-- fetch_sensor_statuses (mkStatusId id) ;;
  battery <-- lift (get_col as_int32 "battery_percent" r) ;;
  uptime <-- lift (get_col as_int64 "uptime_seconds" r) ;;
  rssi <-- lift (get_col as_int32 "signal_rssi" r) ;;
  ret (mkDeviceStatus (mkStatusId id) (mkDeviceId device_id) (mkDispatcherId dispatcher_id)
         (mkPercentage (as_u8 battery)) (as_u64 uptime) (as_i16 rssi) errors timestamp sensor_statuses).

(** What [fetch_optional] and the code after it make of the rows of a query. *)
Definition first_status (rows : list SRow) : Op (option DeviceStatus) :=
  match rows with
  | [] => ret None
  | r :: _ => status <-- map_row_to_status r ;; ret (Some status)
  end.

(** [ersha-prime/src/registry/sqlite/device_status.rs:138-155] SqliteDeviceStatusRegistry::get *)
Definition get (id : StatusId) : Op (option DeviceStatus) :=
  rows <-- run of_sqlx (read (fun db => rows_where "id" (id_value id) (statuses db))) ;;
  first_status rows.

(** [ersha-prime/src/registry/sqlite/device_status.rs:162-163] get_latest: ORDER BY timestamp DESC LIMIT 1 *)
Definition latest : Tail := mkTail " ORDER BY timestamp" "timestamp" SortOrder.Desc (Some 1) None.

(** [ersha-prime/src/registry/sqlite/device_status.rs:157-176] SqliteDeviceStatusRegistry::get_latest *)
Definition get_latest (device_id : DeviceId) : Op (option DeviceStatus) :=
  let key := VText (ulid_to_string (device_ulid device_id)) in
  rows <-- run of_sqlx (read (fun db => order_page latest (rows_where "device_id" key (statuses db)))) ;;
  first_status rows.

(** [ersha-prime/src/registry/sqlite/device_status.rs:178-183] SqliteDeviceStatusRegistry::batch_store *)
Definition batch_store (ss : list DeviceStatus) : Op unit := for_each store ss.

(** [ersha-prime/src/registry/sqlite/device_status.rs:361-369] filter_statuses: the join *)
Definition push_join (filter : DeviceStatusFilter) (qb : QueryBuilder) : QueryBuilder :=
  if needs_error_join filter
  then push " LEFT JOIN device_status_errors ON device_statuses.id = device_status_errors.status_id " qb
  else qb.

(** [ersha-prime/src/registry/sqlite/device_status.rs:354-467] filter_statuses *)
Definition filter_statuses (query_builder : QueryBuilder) (filter : DeviceStatusFilter) : QueryBuilder :=
  let x := (push_join filter query_builder, false) in
  let x := push_in "device_statuses.id" (text_values status_ulid <$> sf_ids filter) x in
  let x := push_in "device_id" (text_values device_ulid <$> sf_device_ids filter) x in
  let x := push_in "dispatcher_id" (text_values dispatcher_ulid <$> sf_dispatcher_ids filter) x in
  let x := push_op "timestamp >= " (second_value <$> sf_timestamp_after filter) x in
  let x := push_op "timestamp <= " (second_value <$> sf_timestamp_before filter) x in
  let x := push_between "battery_percent"
    ((fun r => (VInt (range_start r), VInt (range_end r))) <$> sf_battery_range filter) x in
  let x := push_cond ((fun has_errors : bool =>
    if has_errors then "device_status_errors.id IS NOT NULL" else "device_status_errors.id IS NULL")%string
      <$> sf_has_errors filter) x in
  let x := push_in "device_status_errors.error_code" (int_values error_code_code <$> sf_error_codes filter) x in
  fst x.

(** The conditions of the queries: a row of the join has no error when its error's id is NULL. *)
Definition conds : DeviceStatusFilter -> list Cond :=
  status_conds (mkCol "device_status_errors.id" "error_id").

(** What the join adds to the row of a status. *)
Definition no_error : SRow := [("error_id", VNull); ("error_code", VNull)]%string.
Definition error_columns (e : SRow) : SRow := [("error_id", col "id" e); ("error_code", col "error_code" e)]%string.
Definition join_errors (db : Tables) (s : SRow) : list (SRow * SRow) :=
  match rows_where "status_id" (col "id" s) (errors db) with
  | [] => [(s, no_error)]
  | es => (fun e => (s, error_columns e)) <$> es
  end.
Definition joined (filter : DeviceStatusFilter) (db : Tables) : list (SRow * SRow) :=
  if needs_error_join filter then mjoin (join_errors db <$> statuses db)
  else (fun s => (s, [])) <$> statuses db.

(** The statuses of the rows that satisfy the conditions; DISTINCT keeps one of equal rows. *)
Definition selected (filter : DeviceStatusFilter) (cs : list Cond) (db : Tables) : list SRow :=
  remove_dups (fst <$> List.filter (fun p => forallb (holds (fst p ++ snd p)) cs) (joined filter db)).

(** [ersha-prime/src/registry/sqlite/device_status.rs:186-191] the query of count *)
Definition count_sql (filter : option DeviceStatusFilter) : QueryBuilder :=
  let query_builder := qb_new "SELECT COUNT(DISTINCT device_statuses.id) FROM device_statuses " in
  match filter with Some filter => filter_statuses query_builder filter | None => query_builder end.

(** [ersha-prime/src/registry/sqlite/device_status.rs:185-197] SqliteDeviceStatusRegistry::count *)
Definition count (filter : option DeviceStatusFilter) : Op Z :=
  n <-- run of_sqlx (read (fun db => Z.of_nat (length (remove_dups (col "id" <$>
          selected (default DeviceStatusFilter_default filter) (from_option conds [] filter) db))))) ;;
  ret (as_u64 n).

(** [ersha-prime/src/registry/sqlite/device_status.rs:209-213] list: ORDER BY *)
Definition order_by (sort_by : DeviceStatusSortBy.t) : string * string :=
  match sort_by with
  | DeviceStatusSortBy.Timestamp => (" ORDER BY timestamp", "timestamp")
  | DeviceStatusSortBy.BatteryPercent => (" ORDER BY battery_percent", "battery_percent")
  | DeviceStatusSortBy.DeviceId => (" ORDER BY device_id", "device_id")
  end%string.

Definition list_from : string :=
  "SELECT DISTINCT device_statuses.id, device_id, dispatcher_id, battery_percent, uptime_seconds, signal_rssi, timestamp FROM device_statuses ".

(** [ersha-prime/src/registry/sqlite/device_status.rs:203-228] the query of list *)
Definition list_sql (options : QueryOptions DeviceStatusFilter DeviceStatusSortBy.t) : QueryBuilder :=
  let qb := filter_statuses (qb_new list_from) (filter_opt options) in
  let qb := push (fst (order_by (sort_by_opt options))) qb in
  push_page (pagination_opt options) (push (direction_text (sort_order_opt options)) qb).

(** [ersha-prime/src/registry/sqlite/device_status.rs:199-239] SqliteDeviceStatusRegistry::list *)
Definition list (options : QueryOptions DeviceStatusFilter DeviceStatusSortBy.t) : Op (list DeviceStatus) :=
  let (order_text, order_col) := order_by (sort_by_opt options) in
  rows <-- run of_sqlx (read (fun db =>
    order_page (page order_text order_col (sort_order_opt options) (pagination_opt options))
      (selected (filter_opt options) (conds (filter_opt options)) db))) ;;
  map_m map_row_to_status rows.

(** [ersha-prime/src/registry/sqlite/device_status.rs:60-240] impl DeviceStatusRegistry for SqliteDeviceStatusRegistry *)
#[export] Instance registry : DeviceStatusRegistry t (Fail SqliteDeviceStatusError) := {|
  str_store := store; str_get := get; str_get_latest := get_latest;
  str_batch_store := batch_store; str_count := count; str_list := list
|}.
End operations.
End SqliteDeviceStatusRegistry.
Export (hints) SqliteDeviceStatusRegistry.

(** ** The text of the queries *)

Module SqliteStatusProofs.
Import SqliteDeviceStatusRegistry.

Section text.
Context `{!UlidText} `{!Jiff}.

Definition join_text (filter : DeviceStatusFilter) : string :=
  if needs_error_join filter
  then " LEFT JOIN device_status_errors ON device_statuses.id = device_status_errors.status_id "
  else EmptyString.

Lemma push_join_new filter init : push_join filter (qb_new init) = qb_new (init +:+ join_text filter).
Proof.
  unfold push_join, join_text, push, qb_new. destruct (needs_error_join filter); [done|].
  by rewrite string_app_nil.
Qed.

Lemma filter_statuses_state init filter :
  filter_statuses (qb_new init) filter = fst (where_state (init +:+ join_text filter) (conds filter)).
Proof.
  unfold filter_statuses, conds, status_conds, status_only_conds, error_conds. rewrite push_join_new, qb_new_state.
  rewrite (push_in_state _ [] (mkCol "device_statuses.id" "id")), (push_in_state _ _ (plain "device_id")),
    (push_in_state _ _ (plain "dispatcher_id")).
  rewrite (push_op_state _ _ "timestamp >= " second_value (fun t => AtLeast (plain "timestamp") (second_value t))),
    (push_op_state _ _ "timestamp <= " second_value (fun t => AtMost (plain "timestamp") (second_value t))),
    (push_between_state _ _ (plain "battery_percent")) by done.
  rewrite (push_cond_state _ _ _ (fun b : bool => IsNull (mkCol "device_status_errors.id" "error_id") (negb b)))
    by (by intros []).
  rewrite (push_in_state _ _ (mkCol "device_status_errors.error_code" "error_code")).
  by rewrite <- !(assoc_L (++)).
Qed.

Lemma lite_status_list_sql_query options :
  list_sql options =
    query (list_from +:+ join_text (filter_opt options)) (conds (filter_opt options))
      (page (fst (order_by (sort_by_opt options))) (snd (order_by (sort_by_opt options)))
         (sort_order_opt options) (pagination_opt options)).
Proof. unfold list_sql. rewrite filter_statuses_state. apply push_page_query. Qed.

Lemma lite_status_conds_no_marks filter : Forall cond_no_marks (conds filter).
Proof. unfold conds, status_conds, status_only_conds, error_conds. solve_no_marks. Qed.

(** One mark for each value that the query of [list] binds. *)
Lemma list_sql_marks options : marks_in (sql (list_sql options)) = length (binds (list_sql options)).
Proof.
  rewrite lite_status_list_sql_query. apply query_marks; [|by destruct options as [f [] o [??|??]]|apply lite_status_conds_no_marks].
  unfold no_marks, join_text. rewrite marks_in_app. by destruct (needs_error_join _).
Qed.
End text.

(** ** Rows *)

Definition sensor_status_stored `{Jiff} (s : SensorStatus) : SensorStatus :=
  mkSensorStatus (ss_sensor_id s) (ss_state s) (whole_second <$> ss_last_reading s).

(** What the registry keeps of a status: everything but the fractions of its seconds. *)
Definition stored `{Jiff} (s : DeviceStatus) : DeviceStatus :=
  mkDeviceStatus (st_id s) (st_device_id s) (st_dispatcher_id s) (st_battery_percent s) (st_uptime_seconds s)
    (st_signal_rssi s) (st_errors s) (whole_second (st_timestamp s)) (sensor_status_stored <$> st_sensor_statuses s).

(** Two statuses that differ in the order of their errors and of their sensors only. *)
Definition same_status (a b : DeviceStatus) : Prop :=
  a = mkDeviceStatus (st_id b) (st_device_id b) (st_dispatcher_id b) (st_battery_percent b) (st_uptime_seconds b)
        (st_signal_rssi b) (st_errors a) (st_timestamp b) (st_sensor_statuses a) /\
  st_errors a ≡ₚ st_errors b /\ st_sensor_statuses a ≡ₚ st_sensor_statuses b.

(** A row of a child table: the row that was inserted, and its id. *)
Definition numbered {X} (f : X -> SRow) (x : X) (r : SRow) : Prop := ∃ k, r = ("id"%string, VInt k) :: f x.

Definition key `{UlidText} (s : DeviceStatus) : string := ulid_to_string (status_ulid (st_id s)).

(** The tables hold the statuses [l], at most one for each id, with their children. *)
Record represents `{UlidText} `{Jiff} (db : Tables) (l : Datatypes.list DeviceStatus) : Prop := {
  rep_statuses : statuses db = status_row <$> l;
  rep_keys : NoDup (key <$> l);
  rep_wf : Forall status_wf l;
  rep_errors s : s ∈ l -> Forall2 (numbered (error_row (st_id s))) (st_errors s)
    (rows_where "status_id" (id_value (st_id s)) (errors db));
  rep_sensor_statuses s : s ∈ l -> Forall2 (numbered (sensor_status_row (st_id s))) (st_sensor_statuses s)
    (rows_where "status_id" (id_value (st_id s)) (sensor_statuses db))
}.

Section children.
Context `{!UlidText} `{!Jiff} {X : Type} (f : StatusId -> X -> SRow).
Context (f_status : ∀ id x, column "status_id" (f id x) = Some (id_value id)).

Lemma numbered_status id x r : numbered (f id) x r -> col "status_id" r = id_value id.
Proof. intros [k ->]. apply col_column. cbn [column]. apply f_status. Qed.

(** The children of a status after those of [id] were replaced. *)
Lemma children_replaced id id' xs rows base : Forall2 (numbered (f id)) xs rows ->
  rows_where "status_id" (id_value id') (delete_where (id_value id) base ++ rows) =
    if decide (id_value id' = id_value id) then rows else rows_where "status_id" (id_value id') base.
Proof.
  intros Hrows. unfold rows_where, delete_where. rewrite filter_app, list_filter_filter.
  assert (Forall (fun r => col "status_id" r = id_value id) rows) as Hst.
  { apply Forall_forall. intros r (i & Hi)%list_elem_of_lookup.
    destruct (Forall2_lookup_r _ _ _ _ _ Hrows Hi) as (x & _ & Hx). by eapply numbered_status. }
  rewrite Forall_forall in Hst. destruct (decide (id_value id' = id_value id)) as [Heq|Hne].
  - rewrite (filter_none _ base) by (intros r _; rewrite Heq; naive_solver).
    rewrite (filter_true _ rows) by (intros r Hr; rewrite Heq, (Hst r Hr); split; [done|by unfold id_value]). done.
  - rewrite (filter_none _ rows), app_nil_r by (intros r Hr; rewrite (Hst r Hr); naive_solver).
    apply list_filter_iff. intros r. intuition congruence.
Qed.
End children.

Section state.
Context `{UlidTextLaws} `{JiffLaws} `{!RowOrder}.
Implicit Types (c : t) (db : Tables) (l : Datatypes.list DeviceStatus).

Lemma lite_status_represents_nil : represents (mkTables [] [] [] 0 0) [].
Proof. split; try constructor; intros s []%elem_of_nil. Qed.

Lemma key_id s s' : status_wf s -> status_wf s' -> key s = key s' -> st_id s = st_id s'.
Proof. intros [Hs _] [Hs' _] Heq. by apply status_ulid_inj, ulid_to_string_inj. Qed.

Lemma insert_errors_wp id es c : id_value id ∈ col "id" <$> statuses (tables c) ->
  wp of_sqlx (for_each (fun error => run of_sqlx (insert_error (error_row id error))) es)
    (fun _ db => ∃ rows n, Forall2 (numbered (error_row id)) es rows /\
       db = mkTables (statuses (tables c)) (errors (tables c) ++ rows) (sensor_statuses (tables c)) n
              (last_sensor_status_id (tables c))) c.
Proof.
  revert c. induction es as [|e es IH]; intros c Hid; cbn [for_each].
  - apply wp_ret. exists [], (last_error_id (tables c)). rewrite app_nil_r. by destruct (tables c).
  - eapply wp_bind.
    + eapply (wp_run _ _ _ _ (fun _ db => db = _)); [|reflexivity].
      unfold insert_error. by rewrite bool_decide_true.
    + intros [] c1 Ht. eapply wp_mono; [apply IH; by rewrite Ht|]. cbn beta. rewrite Ht.
      intros _ db (rows & n & Hrows & ->). eexists (_ :: rows), n.
      split; [constructor; [by eexists|done]|]. cbn. by rewrite <- app_assoc.
Qed.

Lemma insert_sensor_statuses_wp id ss c : id_value id ∈ col "id" <$> statuses (tables c) ->
  wp of_sqlx (for_each (fun s => run of_sqlx (insert_sensor_status (sensor_status_row id s))) ss)
    (fun _ db => ∃ rows n, Forall2 (numbered (sensor_status_row id)) ss rows /\
       db = mkTables (statuses (tables c)) (errors (tables c)) (sensor_statuses (tables c) ++ rows)
              (last_error_id (tables c)) n) c.
Proof.
  revert c. induction ss as [|s ss IH]; intros c Hid; cbn [for_each].
  - apply wp_ret. exists [], (last_sensor_status_id (tables c)). rewrite app_nil_r. by destruct (tables c).
  - eapply wp_bind.
    + eapply (wp_run _ _ _ _ (fun _ db => db = _)); [|reflexivity].
      unfold insert_sensor_status. by rewrite bool_decide_true.
    + intros [] c1 Ht. eapply wp_mono; [apply IH; by rewrite Ht|]. cbn beta. rewrite Ht.
      intros _ db (rows & n & Hrows & ->). eexists (_ :: rows), n.
      split; [constructor; [by eexists|done]|]. cbn. by rewrite <- app_assoc.
Qed.

(** The tables after a status was stored. *)
Lemma represents_store s es ss n m db l : status_wf s -> represents db l ->
  Forall2 (numbered (error_row (st_id s))) (st_errors s) es ->
  Forall2 (numbered (sensor_status_row (st_id s))) (st_sensor_statuses s) ss ->
  represents (mkTables (replace_row (status_row s) (statuses db))
      (delete_where (id_value (st_id s)) (errors db) ++ es)
      (delete_where (id_value (st_id s)) (sensor_statuses db) ++ ss) n m)
    (put key s l).
Proof.
  intros Hs [R1 R2 R3 R4 R5] Hes Hss. split; cbn [statuses errors sensor_statuses].
  - rewrite R1. by apply replace_row_put.
  - by apply put_NoDup.
  - by apply Forall_put.
  - intros s' Hin. rewrite (children_replaced error_row (fun _ _ => eq_refl) _ _ _ _ _ Hes).
    apply elem_of_put in Hin as [->|[Hin Hne]]; [by rewrite decide_True|].
    rewrite decide_False; [by apply R4|]. intros [= Heq]. by apply Hne.
  - intros s' Hin. rewrite (children_replaced sensor_status_row (fun _ _ => eq_refl) _ _ _ _ _ Hss).
    apply elem_of_put in Hin as [->|[Hin Hne]]; [by rewrite decide_True|].
    rewrite decide_False; [by apply R5|]. intros [= Heq]. by apply Hne.
Qed.

Lemma store_wp s c l : status_wf s -> represents (tables c) l ->
  wp of_sqlx (store s) (fun _ db => represents db (put key s l)) c.
Proof.
  intros Hs R. apply wp_transaction. intros c0 E0. rewrite <- E0 in R.
  apply wp_write_bind. intros c1 E1.
  apply wp_write_bind. intros c2 E2.
  assert (id_value (st_id s) ∈ col "id" <$> statuses (tables c1)) as Hid.
  { rewrite E1. cbn [insert_status statuses]. unfold replace_row. rewrite fmap_app. apply elem_of_app. right.
    by left. }
  eapply wp_bind; [apply insert_errors_wp; by rewrite E2|]. intros [] c3 (es & n & Hes & E3).
  apply wp_write_bind. intros c4 E4.
  eapply wp_mono; [apply insert_sensor_statuses_wp; by rewrite E4, E3, E2|].
  intros _ db (ss & m & Hss & ->). rewrite E4, E3, E2, E1. cbn. by apply represents_store.
Qed.

(** ** Reading a status back *)

Lemma lite_status_error_of_row_row id e r : numbered (error_row id) e r -> error_of_row r = Ok e.
Proof.
  intros [k ->]. unfold error_of_row.
  rewrite (get_int32_column "error_code" _ (error_code_code (err_code e)) ltac:(destruct (err_code e); simpl; lia)) by done.
  rewrite error_code_of_code. by destruct e as [? [m|]].
Qed.

Lemma lite_status_sensor_status_of_row_row id s r : sensor_status_wf s -> numbered (sensor_status_row id) s r ->
  sensor_status_of_row r = Ok (sensor_status_stored s).
Proof.
  intros [Hu Ht] [k ->]. unfold sensor_status_of_row.
  rewrite (get_ulid_column "sensor_id" _ _ Hu) by done.
  rewrite (get_int32_column "state" _ (sensor_state_code (ss_state s)) ltac:(destruct (ss_state s); simpl; lia)) by done.
  rewrite sensor_state_of_code. destruct s as [[u] st [ts|]]; [|done].
  cbn. by rewrite parse_second_as_second.
Qed.

(** Decoding the children in the order in which the database gives them. *)
Lemma collect_children {X Y} (f : X -> SRow) (dec : SRow -> result Y (Fail SqliteDeviceStatusError)) (g : X -> Y) xs rows :
  (∀ x r, x ∈ xs -> numbered f x r -> dec r = Ok (g x)) -> Forall2 (numbered f) xs rows ->
  ∃ ys, collect (dec <$> scan rows) = Ok ys /\ ys ≡ₚ g <$> xs.
Proof.
  intros Hdec Hrows. apply (collect_perm (dec <$> rows)); [by rewrite scan_perm|].
  induction Hrows as [|x r xs rows Hx _ IH]; [done|]. csimpl.
  rewrite (Hdec x r) by (done || left). rewrite IH; [done|]. intros y r' Hy. apply Hdec. by right.
Qed.

Lemma id_column_inj s s' : id_value (st_id s) = id_value (st_id s') -> key s = key s'.
Proof. by intros [= ?]. Qed.

Lemma lite_status_map_row_wp s c l : s ∈ l -> represents (tables c) l ->
  wp of_sqlx (map_row_to_status (status_row s)) (fun s' db => db = tables c /\ same_status s' (stored s)) c.
Proof.
  intros Hin R. pose proof (rep_wf _ _ R) as Hwf. rewrite Forall_forall in Hwf.
  destruct (Hwf s Hin) as (W1 & W2 & W3 & W4 & W5 & W6 & W7 & W8). unfold map_row_to_status.
  eapply wp_lift_bind; [by apply (get_ulid_column "id" _ _ W1)|].
  eapply wp_lift_bind; [by apply (get_ulid_column "device_id" _ _ W2)|].
  eapply wp_lift_bind; [by apply (get_ulid_column "dispatcher_id" _ _ W3)|].
  eapply wp_lift_bind; [by apply (get_second_column "timestamp" _ _ W7)|].
  assert (mkStatusId (status_ulid (st_id s)) = st_id s) as -> by by destruct (st_id s).
  destruct (collect_children (error_row (st_id s)) error_of_row id _ _
    (fun x r _ => lite_status_error_of_row_row _ x r) (rep_errors _ _ R s Hin)) as (es & Hes & Pes).
  destruct (collect_children (sensor_status_row (st_id s)) sensor_status_of_row sensor_status_stored _ _
    (fun x r Hx => lite_status_sensor_status_of_row_row _ x r (proj1 (Forall_forall _ _) W8 x Hx))
    (rep_sensor_statuses _ _ R s Hin)) as (ss & Hss & Pss).
  eapply (wp_bind _ _ _ (fun a t => a = es /\ t = tables c)).
  { apply wp_read_bind. intros c1 E1. by eapply wp_lift. }
  intros _ c1 [-> E1]. eapply (wp_bind _ _ _ (fun a t => a = ss /\ t = tables c)).
  { apply wp_read_bind. intros c2 E2. rewrite E1 in *. by eapply wp_lift. }
  intros _ c2 [-> E2]. unfold is_unsigned, is_signed in *.
  eapply wp_lift_bind; [apply get_int32_column; [|reflexivity]; lia|].
  eapply wp_lift_bind; [reflexivity|].
  eapply wp_lift_bind; [apply get_int32_column; [|reflexivity]; lia|].
  apply wp_ret. split; [done|]. rewrite list_fmap_id in Pes. split; [|by split].
  cbn -[as_u8 as_u64 as_i16 as_i64]. unfold as_u8, as_u64, as_i64, as_i16.
  rewrite wrap_small, wrap_to_signed, to_signed_id by done.
  destruct s as [[] [] [] [] ? ? ? ? ?]. done.
Qed.

(** A status read from the rows of a query over the tables. *)
Lemma lite_status_first_status_wp rows c l : represents (tables c) l -> rows `sublist_of` status_row <$> l ->
  wp of_sqlx (first_status rows) (fun o db => db = tables c /\
    match rows with
    | [] => o = None
    | r :: _ => ∃ s s', o = Some s' /\ r = status_row s /\ s ∈ l /\ same_status s' (stored s)
    end) c.
Proof.
  intros R Hsub. destruct rows as [|r rows]; [by apply wp_ret|]. cbn [first_status].
  assert (r ∈ status_row <$> l) as (s & -> & Hs)%list_elem_of_fmap.
  { eapply elem_of_sublist; [|exact Hsub]. left. }
  eapply wp_bind; [by eapply lite_status_map_row_wp|]. intros s' c' [E Hs'].
  apply wp_ret. split; [done|]. by exists s, s'.
Qed.

Lemma rows_where_sublist col v (rows : Datatypes.list SRow) : rows_where col v rows `sublist_of` rows.
Proof. apply sublist_filter. Qed.

Lemma lite_status_get_wp id c l : u128 (status_ulid id) -> represents (tables c) l ->
  wp of_sqlx (get id) (fun o db => db = tables c /\
    match o with
    | None => ∀ s, s ∈ l -> st_id s <> id
    | Some s' => ∃ s, s ∈ l /\ st_id s = id /\ same_status s' (stored s)
    end) c.
Proof.
  intros Hid R. apply wp_read_bind. intros c' E. rewrite <- E in *. pose proof (rep_statuses _ _ R) as Hst.
  eapply wp_mono; [apply lite_status_first_status_wp with (l := l); [done|]|].
  { rewrite <- Hst. apply rows_where_sublist. }
  intros o db [-> Ho]. split; [done|]. rewrite Hst in Ho. unfold id_value in Ho.
  rewrite (rows_where_id status_row key) in Ho by (done || apply (rep_keys _ _ R)).
  pose proof (rep_wf _ _ R) as Hwf. rewrite Forall_forall in Hwf.
  destruct (List.find _ l) as [s|] eqn:Hf.
  - destruct Ho as (s0 & s' & -> & Heq & Hin & Hs'). exists s0. split; [done|]. split; [|done].
    apply find_some in Hf as [_ Hk%String.eqb_eq].
    assert (key s0 = ulid_to_string (status_ulid id)) as Hk'.
    { rewrite <- Hk. apply id_column_inj. by apply (f_equal (col "id")) in Heq. }
    apply status_ulid_inj. eapply ulid_to_string_inj; [by apply Hwf|done|exact Hk'].
  - rewrite Ho. intros s Hin <-. apply list_elem_of_In in Hin. pose proof (find_none _ _ Hf _ Hin) as Hno.
    unfold key in Hno. by rewrite String.eqb_refl in Hno.
Qed.

(** The rows of the statuses that satisfy a predicate. *)
Lemma latest_rows dev l : u128 (device_ulid dev) -> Forall status_wf l ->
  rows_where "device_id" (VText (ulid_to_string (device_ulid dev))) (status_row <$> l) =
    status_row <$> filter (fun s => st_device_id s = dev) l.
Proof.
  intros Hdev Hwf. apply filter_fmap_on. eapply Forall_impl; [exact Hwf|]. intros s (_ & W2 & _).
  change (col "device_id" (status_row s)) with (VText (ulid_to_string (device_ulid (st_device_id s)))).
  split; [|by intros ->]. intros [[= Heq] _]. by apply device_ulid_inj, ulid_to_string_inj.
Qed.

Lemma lite_status_get_latest_wp dev c l : u128 (device_ulid dev) -> represents (tables c) l ->
  wp of_sqlx (get_latest dev) (fun o db => db = tables c /\
    match o with
    | None => ∀ s, s ∈ l -> st_device_id s <> dev
    | Some s' => ∃ s, s ∈ l /\ st_device_id s = dev /\ same_status s' (stored s) /\
        ∀ s2, s2 ∈ l -> st_device_id s2 = dev -> as_second (st_timestamp s2) <= as_second (st_timestamp s)
    end) c.
Proof.
  intros Hdev R. apply wp_read_bind. intros c' E. rewrite <- E in *.
  rewrite (rep_statuses _ _ R), latest_rows by (done || apply (rep_wf _ _ R)).
  destruct (order_page_spec status_row latest (status_row <$> filter (fun s => st_device_id s = dev) l)
    (filter (fun s => st_device_id s = dev) l)) as (k & -> & Hperm & Hsort); [done|].
  assert (∀ s, s ∈ k <-> st_device_id s = dev /\ s ∈ l) as Hk
    by (intros s; by rewrite Hperm, list_elem_of_filter).
  destruct k as [|s k].
  - cbn. apply wp_ret. split; [done|]. intros s Hs Hd. assert (s ∈ []) as []%elem_of_nil by by apply Hk.
  - cbn. assert (st_device_id s = dev /\ s ∈ l) as [Hd Hs] by (apply Hk; left).
    eapply wp_bind; [by eapply lite_status_map_row_wp|]. intros s' c1 [E1 Hs']. apply wp_ret. split; [done|].
    exists s. split_and!; try done. intros s2 Hin2 Hd2.
    apply StronglySorted_inv in Hsort as [_ Hsort]. rewrite Forall_forall in Hsort.
    assert (s2 ∈ s :: k) as [->|Hin]%elem_of_cons by (by apply Hk); [lia|].
    specialize (Hsort s2 Hin). unfold cmp_le, cmp_on, row_cmp in Hsort. cbn -[value_cmp] in Hsort.
    rewrite value_cmp_int in Hsort.
    destruct (Z.compare_spec (as_second (st_timestamp s)) (as_second (st_timestamp s2))); cbn in Hsort; [lia|done|lia].
Qed.

(** ** What the join selects *)

(** A filter whose lists are not empty, of the width of their types, with bounds on whole seconds. *)
Definition filter_exact (f : DeviceStatusFilter) : Prop :=
  exact_list (fun k => u128 (status_ulid k)) (sf_ids f) /\
  exact_list (fun k => u128 (device_ulid k)) (sf_device_ids f) /\
  exact_list (fun k => u128 (dispatcher_ulid k)) (sf_dispatcher_ids f) /\
  exact_bound (sf_timestamp_after f) /\ exact_bound (sf_timestamp_before f) /\
  exact_list (fun _ => True) (sf_error_codes f).

(** The conditions on the status itself, and those on the error joined to it. *)
Definition status_part (f : DeviceStatusFilter) (s : DeviceStatus) : Prop :=
  in_opt (sf_ids f) (st_id s) /\ in_opt (sf_device_ids f) (st_device_id s) /\
  in_opt (sf_dispatcher_ids f) (st_dispatcher_id s) /\
  in_range_opt (sf_battery_range f) (percent (st_battery_percent s)) /\
  in_window (sf_timestamp_after f) (sf_timestamp_before f) (whole_second (st_timestamp s)).

Definition error_part (f : DeviceStatusFilter) (es : Datatypes.list DeviceError) : Prop :=
  (∀ b, sf_has_errors f = Some b -> (b = true <-> es <> [])) /\
  (∀ codes, sf_error_codes f = Some codes -> ∃ e, e ∈ es /\ err_code e ∈ codes).

Lemma status_only_iff f s e : filter_exact f -> status_wf s ->
  forallb (holds (status_row s ++ e)) (status_only_conds f) = true <-> status_part f s.
Proof.
  intros (F1 & F2 & F3 & F4 & F5 & F6) (W1 & W2 & W3 & _ & _ & _ & W7 & _).
  unfold status_only_conds, status_part. rewrite !forallb_app_iff.
  rewrite (in_cond_ulid_iff _ _ _ _ (st_id s)), (in_cond_ulid_iff _ _ _ _ (st_device_id s)),
    (in_cond_ulid_iff _ _ _ _ (st_dispatcher_id s)) by eauto with ersha.
  rewrite (between_iff _ _ (fun z => z) _ (percent (st_battery_percent s))) by done.
  rewrite <- (window_iff (status_row s ++ e) (plain "timestamp")) by done. tauto.
Qed.

Abbreviation sqlite_error := (mkCol "device_status_errors.id" "error_id").

Lemma lite_status_conds_iff f s e : filter_exact f -> status_wf s ->
  forallb (holds (status_row s ++ e)) (conds f) = true <->
  status_part f s /\ forallb (holds (status_row s ++ e)) (error_conds sqlite_error f) = true.
Proof. intros Hf Hs. unfold conds, status_conds. by rewrite forallb_app_iff, status_only_iff. Qed.

(** One error joined to a status. *)
Definition error_join (k : Z) (x : DeviceError) : SRow :=
  [("error_id", VInt k); ("error_code", VInt (error_code_code (err_code x)))]%string.

Lemma error_conds_error f s k x : filter_exact f ->
  forallb (holds (status_row s ++ error_join k x)) (error_conds sqlite_error f) = true <->
  (∀ b, sf_has_errors f = Some b -> b = true) /\ in_opt (sf_error_codes f) (err_code x).
Proof.
  intros (_ & _ & _ & _ & _ & F6). unfold error_conds. rewrite forallb_app_iff.
  rewrite (in_cond_int_iff _ error_code_code (fun _ => True) _ _ (err_code x))
    by (done || (intros [] _; by destruct (err_code x))).
  f_equiv. destruct (sf_has_errors f) as [b|]; cbn; [|naive_solver].
  rewrite andb_true_r. split; [intros Hb b' [= <-]; by destruct b|intros Hb; by rewrite (Hb b eq_refl)].
Qed.

Lemma error_conds_none f s : filter_exact f ->
  forallb (holds (status_row s ++ no_error)) (error_conds sqlite_error f) = true <->
  (∀ b, sf_has_errors f = Some b -> b = false) /\ sf_error_codes f = None.
Proof.
  intros (_ & _ & _ & _ & _ & F6). unfold error_conds. rewrite forallb_app_iff.
  f_equiv.
  - destruct (sf_has_errors f) as [b|]; cbn; [|naive_solver].
    rewrite andb_true_r. split; [intros Hb b' [= <-]; by destruct b|intros Hb; by rewrite (Hb b eq_refl)].
  - destruct (sf_error_codes f) as [[|code codes]|]; [by destruct F6|done|done].
Qed.

(** The rows of the join that a status has. *)
Lemma join_errors_elem s db l e : s ∈ l -> represents db l ->
  (status_row s, e) ∈ join_errors db (status_row s) <->
    (st_errors s = [] /\ e = no_error) \/
    (∃ x r, x ∈ st_errors s /\ numbered (error_row (st_id s)) x r /\ e = error_columns r /\
       r ∈ rows_where "status_id" (id_value (st_id s)) (errors db)).
Proof.
  intros Hs R. pose proof (rep_errors _ _ R s Hs) as Hes. unfold join_errors.
  change (col "id" (status_row s)) with (id_value (st_id s)).
  destruct Hes as [|x r es rows Hx Hes].
  - rewrite list_elem_of_singleton. split; [intros [= ->]; by left|].
    intros [[_ ->]|(x & r & []%elem_of_nil & _)]. done.
  - change ((status_row s, e) ∈ (fun e => (status_row s, error_columns e)) <$> (r :: rows) <-> (x :: es = [] /\ e = no_error) \/
      (∃ x' r', x' ∈ x :: es /\ numbered (error_row (st_id s)) x' r' /\ e = error_columns r' /\ r' ∈ r :: rows)).
    rewrite list_elem_of_fmap. split.
    + intros (r' & [= ->] & (i & Hi)%list_elem_of_lookup). right.
      assert (Forall2 (numbered (error_row (st_id s))) (x :: es) (r :: rows)) as Hall by by constructor.
      destruct (Forall2_lookup_r _ _ _ i r' Hall Hi) as (x' & Hx' & Hn).
      exists x', r'. split_and!; eauto using list_elem_of_lookup_2.
    + intros [[? _]|(x' & r' & _ & _ & -> & Hr)]; [done|eauto].
Qed.

Lemma error_join_columns id x r : numbered (error_row id) x r -> ∃ k, error_columns r = error_join k x.
Proof. intros [k ->]. by exists k. Qed.

Lemma joined_elem s db l e : s ∈ l -> represents db l ->
  (status_row s, e) ∈ mjoin (join_errors db <$> statuses db) <-> (status_row s, e) ∈ join_errors db (status_row s).
Proof.
  intros Hs R. rewrite (rep_statuses _ _ R), list_elem_of_join. split.
  - intros (p & Hp & (r & -> & Hr)%list_elem_of_fmap). unfold join_errors in Hp.
    enough (r = status_row s) as -> by done.
    destruct (rows_where _ _ _); [by apply list_elem_of_singleton in Hp as [= ->]|].
    by apply list_elem_of_fmap in Hp as (? & [= -> _] & _).
  - intros He. exists (join_errors db (status_row s)). split; [done|]. by do 2 apply list_elem_of_fmap_2.
Qed.

(** Some row of the join satisfies the conditions on errors exactly when the filter accepts the errors. *)
Lemma join_errors_iff f s db l : filter_exact f -> s ∈ l -> represents db l ->
  (∃ e, (status_row s, e) ∈ join_errors db (status_row s) /\
        forallb (holds (status_row s ++ e)) (error_conds sqlite_error f) = true) <-> error_part f (st_errors s).
Proof.
  intros Hf Hs R. setoid_rewrite join_errors_elem; [|done..]. unfold error_part. split.
  - intros (e & [[Hnil ->]|(x & r & Hx & Hr & -> & _)] & He).
    + apply error_conds_none in He as [P1 P2]; [|done]. rewrite Hnil, P2. split; [|done].
      intros b Hb. rewrite (P1 b Hb). by split.
    + destruct (error_join_columns _ _ _ Hr) as [k Hk]. rewrite Hk in He.
      apply error_conds_error in He as [P1 P2]; [|done]. split; [|intros codes Hc; exists x; by auto].
      intros b Hb. rewrite (P1 b Hb). split; [|done]. intros _ Hnil. rewrite Hnil in Hx. by apply elem_of_nil in Hx.
  - intros [P1 P2].
    assert ((∃ x, x ∈ st_errors s /\ in_opt (sf_error_codes f) (err_code x)) \/
            (st_errors s = [] /\ sf_error_codes f = None)) as [(x & Hx & Hin)|[Hnil Hnone]].
    { destruct (sf_error_codes f) as [codes|] eqn:Hc.
      - left. destruct (P2 codes eq_refl) as (x & Hx & Hin). exists x. split; [done|]. by intros ? [= <-].
      - destruct (st_errors s) as [|x es]; [by right|]. left. exists x. by split; [left|]. }
    + pose proof Hx as (i & Hi)%list_elem_of_lookup.
      destruct (Forall2_lookup_l _ _ _ i x (rep_errors _ _ R s Hs) Hi) as (r & Hr & Hxr).
      exists (error_columns r). split; [right; exists x, r; split_and!; eauto using list_elem_of_lookup_2|].
      destruct (error_join_columns _ _ _ Hxr) as [k ->]. apply error_conds_error; [done|]. split; [|done].
      intros b Hb. apply (P1 b Hb). intros Hnil. rewrite Hnil in Hx. by apply elem_of_nil in Hx.
    + exists no_error. split; [by left|]. apply error_conds_none; [done|]. split; [|done].
      intros [] Hb; [|done]. by destruct (proj1 (P1 true Hb) eq_refl).
Qed.

Lemma joined_iff f s db l : filter_exact f -> s ∈ l -> represents db l ->
  (∃ e, (status_row s, e) ∈ joined f db /\ forallb (holds (status_row s ++ e)) (conds f) = true) <->
    status_part f s /\ error_part f (st_errors s).
Proof.
  intros Hf Hs R. pose proof (rep_wf _ _ R) as Hwf. rewrite Forall_forall in Hwf. specialize (Hwf s Hs).
  setoid_rewrite lite_status_conds_iff; [|done..]. transitivity (status_part f s /\
    ∃ e, (status_row s, e) ∈ joined f db /\ forallb (holds (status_row s ++ e)) (error_conds sqlite_error f) = true); [naive_solver|].
  f_equiv. unfold joined. destruct (needs_error_join f) eqn:Hn.
  - setoid_rewrite joined_elem; [|done..]. by eapply join_errors_iff.
  - unfold needs_error_join in Hn. destruct (sf_has_errors f) eqn:Hh; [done|].
    destruct Hf as (_ & _ & _ & _ & _ & F6). destruct (sf_error_codes f) as [[|]|] eqn:Hc; [by destruct F6|done|].
    unfold error_part, error_conds. rewrite Hh, Hc. split; [done|]. intros _. exists []. split; [|done].
    apply list_elem_of_fmap. exists (status_row s). split; [done|]. rewrite (rep_statuses _ _ R).
    by apply list_elem_of_fmap_2.
Qed.

(** The selected rows are those of the statuses that the in-memory filter accepts. *)
Lemma selected_perm f db l : filter_exact f -> represents db l ->
  selected f (conds f) db ≡ₚ
    status_row <$> List.filter (fun s => InMemoryDeviceStatusRegistry.status_matches f (stored s)) l.
Proof.
  intros Hf R.
  assert (NoDup (status_row <$> l)) as Hnd.
  { apply (NoDup_fmap_1 (fun r => match col "id" r with VText s => s | _ => EmptyString end)).
    rewrite <- list_fmap_compose. exact (rep_keys _ _ R). }
  apply NoDup_Permutation; [apply NoDup_remove_dups| |].
  { eapply sublist_NoDup; [exact Hnd|]. apply fmap_sublist, List_filter_sublist. }
  intros r. unfold selected. rewrite elem_of_remove_dups, !list_elem_of_fmap. split.
  - intros ([r' e] & -> & [Hj He]%list_elem_of_In%filter_In). apply list_elem_of_In in Hj. cbn [fst snd] in *.
    assert (r' ∈ statuses db) as Hr.
    { unfold joined in Hj. destruct (needs_error_join f).
      - apply list_elem_of_join in Hj as (p & Hp & (r & -> & Hr)%list_elem_of_fmap). unfold join_errors in Hp.
        destruct (rows_where _ _ _); [by apply list_elem_of_singleton in Hp as [= -> _]|].
        by apply list_elem_of_fmap in Hp as (? & [= -> _] & _).
      - by apply list_elem_of_fmap in Hj as (? & [= -> _] & ?). }
    rewrite (rep_statuses _ _ R) in Hr. apply list_elem_of_fmap in Hr as (s & -> & Hs). exists s. split; [done|].
    apply list_elem_of_In, filter_In. split; [by apply list_elem_of_In|].
    apply InMemoryDeviceStatusRegistry.status_matches_iff.
    destruct (proj1 (joined_iff f s db l Hf Hs R)) as [Hp Hq]; [by exists e|]. destruct Hp as (?&?&?&?&?), Hq as [??]. by split_and!.
  - intros (s & -> & [Hs Hm]%list_elem_of_In%filter_In). apply list_elem_of_In in Hs.
    apply InMemoryDeviceStatusRegistry.status_matches_iff in Hm as (?&?&?&?&?&?&?).
    destruct (proj2 (joined_iff f s db l Hf Hs R)) as (e & He & Hc); [by split_and!|].
    exists (status_row s, e). split; [done|]. apply list_elem_of_In, filter_In. by rewrite <- list_elem_of_In.
Qed.

Lemma row_cmp_status sort_by o p a b : status_wf a -> status_wf b ->
  cmp_on status_row (row_cmp (page (fst (order_by sort_by)) (snd (order_by sort_by)) o p)) a b =
    InMemoryDeviceStatusRegistry.status_cmp sort_by o (stored a) (stored b).
Proof.
  intros (_ & W2 & _ & _ & _ & _ & W7 & _) (_ & V2 & _ & _ & _ & _ & V7 & _).
  unfold cmp_on, row_cmp, InMemoryDeviceStatusRegistry.status_cmp, directed.
  assert (direction (page (fst (order_by sort_by)) (snd (order_by sort_by)) o p) = o) as -> by by destruct p.
  assert (order_col (page (fst (order_by sort_by)) (snd (order_by sort_by)) o p) = snd (order_by sort_by)) as ->
    by by destruct p.
  destruct sort_by; cbn [order_by snd];
    [change (col "timestamp" (status_row ?s)) with (VInt (as_second (st_timestamp s)))
    |change (col "battery_percent" (status_row ?s)) with (VInt (percent (st_battery_percent s)))
    |change (col "device_id" (status_row ?s)) with (VText (ulid_to_string (device_ulid (st_device_id s))))];
    rewrite ?value_cmp_second, ?value_cmp_ulid, ?value_cmp_int by done; by destruct o.
Qed.

(** A page of the statuses that the filter accepts. *)
Lemma lite_status_list_wp options c l : filter_exact (filter_opt options) -> page_fits (pagination_opt options) ->
  represents (tables c) l ->
  wp of_sqlx (list options) (fun ss db => db = tables c /\
    ∃ s offset n, pagination_opt options = Pagination.Offset offset n /\
      Forall2 same_status ss (take (Z.to_nat n) (drop (Z.to_nat offset) s)) /\
      s ≡ₚ List.filter (InMemoryDeviceStatusRegistry.status_matches (filter_opt options)) (stored <$> l) /\
      StronglySorted (cmp_le (InMemoryDeviceStatusRegistry.status_cmp (sort_by_opt options) (sort_order_opt options))) s) c.
Proof.
  intros Hf Hp R. unfold list. rewrite (surjective_pairing (order_by _)).
  apply wp_read_bind. intros c' E. rewrite <- E in *.
  destruct (order_page_spec status_row (page (fst (order_by (sort_by_opt options))) (snd (order_by (sort_by_opt options)))
    (sort_order_opt options) (pagination_opt options)) _ _ (selected_perm _ _ _ Hf R)) as (k & -> & Hperm & Hsort).
  destruct (page_offset (fst (order_by (sort_by_opt options))) (snd (order_by (sort_by_opt options)))
    (sort_order_opt options) _ k Hp) as (offset & n & Hpage & ->).
  pose proof (rep_wf _ _ R) as Hwf. rewrite Forall_forall in Hwf.
  assert (∀ s, s ∈ k -> s ∈ l) as Hkl.
  { intros s Hs. rewrite Hperm in Hs. apply list_elem_of_In, filter_In in Hs as [Hs _]. by apply list_elem_of_In. }
  rewrite map_m_fmap.
  eapply wp_mono; [apply (wp_map_m _ _ (fun s s' => same_status s' (stored s)))|].
  { intros s c1 Hs E1. rewrite <- E1. eapply lite_status_map_row_wp; [|by rewrite E1].
    apply Hkl. eapply elem_of_sublist; [exact Hs|]. etrans; [apply sublist_take|apply sublist_drop]. }
  intros ss db [-> Hss]. split; [done|]. exists (stored <$> k), offset, n. split_and!; [done| | |].
  - rewrite <- fmap_drop, <- fmap_take. by apply Forall2_fmap_r, Forall2_flip.
  - rewrite Hperm, (filter_mapped stored _ (InMemoryDeviceStatusRegistry.status_matches (filter_opt options))); [done|].
    by apply Forall_forall.
  - eapply (StronglySorted_fmap_on stored _ _ (fun s => s ∈ l)); [|by apply Forall_forall|exact Hsort].
    intros a b Ha Hb. unfold cmp_le. rewrite row_cmp_status by auto. done.
Qed.

Lemma remove_dups_NoDup {A} `{EqDecision A} (xs : Datatypes.list A) : NoDup xs -> remove_dups xs = xs.
Proof.
  induction 1 as [|x xs Hx _ IH]; [done|]. cbn. destruct (decide_rel _ x xs); [done|]. by rewrite IH.
Qed.

Lemma lite_status_count_wp f c l : filter_exact f -> represents (tables c) l ->
  wp of_sqlx (count (Some f)) (fun n db => db = tables c /\
    n = as_u64 (Z.of_nat (length
          (List.filter (InMemoryDeviceStatusRegistry.status_matches f) (stored <$> l))))) c.
Proof.
  intros Hf R. apply wp_read_bind. intros c' E. apply wp_ret. split; [done|]. f_equal. f_equal. cbn [default from_option].
  pose proof (selected_perm f _ _ Hf R) as Hsel. rewrite remove_dups_NoDup.
  - rewrite length_fmap, Hsel, length_fmap, <- (filter_mapped stored (fun s => InMemoryDeviceStatusRegistry.status_matches f (stored s)));
      [by rewrite length_fmap|by apply Forall_forall].
  - rewrite Hsel, <- list_fmap_compose.
    apply (NoDup_fmap_1 (fun v => match v with VText s => s | _ => EmptyString end)). rewrite <- list_fmap_compose.
    eapply sublist_NoDup; [exact (rep_keys _ _ R)|]. apply (fmap_sublist key), List_filter_sublist.
Qed.

(** The statuses after those of a list were stored one after the other. *)
Definition put_all (ss l : Datatypes.list DeviceStatus) : Datatypes.list DeviceStatus :=
  fold_left (fun l s => put key s l) ss l.

Lemma lite_status_store_spec s c c' res l : status_wf s -> represents (tables c) l -> store s c = (c', res) ->
  (faulty c' -> faulty c) /\
  match res with
  | Ok _ => represents (tables c') (put key s l)
  | Err e => tables c' = tables c /\ e = of_sqlx Unavailable /\ faulty c
  end.
Proof.
  intros Hs R Hst. pose proof (store_wp s c l Hs R) as Hw. unfold wp in Hw. rewrite Hst in Hw.
  destruct Hw as [Hf Hw]. split; [done|]. destruct res as [[]|e]; [done|]. split; [|done].
  by apply transaction_cases in Hst as [? _].
Qed.

Lemma batch_store_spec ss c c' res l : Forall status_wf ss -> represents (tables c) l -> batch_store ss c = (c', res) ->
  match res with
  | Ok _ => represents (tables c') (put_all ss l)
  | Err e => e = of_sqlx Unavailable /\ faulty c /\
      ∃ before s after, ss = before ++ s :: after /\ represents (tables c') (put_all before l)
  end.
Proof.
  intros Hss. unfold batch_store. revert c l. induction Hss as [|s ss Hs _ IH]; intros c l R; cbn [for_each]; [by intros [= <- <-]|].
  unfold bind. destruct (store s c) as [c1 [[]|e]] eqn:Hst;
    apply (lite_status_store_spec _ _ _ _ _ Hs R) in Hst as [Hf Hst].
  - intros Hb%(IH _ _ Hst). destruct res as [[]|e]; [done|].
    destruct Hb as (-> & Hfc & before & s' & after & -> & Hrep). split_and!; auto.
    by exists (s :: before), s', after.
  - intros [= <- <-]. destruct Hst as (Ht & -> & Hfc). split_and!; auto.
    exists [], s, ss. split; [done|]. by rewrite Ht.
Qed.
End state.
End SqliteStatusProofs.

(** ** Properties *)

Section properties.
Context `{UlidTextLaws} `{JiffLaws} `{!RowOrder}.
Import SqliteStatusProofs.
Implicit Types c : SqliteDeviceStatusRegistry.t.

(** C5: the SQLite status registry keeps the statuses it was given, one for each id.  Storing a
    status replaces its row, its errors and the states of its sensors together or, when the
    database fails a statement on the way, changes nothing; a batch that fails has stored a prefix
    of its statuses, each of them whole.  [get] answers the status of an id, and [get_latest] one
    whose second no other of the device exceeds, with their errors and sensors in some order; and
    no operation fails unless the database does. *)
Theorem sqlite_statuses_keep_children c l : represents (tables c) l ->
  (∀ s c' res, status_wf s -> SqliteDeviceStatusRegistry.store s c = (c', res) ->
     match res with
     | Ok _ => represents (tables c') (put key s l)
     | Err e => tables c' = tables c /\ e = of_sqlx Unavailable /\ faulty c
     end) /\
  (∀ ss c' res, Forall status_wf ss -> SqliteDeviceStatusRegistry.batch_store ss c = (c', res) ->
     match res with
     | Ok _ => represents (tables c') (put_all ss l)
     | Err e => e = of_sqlx Unavailable /\ faulty c /\
         ∃ before s after, ss = before ++ s :: after /\ represents (tables c') (put_all before l)
     end) /\
  (∀ id c' res, u128 (status_ulid id) -> SqliteDeviceStatusRegistry.get id c = (c', res) ->
     match res with
     | Ok None => ∀ s, s ∈ l -> st_id s <> id
     | Ok (Some s') => ∃ s, s ∈ l /\ st_id s = id /\ same_status s' (stored s)
     | Err e => e = of_sqlx Unavailable /\ faulty c
     end) /\
  (∀ dev c' res, u128 (device_ulid dev) -> SqliteDeviceStatusRegistry.get_latest dev c = (c', res) ->
     match res with
     | Ok None => ∀ s, s ∈ l -> st_device_id s <> dev
     | Ok (Some s') => ∃ s, s ∈ l /\ st_device_id s = dev /\ same_status s' (stored s) /\
         ∀ s2, s2 ∈ l -> st_device_id s2 = dev -> as_second (st_timestamp s2) <= as_second (st_timestamp s)
     | Err e => e = of_sqlx Unavailable /\ faulty c
     end).
Proof.
  intros R. split_and!.
  - intros s c' res Hs Hst. by eapply lite_status_store_spec in Hst as [_ Hst].
  - intros ss c' res Hss Hb. by eapply batch_store_spec in Hb.
  - intros id c' res Hid Hg. eapply wp_elim in Hg; [|by eapply lite_status_get_wp]. destruct res as [[s'|]|e]; [by destruct Hg..|done].
  - intros dev c' res Hd Hg. eapply wp_elim in Hg; [|by eapply lite_status_get_latest_wp].
    destruct res as [[s'|]|e]; [by destruct Hg..|done].
Qed.

End properties.

(** ** Witnesses *)

Module SqliteStatusWitness.
Import SqliteStatusProofs.
#[local] Existing Instance ulid_crockford.
#[local] Existing Instance ulid_crockford_laws.
#[local] Existing Instance jiff_ns.
#[local] Existing Instance jiff_ns_laws.
#[local] Existing Instance row_order_std.

Definition empty : SqliteDeviceStatusRegistry.t := calm (mkTables [] [] [] 0 0).

(** A status with two errors. *)
Definition failing : DeviceStatus :=
  mkDeviceStatus (mkStatusId 5) (mkDeviceId 7) (mkDispatcherId 1) (mkPercentage 9) 100 (-80)
    [mkDeviceError DeviceErrorCode.LowBattery None; mkDeviceError DeviceErrorCode.RadioFault (Some "no ack"%string)]
    (mkTimestamp 9000000000) [mkSensorStatus (mkSensorId 107) SensorState.Faulty None].

Lemma failing_wf : status_wf failing.
Proof.
  unfold status_wf, failing. cbn -[Z.mul Z.pow is_unsigned is_signed valid_timestamp].
  unfold is_unsigned, is_signed, valid_timestamp, ts_min_second, ts_max_second. cbn -[Z.mul Z.pow].
  split_and!; try lia. constructor; [|constructor]. split; [|exact I]. unfold is_unsigned. cbn -[Z.pow]. lia.
Qed.

Lemma sample_status_wf : status_wf (sample_status 4 7 50).
Proof.
  unfold status_wf, sample_status. cbn -[Z.mul Z.pow is_unsigned is_signed valid_timestamp].
  unfold is_unsigned, is_signed, valid_timestamp, ts_min_second, ts_max_second. cbn -[Z.mul Z.pow].
  split_and!; try lia. constructor; [|constructor].
  unfold sensor_status_wf, is_unsigned, valid_timestamp, ts_min_second, ts_max_second. cbn -[Z.mul Z.pow]. lia.
Qed.

(** The registry after both were stored. *)
Definition two : SqliteDeviceStatusRegistry.t :=
  fst (SqliteDeviceStatusRegistry.batch_store [failing; sample_status 4 7 50] empty).

Lemma two_represents : represents (tables two) [failing; sample_status 4 7 50].
Proof.
  destruct (SqliteDeviceStatusRegistry.batch_store [failing; sample_status 4 7 50] empty) as [c' res] eqn:Hb.
  assert (two = c') as -> by (unfold two; by rewrite Hb).
  eapply batch_store_spec in Hb; [|by do 2 (constructor; [first [apply failing_wf|apply sample_status_wf]|])|apply lite_status_represents_nil].
  destruct res as [[]|e]; [exact Hb|]. destruct Hb as (_ & Hf & _). exfalso. by apply elem_of_nil in Hf.
Qed.

Lemma sqlite_statuses_keep_children_witness :
  ∃ s', snd (SqliteDeviceStatusRegistry.get_latest (mkDeviceId 7) two) = Ok (Some s') /\
    as_second (st_timestamp s') = 9 /\ length (st_errors s') = 2%nat.
Proof.
  destruct (sqlite_statuses_keep_children two _ two_represents) as (_ & _ & _ & Hlatest).
  assert (u128 (device_ulid (mkDeviceId 7))) as Hid by (split; [discriminate|reflexivity]).
  pose proof (Hlatest (mkDeviceId 7) _ _ Hid (surjective_pairing _)) as Hres.
  destruct (snd (SqliteDeviceStatusRegistry.get_latest (mkDeviceId 7) two)) as [[s'|]|e] eqn:Hs.
  - vm_compute in Hs. injection Hs as <-. eexists. split; [reflexivity|]. split; reflexivity.
  - vm_compute in Hs. discriminate.
  - vm_compute in Hs. discriminate.
Defined.

(** The statuses with an error that is a low battery or a radio fault, of which [failing] has both. *)
Definition with_errors : QueryOptions DeviceStatusFilter DeviceStatusSortBy.t :=
  mkQueryOptions (mkDeviceStatusFilter None None None None None None (Some true)
      (Some [DeviceErrorCode.LowBattery; DeviceErrorCode.RadioFault]))
    DeviceStatusSortBy.Timestamp SortOrder.Asc (Pagination.Offset 0 10).

End SqliteStatusWitness.
