(* ===== verification/ClickHouse.v ===== *)
(** * What the ClickHouse registries share: ersha-prime/src/registry/clickhouse/mod.rs, and the parts that
    the files beside it repeat

    The server keeps typed rows in tables; an INSERT appends them, and the engine of a table decides
    what a SELECT sees: a MergeTree all of them, a ReplacingMergeTree read with FINAL one for each
    sorting key, of those with the greatest version the last one inserted ([final]).  The queries are
    texts with the identifiers as bound values and every other value written in place; [render] is
    the text of the conditions of SqlCodec.v in this dialect, [ch_holds] their meaning, which differs
    from SQLite's in LIKE (cases matter) and in where NULL sorts (last, in both directions). *)
From Stdlib Require Import ZArith Lia Strings.String Strings.Ascii.
From stdpp Require Import base gmap strings list pretty sorting.
From S2P Require Import Prelude Platform Core Filter InMemory Sql SqlCodec.
Open Scope Z_scope.

(** [ersha-prime/src/registry/clickhouse/mod.rs:14-37] ClickHouseError *)
Inductive ClickHouseError :=
  | Client (e : DbError)
  | InvalidUlid (s : string)
  | InvalidTimestamp (s : Z)
  | InvalidMetricType (z : Z)
  | InvalidDeviceState (z : Z)
  | InvalidDeviceKind (z : Z)
  | InvalidSensorKind (z : Z)
  | InvalidDispatcherState (z : Z)
  | InvalidErrorCode (z : Z)
  | InvalidSensorState (z : Z)
  | NotFound.

#[export] Instance clickhouse_error : SqlError ClickHouseError :=
  {| e_sqlx := Client; e_ulid := InvalidUlid; e_timestamp := InvalidTimestamp |}.
#[export] Instance clickhouse_metric_error : MetricError ClickHouseError := InvalidMetricType.

(** ** The server and the clock *)

(** The tables, and how many times the registry has read the clock. *)
Record Env (T : Type) := mkEnv { rows : T; ticks : nat }.
Arguments mkEnv {T}.
Arguments rows {T}.
Arguments ticks {T}.

Abbreviation ChFail := (Fail ClickHouseError).
Abbreviation ChOp T := (M (Env T) ChFail).

(** [jiff::Timestamp::now().as_millisecond() as u64]. *)
Definition now_millis {T} `{Jiff} `{Clock} : ChOp T Z := fun c =>
  (mkConn (mkEnv (rows (tables c)) (S (ticks (tables c)))) (faults c),
   Ok (as_u64 (as_millisecond (ts_now (ticks (tables c)))))).

(** [let mut insert = client.insert(..)?; for r in rs { insert.write(&r).await?; } insert.end().await?]:
    the rows are there once [end] has answered; an INSERT that is dropped before is aborted. *)
Definition insert_rows {T R} (add : list R -> T -> T) (rs : list R) : ChOp T unit :=
  _ <-- for_each (fun _ : R => round_trip of_sqlx) rs ;;
  run of_sqlx (write (fun e => mkEnv (add rs (rows e)) (ticks e))).

(** A SELECT. *)
Definition select {T A} (f : T -> A) : ChOp T A := run of_sqlx (read (fun e => f (rows e))).

(** ** ReplacingMergeTree, read with FINAL *)

Section final.
Context {R K : Type} `{EqDecision K} (key : R -> K) (version : R -> Z).

(** What the rows seen so far become with one more of them. *)
Definition merge (seen : list R) (r : R) : list R :=
  if existsb (fun r' => bool_decide (key r' = key r) && Z.ltb (version r) (version r')) seen then seen
  else filter (fun r' => key r' <> key r) seen ++ [r].
Definition final (rs : list R) : list R := fold_left merge rs [].
End final.

(** ** Conditions: their text *)

Definition ch_value (v : Value) : string := match v with VText _ => "?" | VInt z => pretty z | _ => EmptyString end.
Definition ch_bind (v : Value) : list string := match v with VText s => [s] | _ => [] end.

Definition render (c : Cond) : string :=
  match c with
  | In c vs => col_text c +:+ " IN (" +:+ join ", " (ch_value <$> vs) +:+ ")"
  | AtLeast c v => col_text c +:+ " >= " +:+ ch_value v
  | AtMost c v => col_text c +:+ " <= " +:+ ch_value v
  | Between c lo hi => col_text c +:+ " BETWEEN " +:+ ch_value lo +:+ " AND " +:+ ch_value hi
  | Like c p => col_text c +:+ " LIKE '" +:+ p +:+ "'"
  | IsNull c null => col_text c +:+ (if null then " IS NULL" else " IS NOT NULL")
  end.
Definition bound (c : Cond) : list string :=
  match c with
  | In _ vs => mjoin (ch_bind <$> vs)
  | AtLeast _ v | AtMost _ v => ch_bind v
  | Between _ lo hi => ch_bind lo ++ ch_bind hi
  | Like _ _ | IsNull _ _ => []
  end.

(** [conditions] and [bindings] of build_where_clause. *)
Abbreviation Clauses := (list string * list string)%type.

(** [if let Some(ids) = &filter.ids && !ids.is_empty() { .. placeholders .. bindings.extend(..) }]. *)
Definition push_ids {A} (col : string) (to_string : A -> string) (o : option (list A)) (x : Clauses) : Clauses :=
  match o with
  | Some ((_ :: _) as ids) =>
      let placeholders := (fun _ => "?"%string) <$> ids in
      (fst x ++ [col +:+ " IN (" +:+ join ", " placeholders +:+ ")"], snd x ++ (to_string <$> ids))
  | _ => x
  end.

(** [if let Some(vs) = &filter.vs && !vs.is_empty() { .. values.join(", ") .. }]. *)
Definition push_values {A} (col : string) (code : A -> Z) (o : option (list A)) (x : Clauses) : Clauses :=
  match o with
  | Some ((_ :: _) as vs) =>
      (fst x ++ [col +:+ " IN (" +:+ join ", " ((fun v => pretty (code v)) <$> vs) +:+ ")"], snd x)
  | _ => x
  end.

(** [if let Some(v) = filter.v { conditions.push(format!(..)) }]. *)
Definition push_format {A} (format : A -> string) (o : option A) (x : Clauses) : Clauses :=
  match o with Some v => (fst x ++ [format v], snd x) | None => x end.

(** [if conditions.is_empty() { String::new() } else { format!(" WHERE {}", conditions.join(" AND ")) }]. *)
Definition where_clause (conditions : list string) : string :=
  match conditions with [] => EmptyString | _ => " WHERE " +:+ join " AND " conditions end.

(** The end of build_list_query. *)
Definition push_tail (order : string) (o : SortOrder.t) (p : Pagination.t) : string :=
  " ORDER BY " +:+ order +:+ match o with SortOrder.Asc => " ASC" | SortOrder.Desc => " DESC" end +:+
  match p with
  | Pagination.Offset offset limit => " LIMIT " +:+ pretty limit +:+ " OFFSET " +:+ pretty offset
  | Pagination.Cursor _ limit => " LIMIT " +:+ pretty limit
  end.

(** The page that this text asks for. *)
Definition ch_page (order_col : string) (o : SortOrder.t) (p : Pagination.t) : Tail :=
  match p with
  | Pagination.Offset offset limit => mkTail order_col order_col o (Some limit) (Some offset)
  | Pagination.Cursor _ limit => mkTail order_col order_col o (Some limit) None
  end.

(** ** Conditions: their meaning *)

(** LIKE, on a pattern as the text of the query has it between its quotes. *)
Class ChLike := ch_like : string -> string -> bool.

(** The characters to which LIKE or a string literal give a meaning. *)
Definition plain_char (c : ascii) : Prop :=
  c <> "%"%char /\ c <> "_"%char /\ c <> "\"%char /\ c <> "'"%char /\ c <> "?"%char.
Definition plain_text (s : string) : Prop := Forall plain_char (list_ascii_of_string s).

(** A pattern without any of them between two [%] is searched for as it is. *)
Class ChLikeLaws `{ChLike} : Prop :=
  ch_like_contains p s : plain_text p -> ch_like ("%" +:+ p +:+ "%") s = str_contains s p.

Definition ch_holds `{ChLike} (r : SRow) (c : Cond) : bool :=
  match c with
  | Like c p => match col (col_name c) r with VText s => ch_like p s | _ => false end
  | c => holds r c
  end.

Definition ch_cmp (t : Tail) (r r' : SRow) : comparison :=
  match col (order_col t) r, col (order_col t) r' with
  | VNull, VNull => Eq
  | VNull, _ => Gt
  | _, VNull => Lt
  | v, w => match direction t with SortOrder.Asc => value_cmp v w | SortOrder.Desc => CompOpp (value_cmp v w) end
  end.

(** The order in which the server gives rows that the query does not order. *)
Class ServerOrder := {
  shuffle : ∀ {R : Type}, list R -> list R;
  shuffle_perm {R} (l : list R) : shuffle l ≡ₚ l
}.
Definition server_order_std : ServerOrder := {| shuffle R l := l; shuffle_perm R l := Permutation_refl l |}.

Section selecting.
Context `{ChLike} `{ServerOrder} {R : Type} (fields : R -> SRow).

Definition ch_where (cs : list Cond) (rs : list R) : list R := List.filter (fun r => forallb (ch_holds (fields r)) cs) rs.
Definition ch_order (t : Tail) (rs : list R) : list R :=
  apply_limit (limit t) (apply_offset (offset t) (sort_by (cmp_on fields (ch_cmp t)) (shuffle rs))).
(** [SELECT .. WHERE .. ORDER BY .. LIMIT ..]. *)
Definition ch_select (cs : list Cond) (t : Tail) (rs : list R) : list R := ch_order t (ch_where cs rs).
(** [fetch_optional] of [SELECT .. WHERE col = ?]. *)
Definition ch_first (c v : string) (rs : list R) : option R :=
  head (shuffle (List.filter (fun r => bool_decide (col c (fields r) = VText v)) rs)).
End selecting.

(** ** The texts are renderings of the conditions *)

Section text.
Context `{!UlidText}.

Definition rendered (cs : list Cond) : Clauses := (render <$> cs, mjoin (bound <$> cs)).

Lemma rendered_snoc cs c : rendered (cs ++ [c]) = (fst (rendered cs) ++ [render c], snd (rendered cs) ++ bound c).
Proof. unfold rendered. rewrite !fmap_app, join_app. cbn. by rewrite app_nil_r. Qed.

Lemma push_ids_rendered {A} c (u : A -> Ulid) (o : option (list A)) cs :
  push_ids (col_text c) (fun a => ulid_to_string (u a)) o (rendered cs) =
    rendered (cs ++ in_cond c (text_values u <$> o)).
Proof.
  destruct o as [[|a l]|]; [cbn; by rewrite app_nil_r| |cbn; by rewrite app_nil_r].
  match goal with |- _ = rendered ?x => change x with (cs ++ [In c (text_values u (a :: l))]) end.
  rewrite rendered_snoc. cbn [render bound push_ids]. unfold text_values. rewrite <- !list_fmap_compose.
  f_equal. f_equal. induction (a :: l) as [|b k IH]; [done|]. csimpl. by rewrite <- IH.
Qed.

Lemma push_values_rendered {A} c (f : A -> Z) (o : option (list A)) cs :
  push_values (col_text c) f o (rendered cs) = rendered (cs ++ in_cond c (int_values f <$> o)).
Proof.
  destruct o as [[|a l]|]; [cbn; by rewrite app_nil_r| |cbn; by rewrite app_nil_r].
  match goal with |- _ = rendered ?x => change x with (cs ++ [In c (int_values f (a :: l))]) end.
  rewrite rendered_snoc. cbn [render bound push_values]. unfold int_values. rewrite <- !list_fmap_compose.
  f_equal. rewrite <- (app_nil_r (snd (rendered cs))) at 1. f_equal.
  induction (a :: l) as [|b k IH]; [done|]. csimpl. by rewrite <- IH.
Qed.

Lemma push_format_rendered {A} (format : A -> string) (c : A -> Cond) (o : option A) cs :
  (∀ a, render (c a) = format a /\ bound (c a) = []) ->
  push_format format o (rendered cs) = rendered (cs ++ opt_cond c o).
Proof.
  intros Hc. destruct o as [a|]; cbn [push_format opt_cond]; [|by rewrite app_nil_r].
  destruct (Hc a) as [Hr Hb]. by rewrite rendered_snoc, Hr, Hb, app_nil_r.
Qed.

(** ** Marks and bound values *)

Lemma no_marks_pretty_N n : no_marks (pretty_N_go n EmptyString) /\ ∀ s, marks_in (pretty_N_go n s) = marks_in s.
Proof.
  assert (∀ n s, marks_in (pretty_N_go n s) = marks_in s) as Hgo.
  { intros m. induction m as [m IH] using (well_founded_ind N.lt_wf_0); intros s.
    destruct (decide (0 < m)%N) as [Hm|Hm].
    - rewrite pretty_N_go_step by done. rewrite IH by (apply N.div_lt; lia).
      unfold marks_in. cbn [count_char]. unfold pretty_N_char.
      by repeat case_match.
    - assert (m = 0%N) as -> by lia. by rewrite pretty_N_go_0. }
  split; [unfold no_marks; by rewrite Hgo|apply Hgo].
Qed.

Lemma no_marks_pretty (z : Z) : no_marks (pretty z).
Proof.
  assert (∀ n : N, no_marks (pretty n)) as Hn.
  { intros n. unfold pretty, pretty_N. destruct (decide (n = 0%N)); [done|]. apply no_marks_pretty_N. }
  destruct z as [|p|p]; [done|apply (Hn (Npos p))|].
  change (no_marks ("-" +:+ pretty (Npos p))). unfold no_marks. rewrite marks_in_app. by rewrite Hn.
Qed.

(** The marks of a condition: one for each bound value, and those of the pattern it contains. *)
Definition pattern_marks (c : Cond) : nat := match c with Like _ p => marks_in p | _ => 0 end.

Lemma ch_value_marks v : marks_in (ch_value v) = length (ch_bind v).
Proof. destruct v; try done. apply no_marks_pretty. Qed.

Lemma render_marks c : cond_no_marks c -> marks_in (render c) = (length (bound c) + pattern_marks c)%nat.
Proof.
  assert (∀ vs, marks_in (join ", " (ch_value <$> vs)) = length (mjoin (ch_bind <$> vs))) as Hjoin.
  { intros vs. rewrite marks_in_join by done. induction vs as [|v vs IH]; [done|]. csimpl.
    by rewrite IH, length_app, ch_value_marks. }
  unfold no_marks. destruct c as [c vs|c v|c v|c lo hi|c p|c [|]];
    cbn [cond_no_marks render bound pattern_marks]; intros Hc;
    rewrite !marks_in_app, Hc, ?Hjoin, ?ch_value_marks, ?length_app; cbn; lia.
Qed.

(** A text that asks for exactly the values that are bound, unless a pattern holds a mark. *)
Lemma where_clause_marks cs : Forall cond_no_marks cs ->
  marks_in (where_clause (fst (rendered cs))) =
    (length (snd (rendered cs)) + sum_list (pattern_marks <$> cs))%nat.
Proof.
  intros Hall. unfold rendered. cbn [fst snd].
  assert (sum_list (marks_in <$> (render <$> cs)) =
    (length (mjoin (bound <$> cs)) + sum_list (pattern_marks <$> cs))%nat) as Hsum.
  { induction Hall as [|c cs Hc _ IH]; [done|]. csimpl. rewrite IH, render_marks, length_app by done. lia. }
  destruct cs as [|c cs]; [done|]. change (where_clause (render <$> c :: cs)) with (" WHERE " +:+ join " AND " (render <$> c :: cs)).
  by rewrite marks_in_app, marks_in_join, Hsum.
Qed.
End text.

(** ** What a SELECT returns *)

#[export] Instance ch_cmp_laws t : CmpLaws (ch_cmp t).
Proof.
  set (null := fun v => match v with VNull => true | _ => false end).
  set (cmp := fun v w : Value => match direction t with SortOrder.Asc => value_cmp v w | SortOrder.Desc => CompOpp (value_cmp v w) end).
  assert (CmpLaws cmp) as Hcmp.
  { unfold cmp. destruct (direction t); [exact value_cmp_laws|exact (reverse_cmp_laws value_cmp)]. }
  assert (∀ r r', ch_cmp t r r' =
    if null (col (order_col t) r) then (if null (col (order_col t) r') then Eq else Gt)
    else if null (col (order_col t) r') then Lt else cmp (col (order_col t) r) (col (order_col t) r')) as Heq.
  { intros r r'. unfold ch_cmp. by destruct (col _ r), (col _ r'). }
  split.
  - intros r r'. rewrite !Heq. destruct (null (col _ r)), (null (col _ r')); try done. apply cmp_opp.
  - intros r1 r2 r3. rewrite !Heq.
    destruct (null (col _ r1)), (null (col _ r2)), (null (col _ r3)); try done. apply cmp_trans.
Qed.

Section selecting.
Context `{ChLike} `{ServerOrder} {R : Type} (fields : R -> SRow).

Lemma ch_order_spec t rs : ∃ s, ch_order fields t rs = apply_limit (limit t) (apply_offset (offset t) s) /\
  s ≡ₚ rs /\ StronglySorted (cmp_le (cmp_on fields (ch_cmp t))) s.
Proof.
  eexists. split; [reflexivity|]. split.
  - by rewrite sort_by_perm, shuffle_perm.
  - apply sort_by_sorted, (cmp_on_laws fields (ch_cmp t)).
Qed.

Lemma ch_first_spec c v rs :
  match ch_first fields c v rs with
  | Some r => r ∈ rs /\ col c (fields r) = VText v
  | None => ∀ r, r ∈ rs -> col c (fields r) <> VText v
  end.
Proof.
  unfold ch_first.
  assert (∀ r, r ∈ shuffle (List.filter (fun r => bool_decide (col c (fields r) = VText v)) rs) <->
    r ∈ rs /\ col c (fields r) = VText v) as Hin.
  { intros r. by rewrite shuffle_perm, list_elem_of_In, filter_In, <- list_elem_of_In, bool_decide_eq_true. }
  destruct (shuffle _) as [|r l]; cbn.
  - intros r Hr Hc. apply (elem_of_nil r). by apply Hin.
  - apply Hin. left.
Qed.
End selecting.

(** ** What FINAL keeps *)

Section final.
Context {R K : Type} `{EqDecision K} (key : R -> K) (version : R -> Z).
Implicit Types rs : list R.

Lemma final_snoc rs r : final key version (rs ++ [r]) = merge key version (final key version rs) r.
Proof. unfold final. by rewrite fold_left_app. Qed.

Lemma merge_NoDup rs r : NoDup (key <$> rs) -> NoDup (key <$> merge key version rs r).
Proof.
  intros Hnd. unfold merge. destruct (existsb _ rs); [done|]. rewrite fmap_app. apply NoDup_app. split_and!.
  - eapply sublist_NoDup; [exact Hnd|]. apply fmap_sublist, sublist_filter.
  - intros k (r' & -> & [Hne _]%list_elem_of_filter)%list_elem_of_fmap Heq%list_elem_of_singleton. done.
  - apply NoDup_singleton.
Qed.

Lemma final_NoDup rs : NoDup (key <$> final key version rs).
Proof.
  induction rs as [|r rs IH] using rev_ind; [constructor|]. rewrite final_snoc. by apply merge_NoDup.
Qed.

Lemma merge_sub rs r x : x ∈ merge key version rs r -> x = r \/ x ∈ rs.
Proof.
  unfold merge. destruct (existsb _ rs); [by right|].
  intros [[_ Hx]%list_elem_of_filter|Hx%list_elem_of_singleton]%elem_of_app; auto.
Qed.

Lemma final_sub rs r : r ∈ final key version rs -> r ∈ rs.
Proof.
  induction rs as [|r' rs IH] using rev_ind; [done|]. rewrite final_snoc, elem_of_app, list_elem_of_singleton.
  intros [->|Hr]%merge_sub; auto.
Qed.

Lemma merge_keys rs r k : k ∈ key <$> merge key version rs r <-> k = key r \/ k ∈ key <$> rs.
Proof.
  unfold merge. destruct (existsb _ rs) eqn:He.
  - apply existsb_exists in He as (x & Hx%list_elem_of_In & [Hk%bool_decide_eq_true _]%andb_true_iff).
    split; [by right|]. intros [->|?]; [|done]. apply list_elem_of_fmap. by exists x.
  - rewrite fmap_app, elem_of_app. change (key <$> [r]) with [key r].
    rewrite list_elem_of_singleton, !list_elem_of_fmap. split.
    + intros [(x & -> & [_ Hx]%list_elem_of_filter)| ->]; [right; by exists x|by left].
    + intros [->|(x & -> & Hx)]; [by right|]. destruct (decide (key x = key r)) as [->|Hne]; [by right|].
      left. exists x. split; [done|]. by apply list_elem_of_filter.
Qed.

(** No key is lost. *)
Lemma final_keys rs k : k ∈ key <$> final key version rs <-> k ∈ key <$> rs.
Proof.
  induction rs as [|r rs IH] using rev_ind; [done|].
  rewrite final_snoc, merge_keys, IH, fmap_app, elem_of_app. change (key <$> [r]) with [key r].
  rewrite list_elem_of_singleton. tauto.
Qed.

(** The row of a key. *)
Definition newest (k : K) rs : option R := List.find (fun r => bool_decide (key r = k)) (final key version rs).

Lemma find_filter_other k (r : R) rs : key r <> k ->
  List.find (fun x => bool_decide (key x = k)) (filter (fun r' => key r' <> key r) rs ++ [r]) =
    List.find (fun x => bool_decide (key x = k)) rs.
Proof.
  intros Hne. induction rs as [|x rs IH]; [cbn; by rewrite bool_decide_false|].
  rewrite filter_cons. destruct (decide (key x <> key r)) as [Hx|Hx]; cbn [app List.find]; rewrite IH; [done|].
  apply dec_stable in Hx. by rewrite bool_decide_false by congruence.
Qed.

Lemma newest_snoc k rs r :
  newest k (rs ++ [r]) =
    if decide (key r = k) then
      Some (match newest k rs with Some r' => if version r <? version r' then r' else r | None => r end)
    else newest k rs.
Proof.
  unfold newest. rewrite final_snoc. pose proof (final_NoDup rs) as Hnd.
  set (rs' := final key version rs) in *. clearbody rs'. unfold merge.
  destruct (decide (key r = k)) as [<-|Hne].
  - destruct (existsb _ rs') eqn:He.
    + apply existsb_exists in He as (x & Hx%list_elem_of_In & [Hk%bool_decide_eq_true Hv]%andb_true_iff).
      destruct (List.find _ rs') as [y|] eqn:Hf.
      * apply find_some in Hf as [Hy%list_elem_of_In Hky%bool_decide_eq_true].
        assert (x = y) as -> by (eapply (NoDup_fmap_inj_on key); eauto; congruence). by rewrite Hv.
      * apply list_elem_of_In in Hx. pose proof (find_none _ _ Hf _ Hx) as Hno. cbn in Hno.
        by rewrite bool_decide_true in Hno.
    + transitivity (Some r).
      * clear He Hnd. induction rs' as [|x rs' IH]; [cbn; by rewrite bool_decide_true|].
        rewrite filter_cons. destruct (decide (key x <> key r)) as [Hx|]; [|done]. cbn [app List.find].
        by rewrite bool_decide_false.
      * destruct (List.find _ rs') as [y|] eqn:Hf; [|done]. f_equal.
        apply find_some in Hf as [Hy Hky]. destruct (version r <? version y) eqn:Hv; [|done]. exfalso.
        enough (existsb (fun r' => bool_decide (key r' = key r) && (version r <? version r')) rs' = true) by congruence.
        apply existsb_exists. exists y. by rewrite Hky, Hv.
  - destruct (existsb _ rs'); [done|]. by apply find_filter_other.
Qed.

(** A row that no row of its key is newer than becomes the row of its key. *)
Lemma newest_insert rs r : (∀ r', r' ∈ rs -> key r' = key r -> version r' <= version r) ->
  newest (key r) (rs ++ [r]) = Some r.
Proof.
  intros Hv. rewrite newest_snoc, decide_True by done. f_equal.
  destruct (newest (key r) rs) as [r'|] eqn:Hf; [|done]. apply find_some in Hf as [Hr' Hk%bool_decide_eq_true].
  apply list_elem_of_In, final_sub in Hr'. destruct (Z.ltb_spec (version r) (version r')); [|done].
  specialize (Hv r' Hr' Hk). lia.
Qed.
End final.

(** FINAL on encoded values. *)
Lemma final_fmap {A R K} `{EqDecision K} (f : A -> R) (key : R -> K) (version : R -> Z) (l : list A) :
  final key version (f <$> l) = f <$> final (fun a => key (f a)) (fun a => version (f a)) l.
Proof.
  induction l as [|a l IH] using rev_ind; [done|]. rewrite fmap_app. cbn [fmap list_fmap].
  rewrite !final_snoc, IH. set (k := final _ _ l). clearbody k. unfold merge.
  assert (existsb (fun r' => bool_decide (key r' = key (f a)) && (version (f a) <? version r')) (f <$> k) =
    existsb (fun r' => bool_decide (key (f r') = key (f a)) && (version (f a) <? version (f r'))) k) as ->.
  { induction k as [|b k IHk]; [done|]. csimpl. by rewrite IHk. }
  destruct (existsb _ k); [done|]. rewrite fmap_app. f_equal. by apply filter_fmap_ext.
Qed.

(** ** What the operations on the server establish *)

Section wp.
Context {T : Type}.
Implicit Types c : Conn (Env T).

Lemma wp_now_bind `{Jiff} `{Clock} {B} (k : Z -> ChOp T B) Q c :
  (∀ c', tables c' = mkEnv (rows (tables c)) (S (ticks (tables c))) ->
     wp of_sqlx (k (as_u64 (as_millisecond (ts_now (ticks (tables c)))))) Q c') ->
  wp of_sqlx (bind now_millis k) Q c.
Proof.
  intros Hk. eapply (wp_bind _ _ _ (fun v e => v = as_u64 (as_millisecond (ts_now (ticks (tables c)))) /\
    e = mkEnv (rows (tables c)) (S (ticks (tables c))))).
  - unfold wp, now_millis. cbn. done.
  - intros v c' [-> Ht]. by apply Hk.
Qed.

Lemma wp_writes {R} (rs : list R) (Q : unit -> Env T -> Prop) c : Q tt (tables c) ->
  wp of_sqlx (for_each (fun _ => round_trip of_sqlx) rs : ChOp T unit) Q c.
Proof.
  intros HQ. eapply wp_mono; [apply (wp_for_each _ _ (fun _ e => e = tables c)); [|done]|by intros [] ? ->].
  intros _ xs c' E. by apply wp_round_trip.
Qed.

Lemma wp_insert {R} (add : list R -> T -> T) rs (Q : unit -> Env T -> Prop) c :
  Q tt (mkEnv (add rs (rows (tables c))) (ticks (tables c))) -> wp of_sqlx (insert_rows add rs) Q c.
Proof.
  intros HQ. eapply wp_bind; [by apply (wp_writes rs (fun _ e => e = tables c))|].
  intros [] c' E. apply wp_write. by rewrite E.
Qed.

Lemma wp_insert_bind {R B} (add : list R -> T -> T) rs (k : unit -> ChOp T B) Q c :
  (∀ c', tables c' = mkEnv (add rs (rows (tables c))) (ticks (tables c)) -> wp of_sqlx (k tt) Q c') ->
  wp of_sqlx (bind (insert_rows add rs) k) Q c.
Proof.
  intros Hk. eapply wp_bind; [by apply (wp_insert _ _ (fun _ e => e = mkEnv (add rs (rows (tables c))) (ticks (tables c))))|].
  intros [] c' E. by apply Hk.
Qed.

(** An INSERT that fails adds nothing. *)
Lemma writes_frame {R} (rs : list R) c c' res :
  for_each (fun _ => round_trip of_sqlx) rs c = (c', res : result unit ChFail) -> tables c' = tables c.
Proof.
  revert c. induction rs as [|r rs IH]; intros c; cbn [for_each]; [by intros [= <- _]|].
  unfold bind, round_trip at 1. destruct (hd false (faults c)); [by intros [= <- _]|]. by intros ->%IH.
Qed.

Lemma insert_failed {R} (add : list R -> T -> T) rs c c' e :
  insert_rows add rs c = (c', Err e) -> tables c' = tables c.
Proof.
  unfold insert_rows, bind. destruct (for_each _ rs c) as [c1 [[]|e']] eqn:Hw; apply writes_frame in Hw.
  - intros [_ Hr]%run_total. destruct Hr as [-> _]. done.
  - by intros [= <- _].
Qed.
End wp.

(** ** Conditions read on rows with more columns, and without LIKE *)

Lemma column_app c r k : column c (r ++ k) = match column c r with Some v => Some v | None => column c k end.
Proof. induction r as [|[c' v] r IH]; [done|]. cbn. by destruct (String.eqb c c'). Qed.

Definition cond_col (c : Cond) : string :=
  match c with
  | In c _ | AtLeast c _ | AtMost c _ | Between c _ _ | Like c _ | IsNull c _ => col_name c
  end.
Definition no_like (c : Cond) : Prop := match c with Like _ _ => False | _ => True end.
(** A condition without LIKE on a column of the row. *)
Definition common (r : SRow) (c : Cond) : Prop := no_like c /\ is_Some (column (cond_col c) r).

Lemma ch_holds_common `{ChLike} r k c : common r c -> ch_holds (r ++ k) c = holds r c.
Proof.
  intros [Hl [v Hc]]. assert (col (cond_col c) (r ++ k) = col (cond_col c) r) as Hcol
    by (unfold col; by rewrite column_app, Hc).
  destruct c; cbn [cond_col no_like] in *; cbn [ch_holds holds]; by rewrite ?Hcol.
Qed.

Lemma ch_where_common `{ChLike} r k cs : Forall (common r) cs ->
  forallb (ch_holds (r ++ k)) cs = forallb (holds r) cs.
Proof. induction 1 as [|c cs Hc _ IH]; [done|]. cbn. by rewrite IH, ch_holds_common. Qed.

Lemma in_cond_common r c vs : is_Some (column (col_name c) r) -> Forall (common r) (in_cond c vs).
Proof. intros Hc. destruct vs as [[|v vs]|]; simpl; repeat constructor; done. Qed.
Lemma opt_cond_common {A} r (f : A -> Cond) o : (∀ a, common r (f a)) -> Forall (common r) (opt_cond f o).
Proof. intros Hf. destruct o; simpl; repeat constructor; apply Hf. Qed.
Ltac solve_common :=
  repeat (apply Forall_app; split);
  first [constructor | apply in_cond_common; by eexists | apply opt_cond_common; intros ?; split; [exact I|by eexists]].

Lemma ch_cmp_row_cmp t r r' : col (order_col t) r <> VNull -> col (order_col t) r' <> VNull ->
  ch_cmp t r r' = row_cmp t r r'.
Proof. intros Hr Hr'. unfold ch_cmp, row_cmp. by destruct (col _ r), (col _ r'). Qed.

(** ** Listing and counting encoded values *)

Section encoded.
Context `{ChLike} `{ServerOrder} {T A R B : Type}.
Context (fields : R -> SRow) (enc : A -> R) (dec : R -> result B ChFail) (stored : A -> B) (wf : A -> Prop).
Context (dec_enc : ∀ a, wf a -> dec (enc a) = Ok (stored a)).
Context (cs : list Cond) (matches : B -> bool).
Context (cs_matches : ∀ a, wf a -> forallb (ch_holds (fields (enc a))) cs = matches (stored a)).
Implicit Types (l : list A) (c : Conn (Env T)).

Lemma ch_where_enc l : Forall wf l ->
  ch_where fields cs (enc <$> l) = enc <$> List.filter (fun a => matches (stored a)) l.
Proof.
  unfold ch_where. induction 1 as [|a l Ha _ IH]; [done|]. csimpl. rewrite cs_matches, IH by done.
  by destruct (matches (stored a)).
Qed.

(** The rows that a query selects, in its order, are the rows of these values. *)
Lemma ch_select_enc t l : Forall wf l -> ∃ s,
  ch_select fields cs t (enc <$> l) = enc <$> apply_limit (limit t) (apply_offset (offset t) s) /\
  s ≡ₚ List.filter (fun a => matches (stored a)) l /\ Forall wf s /\
  StronglySorted (cmp_le (fun a b => cmp_on fields (ch_cmp t) (enc a) (enc b))) s.
Proof.
  intros Hl. unfold ch_select. rewrite ch_where_enc by done.
  destruct (ch_order_spec fields t (enc <$> List.filter (fun a => matches (stored a)) l)) as (k & -> & Hk & Hsort).
  destruct (Permutation_map_inv enc _ Hk) as (s & -> & Hs). exists s. symmetry in Hs. split_and!.
  - destruct (limit t) as [z|], (offset t) as [z'|]; simpl;
      [destruct (z <? 0)|destruct (z <? 0)|..]; by rewrite ?fmap_take, ?fmap_drop.
  - done.
  - rewrite Hs. rewrite Forall_forall in Hl |- *. intros a Ha%list_elem_of_In. apply filter_In in Ha as [Ha _].
    apply Hl. by apply list_elem_of_In.
  - by apply (StronglySorted_fmap_inv enc (cmp_le (cmp_on fields (ch_cmp t)))).
Qed.

Lemma ch_list_wp (cmp : B -> B -> comparison) (f : T -> list R) t l c :
  (∀ a b, wf a -> wf b -> ch_cmp t (fields (enc a)) (fields (enc b)) = cmp (stored a) (stored b)) ->
  f (rows (tables c)) = enc <$> l -> Forall wf l ->
  wp of_sqlx (rs <-- select (fun e => ch_select fields cs t (f e)) ;; lift (collect (dec <$> rs)))
    (fun bs e => e = tables c /\ ∃ s, bs = apply_limit (limit t) (apply_offset (offset t) s) /\
       s ≡ₚ List.filter matches (stored <$> l) /\ StronglySorted (cmp_le cmp) s) c.
Proof.
  intros Hcmp Hf Hl. apply wp_read_bind. intros c' E. cbn beta. rewrite Hf.
  destruct (ch_select_enc t l Hl) as (s & -> & Hs & Hwf & Hsort). rewrite <- list_fmap_compose.
  eapply wp_lift.
  { apply (collect_map_Ok _ stored). intros a Ha. apply dec_enc. rewrite Forall_forall in Hwf. apply Hwf.
    eapply elem_of_sublist; [exact Ha|apply page_sublist]. }
  split; [done|]. exists (stored <$> s). split_and!.
  - unfold apply_limit, apply_offset. repeat case_match; by rewrite ?fmap_take, ?fmap_drop.
  - rewrite Hs. apply (eq_ind_r (fun k => k ≡ₚ _) (Permutation_refl _)). apply filter_mapped.
    by apply Forall_forall.
  - eapply (StronglySorted_fmap_on stored _ _ wf); [|exact Hwf|exact Hsort].
    intros a b Ha Hb. unfold cmp_le, cmp_on. by rewrite Hcmp.
Qed.

Lemma ch_count_wp (f : T -> list R) l c : f (rows (tables c)) = enc <$> l -> Forall wf l ->
  wp of_sqlx (select (fun e => Z.of_nat (length (ch_where fields cs (f e)))))
    (fun n e => e = tables c /\ n = Z.of_nat (length (List.filter matches (stored <$> l)))) c.
Proof.
  intros Hf Hl. apply wp_read. split; [done|]. cbn beta. rewrite Hf, ch_where_enc, length_fmap by done.
  rewrite <- (filter_mapped stored (fun a => matches (stored a))); [by rewrite length_fmap|by apply Forall_forall].
Qed.
End encoded.

(** The page of a query is that of the options when its bounds are a [usize]'s. *)
Lemma ch_page_offset {A} order o p (l : list A) : page_fits p ->
  ∃ offset n, p = Pagination.Offset offset n /\
    apply_limit (limit (ch_page order o p)) (apply_offset (Sql.offset (ch_page order o p)) l) =
      take (Z.to_nat n) (drop (Z.to_nat offset) l).
Proof.
  destruct p as [offset n|after n]; [|done]. intros [Ho Hn]. exists offset, n. split; [done|].
  cbn. destruct (Z.ltb_spec n 0); [lia|done].
Qed.

(** FINAL reads keys only through their equality. *)
Lemma final_ext {R K K'} `{EqDecision K, EqDecision K'} (key : R -> K) (key' : R -> K') (version version' : R -> Z) rs :
  (∀ r, version r = version' r) ->
  (∀ a b, a ∈ rs -> b ∈ rs -> key a = key b <-> key' a = key' b) -> final key version rs = final key' version' rs.
Proof.
  intros Hv. induction rs as [|r rs IH] using rev_ind; intros Hk; [done|]. rewrite !final_snoc, IH by set_solver.
  unfold merge. pose proof (final_sub key' version' rs) as Hsub. set (k := final key' version' rs) in *. clearbody k.
  assert (∀ x, x ∈ k -> key x = key r <-> key' x = key' r) as Hx by (intros x Hx; apply Hk; set_solver).
  assert (existsb (fun r' => bool_decide (key r' = key r) && (version r <? version r')) k =
    existsb (fun r' => bool_decide (key' r' = key' r) && (version' r <? version' r')) k) as ->.
  { clear -Hx Hv. induction k as [|x k IHk]; [done|]. cbn. rewrite IHk, !Hv by set_solver. f_equal. f_equal.
    apply bool_decide_ext, Hx. left. }
  destruct (existsb _ k); [done|]. f_equal. apply filter_on, Forall_forall. intros x Hin. by rewrite Hx.
Qed.

(** ** The two query builders *)

(** build_count_query, from its first words and the result of build_where_clause. *)
Definition count_query (init : string) (x : Clauses) : string * list string :=
  match where_clause (fst x) with
  | EmptyString => (init, [])
  | where_clause => (init +:+ where_clause, snd x)
  end.
(** build_list_query. *)
Definition list_query (init : string) (x : Clauses) (order : string) (o : SortOrder.t) (p : Pagination.t) : string * list string :=
  (init +:+ where_clause (fst x) +:+ push_tail order o p, snd x).

Lemma count_query_rendered init cs :
  count_query init (rendered cs) = (init +:+ where_clause (render <$> cs), mjoin (bound <$> cs)).
Proof.
  unfold count_query. destruct cs as [|c cs]; [cbn; by rewrite string_app_nil|]. done.
Qed.

Lemma push_tail_no_marks order o p : no_marks order -> no_marks (push_tail order o p).
Proof.
  unfold no_marks, push_tail. intros Ho.
  destruct o, p; rewrite !marks_in_app, Ho, ?(no_marks_pretty _); reflexivity.
Qed.

(** A list query holds one mark for [?fields], one for each value that is bound, and the pattern's. *)
Lemma list_query_marks init cs order o p : Forall cond_no_marks cs -> no_marks order ->
  marks_in (fst (list_query init (rendered cs) order o p)) =
    (marks_in init + length (snd (list_query init (rendered cs) order o p)) + sum_list (pattern_marks <$> cs))%nat.
Proof.
  intros Hcs Ho. unfold list_query. cbn [fst snd].
  rewrite !marks_in_app, where_clause_marks, push_tail_no_marks by done. unfold no_marks. lia.
Qed.

(** ** A server to compute with: patterns between two [%] are searched for *)

Definition ch_like_std : ChLike := fun p s => str_contains s (substring 1 (String.length p - 2) p).

Lemma substring_all s k : substring 0 (String.length s) (s +:+ k) = s.
Proof.
  induction s as [|a s IH]; [by destruct k|].
  change (String a (substring 0 (String.length s) (s +:+ k)) = String a s). by rewrite IH.
Qed.

Lemma string_length_app s k : String.length (s +:+ k) = (String.length s + String.length k)%nat.
Proof. induction s as [|a s IH]; [done|]. change (S (String.length (s +:+ k)) = S (String.length s) + String.length k)%nat. by rewrite IH. Qed.

Lemma ch_like_std_laws : @ChLikeLaws ch_like_std.
Proof.
  intros p s _. unfold ch_like, ch_like_std. f_equal.
  assert (String.length ("%" +:+ p +:+ "%") - 2 = String.length p)%nat as ->.
  { change (S (String.length (p +:+ "%")) - 2 = String.length p)%nat. rewrite string_length_app. cbn. lia. }
  change (substring 0 (String.length p) (p +:+ "%") = p). apply substring_all.
Qed.
