(* ===== verification/ClickDispatcher.v ===== *)
(** * The ClickHouse dispatcher registry: ersha-prime/src/registry/clickhouse/dispatcher.rs

    Every write appends a row that carries the clock's milliseconds as its version; a read sees one
    row for each id, the one with the greatest version.  A registration therefore replaces the
    earlier ones as long as the clock does not go back. *)
From Stdlib Require Import ZArith Lia Strings.String.
From stdpp Require Import base gmap strings list pretty sorting.
From S2P Require Import Prelude Platform Core Samples Filter Registry InMemory Sql SqlCodec SqliteDispatcher ClickHouse.
Open Scope Z_scope.

Module ClickHouseDispatcherRegistry.
(** [ersha-prime/src/registry/clickhouse/dispatcher.rs:26-33] DispatcherRow *)
Record DispatcherRow := mkDispatcherRow {
  row_id : string;
  row_state : Z;
  row_location : Z;
  row_provisioned_at : Z;
  row_version : Z
}.

(** The columns of the table. *)
Definition fields (row : DispatcherRow) : SRow :=
  [("id", VText (row_id row)); ("state", VInt (row_state row)); ("location", VInt (row_location row));
   ("provisioned_at", VInt (row_provisioned_at row)); ("version", VInt (row_version row))]%string.

(** [ersha-prime/src/registry/clickhouse/dispatcher.rs:72-75] ClickHouseDispatcherRegistry: the rows of dispatchers *)
Definition t : Type := Conn (Env (list DispatcherRow)).

Section operations.
Context `{!UlidText} `{!Jiff} `{!Clock} `{!ChLike} `{!ServerOrder}.
Abbreviation Op := (ChOp (list DispatcherRow)).

(** [ersha-prime/src/registry/clickhouse/dispatcher.rs:38-57] TryFrom<DispatcherRow> for Dispatcher *)
Definition try_from (row : DispatcherRow) : result Dispatcher ChFail :=
  let? id := parse_ulid (row_id row) in
  let? state := ok_or (dispatcher_state_of (row_state row)) (Failed (InvalidDispatcherState (row_state row))) in
  let? provisioned_at := parse_second (row_provisioned_at row) in
  Ok (mkDispatcher (mkDispatcherId id) (mkH3Cell (as_u64 (row_location row))) state provisioned_at).

(** The row of a dispatcher with a version. *)
Definition dispatcher_row (dispatcher : Dispatcher) (version : Z) : DispatcherRow :=
  mkDispatcherRow (ulid_to_string (dispatcher_ulid (disp_id dispatcher)))
    (dispatcher_state_code (disp_state dispatcher)) (as_i64 (h3_cell (disp_location dispatcher)))
    (as_second (disp_provisioned_at dispatcher)) version.

(** [ersha-prime/src/registry/clickhouse/dispatcher.rs:60-70] From<&Dispatcher> for DispatcherRow *)
Definition from (dispatcher : Dispatcher) : Op DispatcherRow :=
  version <-- now_millis ;; ret (dispatcher_row dispatcher version).

Definition append (rs rows : list DispatcherRow) : list DispatcherRow := rows ++ rs.

(** FROM dispatchers FINAL. *)
Definition visible (rows : list DispatcherRow) : list DispatcherRow := final row_id row_version rows.

(** [ersha-prime/src/registry/clickhouse/dispatcher.rs:89-95] register *)
Definition register (dispatcher : Dispatcher) : Op unit :=
  row <-- from dispatcher ;; insert_rows append [row].

(** [ersha-prime/src/registry/clickhouse/dispatcher.rs:97-106] get *)
Definition get (id : DispatcherId) : Op (option Dispatcher) :=
  row <-- select (fun rows => ch_first fields "id" (ulid_to_string (dispatcher_ulid id)) (visible rows)) ;;
  match row with Some row => lift (map_ok Some (try_from row)) | None => ret None end.

(** [ersha-prime/src/registry/clickhouse/dispatcher.rs:108-112] update *)
Definition update (id : DispatcherId) (new : Dispatcher) : Op unit :=
  old <-- get id ;;
  _old <-- lift (ok_or old (Failed NotFound)) ;;
  register (mkDispatcher id (disp_location new) (disp_state new) (disp_provisioned_at new)).

(** [ersha-prime/src/registry/clickhouse/dispatcher.rs:114-121] suspend *)
Definition suspend (id : DispatcherId) : Op unit :=
  dispatcher <-- get id ;;
  dispatcher <-- lift (ok_or dispatcher (Failed NotFound)) ;;
  register (mkDispatcher (disp_id dispatcher) (disp_location dispatcher) DispatcherState.Suspended
              (disp_provisioned_at dispatcher)).

(** [ersha-prime/src/registry/clickhouse/dispatcher.rs:123-135] batch_register *)
Definition batch_register (dispatchers : list Dispatcher) : Op unit :=
  match dispatchers with
  | [] => ret tt
  | _ => rs <-- map_m (fun d => row <-- from d ;; _ <-- round_trip of_sqlx ;; ret row) dispatchers ;;
         run of_sqlx (write (fun e => mkEnv (append rs (rows e)) (ticks e)))
  end.

(** [ersha-prime/src/registry/clickhouse/dispatcher.rs:212-240] build_where_clause *)
Definition clauses (filter : DispatcherFilter) : Clauses :=
  let x := ([], []) in
  let x := push_values "state" dispatcher_state_code (dsf_states filter) x in
  push_values "location" cell_code (dsf_locations filter) x.

(** [ersha-prime/src/registry/clickhouse/dispatcher.rs:165-178] build_count_query *)
Definition build_count_query (filter : option DispatcherFilter) : string * list string :=
  match filter with
  | Some filter => count_query "SELECT count() FROM dispatchers FINAL" (clauses filter)
  | None => ("SELECT count() FROM dispatchers FINAL"%string, [])
  end.

(** [ersha-prime/src/registry/clickhouse/dispatcher.rs:191-194] ORDER BY *)
Definition order_by (sort_by : DispatcherSortBy.t) : string :=
  match sort_by with DispatcherSortBy.ProvisionAt => "provisioned_at" end.

(** [ersha-prime/src/registry/clickhouse/dispatcher.rs:180-210] build_list_query *)
Definition build_list_query (options : QueryOptions DispatcherFilter DispatcherSortBy.t) : string * list string :=
  list_query "SELECT ?fields FROM dispatchers FINAL" (clauses (filter_opt options))
    (order_by (sort_by_opt options)) (sort_order_opt options) (pagination_opt options).

(** [ersha-prime/src/registry/clickhouse/dispatcher.rs:137-147] count *)
Definition count (filter : option DispatcherFilter) : Op Z :=
  select (fun rows => Z.of_nat (length
    (ch_where fields (from_option dispatcher_conds [] filter) (visible rows)))).

(** [ersha-prime/src/registry/clickhouse/dispatcher.rs:149-162] list *)
Definition list (options : QueryOptions DispatcherFilter DispatcherSortBy.t) : Op (list Dispatcher) :=
  rows <-- select (fun rows => ch_select fields (dispatcher_conds (filter_opt options))
             (ch_page (order_by (sort_by_opt options)) (sort_order_opt options) (pagination_opt options))
             (visible rows)) ;;
  lift (collect (try_from <$> rows)).

(** [ersha-prime/src/registry/clickhouse/dispatcher.rs:85-163] impl DispatcherRegistry *)
#[export] Instance registry : DispatcherRegistry t ChFail := {|
  dspr_register := register; dspr_get := get; dspr_update := update; dspr_suspend := suspend;
  dspr_batch_register := batch_register; dspr_count := count; dspr_list := list
|}.
End operations.
End ClickHouseDispatcherRegistry.
Export (hints) ClickHouseDispatcherRegistry.

Module ClickDispatcherProofs.
Import ClickHouseDispatcherRegistry.

Section text.
Context `{!UlidText} `{!Jiff}.

Lemma ch_dispatcher_clauses_rendered f : clauses f = rendered (dispatcher_conds f).
Proof.
  unfold clauses, dispatcher_conds. change ([], []) with (rendered []).
  by rewrite (push_values_rendered (plain "state")), (push_values_rendered (plain "location")).
Qed.
End text.

(** The rows of the registrations [l], each with its version, in the order in which they were made. *)
Definition logged `{UlidText} `{Jiff} (rs : Datatypes.list DispatcherRow) (l : Datatypes.list (Dispatcher * Z)) : Prop :=
  rs = (fun x => dispatcher_row (fst x) (snd x)) <$> l /\ Forall (fun x => dispatcher_wf (fst x)) l.

(** The registrations that FINAL leaves, and the one of an id. *)
Definition current (l : Datatypes.list (Dispatcher * Z)) : Datatypes.list (Dispatcher * Z) :=
  final (fun x => disp_id (fst x)) snd l.
Definition current_of (id : DispatcherId) (l : Datatypes.list (Dispatcher * Z)) : option (Dispatcher * Z) :=
  newest (fun x => disp_id (fst x)) snd id l.

Section state.
Context `{UlidTextLaws} `{JiffLaws} `{!Clock} `{!ChLike} `{!ServerOrder}.
Implicit Types (c : t) (l : Datatypes.list (Dispatcher * Z)).

Definition stored (d : Dispatcher) : Dispatcher := SqliteDispatcherProofs.stored d.

Lemma try_from_row d v : dispatcher_wf d -> try_from (dispatcher_row d v) = Ok (stored d).
Proof.
  intros (Hu & Hl & Ht). unfold try_from, dispatcher_row. cbn [row_id row_state row_provisioned_at row_location].
  rewrite parse_ulid_to_string, dispatcher_state_of_code, parse_second_as_second by done. cbn [ok_or].
  unfold as_u64, as_i64. rewrite wrap_to_signed by (lia || done). by destruct d as [[] [] ? ?].
Qed.

Lemma current_sub l : current l ⊆ l.
Proof. intros x. apply final_sub. Qed.

Lemma current_wf l : Forall (fun x => dispatcher_wf (fst x)) l -> Forall (fun x => dispatcher_wf (fst x)) (current l).
Proof. rewrite !Forall_forall. intros Hl x Hx. by apply Hl, current_sub. Qed.

Lemma visible_logged rs l : logged rs l -> visible rs = (fun x => dispatcher_row (fst x) (snd x)) <$> current l.
Proof.
  intros [-> Hwf]. unfold visible, current. rewrite final_fmap. f_equal. cbn [row_id row_version].
  apply final_ext; [done|]. rewrite Forall_forall in Hwf. intros a b Ha Hb. cbn.
  destruct (Hwf a Ha) as [Ua _], (Hwf b Hb) as [Ub _]. split; [|by intros ->].
  intros Heq. by apply dispatcher_ulid_inj, ulid_to_string_inj.
Qed.

Lemma ch_dispatcher_fields_row d v : fields (dispatcher_row d v) = SqliteDispatcherRegistry.dispatcher_row d ++ [("version"%string, VInt v)].
Proof. done. Qed.

Lemma ch_dispatcher_conds_row f d v :
  exact_list (fun _ => True) (dsf_states f) -> exact_list (fun h => u64 (h3_cell h)) (dsf_locations f) ->
  dispatcher_wf d ->
  forallb (ch_holds (fields (dispatcher_row d v))) (dispatcher_conds f) =
    InMemoryDispatcherRegistry.dispatcher_matches f (stored d).
Proof.
  intros Hs Hl Hd. rewrite ch_dispatcher_fields_row, ch_where_common.
  - by apply SqliteDispatcherProofs.satisfies_dispatcher.
  - unfold dispatcher_conds. solve_common.
Qed.

(** ** The operations *)

Lemma logged_snoc rs l d v : logged rs l -> dispatcher_wf d -> logged (rs ++ [dispatcher_row d v]) (l ++ [(d, v)]).
Proof. intros [-> Hwf] Hd. split; [by rewrite fmap_app|]. by rewrite Forall_app, Forall_singleton. Qed.

(** The version that a registration made now is given. *)
Definition version_now c : Z := as_u64 (as_millisecond (ts_now (ticks (tables c)))).

Lemma ch_dispatcher_register_wp d c l : dispatcher_wf d -> logged (rows (tables c)) l ->
  wp of_sqlx (register d) (fun _ e => logged (rows e) (l ++ [(d, version_now c)])) c.
Proof.
  intros Hd Hlog. eapply (wp_bind _ _ _ (fun row e => row = dispatcher_row d (version_now c) /\ rows e = rows (tables c))).
  { apply wp_now_bind. intros c' E. apply wp_ret. by rewrite E. }
  intros row c' [-> E]. apply wp_insert. cbn [rows]. unfold append. rewrite E. by apply logged_snoc.
Qed.

Lemma ch_dispatcher_register_failed d c c' e : register d c = (c', Err e) -> rows (tables c') = rows (tables c).
Proof.
  unfold register, from, bind, ret, now_millis. intros Hf%insert_failed. by rewrite Hf.
Qed.

Lemma ch_dispatcher_get_wp id c l : u128 (dispatcher_ulid id) -> logged (rows (tables c)) l ->
  wp of_sqlx (get id) (fun o e => e = tables c /\ o = stored ∘ fst <$> current_of id l) c.
Proof.
  intros Hid Hlog. pose proof Hlog as [_ Hwf]. apply wp_read_bind. intros c' E.
  rewrite (visible_logged _ _ Hlog).
  pose proof (ch_first_spec fields "id" (ulid_to_string (dispatcher_ulid id))
    ((fun x => dispatcher_row (fst x) (snd x)) <$> current l)) as Hfirst.
  pose proof (current_wf l Hwf) as Hcwf. rewrite Forall_forall in Hcwf.
  pose proof (final_NoDup (fun x : Dispatcher * Z => disp_id (fst x)) snd l) as Hnd. fold (current l) in Hnd.
  unfold current_of, newest. fold (current l).
  destruct (ch_first _ _ _ _) as [row|].
  - destruct Hfirst as [((d, v) & -> & Hin)%list_elem_of_fmap [= Hkey]].
    destruct (Hcwf _ Hin) as (Hu & Hd). cbn [fst snd] in *.
    assert (disp_id d = id) as <- by by apply dispatcher_ulid_inj, ulid_to_string_inj.
    eapply wp_lift; [rewrite try_from_row; [reflexivity|by split]|]. split; [done|].
    destruct (List.find _ (current l)) as [y|] eqn:Hf.
    + apply find_some in Hf as [Hy%list_elem_of_In Hk%bool_decide_eq_true].
      assert ((d, v) = y) as <- by (eapply (NoDup_fmap_inj_on (fun x : Dispatcher * Z => disp_id (fst x))); eauto). done.
    + apply list_elem_of_In in Hin. pose proof (find_none _ _ Hf _ Hin) as Hno. cbn in Hno.
      by rewrite bool_decide_true in Hno.
  - apply wp_ret. split; [done|]. destruct (List.find _ (current l)) as [y|] eqn:Hf; [|done].
    apply find_some in Hf as [Hy%list_elem_of_In Hk%bool_decide_eq_true]. exfalso.
    apply (Hfirst (dispatcher_row (fst y) (snd y))); [by apply (list_elem_of_fmap_2 (fun x => dispatcher_row (fst x) (snd x)))|].
    cbn. by rewrite Hk.
Qed.

Lemma get_frame id c c' r : get id c = (c', r) -> tables c' = tables c.
Proof.
  apply (read_then_frame of_sqlx (fun e => ch_first fields "id" (ulid_to_string (dispatcher_ulid id)) (visible (rows e)))).
  intros [row|] c1 c2 r'; unfold lift, ret; by intros [= <- _].
Qed.

(** The versions of [k] registrations made in a row. *)
Definition versions (from k : nat) : Datatypes.list Z :=
  (fun n => as_u64 (as_millisecond (ts_now n))) <$> seq from k.

Lemma batch_rows_wp ds c :
  wp of_sqlx (map_m (fun d => row <-- from d ;; _ <-- round_trip of_sqlx ;; ret row) ds)
    (fun rs e => rows e = rows (tables c) /\
       rs = zip_with dispatcher_row ds (versions (ticks (tables c)) (length ds))) c.
Proof.
  revert c. induction ds as [|d ds IH]; intros c; cbn [map_m]; [by apply wp_ret|].
  eapply (wp_bind _ _ _ (fun row e => row = dispatcher_row d (version_now c) /\
    e = mkEnv (rows (tables c)) (S (ticks (tables c))))).
  - eapply (wp_bind _ _ _ (fun row e => row = dispatcher_row d (version_now c) /\
      e = mkEnv (rows (tables c)) (S (ticks (tables c))))).
    { apply wp_now_bind. intros c' E. by apply wp_ret. }
    intros row c' [-> E]. eapply wp_bind; [by apply (wp_round_trip _ (fun _ e => e = tables c'))|].
    intros [] c2 E2. apply wp_ret. by rewrite E2.
  - intros row c' [-> E]. eapply wp_bind; [apply IH|]. intros rs c2 [E2 ->]. apply wp_ret.
    rewrite E2, E. by split.
Qed.

Lemma batch_register_wp ds c l : Forall dispatcher_wf ds -> logged (rows (tables c)) l ->
  wp of_sqlx (batch_register ds)
    (fun _ e => logged (rows e) (l ++ zip ds (versions (ticks (tables c)) (length ds)))) c.
Proof.
  intros Hds [Hrows Hwf]. destruct ds as [|d ds]; [apply wp_ret; by rewrite app_nil_r|].
  unfold batch_register. eapply wp_bind; [apply batch_rows_wp|]. intros rs c' [E ->]. apply wp_write.
  cbn [rows]. unfold append. rewrite E, Hrows. clear E.
  assert (length (d :: ds) = length (versions (ticks (tables c)) (length (d :: ds)))) as Hlen
    by (unfold versions; by rewrite length_fmap, length_seq).
  revert Hlen. generalize (versions (ticks (tables c)) (length (d :: ds))). generalize dependent (d :: ds).
  clear d ds. intros ds Hds vs Hlen. split.
  - rewrite fmap_app. f_equal. clear Hds. revert vs Hlen. induction ds as [|d ds IH]; intros [|v vs]; try done.
    intros [= Hlen]. cbn. by rewrite IH.
  - apply Forall_app. split; [done|]. clear -Hds. revert vs. induction Hds as [|d ds Hd _ IH]; intros [|v vs]; constructor; auto.
Qed.

Lemma stored_wf' d : dispatcher_wf d -> dispatcher_wf (stored d).
Proof. intros Hd. by destruct (stored_wf d Hd). Qed.

Lemma current_of_wf id l d v : Forall (fun x => dispatcher_wf (fst x)) l -> current_of id l = Some (d, v) ->
  dispatcher_wf d /\ disp_id d = id.
Proof.
  intros Hwf Hf. apply find_some in Hf as [Hin%list_elem_of_In Hk%bool_decide_eq_true].
  split; [|done]. apply final_sub in Hin. rewrite Forall_forall in Hwf. exact (Hwf _ Hin).
Qed.

(** The registration of an id after one more was made. *)
Lemma current_of_snoc id l d v :
  current_of id (l ++ [(d, v)]) =
    if decide (disp_id d = id) then
      Some (match current_of id l with Some (d', v') => if v <? v' then (d', v') else (d, v) | None => (d, v) end)
    else current_of id l.
Proof. unfold current_of. rewrite newest_snoc. cbn. by destruct (newest _ _ _ l) as [[]|]. Qed.

Lemma suspend_spec id c c' res l : u128 (dispatcher_ulid id) -> logged (rows (tables c)) l -> suspend id c = (c', res) ->
  match res with
  | Ok _ => ∃ d v, current_of id l = Some (d, v) /\
      logged (rows (tables c')) (l ++ [(SqliteDispatcherRegistry.suspended (stored d), version_now c)])
  | Err e => rows (tables c') = rows (tables c) /\
      (e = Failed NotFound /\ current_of id l = None \/ e = of_sqlx Unavailable)
  end.
Proof.
  intros Hid Hlog Hsus. unfold suspend, bind in Hsus. destruct (get id c) as [c1 o] eqn:Hget.
  pose proof (get_frame _ _ _ _ Hget) as E1. eapply wp_elim in Hget; [|by eapply ch_dispatcher_get_wp].
  destruct o as [o|e]; [|destruct Hget as [-> _]; injection Hsus as <- <-; rewrite E1; auto].
  destruct Hget as [_ ->]. destruct (current_of id l) as [[d v]|] eqn:Hcur; cbn in Hsus;
    [|injection Hsus as <- <-; rewrite E1; auto].
  pose proof Hlog as [_ Hwf]. destruct (current_of_wf _ _ _ _ Hwf Hcur) as [Hd _].
  assert (dispatcher_wf (SqliteDispatcherRegistry.suspended (stored d))) as Hsd
    by (destruct (stored_wf' d Hd) as (? & ? & ?); by split_and!).
  assert (version_now c1 = version_now c) as Ev by (unfold version_now; by rewrite E1).
  rewrite <- E1 in Hlog. pose proof Hsus as Hsus'. change (register
    (SqliteDispatcherRegistry.suspended (stored d)) c1 = (c', res)) in Hsus.
  eapply wp_elim in Hsus; [|by apply ch_dispatcher_register_wp]. rewrite Ev in Hsus.
  destruct res as [[]|e]; [by exists d, v|]. apply ch_dispatcher_register_failed in Hsus'. rewrite Hsus', E1. split; [done|].
  right. by destruct Hsus.
Qed.
End state.
End ClickDispatcherProofs.

(** ** Properties *)

Section properties.
Context `{UlidTextLaws} `{JiffLaws} `{!Clock} `{!ChLike} `{!ServerOrder}.
Import ClickDispatcherProofs.
Implicit Types c : ClickHouseDispatcherRegistry.t.

(** the ClickHouse dispatcher registry answers the registration of an id with the greatest
    version, of equal ones the last: a registration that the clock dates before an earlier one of
    the same id is accepted and never seen; in every other case it replaces it.  [suspend] of an id
    that is registered registers what [get] answers in the suspended state, and of another answers
    NotFound; a batch is one INSERT.  An operation that fails leaves the rows as they were. *)
Theorem clickhouse_dispatchers_latest c l : logged (rows (tables c)) l ->
  (∀ d c1 res c2 o, dispatcher_wf d -> ClickHouseDispatcherRegistry.register d c = (c1, res) ->
     match res with
     | Ok _ => logged (rows (tables c1)) (l ++ [(d, version_now c)]) /\
         (ClickHouseDispatcherRegistry.get (disp_id d) c1 = (c2, Ok o) ->
          o = Some (stored (match current_of (disp_id d) l with
                            | Some (d', v') => if version_now c <? v' then d' else d
                            | None => d
                            end)))
     | Err e => rows (tables c1) = rows (tables c) /\ e = of_sqlx Unavailable /\ faulty c
     end) /\
  (∀ ds c' res, Forall dispatcher_wf ds -> ClickHouseDispatcherRegistry.batch_register ds c = (c', res) ->
     match res with
     | Ok _ => logged (rows (tables c')) (l ++ zip ds (versions (ticks (tables c)) (length ds)))
     | Err e => e = of_sqlx Unavailable /\ faulty c
     end) /\
  (∀ id c' res, u128 (dispatcher_ulid id) -> ClickHouseDispatcherRegistry.suspend id c = (c', res) ->
     match res with
     | Ok _ => ∃ d v, current_of id l = Some (d, v) /\
         logged (rows (tables c')) (l ++ [(SqliteDispatcherRegistry.suspended (stored d), version_now c)])
     | Err e => rows (tables c') = rows (tables c) /\
         (e = Failed NotFound /\ current_of id l = None \/ e = of_sqlx Unavailable)
     end).
Proof.
  intros Hlog. split_and!.
  - intros d c1 res c2 o Hd Hreg. pose proof Hreg as Hreg'. eapply wp_elim in Hreg; [|by eapply ch_dispatcher_register_wp].
    destruct res as [[]|e]; [|split; [by eapply ch_dispatcher_register_failed|done]]. split; [done|]. intros Hget.
    eapply wp_elim in Hget; [|apply ch_dispatcher_get_wp; [by destruct Hd|exact Hreg]]. destruct Hget as [_ ->].
    rewrite current_of_snoc, decide_True by done. cbn. f_equal. unfold compose. f_equal.
    destruct (current_of (disp_id d) l) as [[d' v']|]; [|done]. by destruct (_ <? v').
  - intros ds c' res Hds Hb. eapply wp_elim in Hb; [exact Hb|by eapply batch_register_wp].
  - intros id c' res Hid Hsus. by eapply suspend_spec in Hsus.
Qed.

(** for a filter whose lists are not empty, the ClickHouse registry lists a page of the
    dispatchers that the in-memory filter selects among the current registrations, in an order that
    the in-memory comparison allows, and counts as many. *)
Theorem clickhouse_dispatcher_list_agrees options c l :
  logged (rows (tables c)) l -> page_fits (pagination_opt options) ->
  exact_list (fun _ => True) (dsf_states (filter_opt options)) ->
  exact_list (fun h => u64 (h3_cell h)) (dsf_locations (filter_opt options)) ->
  let accepted := List.filter (InMemoryDispatcherRegistry.dispatcher_matches (filter_opt options))
                    ((fun x => stored (fst x)) <$> current l) in
  (∀ c' res, ClickHouseDispatcherRegistry.list options c = (c', res) ->
     match res with
     | Ok ds => ∃ s offset n, pagination_opt options = Pagination.Offset offset n /\
         ds = take (Z.to_nat n) (drop (Z.to_nat offset) s) /\ s ≡ₚ accepted /\
         StronglySorted (cmp_le (InMemoryDispatcherRegistry.dispatcher_cmp (sort_by_opt options) (sort_order_opt options))) s
     | Err e => e = of_sqlx Unavailable /\ faulty c
     end) /\
  (∀ c' res, ClickHouseDispatcherRegistry.count (Some (filter_opt options)) c = (c', res) ->
     match res with
     | Ok n => n = Z.of_nat (length accepted)
     | Err e => e = of_sqlx Unavailable /\ faulty c
     end).
Proof.
  intros Hlog Hp Hs Hl accepted. pose proof (current_wf l (proj2 Hlog)) as Hwf.
  split; intros c' res Hop.
  - eapply wp_elim in Hop; [|eapply (ch_list_wp ClickHouseDispatcherRegistry.fields
      (fun x : Dispatcher * Z => ClickHouseDispatcherRegistry.dispatcher_row (fst x) (snd x))
      ClickHouseDispatcherRegistry.try_from (fun x => stored (fst x)) (fun x => dispatcher_wf (fst x)))].
    + destruct res as [ds|e]; [|exact Hop]. destruct Hop as (_ & s & -> & Hperm & Hsort).
      destruct (ch_page_offset (ClickHouseDispatcherRegistry.order_by (sort_by_opt options)) (sort_order_opt options)
        _ s Hp) as (offset & n & Hpage & ->). by exists s, offset, n.
    + intros x Hx. by apply try_from_row.
    + intros x Hx. by apply ch_dispatcher_conds_row.
    + intros a b (_ & _ & Ha) (_ & _ & Hb). rewrite ch_cmp_row_cmp by (by destruct options as [? [] ? []]).
      unfold row_cmp, InMemoryDispatcherRegistry.dispatcher_cmp, directed.
      destruct options as [f [] o [n m|z n]]; cbn [sort_by_opt sort_order_opt pagination_opt ch_page direction order_col
        ClickHouseDispatcherRegistry.order_by];
        change (col "provisioned_at" (ClickHouseDispatcherRegistry.fields (ClickHouseDispatcherRegistry.dispatcher_row ?d ?v)))
          with (VInt (as_second (disp_provisioned_at d))); rewrite value_cmp_second by done; by destruct o.
    + by apply visible_logged.
    + done.
  - eapply wp_elim in Hop; [|eapply (ch_count_wp ClickHouseDispatcherRegistry.fields
      (fun x : Dispatcher * Z => ClickHouseDispatcherRegistry.dispatcher_row (fst x) (snd x))
      (fun x => stored (fst x)) (fun x => dispatcher_wf (fst x)))].
    + destruct res as [n|e]; [by destruct Hop as [_ ->]|exact Hop].
    + intros x Hx. by apply ch_dispatcher_conds_row.
    + by apply visible_logged.
    + done.
Qed.
End properties.

(** ** Witnesses *)

Module ClickDispatcherWitness.
Import ClickDispatcherProofs.
#[local] Existing Instance ulid_crockford.
#[local] Existing Instance ulid_crockford_laws.
#[local] Existing Instance jiff_ns.
#[local] Existing Instance jiff_ns_laws.
#[local] Existing Instance server_order_std.
#[local] Instance clock : Clock := fun n => mkTimestamp (match n with 0%nat => 5000000000 | _ => 3000000000 end).
#[local] Instance like_never : ChLike := fun _ _ => false.

Definition empty : ClickHouseDispatcherRegistry.t := calm (mkEnv [] 0).
Lemma ch_dispatcher_empty_logged : logged (rows (tables empty)) [].
Proof. split; [reflexivity|constructor]. Qed.

(** Dispatcher 1 is registered at second 5. *)
Definition one : ClickHouseDispatcherRegistry.t :=
  fst (ClickHouseDispatcherRegistry.register (sample_dispatcher 1) empty).
Definition moved : Dispatcher :=
  mkDispatcher (mkDispatcherId 1) (mkH3Cell 99) DispatcherState.Active (mkTimestamp 2000000000).

Lemma one_logged : logged (rows (tables one)) [(sample_dispatcher 1, 5000)].
Proof. split; [vm_compute; reflexivity|]. constructor; [apply SqliteDispatcherWitness.sample_dispatcher_wf; lia|constructor]. Qed.

Lemma moved_wf : dispatcher_wf moved.
Proof.
  unfold dispatcher_wf, moved. cbn -[Z.mul Z.pow is_unsigned valid_timestamp].
  unfold is_unsigned, valid_timestamp, ts_min_second, ts_max_second. cbn -[Z.mul Z.pow]. split_and!; lia.
Qed.

(** The clock is at second 3 when it is registered again. *)
Lemma clickhouse_dispatchers_latest_witness :
  let '(c1, res) := ClickHouseDispatcherRegistry.register moved one in
  res = Ok tt /\ snd (ClickHouseDispatcherRegistry.get (mkDispatcherId 1) c1) = Ok (Some (sample_dispatcher 1)).
Proof.
  destruct (ClickHouseDispatcherRegistry.register moved one) as [c1 res] eqn:Hreg.
  assert (res = Ok tt) as -> by (vm_compute in Hreg; injection Hreg as <- <-; reflexivity). split; [reflexivity|].
  destruct (clickhouse_dispatchers_latest one _ one_logged) as [Hregister _].
  assert (∃ c2 o, ClickHouseDispatcherRegistry.get (mkDispatcherId 1) c1 = (c2, Ok o)) as (c2 & o & Hget)
    by (vm_compute in Hreg; injection Hreg as <-; eexists _, _; vm_compute; reflexivity).
  destruct (Hregister moved c1 _ c2 o moved_wf Hreg) as [_ Ho]. rewrite Hget. cbn. f_equal.
  rewrite (Ho Hget). vm_compute. reflexivity.
Defined.

Definition any_dispatcher : QueryOptions DispatcherFilter DispatcherSortBy.t :=
  mkQueryOptions DispatcherFilter_default DispatcherSortBy.ProvisionAt SortOrder.Desc (Pagination.Offset 0 10).

Lemma clickhouse_dispatcher_list_agrees_witness :
  snd (ClickHouseDispatcherRegistry.list any_dispatcher one) = Ok [sample_dispatcher 1] /\
  snd (ClickHouseDispatcherRegistry.count (Some DispatcherFilter_default) one) = Ok 1.
Proof.
  split; [vm_compute; reflexivity|].
  destruct (clickhouse_dispatcher_list_agrees any_dispatcher one _ one_logged ltac:(simpl; lia) I I) as [_ Hcount].
  specialize (Hcount _ _ (surjective_pairing _)).
  change (ClickHouseDispatcherRegistry.count (Some (filter_opt any_dispatcher)) one) with
    (ClickHouseDispatcherRegistry.count (Some DispatcherFilter_default) one) in Hcount.
  destruct (snd (ClickHouseDispatcherRegistry.count (Some DispatcherFilter_default) one)) as [n|e] eqn:Hs.
  - rewrite Hcount. vm_compute. reflexivity.
  - vm_compute in Hs. discriminate.
Defined.
End ClickDispatcherWitness.
