(* ===== verification/ClickReading.v ===== *)
(** * The ClickHouse reading registry: ersha-prime/src/registry/clickhouse/reading.rs

    The table is a MergeTree: a reading that is stored again is there twice, [get] answers either
    row, and [list] and [count] see both.  The columns are those of the SQLite registry, so the
    meaning of the conditions is taken from SqliteReading.v. *)
From Stdlib Require Import ZArith Lia Strings.String.
From stdpp Require Import base gmap strings list pretty sorting.
From S2P Require Import Prelude Platform Core Samples Filter Registry InMemory Sql SqlCodec SqliteReading ClickHouse.
Open Scope Z_scope.

Module ClickHouseReadingRegistry.
(** [ersha-prime/src/registry/clickhouse/reading.rs:34-45] ReadingRow *)
Record ReadingRow := mkReadingRow {
  row_id : string;
  row_device_id : string;
  row_dispatcher_id : string;
  row_sensor_id : string;
  row_metric_type : Z;
  row_metric_value : f64;
  row_location : Z;
  row_confidence : Z;
  row_timestamp : Z
}.

(** The columns of the table. *)
Definition fields (row : ReadingRow) : SRow :=
  [("id", VText (row_id row)); ("device_id", VText (row_device_id row));
   ("dispatcher_id", VText (row_dispatcher_id row)); ("sensor_id", VText (row_sensor_id row));
   ("metric_type", VInt (row_metric_type row)); ("metric_value", VReal (row_metric_value row));
   ("location", VInt (row_location row)); ("confidence", VInt (row_confidence row));
   ("timestamp", VInt (row_timestamp row))]%string.

(** [ersha-prime/src/registry/clickhouse/reading.rs:122-125] ClickHouseReadingRegistry: the rows of sensor_readings *)
Definition t : Type := Conn (Env (list ReadingRow)).

(** [ersha-prime/src/registry/clickhouse/reading.rs:112-120] disect_metric *)
Definition disect_metric : SensorMetric.t -> Z * f64 := SqlCodec.disect_metric.

Section operations.
Context `{!UlidText} `{!Jiff} `{!ChLike} `{!ServerOrder}.
Abbreviation Op := (ChOp (list ReadingRow)).

(** [ersha-prime/src/registry/clickhouse/reading.rs:50-92] TryFrom<ReadingRow> for SensorReading *)
Definition try_from (row : ReadingRow) : result SensorReading ChFail :=
  let? id := parse_ulid (row_id row) in
  let? device_id := parse_ulid (row_device_id row) in
  let? dispatcher_id := parse_ulid (row_dispatcher_id row) in
  let? sensor_id := parse_ulid (row_sensor_id row) in
  let? metric := metric_of (row_metric_type row) (row_metric_value row) in
  let? timestamp := parse_second (row_timestamp row) in
  Ok (mkSensorReading (mkReadingId id) (mkDeviceId device_id) (mkDispatcherId dispatcher_id) metric
        (mkH3Cell (as_u64 (row_location row))) (mkPercentage (as_u8 (row_confidence row))) timestamp
        (mkSensorId sensor_id)).

(** [ersha-prime/src/registry/clickhouse/reading.rs:95-110] From<&SensorReading> for ReadingRow *)
Definition from (reading : SensorReading) : ReadingRow :=
  let (metric_type, metric_value) := disect_metric (rd_metric reading) in
  mkReadingRow (ulid_to_string (reading_ulid (rd_id reading))) (ulid_to_string (device_ulid (rd_device_id reading)))
    (ulid_to_string (dispatcher_ulid (rd_dispatcher_id reading))) (ulid_to_string (sensor_ulid (rd_sensor_id reading)))
    metric_type metric_value (as_i64 (h3_cell (rd_location reading))) (percent (rd_confidence reading))
    (as_second (rd_timestamp reading)).

Definition append (rs rows : list ReadingRow) : list ReadingRow := rows ++ rs.

(** [ersha-prime/src/registry/clickhouse/reading.rs:139-145] store *)
Definition store (reading : SensorReading) : Op unit := insert_rows append [from reading].

(** [ersha-prime/src/registry/clickhouse/reading.rs:147-155] get *)
Definition get (id : ReadingId) : Op (option SensorReading) :=
  row <-- select (ch_first fields "id" (ulid_to_string (reading_ulid id))) ;;
  match row with Some row => lift (map_ok Some (try_from row)) | None => ret None end.

(** [ersha-prime/src/registry/clickhouse/reading.rs:157-169] batch_store *)
Definition batch_store (readings : list SensorReading) : Op unit :=
  match readings with
  | [] => ret tt
  | _ => insert_rows append (from <$> readings)
  end.

(** [ersha-prime/src/registry/clickhouse/reading.rs:246-334] build_where_clause *)
Definition clauses (filter : ReadingFilter) : Clauses :=
  let x := ([], []) in
  let x := push_ids "id" (fun id => ulid_to_string (reading_ulid id)) (rf_ids filter) x in
  let x := push_ids "device_id" (fun id => ulid_to_string (device_ulid id)) (rf_device_ids filter) x in
  let x := push_ids "sensor_id" (fun id => ulid_to_string (sensor_ulid id)) (rf_sensor_ids filter) x in
  let x := push_ids "dispatcher_id" (fun id => ulid_to_string (dispatcher_ulid id)) (rf_dispatcher_ids filter) x in
  let x := push_values "metric_type" metric_type_code (rf_metric_types filter) x in
  let x := push_values "location" cell_code (rf_locations filter) x in
  let x := push_format (fun after => "timestamp >= " +:+ pretty (as_second after)) (rf_timestamp_after filter) x in
  let x := push_format (fun before => "timestamp <= " +:+ pretty (as_second before)) (rf_timestamp_before filter) x in
  push_format (fun range => "confidence BETWEEN " +:+ pretty (range_start range) +:+ " AND " +:+ pretty (range_end range))
    (rf_confidence_range filter) x.

(** [ersha-prime/src/registry/clickhouse/reading.rs:199-212] build_count_query *)
Definition build_count_query (filter : option ReadingFilter) : string * list string :=
  match filter with
  | Some filter => count_query "SELECT count() FROM sensor_readings" (clauses filter)
  | None => ("SELECT count() FROM sensor_readings"%string, [])
  end.

(** [ersha-prime/src/registry/clickhouse/reading.rs:223-227] ORDER BY *)
Definition order_by (sort_by : ReadingSortBy.t) : string :=
  match sort_by with
  | ReadingSortBy.Timestamp => "timestamp"
  | ReadingSortBy.Confidence => "confidence"
  | ReadingSortBy.DeviceId => "device_id"
  end.

(** [ersha-prime/src/registry/clickhouse/reading.rs:214-244] build_list_query *)
Definition build_list_query (options : QueryOptions ReadingFilter ReadingSortBy.t) : string * list string :=
  list_query "SELECT ?fields FROM sensor_readings" (clauses (filter_opt options))
    (order_by (sort_by_opt options)) (sort_order_opt options) (pagination_opt options).

(** [ersha-prime/src/registry/clickhouse/reading.rs:171-181] count *)
Definition count (filter : option ReadingFilter) : Op Z :=
  select (fun rows => Z.of_nat (length (ch_where fields (from_option reading_conds [] filter) rows))).

(** [ersha-prime/src/registry/clickhouse/reading.rs:183-196] list *)
Definition list (options : QueryOptions ReadingFilter ReadingSortBy.t) : Op (list SensorReading) :=
  rows <-- select (fun rows => ch_select fields (reading_conds (filter_opt options))
             (ch_page (order_by (sort_by_opt options)) (sort_order_opt options) (pagination_opt options)) rows) ;;
  lift (collect (try_from <$> rows)).

(** [ersha-prime/src/registry/clickhouse/reading.rs:136-197] impl ReadingRegistry *)
#[export] Instance registry : ReadingRegistry t ChFail := {|
  rdr_store := store; rdr_get := get; rdr_batch_store := batch_store; rdr_count := count; rdr_list := list
|}.
End operations.
End ClickHouseReadingRegistry.
Export (hints) ClickHouseReadingRegistry.

Module ClickReadingProofs.
Import ClickHouseReadingRegistry.

Section text.
Context `{!UlidText} `{!Jiff}.

Lemma ch_reading_clauses_rendered f : clauses f = rendered (reading_conds f).
Proof.
  unfold clauses, reading_conds. change ([], []) with (rendered []).
  rewrite (push_ids_rendered (plain "id")), (push_ids_rendered (plain "device_id")),
    (push_ids_rendered (plain "sensor_id")), (push_ids_rendered (plain "dispatcher_id")),
    (push_values_rendered (plain "metric_type")), (push_values_rendered (plain "location")).
  rewrite (push_format_rendered _ (fun t => AtLeast (plain "timestamp") (second_value t))),
    (push_format_rendered _ (fun t => AtMost (plain "timestamp") (second_value t))),
    (push_format_rendered _ (fun r => Between (plain "confidence") (VInt (range_start r)) (VInt (range_end r)))) by done.
  by rewrite <- !(assoc_L (++)).
Qed.
End text.

Section state.
Context `{UlidTextLaws} `{JiffLaws} `{!ChLike} `{!ServerOrder}.
Implicit Types (c : t) (l : Datatypes.list SensorReading).

Definition stored (r : SensorReading) : SensorReading := SqliteReadingProofs.stored r.

Lemma try_from_from r : reading_wf r -> try_from (from r) = Ok (stored r).
Proof.
  intros (W1 & W2 & W3 & W4 & W5 & W6 & W7 & W8). unfold try_from, from, disect_metric.
  pose proof (metric_of_disect (E := ClickHouseError) (rd_metric r) W5) as Hmetric.
  destruct (SqlCodec.disect_metric (rd_metric r)) as [mt mv]. cbn [fst snd] in Hmetric.
  cbn [row_id row_device_id row_dispatcher_id row_sensor_id row_metric_type row_metric_value row_location
    row_confidence row_timestamp].
  rewrite !parse_ulid_to_string, Hmetric, parse_second_as_second by done.
  unfold as_u64, as_i64, as_u8. rewrite wrap_to_signed, wrap_small by (lia || done).
  by destruct r as [[] [] [] ? [] [] ? []].
Qed.

Lemma fields_from r : fields (from r) = SqliteReadingRegistry.reading_row r ++ [].
Proof.
  rewrite app_nil_r. unfold from, fields, SqliteReadingRegistry.reading_row, disect_metric.
  by destruct (SqlCodec.disect_metric (rd_metric r)).
Qed.

Lemma ch_reading_conds_row f r : SqliteReadingProofs.filter_exact f -> reading_wf r ->
  forallb (ch_holds (fields (from r))) (reading_conds f) = InMemoryReadingRegistry.reading_matches f (stored r).
Proof.
  intros Hf Hr. rewrite fields_from, ch_where_common.
  - by apply SqliteReadingProofs.satisfies_reading.
  - destruct (SqliteReadingProofs.reading_row_columns r) as (C1 & C2 & C3 & C4 & C5 & C6 & C7 & C8).
    unfold reading_conds. solve_common.
Qed.

(** The readings the table holds, in the order in which they were stored, each as often as it was. *)
Definition logged (rs : Datatypes.list ReadingRow) l : Prop := rs = from <$> l /\ Forall reading_wf l.

Lemma insert_wp ls c l : Forall reading_wf ls -> logged (rows (tables c)) l ->
  wp of_sqlx (insert_rows append (from <$> ls)) (fun _ e => logged (rows e) (l ++ ls)) c.
Proof.
  intros Hls [Hrows Hwf]. apply wp_insert. cbn [rows]. unfold append. rewrite Hrows, <- fmap_app.
  split; [done|by apply Forall_app].
Qed.

Lemma ch_reading_get_wp id c l : u128 (reading_ulid id) -> logged (rows (tables c)) l ->
  wp of_sqlx (get id) (fun o e => e = tables c /\
    match o with
    | Some r' => ∃ r, r ∈ l /\ rd_id r = id /\ r' = stored r
    | None => ∀ r, r ∈ l -> rd_id r <> id
    end) c.
Proof.
  intros Hid [Hrows Hwf]. rewrite Forall_forall in Hwf. apply wp_read_bind. intros c' E. rewrite Hrows.
  pose proof (ch_first_spec fields "id" (ulid_to_string (reading_ulid id)) (from <$> l)) as Hfirst.
  destruct (ch_first _ _ _ _) as [row|].
  - destruct Hfirst as [(r & -> & Hin)%list_elem_of_fmap Hkey]. pose proof (Hwf r Hin) as Hr.
    rewrite fields_from, app_nil_r in Hkey.
    destruct (SqliteReadingProofs.reading_row_columns r) as (C1 & _). rewrite (col_column _ _ _ C1) in Hkey.
    injection Hkey as Hkey. eapply wp_lift; [by rewrite try_from_from|]. split; [done|]. exists r. split_and!; [done| |done].
    destruct Hr as [Hu _]. by apply reading_ulid_inj, ulid_to_string_inj.
  - apply wp_ret. split; [done|]. intros r Hin <-. apply (Hfirst (from r)); [by apply list_elem_of_fmap_2|].
    rewrite fields_from, app_nil_r. apply col_column, SqliteReadingProofs.reading_row_columns.
Qed.

Lemma ch_cmp_reading sort_by o p r r' : reading_wf r -> reading_wf r' ->
  ch_cmp (ch_page (order_by sort_by) o p) (fields (from r)) (fields (from r')) =
    InMemoryReadingRegistry.reading_cmp sort_by o (stored r) (stored r').
Proof.
  intros Hr Hr'. unfold stored.
  rewrite <- (SqliteReadingProofs.row_cmp_reading sort_by o p) by done. rewrite !fields_from, !app_nil_r.
  destruct (SqliteReadingProofs.reading_row_columns r) as (_ & C2 & _ & _ & _ & _ & C7 & C8).
  destruct (SqliteReadingProofs.reading_row_columns r') as (_ & D2 & _ & _ & _ & _ & D7 & D8).
  rewrite ch_cmp_row_cmp.
  - unfold cmp_on, row_cmp. by destruct sort_by, p.
  - destruct sort_by, p; cbn; by rewrite ?(col_column _ _ _ C2), ?(col_column _ _ _ C7), ?(col_column _ _ _ C8).
  - destruct sort_by, p; cbn; by rewrite ?(col_column _ _ _ D2), ?(col_column _ _ _ D7), ?(col_column _ _ _ D8).
Qed.
End state.
End ClickReadingProofs.

(** ** Properties *)

Section properties.
Context `{UlidTextLaws} `{JiffLaws} `{!ChLike} `{!ServerOrder}.
Import ClickReadingProofs.
Implicit Types c : ClickHouseReadingRegistry.t.

(** the ClickHouse reading registry is a log: storing appends, a batch in one INSERT that is
    there as a whole or not at all, and storing a reading again adds it again; [get] answers a
    stored reading of the id exactly when there is one; [list] pages through the log's readings
    that the in-memory filter accepts, with their repetitions, and [count] counts them. *)
Theorem clickhouse_readings_log c l : logged (rows (tables c)) l ->
  (∀ rs c' res, Forall reading_wf rs -> ClickHouseReadingRegistry.batch_store rs c = (c', res) ->
     match res with
     | Ok _ => logged (rows (tables c')) (l ++ rs)
     | Err e => tables c' = tables c /\ e = of_sqlx Unavailable /\ faulty c
     end) /\
  (∀ id c' res, u128 (reading_ulid id) -> ClickHouseReadingRegistry.get id c = (c', res) ->
     match res with
     | Ok (Some r') => ∃ r, r ∈ l /\ rd_id r = id /\ r' = stored r
     | Ok None => ∀ r, r ∈ l -> rd_id r <> id
     | Err e => e = of_sqlx Unavailable /\ faulty c
     end) /\
  (∀ options c' res, SqliteReadingProofs.filter_exact (filter_opt options) -> page_fits (pagination_opt options) ->
     ClickHouseReadingRegistry.list options c = (c', res) ->
     match res with
     | Ok rs => ∃ s offset n, pagination_opt options = Pagination.Offset offset n /\
         rs = take (Z.to_nat n) (drop (Z.to_nat offset) s) /\
         s ≡ₚ List.filter (InMemoryReadingRegistry.reading_matches (filter_opt options)) (stored <$> l) /\
         StronglySorted (cmp_le (InMemoryReadingRegistry.reading_cmp (sort_by_opt options) (sort_order_opt options))) s
     | Err e => e = of_sqlx Unavailable /\ faulty c
     end) /\
  (∀ f c' res, SqliteReadingProofs.filter_exact f -> ClickHouseReadingRegistry.count (Some f) c = (c', res) ->
     match res with
     | Ok n => n = Z.of_nat (length (List.filter (InMemoryReadingRegistry.reading_matches f) (stored <$> l)))
     | Err e => e = of_sqlx Unavailable /\ faulty c
     end).
Proof.
  intros Hlog. pose proof Hlog as [Hrows Hwf]. split_and!.
  - intros rs c' res Hrs Hb. destruct rs as [|r rs]; [injection Hb as <- <-; by rewrite app_nil_r|].
    change (ClickHouseReadingRegistry.batch_store (r :: rs))
      with (insert_rows ClickHouseReadingRegistry.append (ClickHouseReadingRegistry.from <$> (r :: rs))) in Hb.
    pose proof Hb as Hb'. eapply wp_elim in Hb; [|by apply insert_wp].
    destruct res as [[]|e]; [exact Hb|]. split; [by eapply insert_failed|exact Hb].
  - intros id c' res Hid Hg. eapply wp_elim in Hg; [|by eapply ch_reading_get_wp]. destruct res as [[r'|]|e]; [by destruct Hg..|done].
  - intros options c' res Hf Hp Hop.
    eapply wp_elim in Hop; [|eapply (ch_list_wp ClickHouseReadingRegistry.fields ClickHouseReadingRegistry.from
      ClickHouseReadingRegistry.try_from stored reading_wf)].
    + destruct res as [rs|e]; [|exact Hop]. destruct Hop as (_ & s & -> & Hperm & Hsort).
      destruct (ch_page_offset (ClickHouseReadingRegistry.order_by (sort_by_opt options)) (sort_order_opt options)
        _ s Hp) as (offset & n & Hpage & ->). by exists s, offset, n.
    + intros r Hr. by apply try_from_from.
    + intros r Hr. by apply ch_reading_conds_row.
    + intros r r' Hr Hr'. by apply ch_cmp_reading.
    + exact Hrows.
    + exact Hwf.
  - intros f c' res Hf Hop.
    eapply wp_elim in Hop; [|eapply (ch_count_wp ClickHouseReadingRegistry.fields ClickHouseReadingRegistry.from
      stored reading_wf)].
    + destruct res as [n|e]; [by destruct Hop as [_ ->]|exact Hop].
    + intros r Hr. by apply ch_reading_conds_row.
    + exact Hrows.
    + exact Hwf.
Qed.
End properties.

(** ** Witnesses *)

Module ClickReadingWitness.
Import ClickReadingProofs.
#[local] Existing Instance ulid_crockford.
#[local] Existing Instance ulid_crockford_laws.
#[local] Existing Instance jiff_ns.
#[local] Existing Instance jiff_ns_laws.
#[local] Existing Instance server_order_std.
#[local] Instance like_never : ChLike := fun _ _ => false.

Definition empty : ClickHouseReadingRegistry.t := calm (mkEnv [] 0).

(** A reading stored twice, as an uploader that retries does. *)
Definition twice : list SensorReading := [sample_reading 1 7; sample_reading 1 7].
Definition retried : ClickHouseReadingRegistry.t := fst (ClickHouseReadingRegistry.batch_store twice empty).

Lemma clickhouse_readings_log_witness :
  logged (rows (tables retried)) twice /\
  snd (ClickHouseReadingRegistry.count (Some ReadingFilter_default) retried) = Ok 2.
Proof.
  assert (logged (rows (tables empty)) []) as Hempty by (split; [reflexivity|constructor]).
  assert (Forall reading_wf twice) as Htwice
    by (do 2 (constructor; [apply SqliteReadingWitness.sample_reading_wf; lia|]); constructor).
  destruct (clickhouse_readings_log empty [] Hempty) as (Hstore & _).
  destruct (ClickHouseReadingRegistry.batch_store twice empty) as [c' res] eqn:Hb.
  assert (retried = c') as Hc by (unfold retried; rewrite Hb; reflexivity).
  specialize (Hstore twice _ _ Htwice Hb). rewrite Hc. split; [|rewrite <- Hc; vm_compute; reflexivity].
  destruct res as [[]|e]; [exact Hstore|]. destruct Hstore as (_ & _ & Hf). exfalso. apply elem_of_nil in Hf. exact Hf.
Defined.
End ClickReadingWitness.
