(* ===== verification/ClickDevice.v ===== *)
(** * The ClickHouse device registry: ersha-prime/src/registry/clickhouse/device.rs

    Two ReplacingMergeTrees: devices by id, whose row has the number of sensors it was registered
    with, and sensors by device and id.  A registration writes both in two INSERTs, [add_sensor]
    only the second table, without asking whether the device is there; no operation removes a
    sensor, and the count in the row is that of the last registration. *)
From Stdlib Require Import ZArith Lia Strings.String.
From stdpp Require Import base gmap strings list pretty sorting.
From S2P Require Import Prelude Platform Core Samples Filter Registry InMemory Sql SqlCodec SqliteDevice ClickHouse.
Open Scope Z_scope.

Module ClickHouseDeviceRegistry.
(** [ersha-prime/src/registry/clickhouse/device.rs:45-55] DeviceRow *)
Record DeviceRow := mkDeviceRow {
  d_id : string;
  d_kind : Z;
  d_state : Z;
  d_location : Z;
  d_manufacturer : option string;
  d_provisioned_at : Z;
  d_sensor_count : Z;
  d_version : Z
}.

(** [ersha-prime/src/registry/clickhouse/device.rs:57-65] SensorRow *)
Record SensorRow := mkSensorRow {
  s_id : string;
  s_kind : Z;
  s_metric_type : Z;
  s_metric_value : f64;
  s_device_id : string;
  s_version : Z
}.

(** The columns of the two tables. *)
Definition device_fields (row : DeviceRow) : SRow :=
  [("id", VText (d_id row)); ("kind", VInt (d_kind row)); ("state", VInt (d_state row));
   ("location", VInt (d_location row)); ("manufacturer", text_opt (d_manufacturer row));
   ("provisioned_at", VInt (d_provisioned_at row)); ("sensor_count", VInt (d_sensor_count row));
   ("version", VInt (d_version row))]%string.
Definition sensor_fields (row : SensorRow) : SRow :=
  [("id", VText (s_id row)); ("kind", VInt (s_kind row)); ("metric_type", VInt (s_metric_type row));
   ("metric_value", VReal (s_metric_value row)); ("device_id", VText (s_device_id row));
   ("version", VInt (s_version row))]%string.

(** The rows of devices and of sensors. *)
Record Rows := mkRows { devices : list DeviceRow; sensors : list SensorRow }.

(** [ersha-prime/src/registry/clickhouse/device.rs:115-118] ClickHouseDeviceRegistry *)
Definition t : Type := Conn (Env Rows).

(** [ersha-prime/src/registry/clickhouse/device.rs:67-75] disect_metric *)
Definition disect_metric : SensorMetric.t -> Z * f64 := SqlCodec.disect_metric.

(** FROM devices FINAL, FROM sensors FINAL. *)
Definition visible_devices (rs : Rows) : list DeviceRow := final d_id d_version (devices rs).
Definition visible_sensors (rs : Rows) : list SensorRow :=
  final (fun row => (s_device_id row, s_id row)) s_version (sensors rs).

Definition append_devices (ds : list DeviceRow) (rs : Rows) : Rows := mkRows (devices rs ++ ds) (sensors rs).
Definition append_sensors (ss : list SensorRow) (rs : Rows) : Rows := mkRows (devices rs) (sensors rs ++ ss).

Section operations.
Context `{!UlidText} `{!Jiff} `{!Clock} `{!ChLike} `{!ServerOrder}.
Abbreviation Op := (ChOp Rows).

(** [ersha-prime/src/registry/clickhouse/device.rs:77-113] map_sensor_row *)
Definition map_sensor_row (row : SensorRow) : result Sensor ChFail :=
  let? id := parse_ulid (s_id row) in
  let? kind := ok_or (sensor_kind_of (s_kind row)) (Failed (InvalidSensorKind (s_kind row))) in
  let? metric := metric_of (s_metric_type row) (s_metric_value row) in
  Ok (mkSensor (mkSensorId id) metric kind).

(** [ersha-prime/src/registry/clickhouse/device.rs:139-146] store_sensors: the row of a sensor *)
Definition sensor_row (device_id : DeviceId) (version : Z) (sensor : Sensor) : SensorRow :=
  let (metric_type, metric_value) := disect_metric (sensor_metric sensor) in
  mkSensorRow (ulid_to_string (sensor_ulid (sensor_id sensor))) (sensor_kind_code (sensor_kind sensor))
    metric_type metric_value (ulid_to_string (device_ulid device_id)) version.

(** [ersha-prime/src/registry/clickhouse/device.rs:128-155] store_sensors *)
Definition store_sensors (device_id : DeviceId) (ss : list Sensor) : Op unit :=
  version <-- now_millis ;;
  match ss with
  | [] => ret tt
  | _ => insert_rows append_sensors (sensor_row device_id version <$> ss)
  end.

(** [ersha-prime/src/registry/clickhouse/device.rs:157-167] fetch_sensors *)
Definition fetch_sensors (device_id : DeviceId) : Op (list Sensor) :=
  rows <-- select (fun rs => shuffle (List.filter (fun row =>
             String.eqb (s_device_id row) (ulid_to_string (device_ulid device_id))) (visible_sensors rs))) ;;
  lift (collect (map_sensor_row <$> rows)).

(** [ersha-prime/src/registry/clickhouse/device.rs:169-196] map_device_row *)
Definition map_device_row (row : DeviceRow) : result Device ChFail :=
  let? id := parse_ulid (d_id row) in
  let? kind := ok_or (device_kind_of (d_kind row)) (Failed (InvalidDeviceKind (d_kind row))) in
  let? state := ok_or (device_state_of (d_state row)) (Failed (InvalidDeviceState (d_state row))) in
  let? provisioned_at := parse_second (d_provisioned_at row) in
  Ok (mkDevice (mkDeviceId id) kind state (mkH3Cell (as_u64 (d_location row))) (d_manufacturer row) provisioned_at []).

(** [ersha-prime/src/registry/clickhouse/device.rs:205-214] the row of register and of batch_register *)
Definition device_row (version : Z) (device : Device) : DeviceRow :=
  mkDeviceRow (ulid_to_string (device_ulid (dev_id device))) (device_kind_code (dev_kind device))
    (device_state_code (dev_state device)) (as_i64 (h3_cell (dev_location device))) (dev_manufacturer device)
    (as_second (dev_provisioned_at device)) (as_i64 (Z.of_nat (length (dev_sensors device)))) version.

(** [ersha-prime/src/registry/clickhouse/device.rs:203-224] register *)
Definition register (device : Device) : Op unit :=
  version <-- now_millis ;;
  _ <-- insert_rows append_devices [device_row version device] ;;
  store_sensors (dev_id device) (dev_sensors device).

(** [device.sensors = self.fetch_sensors(..)]. *)
Definition with_sensors (device : Device) (ss : list Sensor) : Device :=
  mkDevice (dev_id device) (dev_kind device) (dev_state device) (dev_location device) (dev_manufacturer device)
    (dev_provisioned_at device) ss.

(** [ersha-prime/src/registry/clickhouse/device.rs:226-242] get *)
Definition get (id : DeviceId) : Op (option Device) :=
  row <-- select (fun rs => ch_first device_fields "id" (ulid_to_string (device_ulid id)) (visible_devices rs)) ;;
  match row with
  | Some r =>
      device <-- lift (map_device_row r) ;;
      ss <-- fetch_sensors id ;;
      ret (Some (with_sensors device ss))
  | None => ret None
  end.

(** [ersha-prime/src/registry/clickhouse/device.rs:244-248] update *)
Definition update (id : DeviceId) (new : Device) : Op unit :=
  old <-- get id ;;
  old <-- lift (ok_or old (Failed NotFound)) ;;
  register (mkDevice (dev_id old) (dev_kind new) (dev_state new) (dev_location new) (dev_manufacturer new)
              (dev_provisioned_at new) (dev_sensors new)).

(** [ersha-prime/src/registry/clickhouse/device.rs:250-257] suspend *)
Definition suspend (id : DeviceId) : Op unit :=
  device <-- get id ;;
  device <-- lift (ok_or device (Failed NotFound)) ;;
  register (SqliteDeviceRegistry.suspended device).

(** [ersha-prime/src/registry/clickhouse/device.rs:259-261] add_sensor *)
Definition add_sensor (id : DeviceId) (sensor : Sensor) : Op unit := store_sensors id [sensor].

(** [ersha-prime/src/registry/clickhouse/device.rs:263-269] add_sensors *)
Definition add_sensors (id : DeviceId) (ss : list Sensor) : Op unit := store_sensors id ss.

(** [ersha-prime/src/registry/clickhouse/device.rs:271-300] batch_register *)
Definition batch_register (ds : list Device) : Op unit :=
  match ds with
  | [] => ret tt
  | _ =>
      version <-- now_millis ;;
      _ <-- insert_rows append_devices (device_row version <$> ds) ;;
      for_each (fun device => store_sensors (dev_id device) (dev_sensors device)) ds
  end.

(** [ersha-prime/src/registry/clickhouse/device.rs:390-456] build_where_clause *)
Definition clauses (filter : DeviceFilter) : Clauses :=
  let x := ([], []) in
  let x := push_ids "id" (fun id => ulid_to_string (device_ulid id)) (df_ids filter) x in
  let x := push_values "state" device_state_code (df_states filter) x in
  let x := push_values "kind" device_kind_code (df_kinds filter) x in
  let x := push_values "location" cell_code (df_locations filter) x in
  let x := push_format (fun after => "provisioned_at >= " +:+ pretty (as_second after)) (df_provisioned_after filter) x in
  let x := push_format (fun before => "provisioned_at <= " +:+ pretty (as_second before)) (df_provisioned_before filter) x in
  let x := push_format (fun range => "sensor_count BETWEEN " +:+ pretty (as_i64 (range_start range)) +:+ " AND " +:+
                                     pretty (as_i64 (range_end range))) (df_sensor_count filter) x in
  push_format (fun pattern => "manufacturer LIKE '%" +:+ pattern +:+ "%'") (df_manufacturer_pattern filter) x.

(** [ersha-prime/src/registry/clickhouse/device.rs:342-355] build_count_query *)
Definition build_count_query (filter : option DeviceFilter) : string * list string :=
  match filter with
  | Some filter => count_query "SELECT count() FROM devices FINAL" (clauses filter)
  | None => ("SELECT count() FROM devices FINAL"%string, [])
  end.

(** [ersha-prime/src/registry/clickhouse/device.rs:366-371] ORDER BY *)
Definition order_by (sort_by : DeviceSortBy.t) : string :=
  match sort_by with
  | DeviceSortBy.State => "state"
  | DeviceSortBy.Manufacturer => "manufacturer"
  | DeviceSortBy.ProvisionAt => "provisioned_at"
  | DeviceSortBy.SensorCount => "sensor_count"
  end.

(** [ersha-prime/src/registry/clickhouse/device.rs:357-388] build_list_query *)
Definition build_list_query (options : QueryOptions DeviceFilter DeviceSortBy.t) : string * list string :=
  list_query "SELECT ?fields FROM devices FINAL" (clauses (filter_opt options))
    (order_by (sort_by_opt options)) (sort_order_opt options) (pagination_opt options).

(** The conditions of the queries. *)
Definition conds : DeviceFilter -> list Cond := device_conds (plain "sensor_count").

(** [ersha-prime/src/registry/clickhouse/device.rs:302-312] count *)
Definition count (filter : option DeviceFilter) : Op Z :=
  select (fun rs => Z.of_nat (length (ch_where device_fields (from_option conds [] filter) (visible_devices rs)))).

(** [ersha-prime/src/registry/clickhouse/device.rs:314-339] list *)
Definition list (options : QueryOptions DeviceFilter DeviceSortBy.t) : Op (list Device) :=
  rows <-- select (fun rs => ch_select device_fields (conds (filter_opt options))
             (ch_page (order_by (sort_by_opt options)) (sort_order_opt options) (pagination_opt options))
             (visible_devices rs)) ;;
  map_m (fun row =>
    device <-- lift (map_device_row row) ;;
    ss <-- fetch_sensors (dev_id device) ;;
    ret (with_sensors device ss)) rows.

(** [ersha-prime/src/registry/clickhouse/device.rs:199-340] impl DeviceRegistry *)
#[export] Instance registry : DeviceRegistry t ChFail := {|
  devr_register := register; devr_get := get; devr_update := update; devr_suspend := suspend;
  devr_add_sensor := add_sensor; devr_add_sensors := add_sensors;
  devr_batch_register := batch_register; devr_count := count; devr_list := list
|}.
End operations.
End ClickHouseDeviceRegistry.
Export (hints) ClickHouseDeviceRegistry.

Module ClickDeviceProofs.
Import ClickHouseDeviceRegistry.

Section text.
Context `{!UlidText} `{!Jiff}.

Lemma ch_device_clauses_rendered f : clauses f = rendered (conds f).
Proof.
  unfold clauses, conds, device_conds. change ([], []) with (rendered []).
  rewrite (push_ids_rendered (plain "id")), (push_values_rendered (plain "state")),
    (push_values_rendered (plain "kind")), (push_values_rendered (plain "location")).
  rewrite (push_format_rendered _ (fun t => AtLeast (plain "provisioned_at") (second_value t))),
    (push_format_rendered _ (fun t => AtMost (plain "provisioned_at") (second_value t))),
    (push_format_rendered _ (fun r => Between (plain "sensor_count") (VInt (as_i64 (range_start r))) (VInt (as_i64 (range_end r))))),
    (push_format_rendered _ (fun p => Like (plain "manufacturer") ("%" +:+ p +:+ "%"))) by
      (done || (intros p; split; [|done]; cbn [render plain col_text]; by rewrite <- ?(assoc_L String.append))).
  by rewrite <- !(assoc_L (++)).
Qed.
End text.

(** What was registered, with the versions: devices, and sensors of devices, in order. *)
Abbreviation DeviceLog := (Datatypes.list (Device * Z)).
Abbreviation SensorLog := (Datatypes.list (DeviceId * Sensor * Z)).

Definition registrable (d : Device) : Prop := device_wf d /\ Z.of_nat (length (dev_sensors d)) < 2 ^ 63.

Record logged `{UlidText} `{Jiff} (rs : Rows) (dl : DeviceLog) (sl : SensorLog) : Prop := {
  log_devices : devices rs = (fun x => device_row (snd x) (fst x)) <$> dl;
  log_sensors : sensors rs = (fun x => sensor_row (fst (fst x)) (snd x) (snd (fst x))) <$> sl;
  log_device_wf : Forall (fun x => registrable (fst x)) dl;
  log_sensor_wf : Forall (fun x => u128 (device_ulid (fst (fst x))) /\ sensor_wf (snd (fst x))) sl
}.

Definition current_devices (dl : DeviceLog) : DeviceLog := final (fun x => dev_id (fst x)) snd dl.
Definition current_device (id : DeviceId) (dl : DeviceLog) : option (Device * Z) :=
  newest (fun x => dev_id (fst x)) snd id dl.

Definition sensor_key (x : DeviceId * Sensor * Z) : DeviceId * SensorId := (fst (fst x), sensor_id (snd (fst x))).
Definition current_sensors (sl : SensorLog) : SensorLog := final sensor_key snd sl.
(** The sensors of a device. *)
Definition sensors_of (id : DeviceId) (sl : SensorLog) : Datatypes.list Sensor :=
  (fun x => snd (fst x)) <$> filter (fun x => fst (fst x) = id) (current_sensors sl).

(** The ids of the sensors of a device: all that it was ever given. *)
Lemma sensors_of_ids id sl sid :
  sid ∈ sensor_id <$> sensors_of id sl <-> (id, sid) ∈ sensor_key <$> sl.
Proof.
  rewrite <- (final_keys sensor_key snd sl). fold (current_sensors sl). unfold sensors_of.
  rewrite <- list_fmap_compose, !list_elem_of_fmap. split.
  - intros (x & -> & [<- Hx]%list_elem_of_filter). by exists x.
  - intros (x & [= -> ->] & Hx). exists x. split; [done|]. by apply list_elem_of_filter.
Qed.

Section state.
Context `{UlidTextLaws} `{JiffLaws} `{!Clock} `{!ChLike} `{!ServerOrder}.
Implicit Types (c : t) (dl : DeviceLog) (sl : SensorLog).

Definition stored (ss : Datatypes.list Sensor) (d : Device) : Device := SqliteDeviceProofs.stored ss d.

Lemma map_device_row_row v d : device_wf d -> map_device_row (device_row v d) = Ok (stored [] d).
Proof.
  intros (Hu & Hl & Ht & _). unfold map_device_row, device_row.
  cbn [d_id d_kind d_state d_location d_manufacturer d_provisioned_at].
  rewrite parse_ulid_to_string, device_kind_of_code, device_state_of_code, parse_second_as_second by done. cbn [ok_or].
  unfold as_u64, as_i64. rewrite wrap_to_signed by (lia || done). by destruct d as [[] ? ? [] ? ? ?].
Qed.

Lemma map_sensor_row_row id v s : sensor_wf s -> map_sensor_row (sensor_row id v s) = Ok s.
Proof.
  intros [Hu Hm]. unfold map_sensor_row, sensor_row, disect_metric.
  pose proof (metric_of_disect (E := ClickHouseError) (sensor_metric s) Hm) as Hmetric.
  destruct (SqlCodec.disect_metric (sensor_metric s)) as [mt mv]. cbn [fst snd] in Hmetric.
  cbn [s_id s_kind s_metric_type s_metric_value].
  rewrite parse_ulid_to_string, sensor_kind_of_code by done. cbn [ok_or]. rewrite Hmetric. by destruct s as [[] ? ?].
Qed.

Lemma device_logged rs dl sl x : logged rs dl sl -> x ∈ current_devices dl -> registrable (fst x).
Proof.
  intros L Hx%final_sub. pose proof (log_device_wf _ _ _ L) as Hwf. rewrite Forall_forall in Hwf. by apply Hwf.
Qed.

Lemma sensor_logged rs dl sl x : logged rs dl sl -> x ∈ current_sensors sl ->
  u128 (device_ulid (fst (fst x))) /\ sensor_wf (snd (fst x)).
Proof.
  intros L Hx%final_sub. pose proof (log_sensor_wf _ _ _ L) as Hwf. rewrite Forall_forall in Hwf. by apply Hwf.
Qed.

Lemma visible_devices_logged rs dl sl : logged rs dl sl ->
  visible_devices rs = (fun x => device_row (snd x) (fst x)) <$> current_devices dl.
Proof.
  intros L. unfold visible_devices, current_devices. rewrite (log_devices _ _ _ L), final_fmap. f_equal. cbn.
  apply final_ext; [done|]. pose proof (log_device_wf _ _ _ L) as Hwf. rewrite Forall_forall in Hwf.
  intros a b Ha Hb. destruct (Hwf a Ha) as [[Ua _] _], (Hwf b Hb) as [[Ub _] _]. split; [|by intros ->].
  intros Heq. by apply device_ulid_inj, ulid_to_string_inj.
Qed.

Lemma sensor_row_keys x : s_device_id (sensor_row (fst (fst x)) (snd x) (snd (fst x))) = ulid_to_string (device_ulid (fst (fst x))) /\
  s_id (sensor_row (fst (fst x)) (snd x) (snd (fst x))) = ulid_to_string (sensor_ulid (sensor_id (snd (fst x)))) /\
  s_version (sensor_row (fst (fst x)) (snd x) (snd (fst x))) = snd x.
Proof. unfold sensor_row. by destruct (disect_metric _). Qed.

Lemma visible_sensors_logged rs dl sl : logged rs dl sl ->
  visible_sensors rs = (fun x => sensor_row (fst (fst x)) (snd x) (snd (fst x))) <$> current_sensors sl.
Proof.
  intros L. unfold visible_sensors, current_sensors. rewrite (log_sensors _ _ _ L), final_fmap. f_equal.
  apply final_ext; [intros x; apply sensor_row_keys|].
  pose proof (log_sensor_wf _ _ _ L) as Hwf. rewrite Forall_forall in Hwf. intros a b Ha Hb.
  destruct (sensor_row_keys a) as (-> & -> & _), (sensor_row_keys b) as (-> & -> & _).
  destruct (Hwf a Ha) as [Ua [Va _]], (Hwf b Hb) as [Ub [Vb _]]. unfold sensor_key.
  split; [|by intros [= -> ->]]. intros [= E1 E2]. f_equal; [by apply device_ulid_inj, ulid_to_string_inj|].
  by apply sensor_ulid_inj, ulid_to_string_inj.
Qed.

(** ** The operations *)

(** The version of the [k]-th reading of the clock from now. *)
Definition version_at (k : nat) c : Z := as_u64 (as_millisecond (ts_now (ticks (tables c) + k)%nat)).
Definition sensor_entries (id : DeviceId) (v : Z) (ss : Datatypes.list Sensor) : SensorLog := (fun s => (id, s, v)) <$> ss.

Lemma logged_sensors id v ss rs dl sl : u128 (device_ulid id) -> Forall sensor_wf ss -> logged rs dl sl ->
  logged (append_sensors (sensor_row id v <$> ss) rs) dl (sl ++ sensor_entries id v ss).
Proof.
  intros Hid Hss [L1 L2 L3 L4]. split; cbn [append_sensors devices sensors]; [done| |done|].
  - rewrite L2, fmap_app. f_equal. unfold sensor_entries. by rewrite <- list_fmap_compose.
  - apply Forall_app. split; [done|]. apply Forall_fmap. eapply Forall_impl; [exact Hss|]. by intros s Hs.
Qed.

Lemma logged_devices v ds rs dl sl : Forall registrable ds -> logged rs dl sl ->
  logged (append_devices (device_row v <$> ds) rs) (dl ++ ((fun d => (d, v)) <$> ds)) sl.
Proof.
  intros Hds [L1 L2 L3 L4]. split; cbn [append_devices devices sensors]; [|done| |done].
  - rewrite L1, fmap_app. f_equal. by rewrite <- list_fmap_compose.
  - apply Forall_app. split; [done|]. apply Forall_fmap. by eapply Forall_impl; [exact Hds|].
Qed.

Lemma store_sensors_wp id ss c dl sl :
  u128 (device_ulid id) -> Forall sensor_wf ss -> logged (rows (tables c)) dl sl ->
  wp of_sqlx (store_sensors id ss) (fun _ e => logged (rows e) dl (sl ++ sensor_entries id (version_at 0 c) ss)) c.
Proof.
  intros Hid Hss L. apply wp_now_bind. intros c' E. rewrite <- (Nat.add_0_r (ticks _)). change (as_u64 _) with (version_at 0 c).
  destruct ss as [|s ss].
  - apply wp_ret. rewrite E. by rewrite app_nil_r.
  - apply wp_insert. cbn [rows]. rewrite E. cbn [rows]. by apply logged_sensors.
Qed.

Lemma ch_device_register_wp d c dl sl : registrable d -> logged (rows (tables c)) dl sl ->
  wp of_sqlx (register d) (fun _ e => logged (rows e) (dl ++ [(d, version_at 0 c)])
    (sl ++ sensor_entries (dev_id d) (version_at 1 c) (dev_sensors d))) c.
Proof.
  intros Hd L. pose proof Hd as [(Hu & _ & _ & Hss) _]. apply wp_now_bind. intros c' E.
  rewrite <- (Nat.add_0_r (ticks _)). change (as_u64 _) with (version_at 0 c).
  apply wp_insert_bind. intros c2 E2. rewrite E in E2. cbn [rows ticks] in E2.
  eapply wp_mono; [apply (store_sensors_wp (dev_id d) (dev_sensors d) c2 (dl ++ [(d, version_at 0 c)]) sl); [done|done|]|].
  - rewrite E2. cbn [rows]. apply (logged_devices (version_at 0 c) [d]); [by constructor|done].
  - intros [] e. assert (version_at 0 c2 = version_at 1 c) as -> by (unfold version_at; rewrite E2; cbn; by rewrite Nat.add_0_r, Nat.add_1_r). done.
Qed.

(** A registration that fails has added the device's row or nothing, and no sensor. *)
Lemma ch_device_register_failed d c c' e : register d c = (c', Err e) ->
  rows (tables c') = rows (tables c) \/ rows (tables c') = append_devices [device_row (version_at 0 c) d] (rows (tables c)).
Proof.
  unfold register, bind at 1, now_millis. rewrite <- (Nat.add_0_r (ticks _)). change (as_u64 _) with (version_at 0 c).
  unfold bind. destruct (insert_rows _ _ _) as [c1 [[]|e1]] eqn:Hins.
  - unfold insert_rows, bind in Hins. destruct (for_each _ _ _) as [c0 [[]|]] eqn:Hw; [|done].
    apply writes_frame in Hw. apply run_total in Hins as [_ [_ Ht]]. cbn in Hw. rewrite Hw in Ht.
    unfold store_sensors, bind, now_millis. destruct (dev_sensors d) as [|s ss]; [done|].
    intros Hf%insert_failed. rewrite Hf, Ht. by right.
  - apply insert_failed in Hins. intros [= <- _]. rewrite Hins. by left.
Qed.

Lemma fetch_sensors_wp id c dl sl : u128 (device_ulid id) -> logged (rows (tables c)) dl sl ->
  wp of_sqlx (fetch_sensors id) (fun ss e => e = tables c /\ ss ≡ₚ sensors_of id sl) c.
Proof.
  intros Hid L. apply wp_read_bind. intros c' E. rewrite (visible_sensors_logged _ _ _ L).
  set (enc := fun x : DeviceId * Sensor * Z => sensor_row (fst (fst x)) (snd x) (snd (fst x))).
  assert (List.filter (fun row => String.eqb (s_device_id row) (ulid_to_string (device_ulid id))) (enc <$> current_sensors sl) =
    enc <$> filter (fun x => fst (fst x) = id) (current_sensors sl)) as ->.
  { assert (∀ x, x ∈ current_sensors sl -> u128 (device_ulid (fst (fst x)))) as Hwf by (intros x Hx; by apply (sensor_logged _ _ _ _ L)).
    induction (current_sensors sl) as [|x l IH]; [done|]. csimpl. rewrite filter_cons, IH by set_solver.
    assert (s_device_id (enc x) = ulid_to_string (device_ulid (fst (fst x)))) as -> by apply sensor_row_keys.
    destruct (decide (fst (fst x) = id)) as [->|Hne]; [by rewrite String.eqb_refl|].
    rewrite (proj2 (String.eqb_neq _ _)); [done|]. intros Heq. apply Hne, device_ulid_inj.
    eapply ulid_to_string_inj; [|done|exact Heq]. apply Hwf. left. }
  assert (∀ x, x ∈ filter (fun x => fst (fst x) = id) (current_sensors sl) -> map_sensor_row (enc x) = Ok (snd (fst x))) as Hdec.
  { intros x [_ Hx]%list_elem_of_filter. apply map_sensor_row_row. by apply (sensor_logged _ _ _ _ L). }
  destruct (collect_perm (map_sensor_row <$> (enc <$> filter (fun x => fst (fst x) = id) (current_sensors sl)))
    (map_sensor_row <$> shuffle (enc <$> filter (fun x => fst (fst x) = id) (current_sensors sl))) (sensors_of id sl))
    as (ss & Hss & Hp); [by rewrite shuffle_perm| |].
  - rewrite <- list_fmap_compose. by apply collect_map_Ok.
  - eapply wp_lift; [exact Hss|]. by split.
Qed.

Lemma row_wp x c dl sl : registrable (fst x) -> logged (rows (tables c)) dl sl ->
  wp of_sqlx (device <-- lift (map_device_row (device_row (snd x) (fst x))) ;;
              ss <-- fetch_sensors (dev_id device) ;; ret (with_sensors device ss))
    (fun d' e => e = tables c /\ ∃ ss, d' = stored ss (fst x) /\ ss ≡ₚ sensors_of (dev_id (fst x)) sl) c.
Proof.
  intros [Hd _] L. eapply wp_lift_bind; [by apply map_device_row_row|].
  eapply wp_bind; [eapply fetch_sensors_wp; [by destruct Hd|exact L]|]. intros ss c' [E Hss].
  apply wp_ret. split; [done|]. by exists ss.
Qed.

Lemma ch_device_get_wp id c dl sl : u128 (device_ulid id) -> logged (rows (tables c)) dl sl ->
  wp of_sqlx (get id) (fun o e => e = tables c /\
    match o with
    | Some d' => ∃ d v ss, current_device id dl = Some (d, v) /\ d' = stored ss d /\ ss ≡ₚ sensors_of id sl
    | None => current_device id dl = None
    end) c.
Proof.
  intros Hid L. apply wp_read_bind. intros c' E. rewrite (visible_devices_logged _ _ _ L).
  pose proof (ch_first_spec device_fields "id" (ulid_to_string (device_ulid id))
    ((fun x => device_row (snd x) (fst x)) <$> current_devices dl)) as Hfirst.
  pose proof (final_NoDup (fun x : Device * Z => dev_id (fst x)) snd dl) as Hnd. fold (current_devices dl) in Hnd.
  unfold current_device, newest. fold (current_devices dl). destruct (ch_first _ _ _ _) as [row|].
  - destruct Hfirst as [((d, v) & -> & Hin)%list_elem_of_fmap [= Hkey]]. cbn [fst snd] in *.
    pose proof (device_logged _ _ _ _ L Hin) as Hd. pose proof Hd as [(Hu & _) _]. cbn [fst] in *.
    assert (dev_id d = id) as Hk by by apply device_ulid_inj, ulid_to_string_inj.
    eapply wp_lift_bind; [apply map_device_row_row; by destruct Hd|].
    eapply wp_bind; [eapply (fetch_sensors_wp id); [done|by rewrite E]|]. intros ss c2 [E2 Hss].
    apply wp_ret. split; [by rewrite E2|]. exists d, v, ss. split; [|by split].
    destruct (List.find _ (current_devices dl)) as [y|] eqn:Hf.
    + apply find_some in Hf as [Hy%list_elem_of_In Hk'%bool_decide_eq_true]. f_equal. symmetry.
      eapply (NoDup_fmap_inj_on (fun x : Device * Z => dev_id (fst x))); eauto. cbn. congruence.
    + apply list_elem_of_In in Hin. pose proof (find_none _ _ Hf _ Hin) as Hno. cbn in Hno. by rewrite bool_decide_true in Hno.
  - apply wp_ret. split; [done|]. destruct (List.find _ (current_devices dl)) as [y|] eqn:Hf; [|done].
    apply find_some in Hf as [Hy%list_elem_of_In Hk%bool_decide_eq_true]. exfalso.
    apply (Hfirst (device_row (snd y) (fst y))); [by apply (list_elem_of_fmap_2 (fun x => device_row (snd x) (fst x)))|].
    cbn. by rewrite Hk.
Qed.

(** ** The filter *)

Definition plain_pattern (f : DeviceFilter) : Prop := ∀ p, df_manufacturer_pattern f = Some p -> plain_text p.

(** What the conditions select: the in-memory filter with the cases of the manufacturer left alone,
    on the device as it was registered, and its ids. *)
Definition accepts (f : DeviceFilter) (d : Device) : bool :=
  negb (excluded (df_ids f) (dev_id d)) &&
  @InMemoryDeviceRegistry.device_matches (fun s => s) f (stored (dev_sensors d) d).

Lemma ch_device_fields_row d v : registrable d -> device_fields (device_row v d) =
  SqliteDeviceProofs.device_row_count (d, Z.of_nat (length (dev_sensors d))) ++ [("version"%string, VInt v)].
Proof.
  intros [_ Hn]. unfold device_fields, device_row. cbn [d_sensor_count].
  assert (as_i64 (Z.of_nat (length (dev_sensors d))) = Z.of_nat (length (dev_sensors d))) as ->; [|done].
  unfold as_i64. apply to_signed_small; lia.
Qed.

Lemma like_iff `{!ChLikeLaws} r d p : col "manufacturer" r = text_opt (dev_manufacturer d) -> plain_text p ->
  ch_holds r (Like (plain "manufacturer") ("%" +:+ p +:+ "%")) = true <->
  ∃ m, dev_manufacturer d = Some m /\ str_contains m p = true.
Proof.
  intros Hcol Hp. cbn [ch_holds]. change (col_name (plain "manufacturer")) with "manufacturer"%string. rewrite Hcol.
  destruct (dev_manufacturer d) as [m|]; cbn [text_opt]; [rewrite ch_like_contains by done|]; naive_solver.
Qed.

Lemma ch_device_conds_row `{!ChLikeLaws} f d v : device_filter_exact f -> plain_pattern f -> registrable d ->
  forallb (ch_holds (device_fields (device_row v d))) (conds f) = accepts f d.
Proof.
  intros Hf Hp Hd. apply eq_true_iff_eq. unfold accepts.
  rewrite andb_true_iff, negb_true_iff, excluded_false, InMemoryDeviceRegistry.device_matches_iff.
  unfold conds. rewrite device_conds_pattern, forallb_app_iff, ch_device_fields_row by done.
  rewrite ch_where_common by (unfold device_conds; cbn [SqliteDevice.no_pattern df_manufacturer_pattern opt_cond]; solve_common).
  rewrite (device_conds_iff (plain "sensor_count") f d _ eq_refl Hf) by by destruct Hd.
  cbn [stored SqliteDeviceProofs.stored dev_location dev_state dev_kind dev_sensors dev_provisioned_at dev_manufacturer].
  unfold to_lowercase. destruct (df_manufacturer_pattern f) as [p|] eqn:Hpat; cbn [opt_cond forallb].
  - rewrite andb_true_r. erewrite (like_iff _ d p); [|reflexivity|by apply Hp]. naive_solver.
  - naive_solver.
Qed.

(** A page of the current devices that the filter accepts, with their sensors. *)
Lemma ch_device_list_wp `{!ChLikeLaws} options c dl sl :
  device_filter_exact (filter_opt options) -> plain_pattern (filter_opt options) ->
  page_fits (pagination_opt options) -> logged (rows (tables c)) dl sl ->
  wp of_sqlx (list options) (fun ds e => e = tables c /\ ∃ s offset n,
    pagination_opt options = Pagination.Offset offset n /\
    Forall2 (fun d' x => ∃ ss, d' = stored ss (fst x) /\ ss ≡ₚ sensors_of (dev_id (fst x)) sl) ds
      (take (Z.to_nat n) (drop (Z.to_nat offset) s)) /\
    s ≡ₚ List.filter (fun x => accepts (filter_opt options) (fst x)) (current_devices dl) /\
    StronglySorted (cmp_le (fun x y => ch_cmp (ch_page (order_by (sort_by_opt options)) (sort_order_opt options) (pagination_opt options))
      (device_fields (device_row (snd x) (fst x))) (device_fields (device_row (snd y) (fst y))))) s) c.
Proof.
  intros Hf Hpat Hp L. apply wp_read_bind. intros c' E. rewrite (visible_devices_logged _ _ _ L). rewrite <- E in *.
  destruct (ch_select_enc device_fields (fun x : Device * Z => device_row (snd x) (fst x)) id (fun x => registrable (fst x))
    (conds (filter_opt options)) (fun x => accepts (filter_opt options) (fst x))
    (fun x Hx => ch_device_conds_row _ _ _ Hf Hpat Hx)
    (ch_page (order_by (sort_by_opt options)) (sort_order_opt options) (pagination_opt options)) (current_devices dl))
    as (s & -> & Hs & Hwf & Hsort); [apply Forall_forall; intros x Hx; by eapply device_logged|].
  destruct (ch_page_offset (order_by (sort_by_opt options)) (sort_order_opt options) _ s Hp) as (offset & n & Hpage & ->).
  rewrite map_m_fmap. eapply wp_mono.
  - apply (wp_map_m _ _ (fun x d' => ∃ ss, d' = stored ss (fst x) /\ ss ≡ₚ sensors_of (dev_id (fst x)) sl)).
    intros x c1 Hx E1. rewrite <- E1. apply (row_wp x c1 dl sl); [|by rewrite E1]. rewrite Forall_forall in Hwf. apply Hwf.
    eapply elem_of_sublist; [exact Hx|]. etrans; [apply sublist_take|apply sublist_drop].
  - cbn. intros ds e [-> Hds]. split; [done|]. exists s, offset, n. split_and!; try done. by apply Forall2_flip.
Qed.

Lemma ch_device_count_wp `{!ChLikeLaws} f c dl sl : device_filter_exact f -> plain_pattern f ->
  logged (rows (tables c)) dl sl ->
  wp of_sqlx (count (Some f)) (fun n e => e = tables c /\
    n = Z.of_nat (length (List.filter (fun x => accepts f (fst x)) (current_devices dl)))) c.
Proof.
  intros Hf Hp L. eapply wp_mono.
  - apply (ch_count_wp device_fields (fun x : Device * Z => device_row (snd x) (fst x)) id (fun x => registrable (fst x))
      (conds f) (fun x => accepts f (fst x)) (fun x Hx => ch_device_conds_row _ _ _ Hf Hp Hx) visible_devices (current_devices dl)).
    + by eapply visible_devices_logged.
    + apply Forall_forall. intros x Hx. by eapply device_logged.
  - cbn. intros n e [-> ->]. by rewrite list_fmap_id.
Qed.
End state.
End ClickDeviceProofs.

(** ** Properties *)

Section properties.
Context `{UlidTextLaws} `{JiffLaws} `{!Clock} `{!ChLike} `{!ServerOrder}.
Import ClickDeviceProofs.
Implicit Types c : ClickHouseDeviceRegistry.t.

(** C11: the ClickHouse device registry answers the registration of a device with the greatest version
    and, with it, every sensor that the device was ever given, each as it was last written: a
    registration adds its sensors and removes none, [add_sensors] accepts a device that was never
    registered, and a registration that the database interrupts has written the device or nothing,
    and no sensor. *)
Theorem clickhouse_devices_latest c dl sl : logged (rows (tables c)) dl sl ->
  (∀ d c' res, registrable d -> ClickHouseDeviceRegistry.register d c = (c', res) ->
     match res with
     | Ok _ => logged (rows (tables c')) (dl ++ [(d, version_at 0 c)])
                 (sl ++ sensor_entries (dev_id d) (version_at 1 c) (dev_sensors d))
     | Err e => e = of_sqlx Unavailable /\
         (rows (tables c') = rows (tables c) \/ logged (rows (tables c')) (dl ++ [(d, version_at 0 c)]) sl)
     end) /\
  (∀ id ss c' res, u128 (device_ulid id) -> Forall sensor_wf ss ->
     ClickHouseDeviceRegistry.add_sensors id ss c = (c', res) ->
     match res with
     | Ok _ => logged (rows (tables c')) dl (sl ++ sensor_entries id (version_at 0 c) ss)
     | Err e => e = of_sqlx Unavailable /\ faulty c
     end) /\
  (∀ id c' res, u128 (device_ulid id) -> ClickHouseDeviceRegistry.get id c = (c', res) ->
     match res with
     | Ok (Some d') => ∃ d v ss, current_device id dl = Some (d, v) /\ d' = stored ss d /\ ss ≡ₚ sensors_of id sl /\
         ∀ sid, sid ∈ sensor_id <$> ss <-> (id, sid) ∈ sensor_key <$> sl
     | Ok None => current_device id dl = None
     | Err e => e = of_sqlx Unavailable /\ faulty c
     end).
Proof.
  intros L. split_and!.
  - intros d c' res Hd Hr. pose proof Hr as Hw. eapply wp_elim in Hw; [|by eapply ch_device_register_wp].
    destruct res as [[]|e]; [exact Hw|]. split; [by destruct Hw|].
    apply ch_device_register_failed in Hr as [Hr|Hr]; [by left|right]. rewrite Hr.
    apply (logged_devices (version_at 0 c) [d]); [by constructor|done].
  - intros id ss c' res Hid Hss Ha. eapply wp_elim in Ha; [exact Ha|by eapply store_sensors_wp].
  - intros id c' res Hid Hg. eapply wp_elim in Hg; [|by eapply ch_device_get_wp]. destruct res as [[d'|]|e]; [|by destruct Hg|done].
    destruct Hg as (_ & d & v & ss & Hc & -> & Hss). exists d, v, ss. split_and!; try done.
    intros sid. rewrite Hss. apply sensors_of_ids.
Qed.

End properties.

(** ** Witnesses *)

Module ClickDeviceWitness.
Import ClickDeviceProofs.
#[local] Existing Instance ulid_crockford.
#[local] Existing Instance ulid_crockford_laws.
#[local] Existing Instance jiff_ns.
#[local] Existing Instance jiff_ns_laws.
#[local] Existing Instance server_order_std.
#[local] Existing Instance ch_like_std.
#[local] Existing Instance ch_like_std_laws.
#[local] Instance clock : Clock := fun n => mkTimestamp (Z.of_nat n * 1000000000).

Definition empty : ClickHouseDeviceRegistry.t := calm (mkEnv (ClickHouseDeviceRegistry.mkRows [] []) 0).

(** Device 1 with its sensor 101, then listed with sensor 102 only. *)
Definition one : ClickHouseDeviceRegistry.t := fst (ClickHouseDeviceRegistry.register (sample_device 1) empty).
Definition two : ClickHouseDeviceRegistry.t := fst (ClickHouseDeviceRegistry.register SqliteDeviceWitness.device1' one).

Definition devices2 : DeviceLog := [(sample_device 1, 0); (SqliteDeviceWitness.device1', 2000)].
Definition sensors2 : SensorLog := [(mkDeviceId 1, sample_sensor 101, 1000); (mkDeviceId 1, sample_sensor 102, 3000)].

Lemma two_logged : logged (rows (tables two)) devices2 sensors2.
Proof.
  split; [vm_compute; reflexivity|vm_compute; reflexivity| |].
  - constructor; [split; [apply SqliteDeviceWitness.sample_device_wf; lia|reflexivity]|].
    constructor; [split; [exact SqliteDeviceWitness.device1'_wf|reflexivity]|constructor].
  - do 2 (constructor; [split; [split; [discriminate|reflexivity]|apply SqliteDeviceWitness.sample_sensor_wf; lia]|]). constructor.
Qed.

Lemma clickhouse_devices_latest_witness :
  ∃ ss, snd (ClickHouseDeviceRegistry.get (mkDeviceId 1) two) = Ok (Some (stored ss SqliteDeviceWitness.device1')) /\
    mkSensorId 101 ∈ sensor_id <$> ss.
Proof.
  destruct (clickhouse_devices_latest two _ _ two_logged) as (_ & _ & Hget).
  assert (u128 (device_ulid (mkDeviceId 1))) as Hid by (split; [discriminate|reflexivity]).
  specialize (Hget (mkDeviceId 1) _ _ Hid (surjective_pairing _)).
  destruct (snd (ClickHouseDeviceRegistry.get (mkDeviceId 1) two)) as [[d'|]|e] eqn:Hs;
    [|vm_compute in Hs; discriminate|vm_compute in Hs; discriminate].
  destruct Hget as (d & v & ss & Hd & -> & _ & Hids). vm_compute in Hd. injection Hd as <- _.
  exists ss. split; [reflexivity|]. apply Hids. left.
Defined.

(** The devices of a manufacturer whose name contains "cm", with one sensor. *)
Definition cm_devices : QueryOptions DeviceFilter DeviceSortBy.t :=
  mkQueryOptions (mkDeviceFilter None None None None None None (Some (mkRange 1 1)) (Some "cm"%string))
    DeviceSortBy.Manufacturer SortOrder.Asc (Pagination.Offset 0 10).

End ClickDeviceWitness.
