(* ===== verification/ClickStatus.v ===== *)
(** * The ClickHouse device-status registry: ersha-prime/src/registry/clickhouse/device_status.rs

    Three MergeTrees that only grow.  [store] writes a status, its errors and the states of its
    sensors in up to three INSERTs, so a failure leaves a status without some of its children, and
    a status that is stored again has them twice.  The queries join the errors; what the join puts
    in the columns of a status without errors is a setting of the server ([JoinUseNulls]), off
    unless configured: then they are the defaults of their types, and never NULL. *)
From Stdlib Require Import ZArith Lia Strings.String.
From stdpp Require Import base gmap strings list pretty sorting.
From S2P Require Import Prelude Platform Core Samples Filter Registry InMemory Sql SqlCodec SqliteStatus ClickHouse.
Open Scope Z_scope.

(** The setting [join_use_nulls]. *)
Class JoinUseNulls := join_use_nulls : bool.

Module ClickHouseDeviceStatusRegistry.
(** [ersha-prime/src/registry/clickhouse/device_status.rs:51-60] StatusRow *)
Record StatusRow := mkStatusRow {
  row_id : string;
  row_device_id : string;
  row_dispatcher_id : string;
  row_battery_percent : Z;
  row_uptime_seconds : Z;
  row_signal_rssi : Z;
  row_timestamp : Z
}.
#[export] Instance StatusRow_eq_dec : EqDecision StatusRow. Proof. solve_decision. Defined.

(** [ersha-prime/src/registry/clickhouse/device_status.rs:62-67] ErrorRow *)
Record ErrorRow := mkErrorRow { e_status_id : string; e_error_code : Z; e_message : option string }.

(** [ersha-prime/src/registry/clickhouse/device_status.rs:69-75] SensorStatusRow *)
Record SensorStatusRow := mkSensorStatusRow {
  n_status_id : string;
  n_sensor_id : string;
  n_state : Z;
  n_last_reading : option Z
}.

(** The columns of device_statuses. *)
Definition fields (row : StatusRow) : SRow :=
  [("id", VText (row_id row)); ("device_id", VText (row_device_id row));
   ("dispatcher_id", VText (row_dispatcher_id row)); ("battery_percent", VInt (row_battery_percent row));
   ("uptime_seconds", VInt (row_uptime_seconds row)); ("signal_rssi", VInt (row_signal_rssi row));
   ("timestamp", VInt (row_timestamp row))]%string.

(** The rows of the three tables. *)
Record Rows := mkRows {
  statuses : list StatusRow;
  errors : list ErrorRow;
  sensor_statuses : list SensorStatusRow
}.

(** [ersha-prime/src/registry/clickhouse/device_status.rs:77-80] ClickHouseDeviceStatusRegistry *)
Definition t : Type := Conn (Env Rows).

Definition append_statuses (l : list StatusRow) (rs : Rows) : Rows := mkRows (statuses rs ++ l) (errors rs) (sensor_statuses rs).
Definition append_errors (l : list ErrorRow) (rs : Rows) : Rows := mkRows (statuses rs) (errors rs ++ l) (sensor_statuses rs).
Definition append_sensor_statuses (l : list SensorStatusRow) (rs : Rows) : Rows :=
  mkRows (statuses rs) (errors rs) (sensor_statuses rs ++ l).

Section operations.
Context `{!UlidText} `{!Jiff} `{!ChLike} `{!ServerOrder} `{!JoinUseNulls}.
Abbreviation Op := (ChOp Rows).

(** [ersha-prime/src/registry/clickhouse/device_status.rs:102-113] store_errors: one row *)
Definition error_row (status_id : StatusId) (error : DeviceError) : ErrorRow :=
  mkErrorRow (ulid_to_string (status_ulid status_id)) (error_code_code (err_code error)) (err_message error).

(** [ersha-prime/src/registry/clickhouse/device_status.rs:91-118] store_errors *)
Definition store_errors (status_id : StatusId) (es : list DeviceError) : Op unit :=
  match es with
  | [] => ret tt
  | _ => insert_rows append_errors (error_row status_id <$> es)
  end.

(** [ersha-prime/src/registry/clickhouse/device_status.rs:131-142] store_sensor_statuses: one row *)
Definition sensor_status_row (status_id : StatusId) (ss : SensorStatus) : SensorStatusRow :=
  mkSensorStatusRow (ulid_to_string (status_ulid status_id)) (ulid_to_string (sensor_ulid (ss_sensor_id ss)))
    (sensor_state_code (ss_state ss)) (as_second <$> ss_last_reading ss).

(** [ersha-prime/src/registry/clickhouse/device_status.rs:120-147] store_sensor_statuses *)
Definition store_sensor_statuses (status_id : StatusId) (ss : list SensorStatus) : Op unit :=
  match ss with
  | [] => ret tt
  | _ => insert_rows append_sensor_statuses (sensor_status_row status_id <$> ss)
  end.

(** [ersha-prime/src/registry/clickhouse/device_status.rs:161-174] fetch_errors: one row *)
Definition error_of_row (row : ErrorRow) : result DeviceError ChFail :=
  let? code := ok_or (error_code_of (e_error_code row)) (Failed (InvalidErrorCode (e_error_code row))) in
  Ok (mkDeviceError code (e_message row)).

(** [ersha-prime/src/registry/clickhouse/device_status.rs:149-177] fetch_errors *)
Definition fetch_errors (status_id : StatusId) : Op (list DeviceError) :=
  rows <-- select (fun rs => shuffle (List.filter (fun row =>
             String.eqb (e_status_id row) (ulid_to_string (status_ulid status_id))) (errors rs))) ;;
  lift (collect (error_of_row <$> rows)).

(** [ersha-prime/src/registry/clickhouse/device_status.rs:191-215] fetch_sensor_statuses: one row *)
Definition sensor_status_of_row (row : SensorStatusRow) : result SensorStatus ChFail :=
  let? sensor_id := parse_ulid (n_sensor_id row) in
  let? state := ok_or (sensor_state_of (n_state row)) (Failed (InvalidSensorState (n_state row))) in
  let? last_reading := match n_last_reading row with Some ts => map_ok Some (parse_second ts) | None => Ok None end in
  Ok (mkSensorStatus (mkSensorId sensor_id) state last_reading).

(** [ersha-prime/src/registry/clickhouse/device_status.rs:179-218] fetch_sensor_statuses *)
Definition fetch_sensor_statuses (status_id : StatusId) : Op (list SensorStatus) :=
  rows <-- select (fun rs => shuffle (List.filter (fun row =>
             String.eqb (n_status_id row) (ulid_to_string (status_ulid status_id))) (sensor_statuses rs))) ;;
  lift (collect (sensor_status_of_row <$> rows)).

(** [ersha-prime/src/registry/clickhouse/device_status.rs:220-246] map_row_to_status *)
Definition map_row_to_status (row : StatusRow) : Op DeviceStatus :=
  id <-- lift (parse_ulid (row_id row)) ;;
  device_id <-- lift (parse_ulid (row_device_id row)) ;;
  dispatcher_id <-- lift (parse_ulid (row_dispatcher_id row)) ;;
  timestamp <-- lift (parse_second (row_timestamp row)) ;;
  let status_id := mkStatusId id in
  errors <-- fetch_errors status_id ;;
  sensor_statuses <-- fetch_sensor_statuses status_id ;;
  ret (mkDeviceStatus status_id (mkDeviceId device_id) (mkDispatcherId dispatcher_id)
         (mkPercentage (as_u8 (row_battery_percent row))) (as_u64 (row_uptime_seconds row))
         (as_i16 (row_signal_rssi row)) errors timestamp sensor_statuses).

(** [ersha-prime/src/registry/clickhouse/device_status.rs:254-262] store: the row of the status *)
Definition status_row (status : DeviceStatus) : StatusRow :=
  mkStatusRow (ulid_to_string (status_ulid (st_id status))) (ulid_to_string (device_ulid (st_device_id status)))
    (ulid_to_string (dispatcher_ulid (st_dispatcher_id status))) (percent (st_battery_percent status))
    (as_i64 (st_uptime_seconds status)) (st_signal_rssi status) (as_second (st_timestamp status)).

(** [ersha-prime/src/registry/clickhouse/device_status.rs:253-273] store *)
Definition store (status : DeviceStatus) : Op unit :=
  _ <-- insert_rows append_statuses [status_row status] ;;
  _ <-- store_errors (st_id status) (st_errors status) ;;
  store_sensor_statuses (st_id status) (st_sensor_statuses status).

Definition first_status (row : option StatusRow) : Op (option DeviceStatus) :=
  match row with
  | Some r => status <-- map_row_to_status r ;; ret (Some status)
  | None => ret None
  end.

(** [ersha-prime/src/registry/clickhouse/device_status.rs:275-287] get *)
Definition get (id : StatusId) : Op (option DeviceStatus) :=
  row <-- select (fun rs => ch_first fields "id" (ulid_to_string (status_ulid id)) (statuses rs)) ;;
  first_status row.

(** [ersha-prime/src/registry/clickhouse/device_status.rs:292-294] get_latest: ORDER BY timestamp DESC LIMIT 1 *)
Definition latest : Tail := mkTail "timestamp" "timestamp" SortOrder.Desc (Some 1) None.

(** [ersha-prime/src/registry/clickhouse/device_status.rs:289-301] get_latest *)
Definition get_latest (device_id : DeviceId) : Op (option DeviceStatus) :=
  row <-- select (fun rs => head (ch_order fields latest (List.filter (fun row =>
            String.eqb (row_device_id row) (ulid_to_string (device_ulid device_id))) (statuses rs)))) ;;
  first_status row.

(** [ersha-prime/src/registry/clickhouse/device_status.rs:303-308] batch_store *)
Definition batch_store (ss : list DeviceStatus) : Op unit := for_each store ss.

(** [ersha-prime/src/registry/clickhouse/device_status.rs:400-408] build_clauses: the join *)
Definition join_clause (filter : DeviceStatusFilter) : string :=
  if needs_error_join filter
  then " LEFT JOIN device_status_errors ON device_statuses.id = device_status_errors.status_id"
  else EmptyString.

(** [ersha-prime/src/registry/clickhouse/device_status.rs:395-490] build_clauses *)
Definition clauses (filter : DeviceStatusFilter) : Clauses :=
  let x := ([], []) in
  let x := push_ids "device_statuses.id" (fun id => ulid_to_string (status_ulid id)) (sf_ids filter) x in
  let x := push_ids "device_id" (fun id => ulid_to_string (device_ulid id)) (sf_device_ids filter) x in
  let x := push_ids "dispatcher_id" (fun id => ulid_to_string (dispatcher_ulid id)) (sf_dispatcher_ids filter) x in
  let x := push_format (fun after => "timestamp >= " +:+ pretty (as_second after)) (sf_timestamp_after filter) x in
  let x := push_format (fun before => "timestamp <= " +:+ pretty (as_second before)) (sf_timestamp_before filter) x in
  let x := push_format (fun range => "battery_percent BETWEEN " +:+ pretty (range_start range) +:+ " AND " +:+
                                     pretty (range_end range)) (sf_battery_range filter) x in
  let x := push_format (fun has_errors : bool =>
    if has_errors then "device_status_errors.status_id IS NOT NULL" else "device_status_errors.status_id IS NULL")%string
    (sf_has_errors filter) x in
  push_values "device_status_errors.error_code" error_code_code (sf_error_codes filter) x.

(** [ersha-prime/src/registry/clickhouse/device_status.rs:342-356] build_count_query *)
Definition build_count_query (filter : option DeviceStatusFilter) : string * list string :=
  match filter with
  | Some filter => count_query ("SELECT count(DISTINCT id) FROM device_statuses" +:+ join_clause filter) (clauses filter)
  | None => ("SELECT count(DISTINCT id) FROM device_statuses"%string, [])
  end.

(** [ersha-prime/src/registry/clickhouse/device_status.rs:372-376] ORDER BY *)
Definition order_by (sort_by : DeviceStatusSortBy.t) : string :=
  match sort_by with
  | DeviceStatusSortBy.Timestamp => "timestamp"
  | DeviceStatusSortBy.BatteryPercent => "battery_percent"
  | DeviceStatusSortBy.DeviceId => "device_id"
  end.

Definition list_from : string :=
  "SELECT DISTINCT device_statuses.id, device_id, dispatcher_id, battery_percent, uptime_seconds, signal_rssi, timestamp FROM device_statuses".

(** [ersha-prime/src/registry/clickhouse/device_status.rs:358-393] build_list_query *)
Definition build_list_query (options : QueryOptions DeviceStatusFilter DeviceStatusSortBy.t) : string * list string :=
  list_query (list_from +:+ join_clause (filter_opt options)) (clauses (filter_opt options))
    (order_by (sort_by_opt options)) (sort_order_opt options) (pagination_opt options).

(** The conditions of the queries. *)
Definition ch_error : Col := mkCol "device_status_errors.status_id" "error_status_id".
Definition conds : DeviceStatusFilter -> list Cond := status_conds ch_error.

(** What the join adds to the row of a status. *)
Definition no_error : SRow :=
  if join_use_nulls then [("error_status_id", VNull); ("error_code", VNull)]%string
  else [("error_status_id", VText ""); ("error_code", VInt 0)]%string.
Definition error_columns (e : ErrorRow) : SRow :=
  [("error_status_id", VText (e_status_id e)); ("error_code", VInt (e_error_code e))]%string.
Definition join_errors (rs : Rows) (s : StatusRow) : list (StatusRow * SRow) :=
  match List.filter (fun e => String.eqb (e_status_id e) (row_id s)) (errors rs) with
  | [] => [(s, no_error)]
  | es => (fun e => (s, error_columns e)) <$> es
  end.
Definition joined (filter : DeviceStatusFilter) (rs : Rows) : list (StatusRow * SRow) :=
  if needs_error_join filter then mjoin (join_errors rs <$> statuses rs) else (fun s => (s, [])) <$> statuses rs.

(** The distinct statuses of the rows that satisfy the conditions. *)
Definition selected (filter : DeviceStatusFilter) (cs : list Cond) (rs : Rows) : list StatusRow :=
  remove_dups (fst <$> List.filter (fun p => forallb (ch_holds (fields (fst p) ++ snd p)) cs) (joined filter rs)).

(** [ersha-prime/src/registry/clickhouse/device_status.rs:310-320] count *)
Definition count (filter : option DeviceStatusFilter) : Op Z :=
  select (fun rs => Z.of_nat (length (remove_dups (row_id <$>
    selected (default DeviceStatusFilter_default filter) (from_option conds [] filter) rs)))).

(** [ersha-prime/src/registry/clickhouse/device_status.rs:322-339] list *)
Definition list (options : QueryOptions DeviceStatusFilter DeviceStatusSortBy.t) : Op (list DeviceStatus) :=
  rows <-- select (fun rs => ch_order fields
             (ch_page (order_by (sort_by_opt options)) (sort_order_opt options) (pagination_opt options))
             (selected (filter_opt options) (conds (filter_opt options)) rs)) ;;
  map_m map_row_to_status rows.

(** [ersha-prime/src/registry/clickhouse/device_status.rs:249-340] impl DeviceStatusRegistry *)
#[export] Instance registry : DeviceStatusRegistry t ChFail := {|
  str_store := store; str_get := get; str_get_latest := get_latest;
  str_batch_store := batch_store; str_count := count; str_list := list
|}.
End operations.
End ClickHouseDeviceStatusRegistry.
Export (hints) ClickHouseDeviceStatusRegistry.

Module ClickStatusProofs.
Import ClickHouseDeviceStatusRegistry.

Section text.
Context `{!UlidText} `{!Jiff}.

Lemma ch_status_clauses_rendered f : clauses f = rendered (conds f).
Proof.
  unfold clauses, conds, status_conds, status_only_conds, error_conds. change ([], []) with (rendered []).
  rewrite (push_ids_rendered (mkCol "device_statuses.id" "id")), (push_ids_rendered (plain "device_id")),
    (push_ids_rendered (plain "dispatcher_id")).
  rewrite (push_format_rendered _ (fun t => AtLeast (plain "timestamp") (second_value t))),
    (push_format_rendered _ (fun t => AtMost (plain "timestamp") (second_value t))),
    (push_format_rendered _ (fun r => Between (plain "battery_percent") (VInt (range_start r)) (VInt (range_end r)))) by done.
  rewrite (push_format_rendered _ (fun b : bool => IsNull ch_error (negb b))) by (by intros []).
  rewrite (push_values_rendered (mkCol "device_status_errors.error_code" "error_code")).
  by rewrite <- !(assoc_L (++)).
Qed.
End text.

(** What was stored: statuses, errors of statuses and sensor states of statuses, in order. *)
Abbreviation ErrorLog := (Datatypes.list (StatusId * DeviceError)).
Abbreviation SensorLog := (Datatypes.list (StatusId * SensorStatus)).

Definition entries {X} (id : StatusId) (l : Datatypes.list X) : Datatypes.list (StatusId * X) := (fun x => (id, x)) <$> l.
Definition children {X} (id : StatusId) (l : Datatypes.list (StatusId * X)) : Datatypes.list X :=
  snd <$> filter (fun p => fst p = id) l.

Record logged `{UlidText} `{Jiff} (rs : Rows) (l : Datatypes.list DeviceStatus) (el : ErrorLog) (nl : SensorLog) : Prop := {
  log_statuses : statuses rs = status_row <$> l;
  log_errors : errors rs = (fun p => error_row (fst p) (snd p)) <$> el;
  log_sensor_statuses : sensor_statuses rs = (fun p => sensor_status_row (fst p) (snd p)) <$> nl;
  log_wf : Forall status_wf l;
  log_error_ids : Forall (fun p => u128 (status_ulid (fst p))) el;
  log_sensor_wf : Forall (fun p => u128 (status_ulid (fst p)) /\ sensor_status_wf (snd p)) nl
}.

Lemma children_app {X} id (l k : Datatypes.list (StatusId * X)) : children id (l ++ k) = children id l ++ children id k.
Proof. unfold children. by rewrite filter_app, fmap_app. Qed.

Lemma children_entries {X} id id' (l : Datatypes.list X) :
  children id (entries id' l) = if decide (id' = id) then l else [].
Proof.
  unfold children, entries. induction l as [|x l IH]; [by destruct (decide _)|]. csimpl. rewrite filter_cons. cbn [fst].
  destruct (decide (id' = id)); csimpl; by rewrite IH.
Qed.

Section state.
Context `{UlidTextLaws} `{JiffLaws} `{!ChLike} `{!ServerOrder} `{!JoinUseNulls}.
Implicit Types (c : t) (l : Datatypes.list DeviceStatus) (el : ErrorLog) (nl : SensorLog).

(** A status as the registry answers it: whole seconds, and the children that its id has. *)
Definition answers el nl (s s' : DeviceStatus) : Prop := ∃ es ns,
  s' = mkDeviceStatus (st_id s) (st_device_id s) (st_dispatcher_id s) (st_battery_percent s) (st_uptime_seconds s)
         (st_signal_rssi s) es (whole_second (st_timestamp s)) ns /\
  es ≡ₚ children (st_id s) el /\
  ns ≡ₚ SqliteStatusProofs.sensor_status_stored <$> children (st_id s) nl.

(** ** Reading *)

Lemma ch_status_error_of_row_row id e : error_of_row (error_row id e) = Ok e.
Proof. unfold error_of_row, error_row. cbn. rewrite error_code_of_code. by destruct e. Qed.

Lemma ch_status_sensor_status_of_row_row id s : sensor_status_wf s ->
  sensor_status_of_row (sensor_status_row id s) = Ok (SqliteStatusProofs.sensor_status_stored s).
Proof.
  intros [Hu Ht]. unfold sensor_status_of_row, sensor_status_row. cbn [n_sensor_id n_state n_last_reading].
  rewrite parse_ulid_to_string, sensor_state_of_code by done. destruct s as [[u] st [ts|]]; [|done].
  cbn. by rewrite parse_second_as_second.
Qed.

(** The rows of one status among those of a child table. *)
Lemma child_rows {X R} (enc : StatusId * X -> R) (key : R -> string) id (k : Datatypes.list (StatusId * X)) :
  (∀ p, key (enc p) = ulid_to_string (status_ulid (fst p))) -> u128 (status_ulid id) ->
  Forall (fun p => u128 (status_ulid (fst p))) k ->
  List.filter (fun r => String.eqb (key r) (ulid_to_string (status_ulid id))) (enc <$> k) = enc <$> filter (fun p => fst p = id) k.
Proof.
  intros Hkey Hid. induction 1 as [|p k Hp _ IH]; [done|]. csimpl. rewrite filter_cons, IH, Hkey.
  destruct (decide (fst p = id)) as [->|Hne]; [by rewrite String.eqb_refl|].
  rewrite (proj2 (String.eqb_neq _ _)); [done|]. intros Heq. by apply Hne, status_ulid_inj, ulid_to_string_inj.
Qed.

Lemma fetch_errors_wp id c l el nl : u128 (status_ulid id) -> logged (rows (tables c)) l el nl ->
  wp of_sqlx (fetch_errors id) (fun es e => e = tables c /\ es ≡ₚ children id el) c.
Proof.
  intros Hid L. apply wp_read_bind. intros c' E. rewrite (log_errors _ _ _ _ L).
  rewrite (child_rows _ e_status_id id el) by (done || apply (log_error_ids _ _ _ _ L)).
  set (enc := fun p : StatusId * DeviceError => error_row (fst p) (snd p)).
  destruct (collect_perm (error_of_row <$> (enc <$> filter (fun p => fst p = id) el))
    (error_of_row <$> shuffle (enc <$> filter (fun p => fst p = id) el)) (children id el)) as (es & Hes & Hp);
    [by rewrite shuffle_perm| |eapply wp_lift; [exact Hes|by split]].
  rewrite <- list_fmap_compose. apply collect_map_Ok. intros p _. apply ch_status_error_of_row_row.
Qed.

Lemma fetch_sensor_statuses_wp id c l el nl : u128 (status_ulid id) -> logged (rows (tables c)) l el nl ->
  wp of_sqlx (fetch_sensor_statuses id)
    (fun ns e => e = tables c /\ ns ≡ₚ SqliteStatusProofs.sensor_status_stored <$> children id nl) c.
Proof.
  intros Hid L. apply wp_read_bind. intros c' E. rewrite (log_sensor_statuses _ _ _ _ L).
  pose proof (log_sensor_wf _ _ _ _ L) as Hwf.
  rewrite (child_rows _ n_status_id id nl) by (done || (eapply Forall_impl; [exact Hwf|]; by intros p [])).
  set (enc := fun p : StatusId * SensorStatus => sensor_status_row (fst p) (snd p)).
  destruct (collect_perm (sensor_status_of_row <$> (enc <$> filter (fun p => fst p = id) nl))
    (sensor_status_of_row <$> shuffle (enc <$> filter (fun p => fst p = id) nl))
    (SqliteStatusProofs.sensor_status_stored <$> children id nl)) as (ns & Hns & Hp);
    [by rewrite shuffle_perm| |eapply wp_lift; [exact Hns|by split]].
  unfold children. rewrite <- !list_fmap_compose. apply collect_map_Ok.
  intros p [_ Hin]%list_elem_of_filter. apply ch_status_sensor_status_of_row_row. rewrite Forall_forall in Hwf. by apply Hwf.
Qed.

Lemma ch_status_map_row_wp s c l el nl : s ∈ l -> logged (rows (tables c)) l el nl ->
  wp of_sqlx (map_row_to_status (status_row s)) (fun s' e => e = tables c /\ answers el nl s s') c.
Proof.
  intros Hin L. pose proof (log_wf _ _ _ _ L) as Hwf. rewrite Forall_forall in Hwf.
  destruct (Hwf s Hin) as (W1 & W2 & W3 & W4 & W5 & W6 & W7 & W8). unfold map_row_to_status, status_row.
  cbn [row_id row_device_id row_dispatcher_id row_timestamp row_battery_percent row_uptime_seconds row_signal_rssi].
  eapply wp_lift_bind; [by apply parse_ulid_to_string|].
  eapply wp_lift_bind; [by apply parse_ulid_to_string|].
  eapply wp_lift_bind; [by apply parse_ulid_to_string|].
  eapply wp_lift_bind; [by apply parse_second_as_second|].
  assert (mkStatusId (status_ulid (st_id s)) = st_id s) as -> by by destruct (st_id s).
  eapply wp_bind; [by eapply fetch_errors_wp|]. intros es c1 [E1 Hes]. rewrite <- E1 in L.
  eapply wp_bind; [by eapply fetch_sensor_statuses_wp|]. intros ns c2 [E2 Hns].
  apply wp_ret. split; [by rewrite E2|]. exists es, ns. split; [|by split].
  unfold as_u8, as_u64, as_i64, as_i16. rewrite wrap_small, wrap_to_signed, to_signed_id by (done || lia).
  by destruct s as [[] [] [] [] ? ? ? ? ?].
Qed.

Lemma ch_status_first_status_wp (row : option StatusRow) c l el nl : logged (rows (tables c)) l el nl ->
  (∀ r, row = Some r -> r ∈ status_row <$> l) ->
  wp of_sqlx (first_status row) (fun o e => e = tables c /\
    match row with
    | None => o = None
    | Some r => ∃ s s', o = Some s' /\ r = status_row s /\ s ∈ l /\ answers el nl s s'
    end) c.
Proof.
  intros L Hrow. destruct row as [r|]; [|by apply wp_ret].
  destruct (proj1 (list_elem_of_fmap _ _ _) (Hrow r eq_refl)) as (s & -> & Hs). cbn [first_status].
  eapply wp_bind; [by eapply ch_status_map_row_wp|]. intros s' c' [E Hs']. apply wp_ret. split; [done|]. by exists s, s'.
Qed.

Lemma ch_status_fields_row s : fields (status_row s) = SqliteDeviceStatusRegistry.status_row s.
Proof. done. Qed.

Lemma ch_status_get_wp id c l el nl : u128 (status_ulid id) -> logged (rows (tables c)) l el nl ->
  wp of_sqlx (get id) (fun o e => e = tables c /\
    match o with
    | None => ∀ s, s ∈ l -> st_id s <> id
    | Some s' => ∃ s, s ∈ l /\ st_id s = id /\ answers el nl s s'
    end) c.
Proof.
  intros Hid L. apply wp_read_bind. intros c' E. rewrite <- E in *. rewrite (log_statuses _ _ _ _ L).
  pose proof (ch_first_spec fields "id" (ulid_to_string (status_ulid id)) (status_row <$> l)) as Hfirst.
  pose proof (log_wf _ _ _ _ L) as Hwf. rewrite Forall_forall in Hwf.
  eapply wp_mono; [eapply (ch_status_first_status_wp _ _ l); [exact L|]|].
  - intros r Hr. rewrite Hr in Hfirst. by destruct Hfirst.
  - intros o e [-> Ho]. split; [done|]. destruct (ch_first _ _ _ _) as [r|].
    + destruct Ho as (s & s' & -> & -> & Hs & Ha). exists s. split_and!; try done.
      destruct Hfirst as [_ [= Hk]]. apply status_ulid_inj. eapply ulid_to_string_inj; [by apply Hwf|done|exact Hk].
    + rewrite Ho. intros s Hs <-. apply (Hfirst (status_row s)); [by apply list_elem_of_fmap_2|done].
Qed.

(** The rows of a device. *)
Lemma device_rows dev l : u128 (device_ulid dev) -> Forall status_wf l ->
  List.filter (fun row => String.eqb (row_device_id row) (ulid_to_string (device_ulid dev))) (status_row <$> l) =
    status_row <$> filter (fun s => st_device_id s = dev) l.
Proof.
  intros Hdev. induction 1 as [|s l (_ & W2 & _) _ IH]; [done|]. csimpl. rewrite filter_cons, IH. cbn [row_device_id].
  destruct (decide (st_device_id s = dev)) as [->|Hne]; [by rewrite String.eqb_refl|].
  rewrite (proj2 (String.eqb_neq _ _)); [done|]. intros Heq. by apply Hne, device_ulid_inj, ulid_to_string_inj.
Qed.

Lemma ch_status_get_latest_wp dev c l el nl : u128 (device_ulid dev) -> logged (rows (tables c)) l el nl ->
  wp of_sqlx (get_latest dev) (fun o e => e = tables c /\
    match o with
    | None => ∀ s, s ∈ l -> st_device_id s <> dev
    | Some s' => ∃ s, s ∈ l /\ st_device_id s = dev /\ answers el nl s s' /\
        ∀ s2, s2 ∈ l -> st_device_id s2 = dev -> as_second (st_timestamp s2) <= as_second (st_timestamp s)
    end) c.
Proof.
  intros Hdev L. apply wp_read_bind. intros c' E. rewrite <- E in *.
  rewrite (log_statuses _ _ _ _ L), device_rows by (done || apply (log_wf _ _ _ _ L)).
  destruct (ch_order_spec fields latest (status_row <$> filter (fun s => st_device_id s = dev) l)) as (k & -> & Hk & Hsort).
  assert (∀ r, r ∈ k <-> ∃ s, r = status_row s /\ st_device_id s = dev /\ s ∈ l) as Hin.
  { intros r. rewrite Hk, list_elem_of_fmap. by setoid_rewrite list_elem_of_filter. }
  eapply wp_mono; [eapply (ch_status_first_status_wp _ _ l); [exact L|]|].
  - intros r Hr. destruct k as [|r' k]; [done|]. injection Hr as ->.
    destruct (proj1 (Hin r)) as (s & -> & _ & Hs); [left|]. by apply list_elem_of_fmap_2.
  - intros o e [-> Ho]. split; [done|]. destruct k as [|r k]; cbn in Ho.
    + rewrite Ho. intros s Hs Hd. apply (elem_of_nil (status_row s)). apply Hin. by exists s.
    + destruct Ho as (s & s' & -> & Hr & Hs & Ha). exists s.
      destruct (proj1 (Hin r)) as (s0 & Hs0 & Hd & Hs0l); [left|].
      assert (st_device_id s = dev) as Hdev'.
      { rewrite Hr in Hs0. injection Hs0 as _ Heq. rewrite <- Hd. pose proof (log_wf _ _ _ _ L) as Hwf. rewrite Forall_forall in Hwf.
        apply device_ulid_inj. eapply ulid_to_string_inj; [apply (Hwf s Hs)|apply (Hwf s0 Hs0l)|exact Heq]. }
      split_and!; try done. intros s2 Hs2 Hd2. assert (status_row s2 ∈ r :: k) as Hr2 by (apply Hin; by exists s2).
      apply StronglySorted_inv in Hsort as [_ Hsort]. rewrite Forall_forall in Hsort.
      apply elem_of_cons in Hr2 as [Heq|Hr2]; [rewrite Hr in Heq; injection Heq; lia|].
      specialize (Hsort _ Hr2). rewrite Hr in Hsort. unfold cmp_le, cmp_on in Hsort. cbn -[value_cmp] in Hsort.
      change (CompOpp (value_cmp (VInt (as_second (st_timestamp s))) (VInt (as_second (st_timestamp s2)))) <> Gt) in Hsort.
      rewrite value_cmp_int in Hsort.
      destruct (Z.compare_spec (as_second (st_timestamp s)) (as_second (st_timestamp s2))); cbn in Hsort; [lia|done|lia].
Qed.

(** ** Writing *)

Lemma logged_statuses s rs l el nl : status_wf s -> logged rs l el nl ->
  logged (append_statuses [status_row s] rs) (l ++ [s]) el nl.
Proof.
  intros Hs [L1 L2 L3 L4 L5 L6]. split; cbn [append_statuses statuses errors sensor_statuses]; try done.
  - by rewrite L1, fmap_app.
  - by rewrite Forall_app, Forall_singleton.
Qed.

Lemma logged_errors id es rs l el nl : u128 (status_ulid id) -> logged rs l el nl ->
  logged (append_errors (error_row id <$> es) rs) l (el ++ entries id es) nl.
Proof.
  intros Hid [L1 L2 L3 L4 L5 L6]. split; cbn [append_errors statuses errors sensor_statuses]; try done.
  - rewrite L2, fmap_app. f_equal. unfold entries. by rewrite <- list_fmap_compose.
  - apply Forall_app. split; [done|]. apply Forall_fmap, Forall_forall. by intros.
Qed.

Lemma logged_sensor_statuses id ns rs l el nl : u128 (status_ulid id) -> Forall sensor_status_wf ns -> logged rs l el nl ->
  logged (append_sensor_statuses (sensor_status_row id <$> ns) rs) l el (nl ++ entries id ns).
Proof.
  intros Hid Hns [L1 L2 L3 L4 L5 L6]. split; cbn [append_sensor_statuses statuses errors sensor_statuses]; try done.
  - rewrite L3, fmap_app. f_equal. unfold entries. by rewrite <- list_fmap_compose.
  - apply Forall_app. split; [done|]. apply Forall_fmap. eapply Forall_impl; [exact Hns|]. by intros x Hx.
Qed.

Lemma insert_outcome {R} (add : Datatypes.list R -> Rows -> Rows) xs c c' res : insert_rows add xs c = (c', res) ->
  match res with
  | Ok _ => rows (tables c') = add xs (rows (tables c))
  | Err e => rows (tables c') = rows (tables c) /\ e = of_sqlx Unavailable
  end.
Proof.
  intros Hi. pose proof (wp_insert add xs (fun _ e => e = mkEnv (add xs (rows (tables c))) (ticks (tables c))) c eq_refl) as Hw.
  eapply wp_elim in Hw; [|exact Hi]. destruct res as [[]|e]; [by rewrite Hw|].
  apply insert_failed in Hi. rewrite Hi. by destruct Hw.
Qed.

(** A status is stored table by table: after a failure some prefix of the three INSERTs is there. *)
Lemma ch_status_store_spec s c c' res l el nl : status_wf s -> logged (rows (tables c)) l el nl -> store s c = (c', res) ->
  match res with
  | Ok _ => logged (rows (tables c')) (l ++ [s]) (el ++ entries (st_id s) (st_errors s))
              (nl ++ entries (st_id s) (st_sensor_statuses s))
  | Err e => e = of_sqlx Unavailable /\
      (logged (rows (tables c')) l el nl \/ logged (rows (tables c')) (l ++ [s]) el nl \/
       logged (rows (tables c')) (l ++ [s]) (el ++ entries (st_id s) (st_errors s)) nl)
  end.
Proof.
  intros Hs L. pose proof Hs as (Hid & _ & _ & _ & _ & _ & _ & Hns). unfold store, bind.
  destruct (insert_rows append_statuses _ c) as [c1 [[]|e]] eqn:H1'; apply insert_outcome in H1'.
  - pose proof (logged_statuses s _ _ _ _ Hs L) as L1. rewrite <- H1' in L1.
    destruct (store_errors _ _ c1) as [c2 r2] eqn:H2'.
    assert (match r2 with Ok _ => logged (rows (tables c2)) (l ++ [s]) (el ++ entries (st_id s) (st_errors s)) nl
                        | Err e => rows (tables c2) = rows (tables c1) /\ e = of_sqlx Unavailable end) as H2''.
    { unfold store_errors in H2'. destruct (st_errors s) as [|x es]; [injection H2' as <- <-; by rewrite app_nil_r|].
      apply insert_outcome in H2'. destruct r2 as [[]|e]; [|exact H2']. rewrite H2'. by apply logged_errors. }
    destruct r2 as [[]|e]; [|intros [= <- <-]; destruct H2'' as [-> ->]; auto].
    intros H3'. unfold store_sensor_statuses in H3'.
    destruct (st_sensor_statuses s) as [|x ns] eqn:Hn; [injection H3' as <- <-; by rewrite app_nil_r|].
    apply insert_outcome in H3'. destruct res as [[]|e]; [|destruct H3' as [-> ->]; auto].
    rewrite H3'. by apply logged_sensor_statuses.
  - intros [= <- <-]. destruct H1' as [-> ->]. auto.
Qed.

(** ** What the join selects *)

Lemma ch_status_conds_iff f s e : SqliteStatusProofs.filter_exact f -> status_wf s ->
  forallb (ch_holds (fields (status_row s) ++ e)) (conds f) = true <->
  SqliteStatusProofs.status_part f s /\
  forallb (holds (SqliteDeviceStatusRegistry.status_row s ++ e)) (error_conds ch_error f) = true.
Proof.
  intros Hf Hs. rewrite ch_status_fields_row.
  assert (∀ r cs, Forall no_like cs -> forallb (ch_holds r) cs = forallb (holds r) cs) as Hholds.
  { intros r cs. induction 1 as [|c cs Hc _ IH]; [done|]. cbn. rewrite IH. by destruct c. }
  rewrite Hholds.
  - unfold conds, status_conds. rewrite forallb_app_iff. by rewrite SqliteStatusProofs.status_only_iff.
  - unfold conds, status_conds, status_only_conds, error_conds.
    repeat (apply Forall_app; split); first [by destruct (sf_ids f) as [[|]|]; repeat constructor
      | by destruct (sf_device_ids f) as [[|]|]; repeat constructor | by destruct (sf_dispatcher_ids f) as [[|]|]; repeat constructor
      | by destruct (sf_error_codes f) as [[|]|]; repeat constructor | (match goal with |- Forall _ (opt_cond _ ?o) => destruct o end; repeat constructor)].
Qed.

(** The filter accepts an error joined to a status. *)
Definition error_accepted (f : DeviceStatusFilter) (code : DeviceErrorCode.t) : Prop :=
  sf_has_errors f <> Some false /\ in_opt (sf_error_codes f) code.

Lemma error_conds_code f r sid code : SqliteStatusProofs.filter_exact f -> column "error_status_id" r = Some (VText sid) ->
  column "error_code" r = Some (VInt (error_code_code code)) ->
  forallb (holds r) (error_conds ch_error f) = true <-> error_accepted f code.
Proof.
  intros (_ & _ & _ & _ & _ & F6) Hsid Hcode. unfold error_conds, error_accepted. rewrite forallb_app_iff.
  rewrite (in_cond_int_iff _ error_code_code (fun _ => True) _ _ code)
    by (done || (intros [] _; by destruct code)).
  f_equiv. destruct (sf_has_errors f) as [b|]; cbn; [|naive_solver]. rewrite (col_column _ _ _ Hsid).
  rewrite andb_true_r. destruct b; naive_solver.
Qed.
End state.

Section default_joins.
Context `{UlidTextLaws} `{JiffLaws} `{!ChLike} `{!ServerOrder} `{!JoinUseNulls} (defaults : join_use_nulls = false).

(** With the server's default, a status without errors counts as one with the error of code 0. *)
Definition codes_joined (es : Datatypes.list DeviceError) : Datatypes.list DeviceErrorCode.t :=
  match es with [] => [DeviceErrorCode.LowBattery] | _ => err_code <$> es end.

Lemma join_errors_enc rs l el nl s : u128 (status_ulid (st_id s)) -> logged rs l el nl ->
  join_errors rs (status_row s) = (fun code => (status_row s, error_columns (mkErrorRow
    (match children (st_id s) el with [] => EmptyString | _ => ulid_to_string (status_ulid (st_id s)) end)
    (error_code_code code) None))) <$> codes_joined (children (st_id s) el).
Proof.
  intros Hid L. unfold join_errors, no_error. rewrite defaults, (log_errors _ _ _ _ L). cbn [row_id status_row].
  rewrite (child_rows _ e_status_id (st_id s) el) by (done || apply (log_error_ids _ _ _ _ L)).
  unfold children. pose proof (log_error_ids _ _ _ _ L) as Hids.
  assert (∀ p, p ∈ filter (fun p => fst p = st_id s) el -> fst p = st_id s) as Hk by (by intros p [? _]%list_elem_of_filter).
  destruct (filter _ el) as [|p k]; [done|]. unfold codes_joined. csimpl. f_equal.
  - by rewrite (Hk p) by left.
  - rewrite <- !list_fmap_compose. apply list_fmap_ext. intros i q Hq%list_elem_of_lookup_2. cbn.
    by rewrite (Hk q) by by right.
Qed.

Lemma selected_iff f rs l el nl s : SqliteStatusProofs.filter_exact f -> s ∈ l -> logged rs l el nl ->
  status_row s ∈ selected f (conds f) rs <->
    SqliteStatusProofs.status_part f s /\
    ∃ code, code ∈ codes_joined (children (st_id s) el) /\ error_accepted f code.
Proof.
  intros Hf Hs L. pose proof (log_wf _ _ _ _ L) as Hwf. rewrite Forall_forall in Hwf. pose proof (Hwf s Hs) as Ws.
  unfold selected. rewrite elem_of_remove_dups, list_elem_of_fmap. transitivity
    (∃ e, (status_row s, e) ∈ joined f rs /\ forallb (ch_holds (fields (status_row s) ++ e)) (conds f) = true).
  { split.
    - intros ([r e] & -> & [Hj He]%list_elem_of_In%filter_In). apply list_elem_of_In in Hj. by exists e.
    - intros (e & Hj & He). exists (status_row s, e). split; [done|]. apply list_elem_of_In, filter_In. by rewrite <- list_elem_of_In. }
  setoid_rewrite ch_status_conds_iff; [|done..]. unfold joined. rewrite (log_statuses _ _ _ _ L).
  assert (status_row s ∈ status_row <$> l) as Hrow by by apply list_elem_of_fmap_2.
  destruct (needs_error_join f) eqn:Hn.
  - assert (∀ e, (status_row s, e) ∈ mjoin (join_errors rs <$> (status_row <$> l)) <->
      (status_row s, e) ∈ join_errors rs (status_row s)) as Hj.
    { intros e. rewrite list_elem_of_join. split.
      - intros (p & Hp & (r & -> & Hr)%list_elem_of_fmap). unfold join_errors in Hp.
        enough (r = status_row s) as -> by done.
        destruct (List.filter _ _); [by apply list_elem_of_singleton in Hp as [= ->]|].
        by apply list_elem_of_fmap in Hp as (? & [= -> _] & _).
      - intros He. exists (join_errors rs (status_row s)). split; [done|]. by apply list_elem_of_fmap_2. }
    setoid_rewrite Hj. erewrite join_errors_enc; [|by destruct Ws|exact L]. setoid_rewrite list_elem_of_fmap. split.
    + intros (e & (code & [= ->] & Hcode) & Hp & He). split; [done|]. exists code. split; [done|].
      by eapply error_conds_code in He.
    + intros (Hp & code & Hcode & Ha). eexists. split; [by exists code|]. split; [done|].
      by eapply (error_conds_code _ _ _ code).
  - unfold needs_error_join in Hn. destruct (sf_has_errors f) eqn:Hh; [done|].
    destruct Hf as (_ & _ & _ & _ & _ & F6). destruct (sf_error_codes f) as [[|]|] eqn:Hc; [by destruct F6|done|].
    unfold error_accepted, error_conds. rewrite Hh, Hc. split.
    + intros (e & _ & Hp & _). split; [done|]. destruct (children (st_id s) el) as [|x es]; eexists; (split; [left|]); by split.
    + intros [Hp _]. exists []. split; [|done]. apply list_elem_of_fmap. by exists (status_row s).
Qed.
End default_joins.
End ClickStatusProofs.

(** ** Properties *)

Section properties.
Context `{UlidTextLaws} `{JiffLaws} `{!ChLike} `{!ServerOrder} `{!JoinUseNulls}.
Import ClickStatusProofs.
Implicit Types c : ClickHouseDeviceStatusRegistry.t.

Lemma selected_sub f cs rs r : r ∈ ClickHouseDeviceStatusRegistry.selected f cs rs -> r ∈ ClickHouseDeviceStatusRegistry.statuses rs.
Proof.
  unfold ClickHouseDeviceStatusRegistry.selected. rewrite elem_of_remove_dups, list_elem_of_fmap.
  intros ([r' e] & -> & [Hj _]%list_elem_of_In%filter_In). apply list_elem_of_In in Hj.
  unfold ClickHouseDeviceStatusRegistry.joined in Hj. destruct (needs_error_join f).
  - apply list_elem_of_join in Hj as (p & Hp & (s & -> & Hs)%list_elem_of_fmap).
    unfold ClickHouseDeviceStatusRegistry.join_errors in Hp.
    destruct (List.filter _ _); [by apply list_elem_of_singleton in Hp as [= -> _]|].
    by apply list_elem_of_fmap in Hp as (? & [= -> _] & _).
  - by apply list_elem_of_fmap in Hj as (? & [= -> _] & ?).
Qed.

(** Every status of a page is that of a selected row. *)
Lemma ch_status_list_wp options c l el nl : logged (rows (tables c)) l el nl ->
  wp of_sqlx (ClickHouseDeviceStatusRegistry.list options) (fun ss e => e = tables c /\
    ∀ s', s' ∈ ss -> ∃ s, s ∈ l /\ answers el nl s s' /\
      ClickHouseDeviceStatusRegistry.status_row s ∈ ClickHouseDeviceStatusRegistry.selected (filter_opt options)
        (ClickHouseDeviceStatusRegistry.conds (filter_opt options)) (rows (tables c))) c.
Proof.
  intros L. apply wp_read_bind. intros c' E. rewrite <- E in *.
  set (sel := ClickHouseDeviceStatusRegistry.selected _ _ _).
  destruct (ch_order_spec ClickHouseDeviceStatusRegistry.fields (ch_page (ClickHouseDeviceStatusRegistry.order_by (sort_by_opt options))
    (sort_order_opt options) (pagination_opt options)) sel) as (k & -> & Hk & _).
  eapply wp_mono; [apply (wp_map_m _ _ (fun r s' => ∃ s, s ∈ l /\ answers el nl s s' /\
    ClickHouseDeviceStatusRegistry.status_row s ∈ sel))|].
  - intros r c1 Hr E1. assert (r ∈ sel) as Hsel by (rewrite <- Hk; eapply elem_of_sublist; [exact Hr|apply page_sublist]).
    pose proof (selected_sub _ _ _ _ Hsel) as Hin. rewrite (log_statuses _ _ _ _ L) in Hin.
    apply list_elem_of_fmap in Hin as (s & -> & Hs). rewrite <- E1 in L |- *.
    eapply wp_mono; [by eapply ch_status_map_row_wp|]. intros s' e [-> Ha]. split; [done|]. by exists s.
  - cbn. intros ss e [-> Hss]. split; [done|]. intros s' (i & Hi)%list_elem_of_lookup.
    by destruct (Forall2_lookup_r _ _ _ _ _ Hss Hi) as (r & _ & Hr).
Qed.

(** C31: storing a status in the ClickHouse registry appends it, its errors and the states of its
    sensors; a failure in between leaves a prefix of the three.  [get] and [get_latest] answer a
    stored status of the id, or one whose second no other of the device exceeds, with every error
    and every sensor state stored under its id: a status that was stored twice has each of them
    twice. *)
Theorem clickhouse_status_log c l el nl : logged (rows (tables c)) l el nl ->
  (∀ s c' res, status_wf s -> ClickHouseDeviceStatusRegistry.store s c = (c', res) ->
     match res with
     | Ok _ => logged (rows (tables c')) (l ++ [s]) (el ++ entries (st_id s) (st_errors s))
                 (nl ++ entries (st_id s) (st_sensor_statuses s))
     | Err e => e = of_sqlx Unavailable /\
         (logged (rows (tables c')) l el nl \/ logged (rows (tables c')) (l ++ [s]) el nl \/
          logged (rows (tables c')) (l ++ [s]) (el ++ entries (st_id s) (st_errors s)) nl)
     end) /\
  (∀ id c' res, u128 (status_ulid id) -> ClickHouseDeviceStatusRegistry.get id c = (c', res) ->
     match res with
     | Ok (Some s') => ∃ s, s ∈ l /\ st_id s = id /\ answers el nl s s'
     | Ok None => ∀ s, s ∈ l -> st_id s <> id
     | Err e => e = of_sqlx Unavailable /\ faulty c
     end) /\
  (∀ dev c' res, u128 (device_ulid dev) -> ClickHouseDeviceStatusRegistry.get_latest dev c = (c', res) ->
     match res with
     | Ok (Some s') => ∃ s, s ∈ l /\ st_device_id s = dev /\ answers el nl s s' /\
         ∀ s2, s2 ∈ l -> st_device_id s2 = dev -> as_second (st_timestamp s2) <= as_second (st_timestamp s)
     | Ok None => ∀ s, s ∈ l -> st_device_id s <> dev
     | Err e => e = of_sqlx Unavailable /\ faulty c
     end) /\
  (∀ s c1 c2 c3 s', status_wf s -> (∀ s2, s2 ∈ l -> st_id s2 <> st_id s) ->
     children (st_id s) el = [] ->
     ClickHouseDeviceStatusRegistry.store s c = (c1, Ok tt) -> ClickHouseDeviceStatusRegistry.store s c1 = (c2, Ok tt) ->
     ClickHouseDeviceStatusRegistry.get (st_id s) c2 = (c3, Ok (Some s')) ->
     st_errors s' ≡ₚ st_errors s ++ st_errors s).
Proof.
  intros L. split_and!.
  - intros s c' res Hs Hst. by eapply ch_status_store_spec in Hst.
  - intros id c' res Hid Hg. eapply wp_elim in Hg; [|by eapply ch_status_get_wp]. destruct res as [[s'|]|e]; [by destruct Hg..|done].
  - intros dev c' res Hd Hg. eapply wp_elim in Hg; [|by eapply ch_status_get_latest_wp].
    destruct res as [[s'|]|e]; [by destruct Hg..|done].
  - intros s c1 c2 c3 s' Hs Hnew Hchildren S1 S2 Hg.
    eapply ch_status_store_spec in S1; [|done..]. eapply ch_status_store_spec in S2; [|done..].
    eapply wp_elim in Hg; [|eapply ch_status_get_wp; [by destruct Hs|exact S2]].
    destruct Hg as (_ & s0 & _ & Hid & es & ns & -> & Hes & _). cbn [st_errors].
    by rewrite Hes, Hid, !children_app, !children_entries, decide_True, Hchildren by done.
Qed.

(** on a server that fills the columns of a LEFT JOIN with defaults, as ClickHouse does unless
    told otherwise, the filter on errors does not ask what it says: no status is listed for
    [has_errors = false], [has_errors = true] excludes nothing, and a status without any error is
    selected by a list of error codes exactly when the low-battery code is in it. *)
Theorem clickhouse_error_filter_defaults c l el nl f : join_use_nulls = false ->
  logged (rows (tables c)) l el nl -> SqliteStatusProofs.filter_exact f ->
  (∀ s, s ∈ l ->
     ClickHouseDeviceStatusRegistry.status_row s ∈
       ClickHouseDeviceStatusRegistry.selected f (ClickHouseDeviceStatusRegistry.conds f) (rows (tables c)) <->
     SqliteStatusProofs.status_part f s /\ sf_has_errors f <> Some false /\
     ∀ codes, sf_error_codes f = Some codes ->
       (∃ e, e ∈ children (st_id s) el /\ err_code e ∈ codes) \/
       (children (st_id s) el = [] /\ DeviceErrorCode.LowBattery ∈ codes)) /\
  (∀ sort_by o p c' ss, sf_has_errors f = Some false ->
     ClickHouseDeviceStatusRegistry.list (mkQueryOptions f sort_by o p) c = (c', Ok ss) -> ss = []).
Proof.
  intros Hnulls L Hf.
  assert (∀ s, s ∈ l -> ClickHouseDeviceStatusRegistry.status_row s ∈
       ClickHouseDeviceStatusRegistry.selected f (ClickHouseDeviceStatusRegistry.conds f) (rows (tables c)) <->
    SqliteStatusProofs.status_part f s /\ ∃ code, code ∈ codes_joined (children (st_id s) el) /\ error_accepted f code) as Hsel
    by (intros s Hs; by eapply selected_iff).
  split.
  - intros s Hs. rewrite (Hsel s Hs). f_equiv. unfold error_accepted, in_opt, codes_joined. split.
    + intros (code & Hcode & Hh & Hin). split; [done|]. intros codes Hc.
      destruct (children (st_id s) el) as [|e es]; [right|left].
      * apply list_elem_of_singleton in Hcode as ->. split; [done|by apply Hin].
      * apply list_elem_of_fmap in Hcode as (x & -> & Hx). exists x. split; [done|by apply Hin].
    + intros [Hh Hc]. destruct (sf_error_codes f) as [codes|].
      * destruct (Hc codes eq_refl) as [(e & He & Hin)|[-> Hin]].
        -- exists (err_code e). split; [|split; [done|by intros ? [= <-]]].
           destruct (children (st_id s) el); [by apply elem_of_nil in He|]. by apply list_elem_of_fmap_2.
        -- exists DeviceErrorCode.LowBattery. split; [left|]. split; [done|]. by intros ? [= <-].
      * destruct (children (st_id s) el) as [|e es]; eexists; (split; [left|]); by split.
  - intros sort_by o p c' ss Hh Hl. eapply wp_elim in Hl; [|by apply (ch_status_list_wp _ c l el nl)].
    destruct Hl as [_ Hl]. destruct ss as [|s' ss]; [done|]. destruct (Hl s') as (s & Hs & _ & Hr); [left|].
    apply (Hsel s Hs) in Hr as (_ & code & _ & Hacc & _). by rewrite Hh in Hacc.
Qed.
End properties.

(** ** Witnesses *)

Module ClickStatusWitness.
Import ClickStatusProofs.
#[local] Existing Instance ulid_crockford.
#[local] Existing Instance ulid_crockford_laws.
#[local] Existing Instance jiff_ns.
#[local] Existing Instance jiff_ns_laws.
#[local] Existing Instance server_order_std.
#[local] Existing Instance ch_like_std.
#[local] Instance joins : JoinUseNulls := false.

Definition empty : ClickHouseDeviceStatusRegistry.t := calm (mkEnv (ClickHouseDeviceStatusRegistry.mkRows [] [] []) 0).

Lemma ch_status_empty_logged : logged (rows (tables empty)) [] [] [].
Proof. split; [reflexivity|reflexivity|reflexivity|constructor|constructor|constructor]. Qed.

Definition failing : DeviceStatus := SqliteStatusWitness.failing.
Definition once : ClickHouseDeviceStatusRegistry.t := fst (ClickHouseDeviceStatusRegistry.store failing empty).
Definition again : ClickHouseDeviceStatusRegistry.t := fst (ClickHouseDeviceStatusRegistry.store failing once).

(** A status with two errors, stored twice, has four. *)
Lemma clickhouse_status_log_witness :
  ∃ s', snd (ClickHouseDeviceStatusRegistry.get (mkStatusId 5) again) = Ok (Some s') /\
    st_errors s' ≡ₚ st_errors failing ++ st_errors failing.
Proof.
  destruct (clickhouse_status_log empty [] [] [] ch_status_empty_logged) as (_ & _ & _ & Htwice).
  assert (∃ c3 s', ClickHouseDeviceStatusRegistry.get (mkStatusId 5) again = (c3, Ok (Some s'))) as (c3 & s' & Hget)
    by (eexists _, _; vm_compute; reflexivity).
  exists s'. rewrite Hget. split; [reflexivity|].
  assert (ClickHouseDeviceStatusRegistry.store failing empty = (once, Ok tt)) as S1 by (vm_compute; reflexivity).
  assert (ClickHouseDeviceStatusRegistry.store failing once = (again, Ok tt)) as S2 by (vm_compute; reflexivity).
  refine (Htwice failing once again c3 s' SqliteStatusWitness.failing_wf _ eq_refl S1 S2 Hget).
  intros s2 Hs2. exfalso. apply elem_of_nil in Hs2. exact Hs2.
Defined.

Definition without_errors : DeviceStatusFilter := mkDeviceStatusFilter None None None None None None (Some false) None.

(** A status without errors is stored, and asked for as such. *)
Definition healthy : ClickHouseDeviceStatusRegistry.t :=
  fst (ClickHouseDeviceStatusRegistry.store (sample_status 4 7 50) empty).

Lemma clickhouse_error_filter_defaults_witness :
  snd (ClickHouseDeviceStatusRegistry.list (mkQueryOptions without_errors DeviceStatusSortBy.Timestamp SortOrder.Asc
    (Pagination.Offset 0 10)) healthy) = Ok [].
Proof.
  destruct (ClickHouseDeviceStatusRegistry.store (sample_status 4 7 50) empty) as [c' res] eqn:Hs.
  assert (res = Ok tt) as -> by (vm_compute in Hs; injection Hs as _ <-; reflexivity).
  pose proof (ch_status_store_spec _ _ _ _ [] [] [] SqliteStatusWitness.sample_status_wf ch_status_empty_logged Hs) as Hstore.
  cbv iota in Hstore.
  assert (healthy = c') as -> by (unfold healthy; rewrite Hs; reflexivity).
  assert (SqliteStatusProofs.filter_exact without_errors) as Hf by (repeat split; exact I).
  destruct (clickhouse_error_filter_defaults c' _ _ _ without_errors eq_refl Hstore Hf) as [_ Hnone].
  destruct (ClickHouseDeviceStatusRegistry.list _ c') as [c2 r2] eqn:Hl.
  assert (∃ ss, r2 = Ok ss) as [ss ->] by (vm_compute in Hs; injection Hs as <-; vm_compute in Hl; injection Hl as _ <-; eexists; reflexivity).
  rewrite (Hnone _ _ _ _ _ eq_refl Hl). reflexivity.
Defined.
End ClickStatusWitness.
