(* ===== verification/ClickQueries.v ===== *)
(** * The two SQL backends ask the same questions

    The queries of ersha-prime/src/registry/sqlite/ and of ersha-prime/src/registry/clickhouse/ are
    built by different code: the first pushes to a [QueryBuilder] and binds every value, the second
    formats a string and binds identifiers only.  Both are renderings of the conditions of
    SqlCodec.v; what differs between the backends is the dialect. *)
From Stdlib Require Import ZArith Lia Strings.String.
From stdpp Require Import base gmap strings list pretty.
From S2P Require Import Prelude Platform Core Samples Filter Sql SqlCodec.
From S2P Require Import SqliteDispatcher SqliteReading SqliteDevice SqliteStatus.
From S2P Require Import ClickHouse ClickDispatcher ClickReading ClickDevice ClickStatus.
Open Scope Z_scope.

Section same_questions.
Context `{!UlidText} `{!Jiff}.

(** for every filter, the WHERE clause that the SQLite registries send is the list of the
    conditions the filter stands for, with one mark and one bound value for each value in them, and
    the one that the ClickHouse registries send is the same list in the other dialect: neither
    leaves out a condition that the other has, or swaps two values.  The two differ in the columns
    that the status queries test for an error. *)
Theorem sql_backends_same_conditions :
  (∀ init f, SqliteReadingRegistry.filter_readings (qb_new init) f = fst (where_state init (reading_conds f)) /\
             ClickHouseReadingRegistry.clauses f = rendered (reading_conds f)) /\
  (∀ init f, SqliteDispatcherRegistry.filter_dispatchers (qb_new init) f = fst (where_state init (dispatcher_conds f)) /\
             ClickHouseDispatcherRegistry.clauses f = rendered (dispatcher_conds f)) /\
  (∀ init f, SqliteDeviceRegistry.filter_devices (qb_new init) f =
               fst (where_state init (device_conds (mkCol " sensor_count" "sensor_count") f)) /\
             ClickHouseDeviceRegistry.clauses f = rendered (device_conds (plain "sensor_count") f)) /\
  (∀ init f, SqliteDeviceStatusRegistry.filter_statuses (qb_new init) f =
               fst (where_state (init +:+ SqliteStatusProofs.join_text f)
                      (status_conds (mkCol "device_status_errors.id" "error_id") f)) /\
             ClickHouseDeviceStatusRegistry.clauses f =
               rendered (status_conds (mkCol "device_status_errors.status_id" "error_status_id") f)).
Proof.
  split_and!; intros init f; split.
  - apply filter_readings_state.
  - apply ClickReadingProofs.ch_reading_clauses_rendered.
  - apply SqliteDispatcherProofs.filter_dispatchers_state.
  - apply ClickDispatcherProofs.ch_dispatcher_clauses_rendered.
  - apply SqliteDeviceProofs.filter_devices_state.
  - apply ClickDeviceProofs.ch_device_clauses_rendered.
  - apply SqliteStatusProofs.filter_statuses_state.
  - apply ClickStatusProofs.ch_status_clauses_rendered.
Qed.

Lemma sum_list_app l k : sum_list (l ++ k) = (sum_list l + sum_list k)%nat.
Proof. induction l as [|n l IH]; [done|]. cbn. rewrite IH. lia. Qed.

Lemma pattern_marks_in c (o : option (list Value)) : sum_list (pattern_marks <$> in_cond c o) = 0%nat.
Proof. by destruct o as [[|]|]. Qed.
Lemma pattern_marks_opt {A} (g : A -> Cond) o : (∀ a, no_like (g a)) -> sum_list (pattern_marks <$> opt_cond g o) = 0%nat.
Proof. intros Hg. destruct o as [a|]; [|done]. cbn. specialize (Hg a). by destruct (g a). Qed.
Ltac solve_pattern_marks :=
  rewrite ?fmap_app, ?sum_list_app, ?pattern_marks_in, ?pattern_marks_opt by done.

(** The marks of a manufacturer pattern, which the ClickHouse registry writes into the text. *)
Definition pattern_marks_of (f : DeviceFilter) : nat := from_option marks_in 0%nat (df_manufacturer_pattern f).

(** the list query of the ClickHouse device registry holds one mark for the columns and one for
    each bound identifier, and as many more as the manufacturer pattern has question marks: a
    pattern with one asks for a value that nothing binds, and a pattern with a quote ends the string
    literal it is written in. *)
Theorem clickhouse_pattern_unescaped (options : QueryOptions DeviceFilter DeviceSortBy.t) :
  let q := ClickHouseDeviceRegistry.build_list_query options in
  marks_in (fst q) = (1 + length (snd q) + pattern_marks_of (filter_opt options))%nat /\
  (∀ p, df_manufacturer_pattern (filter_opt options) = Some p -> ∃ before after,
     fst q = before +:+ "manufacturer LIKE '%" +:+ p +:+ "%'" +:+ after).
Proof.
  cbv zeta. unfold ClickHouseDeviceRegistry.build_list_query. rewrite ClickDeviceProofs.ch_device_clauses_rendered. split.
  - rewrite list_query_marks; [|unfold ClickHouseDeviceRegistry.conds, device_conds; solve_no_marks|by destruct (sort_by_opt options)].
    f_equal. unfold ClickHouseDeviceRegistry.conds, device_conds. solve_pattern_marks.
    unfold pattern_marks_of. destruct (df_manufacturer_pattern _) as [p|]; [|done]. cbn [opt_cond fmap list_fmap sum_list].
    cbn [pattern_marks]. rewrite !marks_in_app. cbn. lia.
  - intros p Hp. unfold list_query. cbn [fst]. unfold ClickHouseDeviceRegistry.conds. rewrite device_conds_pattern, Hp. cbn [opt_cond].
    unfold rendered. cbn [fst]. rewrite fmap_app. set (cs := render <$> _). cbn [fmap list_fmap render plain col_text].
    exists ("SELECT ?fields FROM devices FINAL" +:+ " WHERE " +:+ match cs with [] => EmptyString | _ => join " AND " cs +:+ " AND " end).
    eexists. destruct cs as [|c cs].
    + cbn [app where_clause join]. rewrite <- !(assoc_L String.append). reflexivity.
    + unfold where_clause. change ((c :: cs) ++ ?k) with (c :: (cs ++ k)) at 1. cbv iota.
      change (c :: cs ++ ?k) with ((c :: cs) ++ k). rewrite join_snoc by done.
      rewrite <- !(assoc_L String.append). reflexivity.
Qed.
End same_questions.
