(* ===== verification/DispatchStorage.v ===== *)
(** * The storage of a dispatcher: ersha-dispatch/src/storage/

    [EventStorage] is the trait [SensorReadingsStorage] at readings and [DeviceStatusStorage] at
    statuses; the two traits of the source differ only in the type stored.  [EventStorageLaws] is
    the contract the uploader relies on: a table from ids to values with a state, [Pending] or
    [Uploaded], that an operation which fails leaves as it was.  [MemoryStorage] and [SqliteStorage]
    are the two implementations; each is proved to meet the contract. *)
From Stdlib Require Import ZArith Lia Strings.String.
From stdpp Require Import base gmap strings list.
From S2P Require Import Prelude Platform Core Samples Registry.
Open Scope Z_scope.

(** [ersha-dispatch/src/storage/mod.rs:9-45] SensorReadingsStorage, DeviceStatusStorage *)
Class EventStorage (K V S E : Type) := {
  store : V -> S -> S * result unit E;
  store_batch : list V -> S -> S * result unit E;
  fetch_pending : S -> S * result (list V) E;
  mark_uploaded : list K -> S -> S * result unit E
}.

(** [ersha-dispatch/src/storage/mod.rs:60-75] StorageStats *)
Record StorageStats := mkStorageStats {
  sensor_readings_pending : Z; sensor_readings_uploaded : Z; sensor_readings_total : Z;
  device_statuses_pending : Z; device_statuses_uploaded : Z; device_statuses_total : Z
}.

(** [ersha-dispatch/src/storage/mod.rs:77-84] CleanupStats *)
Record CleanupStats := mkCleanupStats { sensor_readings_deleted : Z; device_statuses_deleted : Z }.

(** [ersha-dispatch/src/storage/mod.rs:47-58] StorageMaintenance; a [Duration] is its nanoseconds *)
Class StorageMaintenance (S E : Type) := {
  get_stats : S -> S * result StorageStats E;
  cleanup_uploaded : Z -> S -> S * result CleanupStats E
}.

(** [ersha-dispatch/src/storage/memory.rs:14-18] StorageState *)
Inductive StorageState := Pending | Uploaded.
#[export] Instance StorageState_eq_dec : EqDecision StorageState. Proof. solve_decision. Defined.

(** ** The contract *)

Section table.
Context {K V : Type} `{Countable K} (key : V -> K).

Definition add_pending (v : V) (m : gmap K (V * StorageState)) : gmap K (V * StorageState) :=
  <[key v := (v, Pending)]> m.
Definition add_all (vs : list V) (m : gmap K (V * StorageState)) : gmap K (V * StorageState) :=
  fold_left (fun m v => add_pending v m) vs m.
Definition mark (id : K) (m : gmap K (V * StorageState)) : gmap K (V * StorageState) :=
  alter (fun e => (fst e, Uploaded)) id m.
Definition mark_all (ids : list K) (m : gmap K (V * StorageState)) : gmap K (V * StorageState) :=
  fold_left (fun m id => mark id m) ids m.
Definition is_pending (e : V * StorageState) : Prop := snd e = Pending.
#[export] Instance is_pending_dec e : Decision (is_pending e).
Proof. unfold is_pending. apply _. Defined.
Definition pending (m : gmap K (V * StorageState)) : list V :=
  fst <$> filter is_pending (snd <$> map_to_list m).

Lemma elem_of_pending m v : v ∈ pending m <-> ∃ k, m !! k = Some (v, Pending).
Proof.
  unfold pending. rewrite list_elem_of_fmap. split.
  - intros (e & -> & [Hst He]%list_elem_of_filter).
    apply list_elem_of_fmap in He as ([k [v' st]] & -> & Hk%elem_of_map_to_list).
    unfold is_pending in Hst. cbn in *. subst. eauto.
  - intros (k & Hk). exists (v, Pending). split; [done|]. apply list_elem_of_filter. split; [done|].
    apply list_elem_of_fmap. exists (k, (v, Pending)). by rewrite elem_of_map_to_list.
Qed.

Lemma pending_insert m k v st : m !! k = None ->
  pending (<[k := (v, st)]> m) ≡ₚ (if decide (st = Pending) then [v] else []) ++ pending m.
Proof.
  intros Hk. unfold pending. rewrite map_to_list_insert by done. csimpl. rewrite filter_cons.
  unfold is_pending at 1. cbn [snd]. by destruct (decide (st = Pending)).
Qed.

Lemma pending_NoDup m : (∀ k e, m !! k = Some e -> key (fst e) = k) -> NoDup (key <$> pending m).
Proof.
  intros Hkey. assert (key <$> pending m = fst <$> filter (fun kv => is_pending (snd kv)) (map_to_list m)) as ->.
  { unfold pending. assert (Forall (fun kv => key (fst (snd kv)) = fst kv) (map_to_list m)) as Hall.
    { apply Forall_forall. intros [k e] Hk%elem_of_map_to_list. by apply Hkey. }
    induction Hall as [|[k e] l Hk _ IH]; [done|]. csimpl in *. rewrite !filter_cons. cbn [snd].
    destruct (decide (is_pending e)); csimpl; [|done]. by rewrite IH, Hk. }
  eapply sublist_NoDup; [apply (NoDup_fst_map_to_list m)|]. apply fmap_sublist, sublist_filter.
Qed.

Lemma lookup_mark_all ids m k :
  mark_all ids m !! k = (if decide (k ∈ ids) then (fun e => (fst e, Uploaded)) <$> m !! k else m !! k).
Proof.
  revert m; induction ids as [|id ids IH]; intros m; [done|].
  cbn [mark_all fold_left]. fold (mark_all ids (mark id m)). rewrite IH. unfold mark.
  destruct (decide (k = id)) as [->|Hne].
  - rewrite lookup_alter_eq, (decide_True (P := id ∈ id :: ids)) by set_solver.
    destruct (decide _); [|done]. by destruct (m !! id).
  - rewrite lookup_alter_ne by done. destruct (decide (k ∈ ids)).
    + by rewrite decide_True by set_solver.
    + by rewrite decide_False by set_solver.
Qed.

(** After marking, what is pending is what was pending under an id not marked. *)
Lemma elem_of_pending_mark_all ids m v :
  v ∈ pending (mark_all ids m) <-> ∃ k, k ∉ ids /\ m !! k = Some (v, Pending).
Proof.
  rewrite elem_of_pending. setoid_rewrite lookup_mark_all. split; intros (k & Hk).
  - destruct (decide (k ∈ ids)); [|eauto]. by destruct (m !! k) as [[]|].
  - exists k. rewrite decide_False; naive_solver.
Qed.

Lemma add_all_keyed vs m :
  (∀ k e, m !! k = Some e -> key (fst e) = k) -> ∀ k e, add_all vs m !! k = Some e -> key (fst e) = k.
Proof.
  revert m; induction vs as [|v vs IH]; intros m Hm; [done|]. apply IH. unfold add_pending.
  intros k e. rewrite lookup_insert_Some. naive_solver.
Qed.
End table.

(** [inv] is the implementation's own invariant, [view] its table, [frame] the part of the state the
    operations leave alone and [storable] what it can hold. *)
Class EventStorageLaws {K V S E F : Type} `{Countable K} `{!EventStorage K V S E} (key : V -> K)
    (storable : V -> Prop) (inv : S -> Prop) (view : S -> gmap K (V * StorageState)) (frame : S -> F)
    : Prop := {
  store_spec v s s' res : inv s -> storable v -> store v s = (s', res) ->
    inv s' /\ frame s' = frame s /\
    view s' = match res with Ok _ => add_pending key v (view s) | Err _ => view s end;
  store_batch_spec vs s s' res : inv s -> Forall storable vs -> store_batch vs s = (s', res) ->
    inv s' /\ frame s' = frame s /\
    view s' = match res with Ok _ => add_all key vs (view s) | Err _ => view s end;
  fetch_pending_spec s s' res : inv s -> fetch_pending s = (s', res) ->
    inv s' /\ frame s' = frame s /\ view s' = view s /\
    match res with Ok l => l ≡ₚ pending (view s) | Err _ => True end;
  mark_uploaded_spec ids s s' res : inv s -> Forall (fun id => ∃ v, storable v /\ key v = id) ids ->
    mark_uploaded ids s = (s', res) ->
    inv s' /\ frame s' = frame s /\
    view s' = match res with Ok _ => mark_all ids (view s) | Err _ => view s end;
  view_keyed s k e : inv s -> view s !! k = Some e -> key (fst e) = k /\ storable (fst e)
}.

(** A storage of readings and of statuses whose two tables do not interfere. *)
Class DispatcherStorageLaws {S RE SE Fr Fs : Type} `{!EventStorage ReadingId SensorReading S RE}
    `{!EventStorage StatusId DeviceStatus S SE} (rstorable : SensorReading -> Prop)
    (sstorable : DeviceStatus -> Prop) (rinv sinv : S -> Prop)
    (rview : S -> gmap ReadingId (SensorReading * StorageState))
    (sview : S -> gmap StatusId (DeviceStatus * StorageState)) (rframe : S -> Fr) (sframe : S -> Fs)
    : Prop := {
  dsl_readings : EventStorageLaws rd_id rstorable rinv rview rframe;
  dsl_statuses : EventStorageLaws st_id sstorable sinv sview sframe;
  rframe_spec s s' : rframe s' = rframe s -> sview s' = sview s /\ (rinv s' -> sinv s -> sinv s');
  sframe_spec s s' : sframe s' = sframe s -> rview s' = rview s /\ (sinv s' -> rinv s -> rinv s')
}.
#[export] Existing Instance dsl_readings.
#[export] Existing Instance dsl_statuses.

(** ** MemoryStorage *)

(** [ersha-dispatch/src/storage/memory.rs:20-25] StoredSensorReading *)
Record StoredSensorReading := mkStoredSensorReading {
  ssr_id : ReadingId; ssr_reading : SensorReading; ssr_state : StorageState
}.

(** [ersha-dispatch/src/storage/memory.rs:27-32] StoredDeviceStatus *)
Record StoredDeviceStatus := mkStoredDeviceStatus {
  sds_id : StatusId; sds_status : DeviceStatus; sds_state : StorageState
}.

(** [ersha-dispatch/src/storage/memory.rs:40-41] MemoryStorageError: no variants *)
Inductive MemoryStorageError := .

Module MemoryStorage.
(** [ersha-dispatch/src/storage/memory.rs:34-38] MemoryStorage *)
Record t := mk {
  sensor_readings : gmap ReadingId StoredSensorReading;
  device_statuses : gmap StatusId StoredDeviceStatus
}.

Definition default : t := mk ∅ ∅.

Definition with_readings (self : t) m : t := mk m (device_statuses self).
Definition with_statuses (self : t) m : t := mk (sensor_readings self) m.

(** [ersha-dispatch/src/storage/memory.rs:47-61] SensorReadingsStorage::store *)
Definition reading_store (reading : SensorReading) (self : t) : t * result unit MemoryStorageError :=
  let id := rd_id reading in
  (with_readings self (<[id := mkStoredSensorReading id reading Pending]> (sensor_readings self)), Ok tt).

(** [ersha-dispatch/src/storage/memory.rs:63-79] SensorReadingsStorage::store_batch *)
Definition reading_store_batch (readings : list SensorReading) (self : t) :
    t * result unit MemoryStorageError :=
  (with_readings self (fold_left (fun map reading =>
     let id := rd_id reading in <[id := mkStoredSensorReading id reading Pending]> map)
     readings (sensor_readings self)), Ok tt).

(** [ersha-dispatch/src/storage/memory.rs:81-89] SensorReadingsStorage::fetch_pending *)
Definition reading_fetch_pending `{!HashIter ReadingId StoredSensorReading} (self : t) :
    t * result (list SensorReading) MemoryStorageError :=
  (self, Ok (ssr_reading <$>
     filter (fun r => ssr_state r = Pending) (hm_values (sensor_readings self)))).

(** [ersha-dispatch/src/storage/memory.rs:91-101] SensorReadingsStorage::mark_uploaded *)
Definition reading_mark_uploaded (ids : list ReadingId) (self : t) : t * result unit MemoryStorageError :=
  (with_readings self (fold_left (fun map id =>
     match map !! id with
     | Some entry => <[id := mkStoredSensorReading (ssr_id entry) (ssr_reading entry) Uploaded]> map
     | None => map
     end) ids (sensor_readings self)), Ok tt).

(** [ersha-dispatch/src/storage/memory.rs:108-122] DeviceStatusStorage::store *)
Definition status_store (status : DeviceStatus) (self : t) : t * result unit MemoryStorageError :=
  let id := st_id status in
  (with_statuses self (<[id := mkStoredDeviceStatus id status Pending]> (device_statuses self)), Ok tt).

(** [ersha-dispatch/src/storage/memory.rs:124-140] DeviceStatusStorage::store_batch *)
Definition status_store_batch (statuses : list DeviceStatus) (self : t) :
    t * result unit MemoryStorageError :=
  (with_statuses self (fold_left (fun map status =>
     let id := st_id status in <[id := mkStoredDeviceStatus id status Pending]> map)
     statuses (device_statuses self)), Ok tt).

(** [ersha-dispatch/src/storage/memory.rs:142-150] DeviceStatusStorage::fetch_pending *)
Definition status_fetch_pending `{!HashIter StatusId StoredDeviceStatus} (self : t) :
    t * result (list DeviceStatus) MemoryStorageError :=
  (self, Ok (sds_status <$>
     filter (fun s => sds_state s = Pending) (hm_values (device_statuses self)))).

(** [ersha-dispatch/src/storage/memory.rs:152-162] DeviceStatusStorage::mark_uploaded *)
Definition status_mark_uploaded (ids : list StatusId) (self : t) : t * result unit MemoryStorageError :=
  (with_statuses self (fold_left (fun map id =>
     match map !! id with
     | Some entry => <[id := mkStoredDeviceStatus (sds_id entry) (sds_status entry) Uploaded]> map
     | None => map
     end) ids (device_statuses self)), Ok tt).

(** [ersha-dispatch/src/storage/memory.rs:169-195] StorageMaintenance::get_stats *)
Definition stats `{!HashIter ReadingId StoredSensorReading} `{!HashIter StatusId StoredDeviceStatus}
    (self : t) : t * result StorageStats MemoryStorageError :=
  let readings_total := Z.of_nat (size (sensor_readings self)) in
  let readings_pending := Z.of_nat (length
    (filter (fun r => ssr_state r = Pending) (hm_values (sensor_readings self)))) in
  let statuses_total := Z.of_nat (size (device_statuses self)) in
  let statuses_pending := Z.of_nat (length
    (filter (fun s => sds_state s = Pending) (hm_values (device_statuses self)))) in
  (self, Ok (mkStorageStats readings_pending (readings_total - readings_pending) readings_total
               statuses_pending (statuses_total - statuses_pending) statuses_total)).

(** [ersha-dispatch/src/storage/memory.rs:197-228] StorageMaintenance::cleanup_uploaded *)
Definition cleanup `{!HashIter ReadingId StoredSensorReading} `{!HashIter StatusId StoredDeviceStatus}
    (_older_than : Z) (self : t) : t * result CleanupStats MemoryStorageError :=
  let sensor_keys := fst <$> filter (fun kv => ssr_state (snd kv) = Uploaded)
                       (hm_iter (sensor_readings self)) in
  let device_keys := fst <$> filter (fun kv => sds_state (snd kv) = Uploaded)
                       (hm_iter (device_statuses self)) in
  (mk (fold_left (fun m key => delete key m) sensor_keys (sensor_readings self))
      (fold_left (fun m key => delete key m) device_keys (device_statuses self)),
   Ok (mkCleanupStats (Z.of_nat (length sensor_keys)) (Z.of_nat (length device_keys)))).

(** [ersha-dispatch/src/storage/memory.rs:43-102] impl SensorReadingsStorage for MemoryStorage *)
#[export] Instance readings `{!HashIter ReadingId StoredSensorReading} :
    EventStorage ReadingId SensorReading t MemoryStorageError := {
  store := reading_store; store_batch := reading_store_batch;
  fetch_pending := reading_fetch_pending; mark_uploaded := reading_mark_uploaded
}.

(** [ersha-dispatch/src/storage/memory.rs:104-163] impl DeviceStatusStorage for MemoryStorage *)
#[export] Instance statuses `{!HashIter StatusId StoredDeviceStatus} :
    EventStorage StatusId DeviceStatus t MemoryStorageError := {
  store := status_store; store_batch := status_store_batch;
  fetch_pending := status_fetch_pending; mark_uploaded := status_mark_uploaded
}.

(** [ersha-dispatch/src/storage/memory.rs:165-229] impl StorageMaintenance for MemoryStorage *)
#[export] Instance maintenance `{!HashIter ReadingId StoredSensorReading}
    `{!HashIter StatusId StoredDeviceStatus} : StorageMaintenance t MemoryStorageError :=
  { get_stats := stats; cleanup_uploaded := cleanup }.
End MemoryStorage.
Export (hints) MemoryStorage.

Module MemoryStorageProofs.
Import MemoryStorage.

Definition reading_view (self : t) : gmap ReadingId (SensorReading * StorageState) :=
  (fun e => (ssr_reading e, ssr_state e)) <$> sensor_readings self.
Definition status_view (self : t) : gmap StatusId (DeviceStatus * StorageState) :=
  (fun e => (sds_status e, sds_state e)) <$> device_statuses self.

(** Every entry is filed under its reading's, respectively its status's, id. *)
Definition inv (self : t) : Prop :=
  (∀ k e, sensor_readings self !! k = Some e -> ssr_id e = k /\ rd_id (ssr_reading e) = k) /\
  (∀ k e, device_statuses self !! k = Some e -> sds_id e = k /\ st_id (sds_status e) = k).

(** A fold of insertions or updates keeps an entry property and commutes with the view. *)
Lemma fold_view {K A B X} `{Countable K} (f : A -> B) (P : K -> A -> Prop)
    (step : gmap K A -> X -> gmap K A) (step' : gmap K B -> X -> gmap K B) xs :
  (∀ m x, f <$> step m x = step' (f <$> m) x) ->
  (∀ m x, map_Forall P m -> map_Forall P (step m x)) ->
  ∀ m, map_Forall P m ->
    map_Forall P (fold_left step xs m) /\ f <$> fold_left step xs m = fold_left step' xs (f <$> m).
Proof.
  intros Hf HP. induction xs as [|x xs IH]; intros m Hm; [done|]. cbn [fold_left].
  rewrite <- Hf. by apply IH, HP.
Qed.

(** The values with a given state, in any iteration order. *)
Lemma filter_values_perm {K A V} `{HashIter K A} (val : A -> V) (st : A -> StorageState) (m : gmap K A) :
  val <$> filter (fun e => st e = Pending) (hm_values m)
    ≡ₚ pending ((fun e => (val e, st e)) <$> m).
Proof.
  unfold pending, hm_values. rewrite map_to_list_fmap, (hm_iter_perm m).
  generalize (map_to_list m). intros l. induction l as [|[k e] l IH]; [done|]. csimpl.
  rewrite !filter_cons. unfold is_pending at 1. cbn [snd].
  destruct (decide (st e = Pending)).
  - csimpl. by f_equiv.
  - done.
Qed.

Lemma fmap_mark {K A V} `{Countable K} (val : A -> V) (st : A -> StorageState) (up : A -> A) m id :
  (∀ e, val (up e) = val e /\ st (up e) = Uploaded) ->
  (fun e => (val e, st e)) <$> (match m !! id with Some e => <[id := up e]> m | None => m end) =
  mark (K := K) id ((fun e => (val e, st e)) <$> m).
Proof.
  intros Hup. unfold mark. apply map_eq. intros k. destruct (decide (k = id)) as [->|Hne].
  - rewrite lookup_alter_eq, !lookup_fmap. destruct (m !! id) as [e|] eqn:E.
    + rewrite lookup_insert_eq. cbn. by destruct (Hup e) as [-> ->].
    + by rewrite E.
  - rewrite lookup_alter_ne, !lookup_fmap by done. destruct (m !! id); [|done].
    by rewrite lookup_insert_ne.
Qed.

Lemma reading_storage_laws `{!HashIter ReadingId StoredSensorReading} :
  EventStorageLaws rd_id (fun _ => True) inv reading_view device_statuses.
Proof.
  split.
  - intros v s s' res [Hr Hs] _ [= <- <-]. cbn. split_and!; [|done|].
    + split; [|done]. cbn. intros k e [[<- <-]|[? ?]]%lookup_insert_Some; auto.
    + unfold reading_view. cbn. by rewrite fmap_insert.
  - intros vs s s' res [Hr Hs] _ [= <- <-]. cbn.
    destruct (fold_view (fun e => (ssr_reading e, ssr_state e))
      (fun k e => ssr_id e = k /\ rd_id (ssr_reading e) = k)
      (fun map reading => <[rd_id reading := mkStoredSensorReading (rd_id reading) reading Pending]> map)
      (fun m v => add_pending rd_id v m) vs) with (m := sensor_readings s) as [H1 H2]; [..|done].
    + intros m x. by rewrite fmap_insert.
    + intros m x Hm. apply map_Forall_insert_2; done.
    + done.
  - intros s s' res Hinv [= <- <-]. split_and!; [done..|]. apply filter_values_perm.
  - intros ids s s' res [Hr Hs] _ [= <- <-]. cbn.
    destruct (fold_view (fun e => (ssr_reading e, ssr_state e))
      (fun k e => ssr_id e = k /\ rd_id (ssr_reading e) = k)
      (fun map id => match map !! id with
         | Some entry => <[id := mkStoredSensorReading (ssr_id entry) (ssr_reading entry) Uploaded]> map
         | None => map end)
      (fun m id => mark id m) ids) with (m := sensor_readings s) as [H1 H2]; [..|done].
    + intros m x. by apply (fmap_mark ssr_reading ssr_state
        (fun e => mkStoredSensorReading (ssr_id e) (ssr_reading e) Uploaded)).
    + intros m x Hm. destruct (m !! x) eqn:E; [|done]. apply map_Forall_insert_2; [|done]. exact (Hm x _ E).
    + done.
  - intros s k e [Hr _]. unfold reading_view. rewrite lookup_fmap.
    destruct (sensor_readings s !! k) as [e'|] eqn:E; [|done]. intros [= <-]. split; [by apply Hr|done].
Qed.

Lemma status_storage_laws `{!HashIter StatusId StoredDeviceStatus} :
  EventStorageLaws st_id (fun _ => True) inv status_view sensor_readings.
Proof.
  split.
  - intros v s s' res [Hr Hs] _ [= <- <-]. cbn. split_and!; [|done|].
    + split; [done|]. cbn. intros k e [[<- <-]|[? ?]]%lookup_insert_Some; auto.
    + unfold status_view. cbn. by rewrite fmap_insert.
  - intros vs s s' res [Hr Hs] _ [= <- <-]. cbn.
    destruct (fold_view (fun e => (sds_status e, sds_state e))
      (fun k e => sds_id e = k /\ st_id (sds_status e) = k)
      (fun map status => <[st_id status := mkStoredDeviceStatus (st_id status) status Pending]> map)
      (fun m v => add_pending st_id v m) vs) with (m := device_statuses s) as [H1 H2]; [..|done].
    + intros m x. by rewrite fmap_insert.
    + intros m x Hm. apply map_Forall_insert_2; done.
    + done.
  - intros s s' res Hinv [= <- <-]. split_and!; [done..|]. apply filter_values_perm.
  - intros ids s s' res [Hr Hs] _ [= <- <-]. cbn.
    destruct (fold_view (fun e => (sds_status e, sds_state e))
      (fun k e => sds_id e = k /\ st_id (sds_status e) = k)
      (fun map id => match map !! id with
         | Some entry => <[id := mkStoredDeviceStatus (sds_id entry) (sds_status entry) Uploaded]> map
         | None => map end)
      (fun m id => mark id m) ids) with (m := device_statuses s) as [H1 H2]; [..|done].
    + intros m x. by apply (fmap_mark sds_status sds_state
        (fun e => mkStoredDeviceStatus (sds_id e) (sds_status e) Uploaded)).
    + intros m x Hm. destruct (m !! x) eqn:E; [|done]. apply map_Forall_insert_2; [|done]. exact (Hm x _ E).
    + done.
  - intros s k e [_ Hs]. unfold status_view. rewrite lookup_fmap.
    destruct (device_statuses s !! k) as [e'|] eqn:E; [|done]. intros [= <-]. split; [by apply Hs|done].
Qed.

#[export] Instance memory_storage_laws `{!HashIter ReadingId StoredSensorReading}
    `{!HashIter StatusId StoredDeviceStatus} :
  DispatcherStorageLaws (fun _ => True) (fun _ => True) inv inv reading_view status_view
    device_statuses sensor_readings.
Proof.
  split; [apply reading_storage_laws|apply status_storage_laws|..]; intros s s' Heq.
  - split; [|done]. unfold status_view. by rewrite Heq.
  - split; [|done]. unfold reading_view. by rewrite Heq.
Qed.
End MemoryStorageProofs.
Export (hints) MemoryStorageProofs.
