(* ===== verification/DispatchSqlite.v ===== *)
(** * The SQLite storage of a dispatcher: ersha-dispatch/src/storage/sqlite.rs

    The database is its two tables, as the migration declares them (ids are a primary key, the state
    is 'pending' or 'uploaded'), and the statements are the functions the SQL text denotes on
    a table.  [faults] says which of the coming statements the database will fail to execute, so
    that every error path is in the model; a transaction that is dropped before [commit] leaves the
    tables as they were when it began.  The readings' and the statuses' operations are the same code
    on two tables: they are instances of one Section. *)
From Stdlib Require Import ZArith Lia Strings.String.
From stdpp Require Import base gmap strings list.
From S2P Require Import Prelude Platform Core Samples Registry DispatchStorage.
Open Scope Z_scope.

(** What [sqlx] reports: a violated constraint, or a statement that could not be executed. *)
Inductive SqlxError := UniqueViolation | Unavailable.

(** [ersha-dispatch/src/storage/sqlite.rs:18-26] SqliteStorageError *)
Inductive SqliteStorageError := Sqlx (e : SqlxError) | SerdeJson | Migrate.

(** A row of either table. *)
Record Row := mkRow {
  row_id : string;
  row_json : string;
  row_state : string;
  row_uploaded_at : option Z
}.

Inductive Table := SensorReadings | DeviceStatuses.
#[export] Instance Table_eq_dec : EqDecision Table. Proof. solve_decision. Defined.

Module SqliteStorage.
(** [ersha-dispatch/src/storage/sqlite.rs:11-14] SqliteStorage: the database behind the pool *)
Record t := mk {
  sensor_readings : list Row;
  device_statuses : list Row;
  faults : list bool
}.

Definition rows (tbl : Table) (db : t) : list Row :=
  match tbl with SensorReadings => sensor_readings db | DeviceStatuses => device_statuses db end.
Definition set_rows (tbl : Table) (l : list Row) (db : t) : t :=
  match tbl with
  | SensorReadings => mk l (device_statuses db) (faults db)
  | DeviceStatuses => mk (sensor_readings db) l (faults db)
  end.

(** One round trip to the database. *)
Definition io (db : t) : t * result unit SqliteStorageError :=
  let db' := mk (sensor_readings db) (device_statuses db) (tl (faults db)) in
  (db', if hd false (faults db) then Err (Sqlx Unavailable) else Ok tt).

(** [.execute(..).await?] of a statement on one table. *)
Definition execute {A} (tbl : Table) (stmt : list Row -> result (A * list Row) SqlxError) (db : t) :
    t * result A SqliteStorageError :=
  match io db with
  | (db, Err e) => (db, Err e)
  | (db, Ok _) =>
      match stmt (rows tbl db) with
      | Ok (a, l) => (set_rows tbl l db, Ok a)
      | Err e => (db, Err (Sqlx e))
      end
  end.

(** [let mut tx = self.pool.begin().await?; body; tx.commit().await?] *)
Definition transaction {A} (body : t -> t * result A SqliteStorageError) (db : t) :
    t * result A SqliteStorageError :=
  let rollback (db' : t) := mk (sensor_readings db) (device_statuses db) (faults db') in
  match io db with
  | (db', Err e) => (db', Err e)
  | (db', Ok _) =>
      match body db' with
      | (db', Err e) => (rollback db', Err e)
      | (db', Ok a) =>
          match io db' with
          | (db', Err e) => (rollback db', Err e)
          | (db', Ok _) => (db', Ok a)
          end
      end
  end.

(** [for x in xs { f(x).await?; }] *)
Fixpoint for_each {X} (f : X -> t -> t * result unit SqliteStorageError) (xs : list X) (db : t) :
    t * result unit SqliteStorageError :=
  match xs with
  | [] => (db, Ok tt)
  | x :: xs' =>
      match f x db with
      | (db, Err e) => (db, Err e)
      | (db, Ok _) => for_each f xs' db
      end
  end.

(** INSERT INTO tbl (id, json, state) VALUES (?, ?, 'pending') *)
Definition sql_insert (id json : string) (l : list Row) : result (unit * list Row) SqlxError :=
  if bool_decide (id ∈ row_id <$> l) then Err UniqueViolation
  else Ok (tt, l ++ [mkRow id json "pending" None]).

(** UPDATE tbl SET state = 'uploaded', uploaded_at = CURRENT_TIMESTAMP WHERE id = ? *)
Definition sql_mark (now : Z) (id : string) (l : list Row) : result (unit * list Row) SqlxError :=
  Ok (tt, (fun r => if String.eqb (row_id r) id
                    then mkRow (row_id r) (row_json r) "uploaded" (Some now) else r) <$> l).

(** SELECT json FROM tbl WHERE state = 'pending' *)
Definition sql_pending (l : list Row) : result (list string * list Row) SqlxError :=
  Ok (row_json <$> filter (fun r => row_state r = "pending"%string) l, l).

(** DELETE FROM tbl WHERE state = 'uploaded' AND old *)
Definition sql_delete (old : Row -> bool) (l : list Row) : result (Z * list Row) SqlxError :=
  let gone := filter (fun r => row_state r = "uploaded"%string /\ old r = true) l in
  Ok (Z.of_nat (length gone),
      filter (fun r => ~ (row_state r = "uploaded"%string /\ old r = true)) l).

(** SELECT COUNT( * ), and the sums of the rows in each state *)
Definition sql_stats (l : list Row) : result ((Z * Z * Z) * list Row) SqlxError :=
  let sum st := Z.of_nat (length (filter (fun r => row_state r = st) l)) in
  Ok ((Z.of_nat (length l), sum "pending"%string, sum "uploaded"%string), l).

Section events.
Context {K V : Type} `{!UlidText} `{!Serde V} (tbl : Table) (key : V -> K) (ulid : K -> Ulid) (now : Z).

(** [ersha-dispatch/src/storage/sqlite.rs:77-90] SensorReadingsStorage::store *)
Definition store_event (v : V) (db : t) : t * result unit SqliteStorageError :=
  execute tbl (sql_insert (ulid_to_string (ulid (key v))) (serialize v)) db.

(** [ersha-dispatch/src/storage/sqlite.rs:92-115] SensorReadingsStorage::store_batch *)
Definition store_events (vs : list V) (db : t) : t * result unit SqliteStorageError :=
  match vs with [] => (db, Ok tt) | _ => transaction (for_each store_event vs) db end.

(** [ersha-dispatch/src/storage/sqlite.rs:117-130] SensorReadingsStorage::fetch_pending *)
Definition fetch_events (db : t) : t * result (list V) SqliteStorageError :=
  match execute tbl sql_pending db with
  | (db, Err e) => (db, Err e)
  | (db, Ok jsons) => (db, collect ((fun json => ok_or (deserialize json) SerdeJson) <$> jsons))
  end.

(** [ersha-dispatch/src/storage/sqlite.rs:132-153] SensorReadingsStorage::mark_uploaded *)
Definition mark_events (ids : list K) (db : t) : t * result unit SqliteStorageError :=
  match ids with
  | [] => (db, Ok tt)
  | _ => transaction (for_each (fun id => execute tbl (sql_mark now (ulid_to_string (ulid id)))) ids) db
  end.
End events.

(** [ersha-dispatch/src/storage/sqlite.rs:243-276] get_stats *)
Definition stats (db : t) : t * result StorageStats SqliteStorageError :=
  match execute SensorReadings sql_stats db with
  | (db, Err e) => (db, Err e)
  | (db, Ok (total, pending, uploaded)) =>
      match execute DeviceStatuses sql_stats db with
      | (db, Err e) => (db, Err e)
      | (db, Ok (total', pending', uploaded')) =>
          (db, Ok (mkStorageStats pending uploaded total pending' uploaded' total'))
      end
  end.

(** The two branches of the age condition: every uploaded row for a zero duration, else the rows with
    [julianday('now') - julianday(uploaded_at) >= cutoff_days]; [aged now uploaded_at older_than]
    is that comparison. *)
Definition is_old (aged : Z -> Z -> Z -> bool) (now older_than : Z) (r : Row) : bool :=
  if Z.eqb older_than 0 then true
  else match row_uploaded_at r with Some at_ => aged now at_ older_than | None => false end.

(** [ersha-dispatch/src/storage/sqlite.rs:278-328] cleanup_uploaded *)
Definition cleanup (aged : Z -> Z -> Z -> bool) (now older_than : Z) (db : t) :
    t * result CleanupStats SqliteStorageError :=
  transaction (fun db =>
    match execute SensorReadings (sql_delete (is_old aged now older_than)) db with
    | (db, Err e) => (db, Err e)
    | (db, Ok sensor_deleted) =>
        match execute DeviceStatuses (sql_delete (is_old aged now older_than)) db with
        | (db, Err e) => (db, Err e)
        | (db, Ok device_deleted) => (db, Ok (mkCleanupStats sensor_deleted device_deleted))
        end
    end) db.

Section instances.
Context `{!UlidText} `{!Serde SensorReading} `{!Serde DeviceStatus}
  (aged : Z -> Z -> Z -> bool) (now : Z).

(** [ersha-dispatch/src/storage/sqlite.rs:73-154] impl SensorReadingsStorage for SqliteStorage *)
Definition readings : EventStorage ReadingId SensorReading t SqliteStorageError := {|
  store := store_event SensorReadings rd_id reading_ulid;
  store_batch := store_events SensorReadings rd_id reading_ulid;
  fetch_pending := fetch_events SensorReadings;
  mark_uploaded := mark_events SensorReadings reading_ulid now
|}.

(** [ersha-dispatch/src/storage/sqlite.rs:156-237] impl DeviceStatusStorage for SqliteStorage *)
Definition statuses : EventStorage StatusId DeviceStatus t SqliteStorageError := {|
  store := store_event DeviceStatuses st_id status_ulid;
  store_batch := store_events DeviceStatuses st_id status_ulid;
  fetch_pending := fetch_events DeviceStatuses;
  mark_uploaded := mark_events DeviceStatuses status_ulid now
|}.

(** [ersha-dispatch/src/storage/sqlite.rs:239-329] impl StorageMaintenance for SqliteStorage *)
Definition maintenance : StorageMaintenance t SqliteStorageError :=
  {| get_stats := stats; cleanup_uploaded := cleanup aged now |}.
End instances.
End SqliteStorage.

(** ** The SQLite storage meets the contract *)

Module SqliteProofs.
Import SqliteStorage.

Lemma rows_set_rows tbl l db : rows tbl (set_rows tbl l db) = l.
Proof. by destruct tbl. Qed.
Lemma rows_set_rows_ne tbl tbl' l db : tbl <> tbl' -> rows tbl' (set_rows tbl l db) = rows tbl' db.
Proof. by destruct tbl, tbl'. Qed.
Lemma rows_io tbl db : rows tbl (fst (io db)) = rows tbl db.
Proof. by destruct tbl. Qed.

(** A statement that fails changes no table; one that succeeds changes its own. *)
Lemma execute_spec {A} tbl (stmt : list Row -> result (A * list Row) SqlxError) db db' res :
  execute tbl stmt db = (db', res) ->
  (∀ tbl', tbl' <> tbl -> rows tbl' db' = rows tbl' db) /\
  match res with
  | Ok a => ∃ l, stmt (rows tbl db) = Ok (a, l) /\ rows tbl db' = l
  | Err _ => rows tbl db' = rows tbl db
  end.
Proof.
  unfold execute. destruct (io db) as [db1 r] eqn:Hio.
  assert (∀ t, rows t db1 = rows t db) as Hrows
    by (intros t; rewrite <- (rows_io t db), Hio; done).
  destruct r as [[]|e]; [|intros [= <- <-]; split; auto].
  destruct (stmt (rows tbl db1)) as [[a l]|e] eqn:Hs; intros [= <- <-]; split; auto.
  - intros t Ht. by rewrite rows_set_rows_ne.
  - exists l. rewrite <- Hrows, rows_set_rows. done.
Qed.

(** A transaction either commits what its body did or leaves both tables as they were. *)
Lemma transaction_spec {A} (body : t -> t * result A SqliteStorageError) db db' res :
  transaction body db = (db', res) ->
  match res with
  | Ok a => ∃ db1 db2, (∀ t, rows t db1 = rows t db) /\ body db1 = (db2, Ok a) /\
              (∀ t, rows t db' = rows t db2)
  | Err _ => ∀ t, rows t db' = rows t db
  end.
Proof.
  unfold transaction. destruct (io db) as [db1 r] eqn:Hio.
  assert (∀ t, rows t db1 = rows t db) as H1
    by (intros t; rewrite <- (rows_io t db), Hio; done).
  destruct r as [[]|e]; [|by intros [= <- <-]].
  destruct (body db1) as [db2 [a|e]] eqn:Hb; [|intros [= <- <-]; by intros []].
  destruct (io db2) as [db3 r] eqn:Hio2.
  assert (∀ t, rows t db3 = rows t db2) as H3
    by (intros t; rewrite <- (rows_io t db2), Hio2; done).
  destruct r as [[]|e]; intros [= <- <-]; [|by intros []]. eauto 10.
Qed.

Section table.
Context {K V : Type} `{Countable K} `{!UlidText} `{!UlidTextLaws} `{!Serde V}
  (tbl : Table) (key : V -> K) (ulid : K -> Ulid) (mk_key : Ulid -> K)
  (mk_ulid : ∀ k, mk_key (ulid k) = k) (now : Z).

(** What the table can hold: the id is 128 bits wide and the value survives its JSON form. *)
Definition storable (v : V) : Prop :=
  u128 (ulid (key v)) /\ deserialize (serialize v) = Some v.

(** A row as the operations write them. *)
Definition row_of (r : Row) (v : V) (st : StorageState) : Prop :=
  storable v /\ row_id r = ulid_to_string (ulid (key v)) /\ row_json r = serialize v /\
  row_state r = (match st with Pending => "pending" | Uploaded => "uploaded" end)%string.

Definition well_formed (l : list Row) : Prop :=
  NoDup (row_id <$> l) /\ ∀ r, r ∈ l -> ∃ v st, row_of r v st.

Definition state_of (s : string) : StorageState :=
  if String.eqb s "pending" then Pending else Uploaded.

Definition entry (r : Row) : option (K * (V * StorageState)) :=
  v ← deserialize (row_json r); Some (key v, (v, state_of (row_state r))).

Definition table_view (l : list Row) : gmap K (V * StorageState) := list_to_map (omap entry l).

Lemma entry_row_of r v st : row_of r v st -> entry r = Some (key v, (v, st)).
Proof.
  intros ([_ Hs] & _ & Hj & Hst). unfold entry. rewrite Hj, Hs. cbn. do 3 f_equal. rewrite Hst.
  by destruct st.
Qed.

Lemma row_of_inv r v st v' st' : row_of r v st -> row_of r v' st' -> v = v' /\ st = st'.
Proof.
  intros E1%entry_row_of E2%entry_row_of. rewrite E1 in E2. by simplify_eq.
Qed.

Lemma key_inj r r' v v' st st' :
  row_of r v st -> row_of r' v' st' -> key v = key v' <-> row_id r = row_id r'.
Proof.
  intros ([Hu _] & Hid & _) ([Hu' _] & Hid' & _). rewrite Hid, Hid'. split; [by intros ->|].
  intros Heq%ulid_to_string_inj; [|done..]. by rewrite <- (mk_ulid (key v)), Heq, mk_ulid.
Qed.

Lemma lookup_table_view l k e : well_formed l ->
  table_view l !! k = Some e <-> ∃ r, r ∈ l /\ entry r = Some (k, e).
Proof.
  intros [Hnd Hwf]. unfold table_view.
  rewrite <- elem_of_list_to_map.
  - rewrite list_elem_of_omap. done.
  - revert Hnd Hwf. induction l as [|r l IH]; intros Hnd Hwf; [constructor|].
    rewrite fmap_cons in Hnd. apply NoDup_cons in Hnd as [Hr Hnd].
    destruct (Hwf r ltac:(set_solver)) as (v & st & Hv).
    assert (omap entry (r :: l) = (key v, (v, st)) :: omap entry l) as ->
      by (cbn -[entry]; by rewrite (entry_row_of _ _ _ Hv)).
    rewrite fmap_cons. cbn [fst].
    constructor; [|apply IH; set_solver].
    intros ([k' e'] & Heq & (r' & Hr' & He)%list_elem_of_omap)%list_elem_of_fmap. cbn in Heq. subst k'.
    destruct (Hwf r' ltac:(set_solver)) as (v' & st' & Hv'). rewrite (entry_row_of _ _ _ Hv') in He.
    simplify_eq. cbn in *. apply Hr. eapply list_elem_of_fmap_2'; [exact Hr'|].
    by apply (key_inj _ _ _ _ _ _ Hv Hv').
Qed.

Lemma insert_view l l' v : well_formed l -> storable v ->
  sql_insert (ulid_to_string (ulid (key v))) (serialize v) l = Ok (tt, l') ->
  well_formed l' /\ table_view l' = add_pending key v (table_view l).
Proof.
  intros Hwf Hv. unfold sql_insert. case_bool_decide as Hid; [done|]. intros [= <-].
  set (r := mkRow _ _ _ _). assert (row_of r v Pending) as Hr by done.
  assert (well_formed (l ++ [r])) as Hwf'.
  { destruct Hwf as [Hnd Hall]. split.
    - rewrite fmap_app. apply NoDup_app. split_and!; [done| |apply NoDup_singleton].
      intros x Hx [= ->]%list_elem_of_singleton. done.
    - intros r' [?| ->%list_elem_of_singleton]%elem_of_app; eauto. }
  split; [done|]. apply map_eq; intros k. apply option_eq; intros e.
  rewrite lookup_table_view by done. unfold add_pending. rewrite lookup_insert_Some.
  rewrite lookup_table_view by done. split.
  - intros (r' & [Hr'| ->%list_elem_of_singleton]%elem_of_app & He).
    + right. split; [|eauto]. intros Heq. apply Hid.
      destruct Hwf as [_ Hall]. destruct (Hall r' Hr') as (v' & st' & Hv').
      rewrite (entry_row_of _ _ _ Hv') in He. simplify_eq.
      eapply list_elem_of_fmap_2'; [exact Hr'|].
      by apply (key_inj r r' v v' Pending st' Hr Hv').
    + left. rewrite (entry_row_of _ _ _ Hr) in He. by simplify_eq.
  - intros [[<- <-]|[Hk (r' & Hr' & He)]].
    + exists r. split; [set_solver|]. by apply entry_row_of.
    + exists r'. set_solver.
Qed.

Lemma mark_view l l' w : well_formed l -> storable w ->
  sql_mark now (ulid_to_string (ulid (key w))) l = Ok (tt, l') ->
  well_formed l' /\ table_view l' = mark (key w) (table_view l).
Proof.
  intros Hwf [Hw _]. unfold sql_mark. intros [= <-].
  set (id := ulid_to_string _).
  set (f := fun r => if String.eqb (row_id r) id then mkRow (row_id r) (row_json r) "uploaded" (Some now) else r).
  assert (∀ r, row_id (f r) = row_id r) as Hfid by (intros r; unfold f; by destruct (String.eqb _ _)).
  assert (∀ r v st, row_of r v st ->
    row_of (f r) v (if decide (key v = key w) then Uploaded else st)) as Hf.
  { intros r v st Hr. pose proof Hr as (Hs & Hid & Hj & Hst). unfold f.
    destruct (String.eqb_spec (row_id r) id) as [E|E].
    - rewrite decide_True; [split_and!; done|]. subst id. rewrite Hid in E.
      apply ulid_to_string_inj in E; [|by destruct Hs|done].
      by rewrite <- (mk_ulid (key v)), E, mk_ulid.
    - rewrite decide_False; [done|]. intros Heq. apply E. by rewrite Hid, Heq. }
  assert (well_formed (f <$> l)) as Hwf'.
  { destruct Hwf as [Hnd Hall]. split.
    - rewrite <- list_fmap_compose. rewrite (list_fmap_ext _ row_id); [done|]. intros i r _. apply Hfid.
    - intros r' (r & -> & Hr)%list_elem_of_fmap. destruct (Hall r Hr) as (v & st & Hv).
      eexists _, _. by apply Hf. }
  split; [done|]. apply map_eq; intros k. apply option_eq; intros e.
  rewrite lookup_table_view by done. unfold mark.
  rewrite lookup_alter_Some. setoid_rewrite lookup_table_view; [|done..].
  destruct Hwf as [_ Hall]. split.
  - intros (r' & (r & -> & Hr)%list_elem_of_fmap & He). destruct (Hall r Hr) as (v & st & Hv).
    rewrite (entry_row_of _ _ _ (Hf _ _ _ Hv)) in He. simplify_eq.
    pose proof (entry_row_of _ _ _ Hv) as He. destruct (decide (key v = key w)) as [Heq|Hne].
    + left. split; [done|]. exists (v, st). split; [by exists r|done].
    + right. split; [done|]. by exists r.
  - intros [(<- & [v st] & (r & Hr & He) & ->)|(Hne & r & Hr & He)];
      destruct (Hall r Hr) as (v' & st' & Hv); rewrite (entry_row_of _ _ _ Hv) in He; simplify_eq;
      exists (f r); (split; [by apply list_elem_of_fmap_2|]); rewrite (entry_row_of _ _ _ (Hf _ _ _ Hv)).
    + rewrite decide_True by done. cbn. congruence.
    + rewrite decide_False by done. done.
Qed.

Lemma well_formed_cons r l : well_formed (r :: l) ->
  well_formed l /\ ∃ v st, row_of r v st /\ table_view l !! key v = None /\
    table_view (r :: l) = <[key v := (v, st)]> (table_view l).
Proof.
  intros [Hnd Hall]. rewrite fmap_cons in Hnd. apply NoDup_cons in Hnd as [Hr Hnd].
  assert (well_formed l) as Hwf by (split; [done|set_solver]).
  destruct (Hall r ltac:(set_solver)) as (v & st & Hv). split; [done|]. exists v, st.
  split; [done|]. split.
  - apply eq_None_not_Some. intros [e (r' & Hr' & He)%lookup_table_view]; [|done].
    destruct (Hall r' ltac:(set_solver)) as (v' & st' & Hv').
    rewrite (entry_row_of _ _ _ Hv') in He. simplify_eq. apply Hr.
    eapply list_elem_of_fmap_2'; [exact Hr'|]. by apply (key_inj r r' v v' st st' Hv Hv').
  - unfold table_view.
    assert (omap entry (r :: l) = (key v, (v, st)) :: omap entry l) as ->; [|done].
    cbn -[entry]. by rewrite (entry_row_of _ _ _ Hv).
Qed.

Lemma pending_jsons l : well_formed l ->
  ∃ vs, (fun json => ok_or (deserialize json) SerdeJson)
          <$> (row_json <$> filter (fun r => row_state r = "pending"%string) l) = Ok <$> vs /\
        vs ≡ₚ pending (table_view l).
Proof.
  induction l as [|r l IH]; intros Hwf; [by exists []|].
  apply well_formed_cons in Hwf as [Hwf (v & st & Hr & Hk & ->)].
  destruct (IH Hwf) as (vs & Hvs & Hperm). rewrite filter_cons.
  destruct Hr as ([_ Hs] & _ & Hj & Hst). destruct st.
  - rewrite decide_True by done. exists (v :: vs). csimpl. rewrite Hvs, Hj, Hs. split; [done|].
    rewrite pending_insert, decide_True by done. by rewrite Hperm.
  - rewrite decide_False by (by rewrite Hst). exists vs. split; [done|].
    by rewrite pending_insert, decide_False by done.
Qed.

Lemma for_each_view {X} (f : X -> t -> t * result unit SqliteStorageError) (P : X -> Prop)
    (g : gmap K (V * StorageState) -> X -> gmap K (V * StorageState)) :
  (∀ x db db', P x -> well_formed (rows tbl db) -> f x db = (db', Ok tt) ->
     (∀ t, t <> tbl -> rows t db' = rows t db) /\ well_formed (rows tbl db') /\
     table_view (rows tbl db') = g (table_view (rows tbl db)) x) ->
  ∀ xs db db', Forall P xs -> well_formed (rows tbl db) -> for_each f xs db = (db', Ok tt) ->
    (∀ t, t <> tbl -> rows t db' = rows t db) /\ well_formed (rows tbl db') /\
    table_view (rows tbl db') = fold_left g xs (table_view (rows tbl db)).
Proof.
  intros Hf. induction xs as [|x xs IH]; intros db db' HP Hwf; cbn [for_each].
  { by intros [= <-]. }
  apply Forall_cons in HP as [Hx HP]. destruct (f x db) as [db1 [[]|e]] eqn:E; [|done].
  destruct (Hf _ _ _ Hx Hwf E) as (Hframe & Hwf1 & Hview). intros Hrest.
  destruct (IH _ _ HP Hwf1 Hrest) as (Hframe' & Hwf' & Hview').
  split_and!; [intros t Ht; by rewrite Hframe', Hframe|done|]. by rewrite Hview', Hview.
Qed.

Lemma transaction_view {X} (f : X -> t -> t * result unit SqliteStorageError) (P : X -> Prop)
    (g : gmap K (V * StorageState) -> X -> gmap K (V * StorageState)) :
  (∀ x db db', P x -> well_formed (rows tbl db) -> f x db = (db', Ok tt) ->
     (∀ t, t <> tbl -> rows t db' = rows t db) /\ well_formed (rows tbl db') /\
     table_view (rows tbl db') = g (table_view (rows tbl db)) x) ->
  ∀ xs db db' res, Forall P xs -> well_formed (rows tbl db) ->
    transaction (for_each f xs) db = (db', res) ->
    (∀ t, t <> tbl -> rows t db' = rows t db) /\ well_formed (rows tbl db') /\
    table_view (rows tbl db') = match res with
      | Ok _ => fold_left g xs (table_view (rows tbl db))
      | Err _ => table_view (rows tbl db)
      end.
Proof.
  intros Hf xs db db' res HP Hwf Htx%transaction_spec. destruct res as [[]|e].
  - destruct Htx as (db1 & db2 & Hv1 & Hbody & Hv2).
    destruct (for_each_view f P g Hf xs db1 db2 HP) as (Hframe & Hwf' & Hview); [by rewrite Hv1|done|].
    rewrite !Hv2. split_and!; [|done|by rewrite Hview, Hv1].
    intros t Ht. by rewrite Hv2, Hframe, Hv1.
  - rewrite !Htx. split_and!; [|done..]. intros t _. apply Htx.
Qed.

Definition sqlite_ops : EventStorage K V t SqliteStorageError := {|
  store := store_event tbl key ulid; store_batch := store_events tbl key ulid;
  fetch_pending := fetch_events tbl; mark_uploaded := mark_events tbl ulid now
|}.

Definition other : Table := match tbl with SensorReadings => DeviceStatuses | DeviceStatuses => SensorReadings end.

Lemma store_event_view v db db' res : storable v -> well_formed (rows tbl db) ->
  store_event tbl key ulid v db = (db', res) ->
  (∀ t, t <> tbl -> rows t db' = rows t db) /\ well_formed (rows tbl db') /\
  table_view (rows tbl db') = match res with
    | Ok _ => add_pending key v (table_view (rows tbl db))
    | Err _ => table_view (rows tbl db)
    end.
Proof.
  intros Hv Hwf [Hframe Hres]%execute_spec. destruct res as [[]|e].
  - destruct Hres as (l & Hins & ->). split; [done|]. by apply insert_view.
  - by rewrite Hres.
Qed.

Lemma sqlite_laws : @EventStorageLaws K V t SqliteStorageError (list Row) _ _ sqlite_ops key storable
  (fun db => well_formed (rows tbl db)) (fun db => table_view (rows tbl db)) (rows other).
Proof.
  assert (∀ t, t <> tbl <-> t = other) as Hother by (unfold other; intros []; by destruct tbl).
  split.
  - intros v db db' res Hwf Hv Hop. destruct (store_event_view _ _ _ _ Hv Hwf Hop) as (Hv1 & Hv2 & Hv3).
    split_and!; [done|by apply Hv1, Hother|by destruct res].
  - intros vs db db' res Hwf Hvs Hop. cbn in Hop. unfold store_events in Hop.
    destruct vs as [|v vs]; [by simplify_eq|].
    assert (Hstep := fun x db1 db1' Hx Hwf1 E => store_event_view x db1 db1' (Ok tt) Hx Hwf1 E).
    destruct (transaction_view _ storable (fun m v => add_pending key v m) Hstep
      _ _ _ _ Hvs Hwf Hop) as (Hv1 & Hv2 & Hv3).
    split_and!; [done|by apply Hv1, Hother|by destruct res].
  - intros db db' res Hwf. cbn. unfold fetch_events.
    destruct (execute tbl sql_pending db) as [db1 r] eqn:E.
    apply execute_spec in E as [Hframe Hres]. destruct r as [jsons|e].
    + destruct Hres as (l & [= <- <-] & Hl). destruct (pending_jsons _ Hwf) as (vs & -> & Hperm).
      intros [= <- <-]. rewrite Hl. split_and!; [done|by apply Hframe, Hother|done|].
      rewrite (collect_map_Ok Ok id); [|done]. by rewrite list_fmap_id.
    + intros [= <- <-]. rewrite Hres. split_and!; [done|by apply Hframe, Hother|done..].
  - intros ids db db' res Hwf Hids Hop. cbn in Hop. unfold mark_events in Hop.
    destruct ids as [|id ids]; [by simplify_eq|].
    destruct (transaction_view (fun id => execute tbl (sql_mark now (ulid_to_string (ulid id))))
      (fun id => ∃ v, storable v /\ key v = id) (fun m id => mark id m)) with
      (xs := id :: ids) (db := db) (db' := db') (res := res) as (Hv1 & Hv2 & Hv3); [|done..|].
    + intros x db1 db1' (v & Hv & <-) Hwf1 [Hframe (l & Hmark & ->)]%execute_spec.
      split; [done|]. by apply mark_view.
    + split_and!; [done|by apply Hv1, Hother|by destruct res].
  - intros db k e Hwf (r & Hr & He)%lookup_table_view; [|done].
    destruct Hwf as [_ Hall]. destruct (Hall r Hr) as (v & st & Hv).
    rewrite (entry_row_of _ _ _ Hv) in He. simplify_eq. split; [done|]. by destruct Hv.
Qed.
End table.
End SqliteProofs.

(** ** Properties of the two storages *)

(** C27: the in-memory storage meets the contract of both traits: a store adds a pending entry under
    the value's id, a batch adds them in order, a fetch returns exactly the pending values,
    marking turns the named entries to uploaded, and neither trait's operations touch the other's
    table. *)
Theorem memory_storage_implements_contract `{!HashIter ReadingId StoredSensorReading}
    `{!HashIter StatusId StoredDeviceStatus} :
  EventStorageLaws (EventStorage0 := MemoryStorage.readings) rd_id (fun _ => True) MemoryStorageProofs.inv
    MemoryStorageProofs.reading_view MemoryStorage.device_statuses /\
  EventStorageLaws (EventStorage0 := MemoryStorage.statuses) st_id (fun _ => True) MemoryStorageProofs.inv
    MemoryStorageProofs.status_view MemoryStorage.sensor_readings.
Proof.
  split; [apply MemoryStorageProofs.reading_storage_laws|apply MemoryStorageProofs.status_storage_laws].
Qed.

Definition reading_storable `{!UlidText} `{!Serde SensorReading} : SensorReading -> Prop :=
  SqliteProofs.storable rd_id reading_ulid.
Definition status_storable `{!UlidText} `{!Serde DeviceStatus} : DeviceStatus -> Prop :=
  SqliteProofs.storable st_id status_ulid.


(** the backends differ on an id stored before: the in-memory storage overwrites the entry and
    makes it pending again even when it was uploaded; the SQLite storage refuses it with a
    constraint violation and changes nothing. *)
Theorem duplicate_store_differs `{!UlidText} `{!Serde SensorReading} (r : SensorReading)
    (self : MemoryStorage.t) (db : SqliteStorage.t) (now : Z) :
  ulid_to_string (reading_ulid (rd_id r)) ∈ row_id <$> SqliteStorage.sensor_readings db ->
  hd false (SqliteStorage.faults db) = false ->
  (let (self', res) := MemoryStorage.reading_store r self in
   res = Ok tt /\ MemoryStorageProofs.reading_view self' !! rd_id r = Some (r, Pending)) /\
  (let (db', res) := store (EventStorage := SqliteStorage.readings now) r db in
   res = Err (Sqlx UniqueViolation) /\
   SqliteStorage.sensor_readings db' = SqliteStorage.sensor_readings db /\
   SqliteStorage.device_statuses db' = SqliteStorage.device_statuses db).
Proof.
  intros Hin Hf. split.
  - cbn. split; [done|]. unfold MemoryStorageProofs.reading_view. cbn.
    by rewrite lookup_fmap, lookup_insert_eq.
  - cbn. unfold SqliteStorage.store_event, SqliteStorage.execute, SqliteStorage.io. rewrite Hf.
    unfold SqliteStorage.sql_insert. cbn. by rewrite bool_decide_true.
Qed.

Lemma delete_all_lookup {K A} `{Countable K} (ks : list K) (m : gmap K A) k :
  fold_left (fun m key => delete key m) ks m !! k = if decide (k ∈ ks) then None else m !! k.
Proof.
  revert m; induction ks as [|k' ks IH]; intros m; [done|]. cbn [fold_left]. rewrite IH.
  destruct (decide (k ∈ ks)) as [Hin|Hin].
  - by rewrite decide_True by set_solver.
  - destruct (decide (k = k')) as [->|Hne].
    + by rewrite lookup_delete_eq, decide_True by set_solver.
    + by rewrite lookup_delete_ne, decide_False by set_solver.
Qed.

(** Removing the keys of the uploaded entries, in any iteration order, keeps the pending ones. *)
Lemma cleanup_lookup {K A V} `{HashIter K A} (val : A -> V) (st : A -> StorageState) (m : gmap K A) k :
  ((fun e => (val e, st e)) <$>
     fold_left (fun m key => delete key m)
       (fst <$> filter (fun kv => st (snd kv) = Uploaded) (hm_iter m)) m) !! k =
  match ((fun e => (val e, st e)) <$> m) !! k with
  | Some (v, Pending) => Some (v, Pending)
  | _ => None
  end.
Proof.
  rewrite !lookup_fmap, delete_all_lookup.
  assert (k ∈ (filter (fun kv => st (snd kv) = Uploaded) (hm_iter m)).*1 <->
          ∃ e, m !! k = Some e /\ st e = Uploaded) as Hk.
  { rewrite list_elem_of_fmap. split.
    - intros ([k' e] & -> & [Hst Hin%elem_of_hm_iter]%list_elem_of_filter). eauto.
    - intros (e & Hm & Hst). exists (k, e). split; [done|]. apply list_elem_of_filter.
      split; [done|]. by apply elem_of_hm_iter. }
  destruct (m !! k) as [e|] eqn:E; cbn; [|by destruct (decide _)].
  destruct (decide _) as [Hin|Hin], (st e) eqn:Hst; cbn; try done.
  - apply Hk in Hin as (e' & [= <-] & Hst'). congruence.
  - by rewrite Hst.
  - destruct Hin. apply Hk. eauto.
Qed.

Lemma sql_delete_spec old l n l' : SqliteStorage.sql_delete old l = Ok (n, l') ->
  n + Z.of_nat (length l') = Z.of_nat (length l) /\
  ∀ r, r ∈ l' <-> r ∈ l /\ ~ (row_state r = "uploaded"%string /\ old r = true).
Proof.
  unfold SqliteStorage.sql_delete. intros [= <- <-]. split.
  - pose proof (filter_app_complement
      (fun r => row_state r = "uploaded"%string /\ old r = true) l) as Hp.
    apply Permutation_length in Hp. rewrite length_app in Hp. lia.
  - intros r. rewrite list_elem_of_filter. tauto.
Qed.

(** cleaning up never removes pending data. The in-memory storage removes every uploaded entry
    whatever the age asked for; the SQLite storage removes, in one transaction over both
    tables, exactly the uploaded rows that are old enough (all of them for a zero duration), counts
    them, and on an error removes nothing. *)
Theorem cleanup_keeps_pending `{!HashIter ReadingId StoredSensorReading}
    `{!HashIter StatusId StoredDeviceStatus} (self : MemoryStorage.t) (db db' : SqliteStorage.t)
    aged now older_than res :
  SqliteStorage.cleanup aged now older_than db = (db', res) ->
  (let self' := fst (MemoryStorage.cleanup older_than self) in
   (∀ k, MemoryStorageProofs.reading_view self' !! k =
      match MemoryStorageProofs.reading_view self !! k with
      | Some (v, Pending) => Some (v, Pending) | _ => None end) /\
   (∀ k, MemoryStorageProofs.status_view self' !! k =
      match MemoryStorageProofs.status_view self !! k with
      | Some (v, Pending) => Some (v, Pending) | _ => None end)) /\
  match res with
  | Err _ => ∀ t, SqliteStorage.rows t db' = SqliteStorage.rows t db
  | Ok c =>
      (∀ t r, r ∈ SqliteStorage.rows t db' <->
         r ∈ SqliteStorage.rows t db /\
         ~ (row_state r = "uploaded"%string /\ SqliteStorage.is_old aged now older_than r = true)) /\
      sensor_readings_deleted c + Z.of_nat (length (SqliteStorage.sensor_readings db'))
        = Z.of_nat (length (SqliteStorage.sensor_readings db)) /\
      device_statuses_deleted c + Z.of_nat (length (SqliteStorage.device_statuses db'))
        = Z.of_nat (length (SqliteStorage.device_statuses db))
  end.
Proof.
  intros Htx. split; [split; intros k; apply cleanup_lookup|].
  apply SqliteProofs.transaction_spec in Htx. destruct res as [c|e]; [|done].
  destruct Htx as (db1 & db2 & E1 & Hbody & E2).
  destruct (SqliteStorage.execute SensorReadings _ db1) as [db3 [n|e]] eqn:Ha; [|done].
  destruct (SqliteStorage.execute DeviceStatuses _ db3) as [db4 [m|e]] eqn:Hb; [|done].
  injection Hbody as -> <-.
  apply SqliteProofs.execute_spec in Ha as [Fa (la & Da & La)].
  apply SqliteProofs.execute_spec in Hb as [Fb (lb & Db & Lb)].
  rewrite E1 in Da. rewrite (Fa DeviceStatuses), E1 in Db by done.
  assert (SqliteStorage.rows SensorReadings db' = la) as Ea
    by (rewrite E2, (Fb SensorReadings) by done; done).
  assert (SqliteStorage.rows DeviceStatuses db' = lb) as Eb by (by rewrite E2).
  apply sql_delete_spec in Da as [Na Ia], Db as [Nb Ib]. split_and!.
  - intros [] r; [rewrite Ea; apply Ia|rewrite Eb; apply Ib].
  - change (SqliteStorage.sensor_readings ?d) with (SqliteStorage.rows SensorReadings d). by rewrite Ea.
  - change (SqliteStorage.device_statuses ?d) with (SqliteStorage.rows DeviceStatuses d). by rewrite Eb.
Qed.

(** ** Witnesses *)

Module DispatchStorageWitness.
#[local] Existing Instance hash_iter_std.
#[local] Existing Instance ulid_crockford.
#[local] Existing Instance ulid_crockford_laws.
#[local] Instance no_json {T} : Serde T := {| serialize _ := "{}"%string; deserialize _ := None |}.

Definition one : SqliteStorage.t :=
  fst (store (EventStorage := SqliteStorage.readings 0) (sample_reading 1 1)
         (SqliteStorage.mk [] [] [])).

Definition uploaded_one : SqliteStorage.t :=
  fst (mark_uploaded (EventStorage := SqliteStorage.readings 0) [mkReadingId 1] one).

Definition memory_one : MemoryStorage.t :=
  fst (MemoryStorage.reading_mark_uploaded [mkReadingId 1]
    (fst (MemoryStorage.reading_store (sample_reading 1 1) MemoryStorage.default))).


Lemma duplicate_store_differs_witness :
  snd (store (EventStorage := SqliteStorage.readings 0) (sample_reading 1 1) one)
    = Err (Sqlx UniqueViolation) /\
  MemoryStorageProofs.reading_view memory_one !! mkReadingId 1
    = Some (sample_reading 1 1, Uploaded) /\
  MemoryStorageProofs.reading_view
    (fst (MemoryStorage.reading_store (sample_reading 1 1) memory_one)) !! mkReadingId 1
    = Some (sample_reading 1 1, Pending).
Proof.
  destruct (duplicate_store_differs (sample_reading 1 1) memory_one one 0) as [[_ H1] H2].
  - vm_compute. apply list_elem_of_here.
  - reflexivity.
  - split; [|split; [vm_compute; reflexivity|exact H1]].
    destruct (store (EventStorage := SqliteStorage.readings 0) (sample_reading 1 1) one).
    destruct H2 as [H2 _]. exact H2.
Defined.

Lemma cleanup_keeps_pending_witness :
  snd (SqliteStorage.cleanup (fun _ _ _ => false) 0 0 uploaded_one) = Ok (mkCleanupStats 1 0) /\
  SqliteStorage.sensor_readings (fst (SqliteStorage.cleanup (fun _ _ _ => false) 0 0 uploaded_one)) = [].
Proof.
  assert (snd (SqliteStorage.cleanup (fun _ _ _ => false) 0 0 uploaded_one) = Ok (mkCleanupStats 1 0))
    as E by (vm_compute; reflexivity).
  split; [exact E|].
  destruct (cleanup_keeps_pending memory_one uploaded_one
    (fst (SqliteStorage.cleanup (fun _ _ _ => false) 0 0 uploaded_one)) (fun _ _ _ => false) 0 0
    (Ok (mkCleanupStats 1 0))) as (_ & _ & Hn & _).
  - rewrite <- E. apply surjective_pairing.
  - apply nil_length_inv. cbn [sensor_readings_deleted] in Hn.
    change (length (SqliteStorage.sensor_readings uploaded_one)) with 1%nat in Hn. lia.
Defined.
End DispatchStorageWitness.
