(* ===== verification/DispatchMain.v ===== *)
(** * The tasks of a dispatcher: ersha-dispatch/src/state.rs and main.rs

    [DispatchState] is the state the edge receiver, the collector and the uploader share.  The
    collector handles one [EdgeData] at a time; the uploader one tick of its interval at a time, over
    a storage that meets [EventStorageLaws] and a [PrimeLink], the calls it makes on the RPC client.
    The [n]-th call of the clock and of [Ulid::new] is an argument; [tracing] is left out. *)
From Stdlib Require Import ZArith Lia Strings.String.
From stdpp Require Import base gmap strings list pretty.
From S2P Require Import Prelude Platform Core Samples Registry DispatchStorage.
Open Scope Z_scope.

(** [ersha-dispatch/src/state.rs:8-16] PrimeEvent *)
Inductive PrimeEvent :=
  | DeviceDisconnection (device_id : DeviceId) (reason : DisconnectionReason.t)
  | Alert (alert : AlertRequest).

(** [ersha-dispatch/src/edge/mod.rs:9-16] EdgeData *)
Inductive EdgeData := Reading (r : SensorReading) | Status (s : DeviceStatus).

Module DispatchState.
(** [ersha-dispatch/src/state.rs:18-27] DispatcherState, Inner; an [Instant] is its seconds *)
Record t := mk {
  connected_devices : gset DeviceId;
  pending_events : list PrimeEvent;
  startup_time : Z
}.

(** [ersha-dispatch/src/state.rs:30-38] DispatcherState::new *)
Definition new (now : Z) : t := mk ∅ [] now.

(** [ersha-dispatch/src/state.rs:40-44] device_connected *)
Definition device_connected (device_id : DeviceId) (self : t) : t :=
  mk ({[device_id]} ∪ connected_devices self) (pending_events self) (startup_time self).

(** [ersha-dispatch/src/state.rs:46-53] device_disconnected *)
Definition device_disconnected (device_id : DeviceId) (reason : DisconnectionReason.t) (self : t) : t :=
  mk (connected_devices self ∖ {[device_id]})
    (pending_events self ++ [DeviceDisconnection device_id reason]) (startup_time self).

(** [ersha-dispatch/src/state.rs:55-59] queue_alert *)
Definition queue_alert (alert : AlertRequest) (self : t) : t :=
  mk (connected_devices self) (pending_events self ++ [Alert alert]) (startup_time self).

(** [ersha-dispatch/src/state.rs:61-65] take_pending_events *)
Definition take_pending_events (self : t) : t * list PrimeEvent :=
  (mk (connected_devices self) [] (startup_time self), pending_events self).

(** [ersha-dispatch/src/state.rs:67-71] connected_count *)
Definition connected_count (self : t) : Z := as_u32 (Z.of_nat (size (connected_devices self))).

(** [ersha-dispatch/src/state.rs:73-77] uptime_secs *)
Definition uptime_secs (now : Z) (self : t) : Z := now - startup_time self.
End DispatchState.

(** ** The data collector *)

Section collector.
Context {S RE SE : Type} `{!EventStorage ReadingId SensorReading S RE}
  `{!EventStorage StatusId DeviceStatus S SE} `{!UlidGen} `{!Clock}
  (debug_sensor_id : SensorId -> string) (dispatcher_id : DispatcherId).

(** [ersha-dispatch/src/main.rs:283-304] run_data_collector: the battery check *)
Definition battery_alert (status : DeviceStatus) (n : nat) : option AlertRequest :=
  if Z.ltb (percent (st_battery_percent status)) 10 then
    Some (mkAlertRequest (mkAlertId (ulid_new n)) dispatcher_id (Some (st_device_id status))
      AlertSeverity.Critical AlertType.CriticalBattery
      ("Device battery critically low: " +:+ pretty (percent (st_battery_percent status)) +:+ "%")
      (ts_now n))
  else None.

(** [ersha-dispatch/src/main.rs:306-329] run_data_collector: the loop over the sensor statuses *)
Fixpoint queue_sensor_alerts (device_id : DeviceId) (sensor_statuses : list SensorStatus)
    (state : DispatchState.t) (n : nat) : DispatchState.t * nat :=
  match sensor_statuses with
  | [] => (state, n)
  | s :: rest =>
      if decide (ss_state s = SensorState.Faulty) then
        let alert := mkAlertRequest (mkAlertId (ulid_new n)) dispatcher_id (Some device_id)
          AlertSeverity.Warning AlertType.SensorFailure
          ("Sensor " +:+ debug_sensor_id (ss_sensor_id s) +:+ " reported faulty state") (ts_now n) in
        queue_sensor_alerts device_id rest (DispatchState.queue_alert alert state) (1 + n)
      else queue_sensor_alerts device_id rest state n
  end.

(** [ersha-dispatch/src/main.rs:269-338] run_data_collector: one value from the edge receiver *)
Definition collect_one (data : EdgeData) (storage : S) (state : DispatchState.t) (n : nat) :
    S * DispatchState.t * nat :=
  match data with
  | Reading reading => (fst (store reading storage), state, n)
  | Status status =>
      let (state, n) := match battery_alert status n with
                        | Some alert => (DispatchState.queue_alert alert state, (1 + n)%nat)
                        | None => (state, n)
                        end in
      let (state, n) := queue_sensor_alerts (st_device_id status) (st_sensor_statuses status) state n in
      (fst (store status storage), state, n)
  end.

(** [ersha-dispatch/src/main.rs:250-341] run_data_collector: the values received before the cancellation *)
Fixpoint run_data_collector (received : list EdgeData) (storage : S) (state : DispatchState.t) (n : nat) :
    S * DispatchState.t * nat :=
  match received with
  | [] => (storage, state, n)
  | data :: rest =>
      let '(storage, state, n) := collect_one data storage state n in
      run_data_collector rest storage state n
  end.
End collector.

(** ** The uploader *)

(** The connection to ersha-prime: [link_connect] is [TcpStream::connect], the TLS handshake and
    [Client::new]; the others are the methods of [ersha_rpc::Client]. *)
Class PrimeLink (N E : Type) := {
  link_connect : N -> N * result unit E;
  link_hello : HelloRequest -> N -> N * result HelloResponse.t E;
  link_dispatcher_status : DispatcherStatusRequest -> N -> N * result DispatcherStatusResponse E;
  link_device_disconnection : DeviceDisconnectionRequest -> N -> N * result DeviceDisconnectionResponse E;
  link_alert : AlertRequest -> N -> N * result AlertResponse E;
  link_batch_upload : BatchUploadRequest -> N -> N * result BatchUploadResponse E
}.

(** Why [connect_and_register] failed. *)
Inductive RegisterError (E : Type) := LinkError (e : E) | HelloRejected (reason : HelloRejectionReason.t).
Arguments LinkError {E}.
Arguments HelloRejected {E}.

(** What the uploader task owns between two ticks, and the network. *)
Record Uploader (S N : Type) := mkUploader {
  up_storage : S;
  up_state : DispatchState.t;
  up_net : N;
  up_client : bool;      (* client.is_some() *)
  up_backoff : Z         (* seconds *)
}.
Arguments mkUploader {S N}.
Arguments up_storage {S N}.
Arguments up_state {S N}.
Arguments up_net {S N}.
Arguments up_client {S N}.
Arguments up_backoff {S N}.

Section uploader.
Context {S N RE SE E : Type} `{!EventStorage ReadingId SensorReading S RE}
  `{!EventStorage StatusId DeviceStatus S SE} `{!PrimeLink N E} `{!UlidGen} `{!Clock}
  (dispatcher_id : DispatcherId) (location : H3Cell).

(** [ersha-dispatch/src/main.rs:510-543] connect_and_register *)
Definition connect_and_register (net : N) : N * result unit (RegisterError E) :=
  match link_connect net with
  | (net, Err e) => (net, Err (LinkError e))
  | (net, Ok _) =>
      match link_hello (mkHelloRequest dispatcher_id location) net with
      | (net, Err e) => (net, Err (LinkError e))
      | (net, Ok (HelloResponse.Accepted _)) => (net, Ok tt)
      | (net, Ok (HelloResponse.Rejected reason)) => (net, Err (HelloRejected reason))
      end
  end.

Definition MAX_BACKOFF : Z := 60.

(** [ersha-dispatch/src/main.rs:415-446] run_uploader: the loop over the pending events *)
Fixpoint send_events (events : list PrimeEvent) (net : N) (n : nat) : N * nat :=
  match events with
  | [] => (net, n)
  | DeviceDisconnection device_id reason :: rest =>
      let request := mkDeviceDisconnectionRequest device_id dispatcher_id (ts_now n) (Some reason) in
      send_events rest (fst (link_device_disconnection request net)) (1 + n)
  | Alert alert :: rest => send_events rest (fst (link_alert alert net)) n
  end.

(** [ersha-dispatch/src/main.rs:448-503] run_uploader: from fetching the pending data to marking it *)
Definition upload_batch (u : Uploader S N) (n : nat) : Uploader S N * nat :=
  let with_storage s := mkUploader s (up_state u) (up_net u) (up_client u) (up_backoff u) in
  match fetch_pending (V := SensorReading) (up_storage u) with
  | (s, Err _) => (with_storage s, n)
  | (s, Ok readings) =>
      match fetch_pending (V := DeviceStatus) s with
      | (s, Err _) => (with_storage s, n)
      | (s, Ok statuses) =>
          match readings, statuses with
          | [], [] => (with_storage s, n)
          | _, _ =>
              let reading_ids := rd_id <$> readings in
              let status_ids := st_id <$> statuses in
              let batch := mkBatchUploadRequest (mkBatchId (ulid_new n)) dispatcher_id readings
                             statuses (ts_now n) in
              match link_batch_upload batch (up_net u) with
              | (net, Ok _) =>
                  let s := fst (mark_uploaded (V := SensorReading) reading_ids s) in
                  let s := fst (mark_uploaded (V := DeviceStatus) status_ids s) in
                  (mkUploader s (up_state u) net (up_client u) (up_backoff u), (1 + n)%nat)
              | (net, Err _) =>
                  (mkUploader s (up_state u) net false (up_backoff u), (1 + n)%nat)
              end
          end
      end
  end.

(** [ersha-dispatch/src/main.rs:394-446] run_uploader: the status request and the pending events *)
Definition report (instant : Z) (u : Uploader S N) (n : nat) : Uploader S N * nat * bool :=
  let (state, pending_events) := DispatchState.take_pending_events (up_state u) in
  let status_request := mkDispatcherStatusRequest dispatcher_id (DispatchState.connected_count state)
    (DispatchState.uptime_secs instant state) (as_u32 (Z.of_nat (length pending_events))) (ts_now n) in
  match link_dispatcher_status status_request (up_net u) with
  | (net, Err _) => (mkUploader (up_storage u) state net false (up_backoff u), (1 + n)%nat, false)
  | (net, Ok _) =>
      let (net, n) := send_events pending_events net (1 + n) in
      (mkUploader (up_storage u) state net (up_client u) (up_backoff u), n, true)
  end.

(** [ersha-dispatch/src/main.rs:375-505] run_uploader: one tick; the last component is the sleep, if any *)
Definition tick (instant : Z) (u : Uploader S N) (n : nat) : Uploader S N * nat * option Z :=
  let '(net, connected) :=
    if up_client u then (up_net u, Ok tt) else connect_and_register (up_net u) in
  match connected with
  | Err _ =>
      (mkUploader (up_storage u) (up_state u) net false (Z.min (up_backoff u * 2) MAX_BACKOFF), n,
       Some (up_backoff u))
  | Ok _ =>
      let backoff := if up_client u then up_backoff u else 1 in
      let '(u, n, reported) := report instant (mkUploader (up_storage u) (up_state u) net true backoff) n in
      if (reported : bool) then let (u, n) := upload_batch u n in (u, n, None)
      else (u, n, None)
  end.

(** [ersha-dispatch/src/main.rs:364-371] run_uploader: the state before the first tick *)
Definition uploader_start (storage : S) (state : DispatchState.t) (net : N) : Uploader S N :=
  mkUploader storage state net false 1.

(** [ersha-dispatch/src/main.rs:343-508] run_uploader: the ticks before the cancellation *)
Fixpoint run_uploader (instants : list Z) (u : Uploader S N) (n : nat) : Uploader S N * nat * list Z :=
  match instants with
  | [] => (u, n, [])
  | instant :: rest =>
      let '(u, n, slept) := tick instant u n in
      let '(u, n, sleeps) := run_uploader rest u n in
      (u, n, match slept with Some d => d :: sleeps | None => sleeps end)
  end.
End uploader.

(** ** Properties of the uploader *)

Section uploader_proofs.
Context {S N RE SE E Fr Fs : Type} `{!EventStorage ReadingId SensorReading S RE}
  `{!EventStorage StatusId DeviceStatus S SE} {rstorable sstorable rinv sinv rview sview}
  {rframe : S -> Fr} {sframe : S -> Fs}
  `{!DispatcherStorageLaws rstorable sstorable rinv sinv rview sview rframe sframe}
  `{!PrimeLink N E} `{!UlidGen} `{!Clock} (dispatcher_id : DispatcherId) (location : H3Cell).

Definition storage_inv (s : S) : Prop := rinv s /\ sinv s.

Lemma fetch_readings s s' res : storage_inv s -> fetch_pending (V := SensorReading) s = (s', res) ->
  storage_inv s' /\ rview s' = rview s /\ sview s' = sview s /\
  match res with Ok l => l ≡ₚ pending (rview s) | Err _ => True end.
Proof.
  intros [Hr Hs] Hf. destruct (fetch_pending_spec _ _ _ Hr Hf) as (Hr' & Hfr & Hv & Hl).
  destruct (rframe_spec _ _ Hfr) as [Hsv Hsi]. split_and!; auto. split; auto.
Qed.

Lemma fetch_statuses s s' res : storage_inv s -> fetch_pending (V := DeviceStatus) s = (s', res) ->
  storage_inv s' /\ rview s' = rview s /\ sview s' = sview s /\
  match res with Ok l => l ≡ₚ pending (sview s) | Err _ => True end.
Proof.
  intros [Hr Hs] Hf. destruct (fetch_pending_spec _ _ _ Hs Hf) as (Hs' & Hfr & Hv & Hl).
  destruct (sframe_spec _ _ Hfr) as [Hrv Hri]. split_and!; auto. split; auto.
Qed.

(** The ids of values of the table can be marked. *)
Lemma pending_ids_ok {K V St Er Fo} `{Countable K} `{!EventStorage K V St Er} {key : V -> K} {storable inv view}
    {frame : St -> Fo} `{!EventStorageLaws key storable inv view frame} s l :
  inv s -> l ≡ₚ pending (view s) -> Forall (fun id => ∃ v, storable v /\ key v = id) (key <$> l).
Proof.
  intros Hinv Hl. apply Forall_fmap, Forall_forall. intros v Hv. exists v. split; [|done].
  rewrite Hl in Hv. apply elem_of_pending in Hv as [k Hk].
  by destruct (view_keyed _ _ _ Hinv Hk).
Qed.

(** Marking everything that is pending leaves nothing pending. *)
Lemma marked_pending_nil {K V St Er Fo} `{Countable K} `{!EventStorage K V St Er} {key : V -> K}
    {storable inv view} {frame : St -> Fo} `{!EventStorageLaws key storable inv view frame} s l :
  inv s -> l ≡ₚ pending (view s) -> pending (mark_all (key <$> l) (view s)) = [].
Proof.
  intros Hinv Hl. destruct (pending (mark_all (key <$> l) (view s))) as [|v p] eqn:Ep; [done|].
  assert (v ∈ pending (mark_all (key <$> l) (view s))) as Hv by (rewrite Ep; set_solver).
  apply elem_of_pending_mark_all in Hv as (k & Hk & Hkv).
  destruct (view_keyed _ _ _ Hinv Hkv) as [Hkey _]. cbn in Hkey. subst k. destruct Hk.
  apply list_elem_of_fmap_2. rewrite Hl. apply elem_of_pending. eauto.
Qed.

Lemma mark_readings s s' res ids : storage_inv s ->
  Forall (fun id => ∃ v, rstorable v /\ rd_id v = id) ids ->
  mark_uploaded (V := SensorReading) ids s = (s', res) ->
  storage_inv s' /\ sview s' = sview s /\
  rview s' = match res with Ok _ => mark_all ids (rview s) | Err _ => rview s end.
Proof.
  intros [Hr Hs] Hids Hf. destruct (mark_uploaded_spec _ _ _ _ Hr Hids Hf) as (Hr' & Hfr & Hv).
  destruct (rframe_spec _ _ Hfr) as [Hsv Hsi]. split_and!; auto. split; auto.
Qed.

Lemma mark_statuses s s' res ids : storage_inv s ->
  Forall (fun id => ∃ v, sstorable v /\ st_id v = id) ids ->
  mark_uploaded (V := DeviceStatus) ids s = (s', res) ->
  storage_inv s' /\ rview s' = rview s /\
  sview s' = match res with Ok _ => mark_all ids (sview s) | Err _ => sview s end.
Proof.
  intros [Hr Hs] Hids Hf. destruct (mark_uploaded_spec _ _ _ _ Hs Hids Hf) as (Hs' & Hfr & Hv).
  destruct (sframe_spec _ _ Hfr) as [Hrv Hri]. split_and!; auto. split; auto.
Qed.

(** The tables after one upload: unchanged, or marked for a batch that prime acknowledged. *)
Definition uploaded_with (u u' : Uploader S N) (batch : BatchUploadRequest) : Prop :=
  (∃ net resp, link_batch_upload batch net = (up_net u', Ok resp)) /\
  bu_readings batch ≡ₚ pending (rview (up_storage u)) /\
  bu_statuses batch ≡ₚ pending (sview (up_storage u)) /\
  (rview (up_storage u') = rview (up_storage u) \/
   rview (up_storage u') = mark_all (rd_id <$> bu_readings batch) (rview (up_storage u))) /\
  (sview (up_storage u') = sview (up_storage u) \/
   sview (up_storage u') = mark_all (st_id <$> bu_statuses batch) (sview (up_storage u))).

Lemma upload_batch_spec u n u' n' : storage_inv (up_storage u) ->
  upload_batch dispatcher_id u n = (u', n') ->
  storage_inv (up_storage u') /\
  ((rview (up_storage u') = rview (up_storage u) /\ sview (up_storage u') = sview (up_storage u)) \/
   ∃ batch, uploaded_with u u' batch).
Proof.
  intros Hinv. unfold upload_batch.
  destruct (fetch_pending (up_storage u)) as [s1 [readings|e]] eqn:F1;
    destruct (fetch_readings _ _ _ Hinv F1) as (I1 & R1 & S1 & P1); [|intros [= <- <-]; auto].
  destruct (fetch_pending s1) as [s2 [statuses|e]] eqn:F2;
    destruct (fetch_statuses _ _ _ I1 F2) as (I2 & R2 & S2 & P2);
    [|intros [= <- <-]; rewrite <- R1, <- S1, <- R2, <- S2; auto].
  set (batch := mkBatchUploadRequest _ _ readings statuses _).
  assert (storage_inv s2 /\ (rview s2 = rview (up_storage u) /\ sview s2 = sview (up_storage u))) as Hsame
    by (rewrite R2, S2, R1, S1; auto).
  assert (match link_batch_upload batch (up_net u) with
    | (net, Ok _) =>
        (mkUploader (mark_uploaded (st_id <$> statuses) (mark_uploaded (rd_id <$> readings) s2).1).1
          (up_state u) net (up_client u) (up_backoff u), (1 + n)%nat)
    | (net, Err _) => (mkUploader s2 (up_state u) net false (up_backoff u), (1 + n)%nat)
    end = (u', n') -> storage_inv (up_storage u') /\
    ((rview (up_storage u') = rview (up_storage u) /\ sview (up_storage u') = sview (up_storage u)) \/
     ∃ batch, uploaded_with u u' batch)) as Hsend.
  { destruct (link_batch_upload batch (up_net u)) as [net [resp|e]] eqn:L; intros [= <- <-]; cbn;
      [|destruct Hsame; auto].
    assert (readings ≡ₚ pending (rview s2)) as Pr by (by rewrite R2, P1, R1).
    destruct (mark_uploaded (rd_id <$> readings) s2) as [s3 res3] eqn:M1.
    destruct (mark_readings _ _ _ _ I2 (pending_ids_ok _ _ (proj1 I2) Pr) M1) as (I3 & S3 & R3).
    assert (statuses ≡ₚ pending (sview s3)) as Ps by (by rewrite S3, S2, P2).
    cbn [fst]. destruct (mark_uploaded (st_id <$> statuses) s3) as [s4 res4] eqn:M2.
    destruct (mark_statuses _ _ _ _ I3 (pending_ids_ok _ _ (proj2 I3) Ps) M2) as (I4 & R4 & S4).
    cbn. split; [done|]. right. exists batch. unfold uploaded_with. cbn.
    destruct Hsame as (_ & Er & Es). rewrite Er in R3. rewrite S3, Es in S4. rewrite R4.
    split_and!; [eauto|by rewrite <- Er|by rewrite <- Es, Ps, S3|destruct res3; auto|destruct res4; auto]. }
  destruct readings as [|r readings]; [destruct statuses as [|st statuses]|];
    [intros [= <- <-]; cbn; destruct Hsame; auto|exact Hsend..].
Qed.

Lemma tick_cases instant u n u' n' slept :
  tick dispatcher_id location instant u n = (u', n', slept) ->
  up_storage u' = up_storage u \/
  ∃ u1 n1, up_storage u1 = up_storage u /\ upload_batch dispatcher_id u1 n1 = (u', n').
Proof.
  unfold tick.
  destruct (if up_client u then _ else _) as [net [[]|e]]; [|intros [= <- _ _]; by left].
  destruct (report _ _ _ _) as [[u1 n1] reported] eqn:R.
  assert (up_storage u1 = up_storage u) as Hst.
  { unfold report in R. cbn in R. destruct (link_dispatcher_status _ _) as [net' [resp|e]];
      [destruct (send_events _ _ _ _)|]; by injection R as <- _ _. }
  destruct reported; [|intros [= <- _ _]; by left].
  destruct (upload_batch dispatcher_id u1 n1) as [u2 n2] eqn:U. intros [= <- <- _]. eauto.
Qed.

(** An entry is as before, or it was pending and its value is in the batch prime acknowledged. *)
Definition only_acknowledged {K V} `{Countable K} (m m' : gmap K (V * StorageState))
    (sent : BatchUploadRequest -> list V) : Prop :=
  ∀ id, m' !! id = m !! id \/
    ∃ v batch net net' resp, m !! id = Some (v, Pending) /\ m' !! id = Some (v, Uploaded) /\
      link_batch_upload batch net = (net', Ok resp) /\ v ∈ sent batch.

Lemma mark_only_acknowledged {K V St Er Fo} `{Countable K} `{!EventStorage K V St Er} {key : V -> K}
    {storable inv view} {frame : St -> Fo} `{!EventStorageLaws key storable inv view frame}
    s (sent : BatchUploadRequest -> list V) batch net net' resp :
  inv s -> sent batch ≡ₚ pending (view s) -> link_batch_upload batch net = (net', Ok resp) ->
  only_acknowledged (view s) (mark_all (key <$> sent batch) (view s)) sent.
Proof.
  intros Hinv Hsent Hlink id. rewrite lookup_mark_all. destruct (decide _) as [Hin|]; [|by left].
  apply list_elem_of_fmap in Hin as (v & -> & Hv). pose proof Hv as Hp. rewrite Hsent in Hp.
  apply elem_of_pending in Hp as [k Hk]. destruct (view_keyed _ _ _ Hinv Hk) as [Hkey _].
  cbn in Hkey. subst k. right. rewrite Hk. cbn. eauto 10.
Qed.

(** The batch of a tick in which every call succeeds. *)
Lemma upload_batch_drains u n :
  storage_inv (up_storage u) ->
  (∀ s, ∃ s' l, fetch_pending (V := SensorReading) s = (s', Ok l)) ->
  (∀ s, ∃ s' l, fetch_pending (V := DeviceStatus) s = (s', Ok l)) ->
  (∀ ids s, snd (mark_uploaded (V := SensorReading) ids s) = Ok tt) ->
  (∀ ids s, snd (mark_uploaded (V := DeviceStatus) ids s) = Ok tt) ->
  (∀ batch, ∃ net' resp, link_batch_upload batch (up_net u) = (net', Ok resp)) ->
  let u' := fst (upload_batch dispatcher_id u n) in
  storage_inv (up_storage u') /\
  pending (rview (up_storage u')) = [] /\ pending (sview (up_storage u')) = [] /\
  ((pending (rview (up_storage u)) = [] /\ pending (sview (up_storage u)) = [] /\ up_net u' = up_net u) \/
   ∃ batch, up_net u' = fst (link_batch_upload batch (up_net u)) /\
     bu_dispatcher_id batch = dispatcher_id /\
     bu_readings batch ≡ₚ pending (rview (up_storage u)) /\
     bu_statuses batch ≡ₚ pending (sview (up_storage u))).
Proof.
  intros Hinv F1 F2 M1 M2 L. unfold upload_batch.
  destruct (F1 (up_storage u)) as (s1 & readings & E1). rewrite E1.
  destruct (fetch_readings _ _ _ Hinv E1) as (I1 & R1 & S1 & P1).
  destruct (F2 s1) as (s2 & statuses & E2). rewrite E2.
  destruct (fetch_statuses _ _ _ I1 E2) as (I2 & R2 & S2 & P2). rewrite S1 in P2.
  set (batch := mkBatchUploadRequest _ _ readings statuses _).
  destruct (L batch) as (net & resp & EL). rewrite EL.
  assert (readings ≡ₚ pending (rview s2)) as Pr by (by rewrite R2, P1, R1).
  destruct (mark_uploaded (rd_id <$> readings) s2) as [s3 res3] eqn:E3.
  specialize (M1 (rd_id <$> readings) s2). rewrite E3 in M1. cbn in M1. subst res3.
  destruct (mark_readings _ _ _ _ I2 (pending_ids_ok _ _ (proj1 I2) Pr) E3) as (I3 & S3 & R3).
  assert (statuses ≡ₚ pending (sview s3)) as Ps by (by rewrite S3, S2, S1, P2).
  destruct (mark_uploaded (st_id <$> statuses) s3) as [s4 res4] eqn:E4.
  specialize (M2 (st_id <$> statuses) s3). rewrite E4 in M2. cbn in M2. subst res4.
  destruct (mark_statuses _ _ _ _ I3 (pending_ids_ok _ _ (proj2 I3) Ps) E4) as (I4 & R4 & S4).
  destruct readings as [|r readings]; [destruct statuses as [|st statuses]|].
  { cbn. rewrite R2, R1, S2, S1. apply Permutation_nil_l in P1, P2. rewrite <- P1, <- P2.
    split_and!; [exact I2|done|done|by left]. }
  all: cbn [fst up_storage up_net]; rewrite ?E3; cbn [fst]; rewrite ?E4; cbn [fst up_storage up_net].
  all: split_and!; [done|rewrite R4, R3; eapply marked_pending_nil; [apply I2|done]
    |rewrite S4; eapply marked_pending_nil; [apply I3|done]|right; exists batch; rewrite EL; auto].
Qed.
End uploader_proofs.

Section uploader_properties.
Context {S N RE SE E Fr Fs : Type} `{!EventStorage ReadingId SensorReading S RE}
  `{!EventStorage StatusId DeviceStatus S SE} {rstorable sstorable rinv sinv rview sview}
  {rframe : S -> Fr} {sframe : S -> Fs}
  `{!DispatcherStorageLaws rstorable sstorable rinv sinv rview sview rframe sframe}
  `{!PrimeLink N E} `{!UlidGen} `{!Clock} (dispatcher_id : DispatcherId) (location : H3Cell).



(** a reading that the collector stores between the fetch and the marking of an upload stays
    pending, and is all that stays pending. *)
Theorem concurrent_store_survives s s1 s2 s3 (r : SensorReading) fetched :
  rinv s -> rstorable r -> rview s !! rd_id r = None ->
  fetch_pending s = (s1, Ok fetched) ->
  store r s1 = (s2, Ok tt) ->
  mark_uploaded (rd_id <$> fetched) s2 = (s3, Ok tt) ->
  ∀ v, v ∈ pending (rview s3) <-> v = r.
Proof.
  intros Hr Hst Hnone F St M v.
  destruct (fetch_pending_spec _ _ _ Hr F) as (I1 & _ & V1 & P1).
  destruct (store_spec _ _ _ _ I1 Hst St) as (I2 & _ & V2).
  assert (Forall (fun id => ∃ w, rstorable w /\ rd_id w = id) (rd_id <$> fetched)) as Hids
    by (by apply (pending_ids_ok s)).
  destruct (mark_uploaded_spec _ _ _ _ I2 Hids M) as (I3 & _ & V3). cbn in V2, V3.
  rewrite V3, V2, V1, elem_of_pending_mark_all. unfold add_pending. split.
  - intros (k & Hk & [[<- [= <-]]|[_ Hv]]%lookup_insert_Some); [done|]. destruct Hk.
    destruct (view_keyed _ _ _ Hr Hv) as [Hkey _]. cbn in Hkey. subst k.
    apply list_elem_of_fmap_2. rewrite P1. apply elem_of_pending. eauto.
  - intros ->. exists (rd_id r). rewrite lookup_insert_eq. split; [|done].
    intros (w & Hw & Hin)%list_elem_of_fmap. rewrite P1 in Hin.
    apply elem_of_pending in Hin as (k & Hk). destruct (view_keyed _ _ _ Hr Hk) as [Hkey _].
    cbn in Hkey. congruence.
Qed.
End uploader_properties.

(** When the dispatcher status request of a tick fails, the disconnections and alerts that were
    queued are dropped: the queue is empty afterwards, none of them was sent, and the connection is
    given up. *)
Theorem failed_status_loses_events {S N RE SE E : Type} `{!EventStorage ReadingId SensorReading S RE}
    `{!EventStorage StatusId DeviceStatus S SE} `{!PrimeLink N E} `{!UlidGen} `{!Clock}
    dispatcher_id location instant (u u' : Uploader S N) n n' slept :
  up_client u = true ->
  (∀ req net, ∃ net' e, link_dispatcher_status req net = (net', Err e)) ->
  tick dispatcher_id location instant u n = (u', n', slept) ->
  DispatchState.pending_events (up_state u') = [] /\ up_client u' = false /\
  up_storage u' = up_storage u /\
  ∃ req, up_net u' = fst (link_dispatcher_status req (up_net u)) /\
    dsr_pending_uploads req = as_u32 (Z.of_nat (length (DispatchState.pending_events (up_state u)))).
Proof.
  intros Hc D. unfold tick, report. rewrite Hc. cbn -[as_u32].
  match goal with |- context [link_dispatcher_status ?r ?w] =>
    set (req := r) end.
  destruct (D req (up_net u)) as (net1 & e & Hd). rewrite Hd. intros [= <- _ _]. cbn -[as_u32]. split_and!; try done. exists req. by rewrite Hd.
Qed.

Lemma backoff_from {S N RE SE E : Type} `{!EventStorage ReadingId SensorReading S RE}
    `{!EventStorage StatusId DeviceStatus S SE} `{!PrimeLink N E} `{!UlidGen} `{!Clock}
    dispatcher_id location instants storage state :
  (∀ net, ∃ e, snd (connect_and_register dispatcher_id location net) = Err e) ->
  ∀ k net n (u' : Uploader S N) n' sleeps,
  run_uploader dispatcher_id location instants
    (mkUploader storage state net false (Z.min (2 ^ Z.of_nat k) 60)) n = (u', n', sleeps) ->
  sleeps = (fun i => Z.min (2 ^ Z.of_nat i) 60) <$> seq k (length instants) /\
  up_storage u' = storage /\ up_state u' = state.
Proof.
  intros C. induction instants as [|i instants IH]; intros k net n u' n' sleeps.
  { by intros [= <- _ <-]. }
  cbn [run_uploader]. unfold tick at 1. cbn [up_client up_net up_storage up_state up_backoff].
  destruct (connect_and_register dispatcher_id location net) as [net' res] eqn:Hc.
  destruct (C net) as [e He]. rewrite Hc in He. cbn in He. subst res.
  replace (Z.min (Z.min (2 ^ Z.of_nat k) 60 * 2) MAX_BACKOFF) with (Z.min (2 ^ Z.of_nat (1 + k)) 60).
  2:{ rewrite Nat2Z.inj_add, Z.pow_add_r by lia. change (2 ^ Z.of_nat 1) with 2. unfold MAX_BACKOFF.
      pose proof (Z.pow_pos_nonneg 2 (Z.of_nat k)). lia. }
  destruct (run_uploader _ _ instants _ n) as [[u2 n2] rest] eqn:R. intros [= <- _ <-].
  destruct (IH _ _ _ _ _ _ R) as (-> & ? & ?). done.
Qed.

(** while ersha-prime cannot be reached or rejects the dispatcher, the uploader sleeps 1, 2, 4, ...
    seconds, never more than 60, and keeps the stored data and the queued events. *)
Theorem backoff_schedule {S N RE SE E : Type} `{!EventStorage ReadingId SensorReading S RE}
    `{!EventStorage StatusId DeviceStatus S SE} `{!PrimeLink N E} `{!UlidGen} `{!Clock}
    dispatcher_id location instants storage state net n (u' : Uploader S N) n' sleeps :
  (∀ net, ∃ e, snd (connect_and_register dispatcher_id location net) = Err e) ->
  run_uploader dispatcher_id location instants (uploader_start storage state net) n
    = (u', n', sleeps) ->
  sleeps = (fun i => Z.min (2 ^ Z.of_nat i) 60) <$> seq 0 (length instants) /\
  up_storage u' = storage /\ up_state u' = state.
Proof. intros C. apply (backoff_from _ _ _ _ _ C 0). Qed.

(** ** Properties of the collector *)

Lemma queue_sensor_alerts_spec `{!UlidGen} `{!Clock} debug did dev ss : ∀ state n,
  ∃ alerts n', queue_sensor_alerts debug did dev ss state n =
      (DispatchState.mk (DispatchState.connected_devices state)
         (DispatchState.pending_events state ++ (Alert <$> alerts)) (DispatchState.startup_time state), n') /\
    Forall2 (fun a s => alert_dispatcher_id a = did /\ alert_device_id a = Some dev /\
        alert_severity a = AlertSeverity.Warning /\ alert_type a = AlertType.SensorFailure /\
        alert_message a = ("Sensor " +:+ debug (ss_sensor_id s) +:+ " reported faulty state")%string)
      alerts (filter (fun s => ss_state s = SensorState.Faulty) ss).
Proof.
  induction ss as [|s ss IH]; intros state n; cbn [queue_sensor_alerts].
  - exists [], n. split; [|constructor]. rewrite app_nil_r. by destruct state.
  - rewrite filter_cons. destruct (decide (ss_state s = SensorState.Faulty)); [|apply IH].
    match goal with |- context [DispatchState.queue_alert ?a state] => set (alert := a) end.
    destruct (IH (DispatchState.queue_alert alert state) (1 + n)%nat) as (alerts & n' & -> & Hall).
    exists (alert :: alerts), n'. split; [|by constructor].
    cbn. by rewrite <- app_assoc.
Qed.

(** C38: a status report queues, in order, one critical battery alert exactly when the battery is
    below 10 percent and one warning for each faulty sensor, all for the reporting device, and the
    status is then handed to the storage; a reading queues nothing. *)
Theorem collector_queues_alerts {S RE SE : Type} `{!EventStorage ReadingId SensorReading S RE}
    `{!EventStorage StatusId DeviceStatus S SE} `{!UlidGen} `{!Clock} debug did data (storage : S)
    state n :
  let '(storage', state', _) := collect_one debug did data storage state n in
  match data with
  | Reading r => storage' = fst (store r storage) /\ state' = state
  | Status st => storage' = fst (store st storage) /\ ∃ battery sensors,
      DispatchState.pending_events state' =
        DispatchState.pending_events state ++ (Alert <$> battery ++ sensors) /\
      DispatchState.connected_devices state' = DispatchState.connected_devices state /\
      (if bool_decide (percent (st_battery_percent st) < 10)
       then ∃ a, battery = [a] /\ alert_severity a = AlertSeverity.Critical /\
              alert_type a = AlertType.CriticalBattery /\ alert_device_id a = Some (st_device_id st)
       else battery = []) /\
      Forall2 (fun a s => alert_dispatcher_id a = did /\ alert_device_id a = Some (st_device_id st) /\
          alert_severity a = AlertSeverity.Warning /\ alert_type a = AlertType.SensorFailure /\
          alert_message a = ("Sensor " +:+ debug (ss_sensor_id s) +:+ " reported faulty state")%string)
        sensors (filter (fun s => ss_state s = SensorState.Faulty) (st_sensor_statuses st))
  end.
Proof.
  destruct data as [r|st]; cbn [collect_one]; [done|]. unfold battery_alert.
  case_bool_decide as Hb; [rewrite (proj2 (Z.ltb_lt _ _) Hb)|rewrite (proj2 (Z.ltb_ge _ _)) by lia].
  - match goal with |- context [DispatchState.queue_alert ?a state] => set (alert := a) end.
    destruct (queue_sensor_alerts_spec debug did (st_device_id st) (st_sensor_statuses st)
      (DispatchState.queue_alert alert state) (1 + n)) as (alerts & n' & -> & Hall).
    split; [done|]. exists [alert], alerts. split_and!; [|done|by exists alert|done].
    cbn. by rewrite <- app_assoc.
  - destruct (queue_sensor_alerts_spec debug did (st_device_id st) (st_sensor_statuses st) state n)
      as (alerts & n' & -> & Hall).
    split; [done|]. by exists [], alerts.
Qed.

(** ** Witnesses *)

Module DispatchMainWitness.
#[local] Existing Instance hash_iter_std.
#[local] Instance gen : UlidGen := fun n => 1000 + Z.of_nat n.
#[local] Instance clock : Clock := fun n => mkTimestamp (Z.of_nat n).

(** A link that records the batches and answers every call. *)
#[local] Instance good_link : PrimeLink (list BatchUploadRequest) unit := {|
  link_connect net := (net, Ok tt);
  link_hello r net := (net, Ok (HelloResponse.Accepted (hello_dispatcher_id r)));
  link_dispatcher_status r net := (net, Ok (mkDispatcherStatusResponse (dsr_dispatcher_id r)));
  link_device_disconnection r net := (net, Ok (mkDeviceDisconnectionResponse (ddr_device_id r)));
  link_alert r net := (net, Ok (mkAlertResponse (alert_id r) true));
  link_batch_upload r net := (r :: net, Ok (mkBatchUploadResponse (bu_id r) 0 0 0 0))
|}.

(** A link that answers the hello and nothing else, and one that cannot connect. *)
Definition hello_link : PrimeLink unit unit := {|
  link_connect net := (net, Ok tt);
  link_hello r net := (net, Ok (HelloResponse.Accepted (hello_dispatcher_id r)));
  link_dispatcher_status r net := (net, Err tt); link_device_disconnection r net := (net, Err tt);
  link_alert r net := (net, Err tt); link_batch_upload r net := (net, Err tt)
|}.
Definition dead_link : PrimeLink unit unit := {|
  link_connect net := (net, Err tt); link_hello r net := (net, Err tt);
  link_dispatcher_status r net := (net, Err tt); link_device_disconnection r net := (net, Err tt);
  link_alert r net := (net, Err tt); link_batch_upload r net := (net, Err tt)
|}.

Definition did := mkDispatcherId 1.
Definition loc := mkH3Cell 7.

Definition storage1 : MemoryStorage.t :=
  fst (MemoryStorage.reading_store (sample_reading 1 1) MemoryStorage.default).

Lemma storage1_inv : MemoryStorageProofs.inv storage1.
Proof.
  split; intros k e; cbn; [|done]. intros [[<- <-]|[_ ?]]%lookup_insert_Some; done.
Qed.

Definition u1 : Uploader MemoryStorage.t (list BatchUploadRequest) :=
  uploader_start storage1 (DispatchState.queue_alert
    (mkAlertRequest (mkAlertId 3) did None AlertSeverity.Info AlertType.SecurityEvent "" (mkTimestamp 0))
    (DispatchState.new 0)) [].



Lemma concurrent_store_survives_witness :
  let s2 := fst (MemoryStorage.reading_store (sample_reading 2 1) storage1) in
  let s3 := fst (MemoryStorage.reading_mark_uploaded [mkReadingId 1] s2) in
  sample_reading 2 1 ∈ pending (MemoryStorageProofs.reading_view s3) <->
  sample_reading 2 1 = sample_reading 2 1.
Proof.
  intros s2 s3.
  apply (concurrent_store_survives (RE := MemoryStorageError) (SE := MemoryStorageError)
    storage1 storage1 s2 s3 (sample_reading 2 1) [sample_reading 1 1]);
    [apply storage1_inv|exact I|reflexivity..].
Defined.

Lemma failed_status_loses_events_witness :
  let u := mkUploader storage1 (up_state u1) tt true 1 in
  length (DispatchState.pending_events (up_state u)) = 1%nat /\
  DispatchState.pending_events (up_state (fst (fst
    (tick (PrimeLink0 := hello_link) did loc 5 u 0)))) = [].
Proof.
  split; [reflexivity|]. cbv zeta.
  destruct (tick did loc 5 _ 0) as [[u' n'] slept] eqn:E.
  apply (failed_status_loses_events (PrimeLink0 := hello_link) did loc 5 _ u' 0 n' slept) in E;
    [exact (proj1 E)|reflexivity|].
  intros req net. eexists _, _. reflexivity.
Defined.

Lemma backoff_schedule_witness :
  let '(_, _, sleeps) :=
    run_uploader (PrimeLink0 := dead_link) did loc [1; 2; 3; 4; 5; 6; 7; 8]
      (uploader_start storage1 (DispatchState.new 0) tt) 0 in
  sleeps = [1; 2; 4; 8; 16; 32; 60; 60].
Proof.
  destruct (run_uploader _ _ _ _ _) as [[u' n'] sleeps] eqn:E.
  apply backoff_schedule in E as (-> & _); [reflexivity|]. intros net. eexists. reflexivity.
Defined.
End DispatchMainWitness.
