(* ===== verification/EndToEnd.v ===== *)
(** * A dispatcher against ersha-prime

    The uploader of DispatchMain.v talks to the handlers of PrimeHandlers.v: [prime_link] is the
    connection whose other end runs the handlers on the state of ersha-prime, over any registries, and
    never fails on the way.  What the RPC layer does to a request on the way is the subject of the Rpc files. *)
From Stdlib Require Import ZArith Lia Strings.String.
From stdpp Require Import base gmap strings list.
From S2P Require Import Prelude Platform Core Samples Filter Registry InMemory PrimeHandlers.
From S2P Require Import DispatchStorage DispatchMain.
Open Scope Z_scope.

(** Every call is answered by the handler registered for it in ersha-prime/src/main.rs, over any registries. *)
#[export] Instance prime_link {D Dev R S DE VE RE SE : Type} `{!DispatcherRegistry D DE} `{!DeviceRegistry Dev VE}
    `{!ReadingRegistry R RE} `{!DeviceStatusRegistry S SE} : PrimeLink (AppState D Dev R S) Empty_set := {|
  link_connect s := (s, Ok tt);
  link_hello r s := let (s, resp) := on_hello r s in (s, Ok resp);
  link_dispatcher_status r s := let (s, resp) := on_dispatcher_status r s in (s, Ok resp);
  link_device_disconnection r s := let (s, resp) := on_device_disconnection r s in (s, Ok resp);
  link_alert r s := let (s, resp) := on_alert r s in (s, Ok resp);
  link_batch_upload r s := let (s, resp) := on_batch_upload r s in (s, Ok resp)
|}.

(** ** Ticks against handlers that accept the dispatcher *)

Section accepted.
Context {S RE SE : Type} `{!EventStorage ReadingId SensorReading S RE} `{!EventStorage StatusId DeviceStatus S SE}.
Context {D Dev Rd St DE VE RdE StE : Type} `{!DispatcherRegistry D DE} `{!DeviceRegistry Dev VE}
  `{!ReadingRegistry Rd RdE} `{!DeviceStatusRegistry St StE} `{!UlidGen} `{!Clock}
  (dispatcher_id : DispatcherId) (location : H3Cell).
Local Abbreviation State := (AppState D Dev Rd St).

Lemma send_events_prime events (prime : State) n : fst (send_events dispatcher_id events prime n) = prime.
Proof. revert n; induction events as [|[] events IH]; intros n; [done|apply IH..]. Qed.

Lemma connect_prime (prime : State) :
  on_hello (mkHelloRequest dispatcher_id location) prime = (prime, HelloResponse.Accepted dispatcher_id) ->
  connect_and_register dispatcher_id location prime = (prime, Ok tt).
Proof. intros Hh. unfold connect_and_register. cbn. by rewrite Hh. Qed.

(** A successful tick from a dispatcher prime accepts is one batch handled by prime. *)
Lemma tick_prime instant (u : Uploader S State) n :
  on_hello (mkHelloRequest dispatcher_id location) (up_net u) = (up_net u, HelloResponse.Accepted dispatcher_id) ->
  ∃ u1 n1, up_storage u1 = up_storage u /\ up_net u1 = up_net u /\
    fst (fst (tick dispatcher_id location instant u n)) = fst (upload_batch dispatcher_id u1 n1).
Proof.
  intros Hh. unfold tick.
  assert ((if up_client u then (up_net u, Ok tt)
           else connect_and_register dispatcher_id location (up_net u)) = (up_net u, Ok tt)) as ->
    by (destruct (up_client u); [done|by apply connect_prime]).
  unfold report. cbn -[upload_batch send_events].
  pose proof (send_events_prime (DispatchState.pending_events (up_state u)) (up_net u) (1 + n)) as Hnet.
  destruct (send_events _ _ _ _) as [net n2]. cbn in Hnet. subst net.
  match goal with |- context [upload_batch _ ?v ?k] => exists v, k end.
  split; [done|]. split; [done|]. by destruct (upload_batch _ _ _).
Qed.

Lemma link_batch_upload_answers batch (net : State) :
  ∃ net' resp, link_batch_upload batch net = (net', Ok resp).
Proof. cbn. destruct (on_batch_upload batch net). eauto. Qed.
End accepted.

Section end_to_end.
Context {S RE SE Fr Fs : Type} `{!EventStorage ReadingId SensorReading S RE}
  `{!EventStorage StatusId DeviceStatus S SE} {rstorable sstorable rinv sinv rview sview}
  {rframe : S -> Fr} {sframe : S -> Fs}
  `{!DispatcherStorageLaws rstorable sstorable rinv sinv rview sview rframe sframe}
  `{!UlidGen} `{!Clock} `{!Lowercase} `{!HashIter DeviceId Device}
  `{!HashIter DispatcherId Dispatcher} `{!HashIter ReadingId SensorReading}
  `{!HashIter StatusId DeviceStatus}
  (dispatcher_id : DispatcherId) (location : H3Cell).

Lemma hello_accepted (prime : MemState) d :
  InMemoryDispatcherRegistry.dispatchers (dispatcher_registry prime) !! dispatcher_id = Some d ->
  disp_state d = DispatcherState.Active ->
  on_hello (mkHelloRequest dispatcher_id location) prime = (prime, HelloResponse.Accepted dispatcher_id).
Proof. intros Hd Ha. unfold on_hello. cbn. rewrite Hd. rewrite decide_True by done. by destruct prime. Qed.

(** A dispatcher that ersha-prime knows as active uploads, in one tick whose storage operations
    succeed, everything it has pending: afterwards nothing is pending, every reading of a
    registered device is in ersha-prime's registry under its id, and a reading of an unregistered
    device leaves its id there as it was although it is no longer pending. *)
Theorem end_to_end_upload instant (u u' : Uploader S MemState) n n' slept d :
  rinv (up_storage u) -> sinv (up_storage u) ->
  (∀ s, ∃ s' l, fetch_pending (V := SensorReading) s = (s', Ok l)) ->
  (∀ s, ∃ s' l, fetch_pending (V := DeviceStatus) s = (s', Ok l)) ->
  (∀ ids s, snd (mark_uploaded (V := SensorReading) ids s) = Ok tt) ->
  (∀ ids s, snd (mark_uploaded (V := DeviceStatus) ids s) = Ok tt) ->
  InMemoryDispatcherRegistry.dispatchers (dispatcher_registry (up_net u)) !! dispatcher_id = Some d ->
  disp_state d = DispatcherState.Active ->
  tick dispatcher_id location instant u n = (u', n', slept) ->
  pending (rview (up_storage u')) = [] /\ pending (sview (up_storage u')) = [] /\
  ∀ r, r ∈ pending (rview (up_storage u)) ->
    InMemoryReadingRegistry.readings (reading_registry (up_net u')) !! rd_id r =
    match InMemoryDeviceRegistry.devices (device_registry (up_net u)) !! rd_device_id r with
    | Some _ => Some r
    | None => InMemoryReadingRegistry.readings (reading_registry (up_net u)) !! rd_id r
    end.
Proof.
  intros Hr Hs F1 F2 M1 M2 Hd Ha Htick.
  destruct (tick_prime dispatcher_id location instant u n (hello_accepted _ _ Hd Ha)) as (u1 & n1 & Hst & Hnet & Hup).
  rewrite Htick in Hup. cbn in Hup. rewrite <- Hst in *. rewrite <- Hnet in *.
  destruct (upload_batch_drains dispatcher_id u1 n1 (conj Hr Hs) F1 F2 M1 M2 (fun b => link_batch_upload_answers b _))
    as (_ & P1 & P2 & Hbatch). rewrite <- Hup in *.
  split; [done|]. split; [done|]. intros r Hpend.
  destruct Hbatch as [[E _]|(batch & -> & _ & Pr & _)]; [rewrite E in Hpend; set_solver|].
  cbn. destruct (on_batch_upload batch (up_net u1)) as [s' resp] eqn:Hb. cbn.
  replace s' with (fst (on_batch_upload batch (up_net u1))) by (by rewrite Hb).
  apply batch_upload_lookup; [|by rewrite Pr].
  rewrite Pr. apply pending_NoDup. intros k e Hk. by destruct (view_keyed _ _ _ Hr Hk).
Qed.
End end_to_end.

Module EndToEndWitness.
#[local] Existing Instance hash_iter_std.
#[local] Existing Instance lowercase_ascii.
#[local] Existing Instance DispatchMainWitness.gen.
#[local] Existing Instance DispatchMainWitness.clock.

Definition u0 : Uploader MemoryStorage.t MemState :=
  uploader_start DispatchMainWitness.storage1 (DispatchState.new 0) PrimeWitness.state0.

Lemma end_to_end_upload_witness :
  let u' := fst (fst (tick (mkDispatcherId 1) (mkH3Cell 7) 5 u0 0)) in
  pending (MemoryStorageProofs.reading_view (up_storage u')) = [] /\
  InMemoryReadingRegistry.readings (reading_registry (up_net u')) !! mkReadingId 1
    = Some (sample_reading 1 1).
Proof.
  cbv zeta. destruct (tick (mkDispatcherId 1) (mkH3Cell 7) 5 u0 0) as [[u' n'] slept] eqn:E.
  destruct (end_to_end_upload (mkDispatcherId 1) (mkH3Cell 7) 5 u0 u' 0 n' slept (sample_dispatcher 1))
    as (H1 & _ & H2); try apply DispatchMainWitness.storage1_inv; try exact E;
    try (intros; reflexivity).
  - intros s. eexists _, _. reflexivity.
  - intros s. eexists _, _. reflexivity.
  - split; [exact H1|]. refine (H2 (sample_reading 1 1) _).
    apply elem_of_pending. exists (mkReadingId 1). reflexivity.
Defined.
End EndToEndWitness.
