(* ===== verification/PrimeSqlite.v ===== *)
(** * ersha-prime on its SQLite registries, and a dispatcher against it

    The handlers of PrimeHandlers over the registries of the Sqlite files, as
    ersha-prime/src/main.rs:112-127 puts them together: each registry has its own pool, a [Conn] with
    the tables it uses and the statements the database will fail for it.  A statement that fails because
    another pool holds the write lock is one of those. *)
From Stdlib Require Import ZArith Lia Strings.String.
From stdpp Require Import base gmap strings list.
From S2P Require Import Prelude Platform Core Samples Filter Registry InMemory PrimeHandlers Sql SqlCodec.
From S2P Require Import SqliteDispatcher SqliteReading SqliteDevice SqliteStatus.
From S2P Require Import DispatchStorage DispatchMain EndToEnd.
Open Scope Z_scope.

Abbreviation SqliteState := (AppState SqliteDispatcherRegistry.t SqliteDeviceRegistry.t SqliteReadingRegistry.t
  SqliteDeviceStatusRegistry.t).

#[local] Existing Instance SqliteReadingProofs.codec_laws.
#[local] Existing Instance SqliteDispatcherProofs.codec_laws.

Section sqlite.
Context `{UlidTextLaws} `{JiffLaws} `{!RowOrder}.

(** The device is in the table. *)
Abbreviation known_in a := (fun id => is_Some (SqliteDeviceProofs.lookup id a)).

Lemma device_get_faults id c c' r : SqliteDeviceRegistry.get id c = (c', r) -> faulty c' -> faulty c.
Proof.
  unfold SqliteDeviceRegistry.get, bind. destruct (run _ _ c) as [c1 [rows|e]] eqn:Hrun1;
    apply run_total in Hrun1 as [Hf1 _].
  - assert (faulty c1 -> faulty c) as Hc by (unfold faulty; rewrite Hf1; apply faulty_tl).
    destruct rows as [|row rows]; [by intros [= <- <-]|].
    destruct (run _ _ c1) as [c2 [srows|e]] eqn:Hrun2; apply run_total in Hrun2 as [Hf2 _];
      assert (faulty c2 -> faulty c1) as Hc2 by (unfold faulty; rewrite Hf2; apply faulty_tl);
      repeat case_match; intros [= <- <-]; auto.
  - intros [= <- <-]. unfold faulty. rewrite Hf1. apply faulty_tl.
Qed.

(** The loops of the upload keep what belongs to a device in the table, and all of it when no lookup fails. *)
Lemma keep_known_sqlite {A} (key : A -> DeviceId) a items : Forall (fun x => u128 (device_ulid (key x))) items ->
  forall valid rej (c : SqliteDeviceRegistry.t), SqliteDeviceProofs.represents (tables c) a ->
  exists (c' : SqliteDeviceRegistry.t) kept rej',
  keep_known key items valid rej c = (c', (valid ++ kept, rej')) /\ tables c' = tables c /\ (faulty c' -> faulty c) /\
  kept `sublist_of` filter (fun x => known_in a (key x)) items /\
  (~ faulty c -> kept = filter (fun x => known_in a (key x)) items).
Proof.
  intros Hitems. induction Hitems as [|x items Hx _ IH]; intros valid rej c R; cbn [keep_known].
  { exists c, [], rej. by rewrite app_nil_r. }
  change (devr_get (key x) c) with (SqliteDeviceRegistry.get (key x) c).
  destruct (SqliteDeviceRegistry.get (key x) c) as [c1 res] eqn:Hget.
  pose proof (device_get_faults _ _ _ _ Hget) as Hf.
  apply (SqliteDeviceProofs.get_spec _ _ _ _ _ Hx R) in Hget as [Ht Hres]. rewrite <- Ht in R.
  rewrite filter_cons. destruct res as [[d|]|e].
  - destruct Hres as (d0 & ss & Hd0 & _). rewrite decide_True by (by eexists).
    destruct (IH (valid ++ [x]) rej c1 R) as (c' & kept & rej' & -> & Ht' & Hf' & Hsub & Hall).
    exists c', (x :: kept), rej'. rewrite <- (assoc_L (++)). split_and!; [done|congruence|auto|by constructor|].
    intros Hc. f_equal. apply Hall. auto.
  - rewrite decide_False by (rewrite Hres; by intros []).
    destruct (IH valid (as_u32 (rej + 1)) c1 R) as (c' & kept & rej' & -> & Ht' & Hf' & Hsub & Hall).
    exists c', kept, rej'. split_and!; [done|congruence|auto|done|]. intros Hc. apply Hall. auto.
  - destruct Hres as [-> Hfaulty].
    destruct (IH valid (as_u32 (rej + 1)) c1 R) as (c' & kept & rej' & -> & Ht' & Hf' & Hsub & Hall).
    exists c', kept, rej'. split_and!; [done|congruence|auto| |done].
    case_decide; [by constructor|done].
Qed.

Lemma Forall_sublist_filter {A} (P Q : A -> Prop) `{!forall x, Decision (Q x)} k l :
  Forall P l -> k `sublist_of` filter Q l -> Forall P k.
Proof.
  rewrite !Forall_forall. intros Hl Hsub x Hx. apply Hl.
  pose proof (elem_of_sublist _ _ _ Hx Hsub) as Hin. by apply list_elem_of_filter in Hin as [_ Hin].
Qed.

(** A batch of readings in one transaction: all of it, or nothing because the database failed. *)
Lemma store_kept_readings kept (c : SqliteReadingRegistry.t) : Forall reading_wf kept ->
  well_formed SqliteReadingProofs.codec (tables c) ->
  let c' := match kept with [] => c | _ => fst (rdr_batch_store kept c) end in
  view SqliteReadingProofs.codec (tables c') =
    insert_all rd_id (SqliteReadingProofs.stored <$> kept) (view SqliteReadingProofs.codec (tables c)) \/
  tables c' = tables c /\ faulty c.
Proof.
  intros Hk Hwf. cbv zeta. destruct kept as [|r kept]; [by left|].
  change (rdr_batch_store ?l c) with (SqliteReadingRegistry.batch_store l c).
  destruct (SqliteReadingRegistry.batch_store (r :: kept) c) as [c' res] eqn:Hst.
  apply (store_all_view of_sqlx SqliteReadingProofs.codec) in Hst as [_ Hst]; [|done|done].
  rewrite insert_all_fmap. destruct res as [[]|e]; [by left|]. right. by destruct Hst as (? & _ & ?).
Qed.

(** The table stays well-formed, and a database that worked goes on working. *)
Lemma store_kept_well_formed kept (c : SqliteReadingRegistry.t) : Forall reading_wf kept ->
  well_formed SqliteReadingProofs.codec (tables c) ->
  let c' := match kept with [] => c | _ => fst (rdr_batch_store kept c) end in
  well_formed SqliteReadingProofs.codec (tables c') /\ (faulty c' -> faulty c).
Proof.
  intros Hk Hwf. cbv zeta. destruct kept as [|r kept]; [done|].
  change (rdr_batch_store ?l c) with (SqliteReadingRegistry.batch_store l c).
  assert (wp of_sqlx (SqliteReadingRegistry.batch_store (r :: kept)) (fun _ _ => True) c) as Hwp.
  { apply wp_transaction. intros c1 _. apply (wp_for_each of_sqlx _ (fun _ _ => True)); [|done].
    intros x xs c2 _. by apply wp_write. }
  unfold wp in Hwp. destruct (SqliteReadingRegistry.batch_store (r :: kept) c) as [c' res] eqn:Hst.
  apply (store_all_view of_sqlx SqliteReadingProofs.codec) in Hst as [Hst _]; [|done|done]. by destruct Hwp.
Qed.

(** A batch of statuses: a prefix of it, and all of it unless the database failed. *)
Lemma store_kept_statuses kept (c : SqliteDeviceStatusRegistry.t) l : Forall status_wf kept ->
  SqliteStatusProofs.represents (tables c) l ->
  let c' := match kept with [] => c | _ => fst (str_batch_store kept c) end in
  exists before after, kept = before ++ after /\
    SqliteStatusProofs.represents (tables c') (SqliteStatusProofs.put_all before l) /\ (after = [] \/ faulty c).
Proof.
  intros Hk R. cbv zeta. destruct kept as [|s kept]; [exists [], []; auto|].
  change (str_batch_store ?l c) with (SqliteDeviceStatusRegistry.batch_store l c).
  destruct (SqliteDeviceStatusRegistry.batch_store (s :: kept) c) as [c' res] eqn:Hst.
  apply (SqliteStatusProofs.batch_store_spec _ _ _ _ _ Hk R) in Hst. destruct res as [[]|e].
  - exists (s :: kept), []. rewrite app_nil_r. auto.
  - destruct Hst as (_ & Hf & before & s' & after & -> & Hrep). exists before, (s' :: after). auto.
Qed.

(** What one batch does to the registries. *)
Lemma batch_upload_sqlite request (state : SqliteState) a l :
  SqliteDeviceProofs.represents (tables (device_registry state)) a ->
  well_formed SqliteReadingProofs.codec (tables (reading_registry state)) ->
  SqliteStatusProofs.represents (tables (device_status_registry state)) l ->
  Forall reading_wf (bu_readings request) -> Forall status_wf (bu_statuses request) ->
  let state' := fst (on_batch_upload request state) in
  exists readings before after,
    readings `sublist_of` filter (fun r => known_in a (rd_device_id r)) (bu_readings request) /\
    (~ faulty (device_registry state) -> readings = filter (fun r => known_in a (rd_device_id r)) (bu_readings request)) /\
    (view SqliteReadingProofs.codec (tables (reading_registry state')) =
       insert_all rd_id (SqliteReadingProofs.stored <$> readings)
         (view SqliteReadingProofs.codec (tables (reading_registry state))) \/
     tables (reading_registry state') = tables (reading_registry state) /\ faulty (reading_registry state)) /\
    before ++ after `sublist_of` filter (fun s => known_in a (st_device_id s)) (bu_statuses request) /\
    (~ faulty (device_registry state) ->
       before ++ after = filter (fun s => known_in a (st_device_id s)) (bu_statuses request)) /\
    SqliteStatusProofs.represents (tables (device_status_registry state')) (SqliteStatusProofs.put_all before l) /\
    (after = [] \/ faulty (device_status_registry state)) /\
    tables (device_registry state') = tables (device_registry state) /\
    dispatcher_registry state' = dispatcher_registry state /\
    well_formed SqliteReadingProofs.codec (tables (reading_registry state')) /\
    (faulty (device_registry state') -> faulty (device_registry state)) /\
    (faulty (reading_registry state') -> faulty (reading_registry state)).
Proof.
  intros Ra Hr Rl Hrs Hss. cbv zeta. unfold on_batch_upload.
  destruct (keep_known_sqlite rd_device_id a (bu_readings request)
    ltac:(eapply Forall_impl; [exact Hrs|]; intros r Hw; apply Hw) [] 0 _ Ra) as (c1 & kr & n1 & E1 & T1 & F1 & Sr & Ar).
  rewrite E1. pose proof Ra as Ra1. rewrite <- T1 in Ra1.
  destruct (keep_known_sqlite st_device_id a (bu_statuses request)
    ltac:(eapply Forall_impl; [exact Hss|]; intros r Hw; apply Hw) [] 0 _ Ra1) as (c2 & ks & n2 & E2 & T2 & F2 & Ss & As).
  rewrite E2. cbn [app fst reading_registry device_status_registry device_registry dispatcher_registry].
  pose proof (Forall_sublist_filter _ _ _ _ Hrs Sr) as Wr. pose proof (Forall_sublist_filter _ _ _ _ Hss Ss) as Ws.
  destruct (store_kept_statuses ks (device_status_registry state) l Ws Rl) as (before & after & -> & Hst & Hafter).
  destruct (store_kept_well_formed kr (reading_registry state) Wr Hr) as [Hwf Hfaults].
  exists kr, before, after. split_and!; try done.
  - by apply store_kept_readings.
  - intros Hc. apply As. auto.
  - by rewrite T2.
  - auto.
Qed.

(** A dispatcher whose row is active is accepted, and the lookup changes nothing. *)
Lemma hello_sqlite dispatcher_id location (state : SqliteState) d : u128 (dispatcher_ulid dispatcher_id) ->
  well_formed SqliteDispatcherProofs.codec (tables (dispatcher_registry state)) ->
  faults (dispatcher_registry state) = [] ->
  view SqliteDispatcherProofs.codec (tables (dispatcher_registry state)) !! dispatcher_id = Some d ->
  disp_state d = DispatcherState.Active ->
  on_hello (mkHelloRequest dispatcher_id location) state = (state, HelloResponse.Accepted dispatcher_id).
Proof.
  destruct state as [[t f] dev rs ss]. cbn [dispatcher_registry tables faults]. intros Hid Hwf -> Hd Ha. unfold on_hello.
  cbn [hello_dispatcher_id dispatcher_registry device_registry reading_registry device_status_registry].
  change (dspr_get dispatcher_id ?c) with (SqliteDispatcherRegistry.get dispatcher_id c).
  destruct (SqliteDispatcherRegistry.get dispatcher_id (mkConn t [])) as [c' res] eqn:Hget.
  pose proof Hget as Hview. apply (fetch_view of_sqlx SqliteDispatcherProofs.codec) in Hview as [Ht Hres]; [|done|done].
  assert (c' = mkConn t []) as ->.
  { unfold SqliteDispatcherRegistry.get, fetch_optional, bind, run, bind, round_trip in Hget. cbn -[rows_where] in Hget.
    destruct (rows_where _ _ _); by injection Hget as <- <-. }
  destruct res as [o|e]; [|by destruct Hres as [_ ?%elem_of_nil]].
  cbn [tables] in Hres. rewrite Hd in Hres. subst o. by rewrite decide_True.
Qed.

(** What a reading of the batch finds under its id afterwards. *)
Lemma reading_after request (m m' : gmap ReadingId SensorReading) (P : SensorReading -> Prop) r readings
    (dev_faulty store_faulty : Prop) `{!forall x, Decision (P x)} `{!Decision dev_faulty} :
  NoDup (rd_id <$> bu_readings request) -> r ∈ bu_readings request ->
  readings `sublist_of` filter P (bu_readings request) -> (~ dev_faulty -> readings = filter P (bu_readings request)) ->
  m' = insert_all rd_id (SqliteReadingProofs.stored <$> readings) m \/ m' = m /\ store_faulty ->
  P r /\ m' !! rd_id r = Some (SqliteReadingProofs.stored r) \/
  (~ P r \/ dev_faulty \/ store_faulty) /\ m' !! rd_id r = m !! rd_id r.
Proof.
  intros Hnd Hin Hsub Hall [->|[-> Hf]]; [|by auto].
  assert (forall x, x ∈ readings -> P x /\ x ∈ bu_readings request) as Hel.
  { intros x Hx. pose proof (elem_of_sublist _ _ _ Hx Hsub) as Hf. by apply list_elem_of_filter in Hf. }
  assert (rd_id <$> (SqliteReadingProofs.stored <$> readings) = rd_id <$> readings) as Hids
    by (rewrite <- list_fmap_compose; by apply list_fmap_ext).
  assert (NoDup (rd_id <$> readings)) as Hndr.
  { eapply sublist_NoDup; [exact Hnd|]. apply fmap_sublist. etrans; [exact Hsub|apply sublist_filter]. }
  destruct (decide (r ∈ readings)) as [Hr|Hr].
  - left. split; [by apply Hel|]. change (rd_id r) with (rd_id (SqliteReadingProofs.stored r)).
    apply lookup_insert_all_NoDup; [by rewrite Hids|by apply list_elem_of_fmap_2].
  - right. split.
    + destruct (decide (P r)) as [HP|HP]; [|by left]. destruct (decide dev_faulty) as [Hd|Hd]; [by auto|].
      destruct Hr. rewrite (Hall Hd). by apply list_elem_of_filter.
    + rewrite lookup_insert_all, filter_none; [done|]. intros x Hx Heq.
      apply list_elem_of_fmap in Hx as (y & -> & Hy). cbn in Heq. apply Hr.
      by rewrite <- (NoDup_fmap_inj_on rd_id (bu_readings request) y r Hnd (proj2 (Hel y Hy)) Hin Heq).
Qed.

Context {S RE SE Fr Fs : Type} `{!EventStorage ReadingId SensorReading S RE}
  `{!EventStorage StatusId DeviceStatus S SE} {rstorable sstorable rinv sinv rview sview}
  {rframe : S -> Fr} {sframe : S -> Fs}
  `{!DispatcherStorageLaws rstorable sstorable rinv sinv rview sview rframe sframe}
  `{!UlidGen} `{!Clock} (dispatcher_id : DispatcherId) (location : H3Cell).

(** C3: A dispatcher against ersha-prime on its SQLite registries: one tick of a dispatcher whose row
    is active, and whose own storage works, leaves nothing pending. Of each pending reading the
    readings table afterwards has the reading, to the second, if its device is in the devices
    table; it keeps what it had under that id only if the device is not there, or if the database
    failed a lookup of devices or the batch of readings, and then the reading is lost. The statuses of
    known devices are all stored with their children, or a prefix of them if the database failed. *)
Theorem end_to_end_sqlite instant (u u' : Uploader S SqliteState) n n' slept a l d :
  rinv (up_storage u) -> sinv (up_storage u) ->
  (forall s, exists s' l, fetch_pending (V := SensorReading) s = (s', Ok l)) ->
  (forall s, exists s' l, fetch_pending (V := DeviceStatus) s = (s', Ok l)) ->
  (forall ids s, snd (mark_uploaded (V := SensorReading) ids s) = Ok tt) ->
  (forall ids s, snd (mark_uploaded (V := DeviceStatus) ids s) = Ok tt) ->
  Forall reading_wf (pending (rview (up_storage u))) -> Forall status_wf (pending (sview (up_storage u))) ->
  let prime := up_net u in
  u128 (dispatcher_ulid dispatcher_id) ->
  well_formed SqliteDispatcherProofs.codec (tables (dispatcher_registry prime)) ->
  faults (dispatcher_registry prime) = [] ->
  view SqliteDispatcherProofs.codec (tables (dispatcher_registry prime)) !! dispatcher_id = Some d ->
  disp_state d = DispatcherState.Active ->
  SqliteDeviceProofs.represents (tables (device_registry prime)) a ->
  well_formed SqliteReadingProofs.codec (tables (reading_registry prime)) ->
  SqliteStatusProofs.represents (tables (device_status_registry prime)) l ->
  tick dispatcher_id location instant u n = (u', n', slept) ->
  let prime' := up_net u' in
  pending (rview (up_storage u')) = [] /\ pending (sview (up_storage u')) = [] /\
  (forall r, r ∈ pending (rview (up_storage u)) ->
     is_Some (SqliteDeviceProofs.lookup (rd_device_id r) a) /\
       view SqliteReadingProofs.codec (tables (reading_registry prime')) !! rd_id r = Some (SqliteReadingProofs.stored r) \/
     (SqliteDeviceProofs.lookup (rd_device_id r) a = None \/ faulty (device_registry prime) \/
        faulty (reading_registry prime)) /\
       view SqliteReadingProofs.codec (tables (reading_registry prime')) !! rd_id r =
         view SqliteReadingProofs.codec (tables (reading_registry prime)) !! rd_id r) /\
  (exists sent before after, sent ≡ₚ pending (sview (up_storage u)) /\
     before ++ after `sublist_of` filter (fun s => known_in a (st_device_id s)) sent /\
     SqliteStatusProofs.represents (tables (device_status_registry prime')) (SqliteStatusProofs.put_all before l) /\
     (before = filter (fun s => known_in a (st_device_id s)) sent \/ faulty (device_registry prime) \/
        faulty (device_status_registry prime))).
Proof.
  intros Hr Hs F1 F2 M1 M2 Wr Ws prime Hid Hd Hcalm Hrow Hact Ra Rr Rl Htick prime'.
  destruct (tick_prime dispatcher_id location instant u n (hello_sqlite _ location _ d Hid Hd Hcalm Hrow Hact))
    as (u1 & n1 & Hst & Hnet & Hup).
  rewrite Htick in Hup. cbn in Hup. unfold prime in *. clear prime. rewrite <- Hst in *. rewrite <- Hnet in *.
  destruct (upload_batch_drains dispatcher_id u1 n1 (conj Hr Hs) F1 F2 M1 M2 (fun b => link_batch_upload_answers b _))
    as (_ & P1 & P2 & Hbatch). rewrite <- Hup in *.
  split; [done|]. split; [done|]. destruct Hbatch as [(E1 & E2 & E3)|(batch & Hprime & _ & Pr & Ps)].
  { unfold prime'. rewrite E1, E2, E3. split; [by intros r ?%elem_of_nil|]. exists [], [], []. by split_and!; auto. }
  assert (prime' = fst (on_batch_upload batch (up_net u1))) as Hp'.
  { unfold prime'. rewrite Hprime. cbn. by destruct (on_batch_upload batch (up_net u1)). }
  rewrite <- Pr in Wr. rewrite <- Ps in Ws.
  destruct (batch_upload_sqlite batch (up_net u1) a l Ra Rr Rl Wr Ws)
    as (readings & before & after & Sr & Ar & Hview & Ss & As & Rs & Hafter & _). rewrite <- Hp' in *.
  split.
  - intros r Hin. rewrite <- Pr in Hin.
    assert (NoDup (rd_id <$> bu_readings batch)) as Hnd.
    { rewrite Pr. apply pending_NoDup. intros k e Hk. by destruct (view_keyed _ _ _ Hr Hk). }
    rewrite eq_None_not_Some.
    refine (reading_after batch _ _ (fun r => known_in a (rd_device_id r)) r readings _ (faulty (reading_registry (up_net u1)))
      Hnd Hin Sr Ar _).
    { unfold faulty. apply _. }
    destruct Hview as [->|[-> ?]]; auto.
  - exists (bu_statuses batch), before, after. split_and!; try done.
    destruct Hafter as [->|Hf]; [|by auto]. rewrite app_nil_r in As.
    destruct (decide (true ∈ faults (device_registry (up_net u1)))) as [Hf|Hf]; [by auto|left; by apply As].
Qed.
End sqlite.

(** ** Witness *)

Module PrimeSqliteWitness.
#[local] Existing Instance hash_iter_std.
#[local] Existing Instance lowercase_ascii.
#[local] Existing Instance ulid_crockford.
#[local] Existing Instance ulid_crockford_laws.
#[local] Existing Instance jiff_ns.
#[local] Existing Instance jiff_ns_laws.
#[local] Existing Instance row_order_std.
#[local] Existing Instance DispatchMainWitness.gen.
#[local] Existing Instance DispatchMainWitness.clock.

(** Dispatcher 1 and device 1 are registered, nothing is stored, and the readings table fails its next
    statement if [broken]. *)
Definition state (broken : bool) : SqliteState :=
  mkAppState (fst (SqliteDispatcherRegistry.register (sample_dispatcher 1) (calm []))) SqliteDeviceWitness.one
    (mkConn [] [broken]) (calm (SqliteStatus.mkTables [] [] [] 0 0)).

Definition uploader (broken : bool) : Uploader MemoryStorage.t SqliteState :=
  uploader_start DispatchMainWitness.storage1 (DispatchState.new 0) (state broken).

Lemma dispatchers_well_formed broken :
  well_formed SqliteDispatcherProofs.codec (tables (dispatcher_registry (state broken))).
Proof.
  destruct (SqliteDispatcherRegistry.register (sample_dispatcher 1) (calm [])) as [c r] eqn:Hreg.
  pose proof Hreg as Hwf. apply (store_view of_sqlx SqliteDispatcherProofs.codec) in Hwf as [Hwf _];
    [|apply SqliteDispatcherWitness.sample_dispatcher_wf; lia|exact (view_nil SqliteDispatcherProofs.codec)].
  unfold state. cbn [dispatcher_registry]. by rewrite Hreg.
Qed.

(** On a database that works the pending reading reaches the table. *)
Lemma end_to_end_sqlite_witness :
  let u' := fst (fst (tick (mkDispatcherId 1) (mkH3Cell 7) 5 (uploader false) 0)) in
  pending (MemoryStorageProofs.reading_view (up_storage u')) = [] /\
  view SqliteReadingProofs.codec (tables (reading_registry (up_net u'))) !! mkReadingId 1 =
    Some (SqliteReadingProofs.stored (sample_reading 1 1)).
Proof.
  cbv zeta. destruct (tick (mkDispatcherId 1) (mkH3Cell 7) 5 (uploader false) 0) as [[u' n'] slept] eqn:E.
  destruct SqliteDeviceWitness.one_wf as [a Ra].
  destruct (end_to_end_sqlite (mkDispatcherId 1) (mkH3Cell 7) 5 (uploader false) u' 0 n' slept a [] (sample_dispatcher 1))
    as (Hnone & _ & Hreadings & _); try apply DispatchMainWitness.storage1_inv; try exact E; try exact Ra;
    try (intros; reflexivity).
  - intros s. eexists _, _. reflexivity.
  - intros s. eexists _, _. reflexivity.
  - constructor; [apply SqliteReadingWitness.sample_reading_wf; lia|constructor].
  - constructor.
  - split; [discriminate|reflexivity].
  - apply dispatchers_well_formed.
  - exact (view_nil SqliteReadingProofs.codec).
  - apply SqliteStatusProofs.lite_status_represents_nil.
  - split; [exact Hnone|].
    destruct (Hreadings (sample_reading 1 1)) as [[_ Hin]|[Hwhy _]].
    + apply elem_of_pending. exists (mkReadingId 1). reflexivity.
    + exact Hin.
    + exfalso. destruct Hwhy as [Hno|[Hf|Hf]].
      * destruct (SqliteDeviceRegistry.get (mkDeviceId 1) SqliteDeviceWitness.one) as [c r] eqn:Hget.
        pose proof (SqliteDeviceProofs.get_spec (mkDeviceId 1) SqliteDeviceWitness.one c r a
          ltac:(split; [discriminate|reflexivity]) Ra Hget) as [_ Hres].
        assert (match r with Ok (Some _) => true | _ => false end = true) as Hr.
        { replace r with (snd (SqliteDeviceRegistry.get (mkDeviceId 1) SqliteDeviceWitness.one)) by (by rewrite Hget).
          vm_compute. reflexivity. }
        destruct r as [[d|]|]; [|discriminate Hr..]. destruct Hres as (d0 & ss & Hd0 & _).
        cbn in Hno. rewrite Hno in Hd0. discriminate Hd0.
      * vm_compute in Hf. by apply elem_of_nil in Hf.
      * apply list_elem_of_singleton in Hf. discriminate Hf.
Defined.
End PrimeSqliteWitness.
