(* ===== verification/RpcFrame.v ===== *)
(** * Messages and frames of the RPC protocol: ersha-rpc/src/message.rs and frame.rs

    A byte is a [Z] below 256.  [Postcard] is the third-party codec of [Envelope]; of it only the
    round trip is used.  A [Writer] is a byte sink that may break after a number of bytes, so that
    partial writes are in the model; a reader is the list of bytes the stream will deliver. *)
From Stdlib Require Import ZArith Lia Strings.String.
From stdpp Require Import base gmap strings list.
From S2P Require Import Prelude Platform Core.
Open Scope Z_scope.

(** [ersha-rpc/src/message.rs:9-10] MessageId *)
Record MessageId := mkMessageId { message_ulid : Ulid }.
#[export] Instance MessageId_eq_dec : EqDecision MessageId. Proof. solve_decision. Defined.
#[export] Instance MessageId_countable : Countable MessageId.
Proof. refine (inj_countable' message_ulid mkMessageId _). by intros []. Defined.

(** [ersha-rpc/src/message.rs:12-22] MessageId::new: the [n]-th generated id *)
Definition MessageId_new `{UlidGen} (n : nat) : MessageId := mkMessageId (ulid_new n).

Module WireErrorCode.
(** [ersha-rpc/src/message.rs:54-59] WireErrorCode *)
Inductive t := BadRequest | Unsupported | Internal.
#[export] Instance eq_dec : EqDecision t. Proof. solve_decision. Defined.
End WireErrorCode.
Export (hints) WireErrorCode.

(** [ersha-rpc/src/message.rs:48-52] WireError *)
Record WireError := mkWireError { we_code : WireErrorCode.t; we_message : string }.
#[export] Instance WireError_eq_dec : EqDecision WireError. Proof. solve_decision. Defined.

Module WireMessage.
(** [ersha-rpc/src/message.rs:31-46] WireMessage *)
Inductive t :=
  | Ping
  | Pong
  | HelloRequest (r : Core.HelloRequest)
  | HelloResponse (r : Core.HelloResponse.t)
  | BatchUploadRequest (r : Core.BatchUploadRequest)
  | BatchUploadResponse (r : Core.BatchUploadResponse)
  | AlertRequest (r : Core.AlertRequest)
  | AlertResponse (r : Core.AlertResponse)
  | DispatcherStatusRequest (r : Core.DispatcherStatusRequest)
  | DispatcherStatusResponse (r : Core.DispatcherStatusResponse)
  | DeviceDisconnectionRequest (r : Core.DeviceDisconnectionRequest)
  | DeviceDisconnectionResponse (r : Core.DeviceDisconnectionResponse)
  | Error (e : WireError).
#[export] Instance eq_dec : EqDecision t. Proof. solve_decision. Defined.
End WireMessage.
Export (hints) WireMessage.

(** [ersha-rpc/src/message.rs:24-29] Envelope *)
Record Envelope := mkEnvelope {
  env_msg_id : MessageId;
  env_reply_to : option MessageId;
  env_payload : WireMessage.t
}.
#[export] Instance Envelope_eq_dec : EqDecision Envelope. Proof. solve_decision. Defined.

Abbreviation bytes := (list Z).

(** The codec: [postcard::to_stdvec] and [postcard::from_bytes]. *)
Class Postcard := { to_stdvec : Envelope -> option bytes; from_bytes : bytes -> option Envelope }.
Class PostcardLaws `{Postcard} : Prop :=
  from_to_bytes e b : to_stdvec e = Some b -> from_bytes b = Some e.

Module FrameError.
(** [ersha-rpc/src/frame.rs:8-16] FrameError *)
Inductive t := Postcard | FrameTooLarge | Io.
End FrameError.

(** [ersha-rpc/src/frame.rs:6-6] MAX_FRAME_BYTES *)
Definition MAX_FRAME_BYTES : Z := 2000000.

(** A byte sink; [room] is how many more bytes it takes before it breaks, [None] for any number. *)
Record Writer := mkWriter { written : bytes; room : option nat }.

(** [write_all]: on a break the bytes that fit have been written. *)
Definition write_all (b : bytes) (w : Writer) : Writer * result unit FrameError.t :=
  match room w with
  | None => (mkWriter (written w ++ b) None, Ok tt)
  | Some k =>
      if Nat.leb (length b) k
      then (mkWriter (written w ++ b) (Some (k - length b)%nat), Ok tt)
      else (mkWriter (written w ++ take k b) (Some 0%nat), Err FrameError.Io)
  end.

(** [u32::to_be_bytes] and [u32::from_be_bytes]. *)
Definition to_be_bytes (n : Z) : bytes :=
  [Z.shiftr n 24 mod 256; Z.shiftr n 16 mod 256; Z.shiftr n 8 mod 256; n mod 256].
Definition from_be_bytes (a b c d : Z) : Z := ((a * 256 + b) * 256 + c) * 256 + d.

(** [ersha-rpc/src/frame.rs:18-34] write_frame *)
Definition write_frame `{Postcard} (msg : Envelope) (w : Writer) : Writer * result unit FrameError.t :=
  match to_stdvec msg with
  | None => (w, Err FrameError.Postcard)
  | Some bytes =>
      let len := as_u32 (Z.of_nat (length bytes)) in
      if Z.ltb MAX_FRAME_BYTES len then (w, Err FrameError.FrameTooLarge)
      else match write_all (to_be_bytes len) w with
           | (w, Err e) => (w, Err e)
           | (w, Ok _) => write_all bytes w
           end
  end.

(** [ersha-rpc/src/frame.rs:36-50] read_frame: the envelope and the bytes left on the stream *)
Definition read_frame `{Postcard} (r : bytes) : bytes * result Envelope FrameError.t :=
  match r with
  | a :: b :: c :: d :: r' =>
      let len := from_be_bytes a b c d in
      if Z.ltb MAX_FRAME_BYTES len then (r', Err FrameError.FrameTooLarge)
      else if Nat.ltb (length r') (Z.to_nat len) then ([], Err FrameError.Io)
      else match from_bytes (take (Z.to_nat len) r') with
           | Some msg => (drop (Z.to_nat len) r', Ok msg)
           | None => (drop (Z.to_nat len) r', Err FrameError.Postcard)
           end
  | _ => ([], Err FrameError.Io)
  end.

(** Writing one message after another on one stream. *)
Fixpoint write_frames `{Postcard} (msgs : list Envelope) (w : Writer) : Writer * result unit FrameError.t :=
  match msgs with
  | [] => (w, Ok tt)
  | msg :: rest =>
      match write_frame msg w with
      | (w, Err e) => (w, Err e)
      | (w, Ok _) => write_frames rest w
      end
  end.

(** Reading [n] messages. *)
Fixpoint read_frames `{Postcard} (n : nat) (r : bytes) : bytes * result (list Envelope) FrameError.t :=
  match n with
  | O => (r, Ok [])
  | S n' =>
      match read_frame r with
      | (r, Err e) => (r, Err e)
      | (r, Ok msg) =>
          match read_frames n' r with
          | (r, Err e) => (r, Err e)
          | (r, Ok msgs) => (r, Ok (msg :: msgs))
          end
      end
  end.

(** The size of a message on the wire, when the codec accepts it. *)
Definition encoded_size `{Postcard} (msg : Envelope) : option Z :=
  (fun b => Z.of_nat (length b)) <$> to_stdvec msg.

(** ** Framing *)

Lemma from_to_be_bytes n : u32 n ->
  match to_be_bytes n with [a; b; c; d] => from_be_bytes a b c d = n | _ => False end.
Proof.
  intros [Hn1 Hn2]. cbn. unfold from_be_bytes. rewrite !Z.shiftr_div_pow2 by lia.
  change (2 ^ 24) with (256 * (256 * 256)). change (2 ^ 16) with (256 * 256). change (2 ^ 8) with 256.
  rewrite <- !Z.div_div by lia.
  pose proof (Z.div_mod n 256). pose proof (Z.div_mod (n / 256) 256).
  pose proof (Z.div_mod (n / 256 / 256) 256).
  rewrite (Z.mod_small (n / 256 / 256 / 256)); [lia|].
  split; [repeat apply Z.div_pos; lia|].
  repeat (apply Z.div_lt_upper_bound; [lia|]). lia.
Qed.

Lemma write_all_Ok b w w' : write_all b w = (w', Ok tt) -> written w' = written w ++ b.
Proof.
  unfold write_all. destruct (room w) as [k|]; [|by intros [= <-]].
  destruct (Nat.leb (length b) k); [by intros [= <-]|done].
Qed.

(** What a successful write puts on the stream. *)
Lemma write_frame_Ok `{Postcard} msg w w' : write_frame msg w = (w', Ok tt) ->
  ∃ b, to_stdvec msg = Some b /\ as_u32 (Z.of_nat (length b)) <= MAX_FRAME_BYTES /\
    written w' = written w ++ to_be_bytes (as_u32 (Z.of_nat (length b))) ++ b.
Proof.
  unfold write_frame. destruct (to_stdvec msg) as [b|]; [|done].
  destruct (Z.ltb_spec MAX_FRAME_BYTES (as_u32 (Z.of_nat (length b)))); [done|].
  destruct (write_all (to_be_bytes _) w) as [w1 [[]|e]] eqn:E1; [|done].
  intros E2. exists b. split_and!; [done|done|].
  by rewrite (write_all_Ok _ _ _ E2), (write_all_Ok _ _ _ E1), <- app_assoc.
Qed.

Lemma read_written `{PostcardLaws} msg b rest :
  to_stdvec msg = Some b -> Z.of_nat (length b) <= MAX_FRAME_BYTES ->
  read_frame (to_be_bytes (as_u32 (Z.of_nat (length b))) ++ b ++ rest) = (rest, Ok msg).
Proof.
  intros Hb Hlen. unfold MAX_FRAME_BYTES in *. unfold as_u32.
  rewrite wrap_small by (unfold is_unsigned; lia).
  pose proof (from_to_be_bytes (Z.of_nat (length b)) ltac:(unfold is_unsigned; lia)) as Hbe.
  unfold to_be_bytes in *. cbn [app]. cbn [read_frame]. rewrite Hbe.
  rewrite (proj2 (Z.ltb_ge _ _)) by (unfold MAX_FRAME_BYTES; lia).
  rewrite Nat2Z.id, (proj2 (Nat.ltb_ge _ _)) by (rewrite length_app; lia).
  rewrite take_app_length, drop_app_length. by rewrite (from_to_bytes _ _ Hb).
Qed.


Module RpcFrameWitness.
Definition ping : Envelope := mkEnvelope (mkMessageId 7) None WireMessage.Ping.

(** A codec of the one message [ping]. *)
#[local] Instance tiny : Postcard := {|
  to_stdvec e := if decide (e = ping) then Some [7; 0; 0] else None;
  from_bytes b := if decide (b = [7; 0; 0]) then Some ping else None
|}.
#[local] Instance tiny_laws : PostcardLaws.
Proof. intros e b. cbn. destruct (decide (e = ping)) as [->|]; [|done]. intros [= <-]. done. Defined.

End RpcFrameWitness.
