(* ===== verification/Rpc.v ===== *)
(** * RPC endpoints, client and server: ersha-rpc/src/rpc.rs, client.rs, server.rs

    [RpcTcp] is one endpoint: its two bounded channels, the table of calls that wait for a reply, and
    the two tasks, the writer that drains [tx] into the stream and the reader that routes what
    arrives.  Each task's body and each method is a function; [step] is the relation of one
    endpoint's possible steps, in any interleaving, and [results] records what every [call] returned.
    The server's connection loop is a function of the envelopes that arrive on the connection. *)
From Stdlib Require Import ZArith Lia Strings.String.
From stdpp Require Import base gmap strings list.
From S2P Require Import Prelude Platform Core RpcFrame.
Open Scope Z_scope.

Module RpcError.
(** [ersha-rpc/src/rpc.rs:11-19] RpcError *)
Inductive t := SendError | ChannelClosed | Timeout.
End RpcError.

(** What the reader task is doing: reading, waiting for room in the inbox, or ended. *)
Inductive ReaderState := Reading | Blocked (msg : Envelope) | Stopped.

(** [ersha-rpc/src/rpc.rs:27-31] RpcTcp *)
Record RpcTcp := mkRpcTcp {
  buffer : nat;
  tx : list Envelope;                                   (* tx_out .. rx_out *)
  rx : list Envelope;                                   (* tx_in .. rx_in *)
  pending : gset MessageId;
  writer : Writer;
  writer_alive : bool;
  reader : ReaderState;
  results : gmap MessageId (result Envelope RpcError.t)
}.

(** [ersha-rpc/src/rpc.rs:34-89] RpcTcp::new *)
Definition RpcTcp_new (buffer : nat) (w : Writer) : RpcTcp :=
  mkRpcTcp buffer [] [] ∅ w true Reading ∅.

(** [ersha-rpc/src/rpc.rs:47-55] the writer task: one message of the channel *)
Definition writer_step `{Postcard} (self : RpcTcp) : RpcTcp :=
  match tx self with
  | [] => self
  | msg :: rest =>
      match write_frame msg (writer self) with
      | (w, Ok _) => mkRpcTcp (buffer self) rest (rx self) (pending self) w true (reader self) (results self)
      | (w, Err _) => mkRpcTcp (buffer self) [] (rx self) (pending self) w false (reader self) (results self)
      end
  end.

(** The inbox of the endpoint: full, [tx_in.send(msg).await] waits. *)
Definition to_inbox (msg : Envelope) (self : RpcTcp) : RpcTcp :=
  if Nat.ltb (length (rx self)) (buffer self)
  then mkRpcTcp (buffer self) (tx self) (rx self ++ [msg]) (pending self) (writer self)
         (writer_alive self) Reading (results self)
  else mkRpcTcp (buffer self) (tx self) (rx self) (pending self) (writer self)
         (writer_alive self) (Blocked msg) (results self).

(** [ersha-rpc/src/rpc.rs:58-82] the reader task: one message of the stream *)
Definition on_message (msg : Envelope) (self : RpcTcp) : RpcTcp :=
  match env_reply_to msg with
  | Some reply_to =>
      if decide (reply_to ∈ pending self) then
        mkRpcTcp (buffer self) (tx self) (rx self) (pending self ∖ {[reply_to]}) (writer self)
          (writer_alive self) (reader self) (<[reply_to := Ok msg]> (results self))
      else to_inbox msg self
  | None => to_inbox msg self
  end.

(** [ersha-rpc/src/rpc.rs:60-66] the reader task: [read_frame] fails *)
Definition on_read_error (self : RpcTcp) : RpcTcp :=
  mkRpcTcp (buffer self) (tx self) (rx self) (pending self) (writer self) (writer_alive self) Stopped
    (results self).

(** [self.tx.send(env)] once the channel has room or is closed. *)
Definition send_env (env : Envelope) (self : RpcTcp) : RpcTcp * result unit RpcError.t :=
  if writer_alive self
  then (mkRpcTcp (buffer self) (tx self ++ [env]) (rx self) (pending self) (writer self) true
          (reader self) (results self), Ok tt)
  else (self, Err RpcError.SendError).

(** [ersha-rpc/src/rpc.rs:91-102] send *)
Definition send (msg_id : MessageId) (payload : WireMessage.t) (self : RpcTcp) :
    RpcTcp * result MessageId RpcError.t :=
  let (self, r) := send_env (mkEnvelope msg_id None payload) self in
  (self, match r with Ok _ => Ok msg_id | Err e => Err e end).

(** [ersha-rpc/src/rpc.rs:104-106] recv: [None] while the inbox is empty *)
Definition recv (self : RpcTcp) : RpcTcp * option Envelope :=
  match rx self with
  | [] => (self, None)
  | msg :: rest =>
      (mkRpcTcp (buffer self) (tx self) rest (pending self) (writer self) (writer_alive self)
         (reader self) (results self), Some msg)
  end.

(** [ersha-rpc/src/rpc.rs:108-127] call, up to the send *)
Definition call_start (msg_id : MessageId) (payload : WireMessage.t) (self : RpcTcp) : RpcTcp :=
  let waiting := mkRpcTcp (buffer self) (tx self) (rx self) ({[msg_id]} ∪ pending self) (writer self)
                   (writer_alive self) (reader self) (results self) in
  match send_env (mkEnvelope msg_id None payload) waiting with
  | (self, Ok _) => self
  | (self, Err e) =>
      mkRpcTcp (buffer self) (tx self) (rx self) (pending self ∖ {[msg_id]}) (writer self)
        (writer_alive self) (reader self) (<[msg_id := Err e]> (results self))
  end.

(** [ersha-rpc/src/rpc.rs:132-135] call: the timeout elapses *)
Definition call_timeout (msg_id : MessageId) (self : RpcTcp) : RpcTcp :=
  mkRpcTcp (buffer self) (tx self) (rx self) (pending self ∖ {[msg_id]}) (writer self)
    (writer_alive self) (reader self) (<[msg_id := Err RpcError.Timeout]> (results self)).

(** [ersha-rpc/src/rpc.rs:139-154] reply *)
Definition reply (msg_id request_msg_id : MessageId) (payload : WireMessage.t) (self : RpcTcp) :
    RpcTcp * result MessageId RpcError.t :=
  let (self, r) := send_env (mkEnvelope msg_id (Some request_msg_id) payload) self in
  (self, match r with Ok _ => Ok msg_id | Err e => Err e end).

(** ** The steps of an endpoint *)

Inductive Label :=
  | LCall (id : MessageId) (payload : WireMessage.t)
  | LSend (id : MessageId) (reply_to : option MessageId) (payload : WireMessage.t)
  | LWrite
  | LRead (msg : Envelope)
  | LReadError
  | LUnblock
  | LTimeout (id : MessageId)
  | LRecv.

(** A message id is generated once; the channel a sender waits on has room or is closed. *)
Inductive step `{Postcard} : Label -> RpcTcp -> RpcTcp -> Prop :=
  | step_call id payload self :
      id ∉ pending self -> results self !! id = None ->
      (length (tx self) < buffer self)%nat \/ writer_alive self = false ->
      step (LCall id payload) self (call_start id payload self)
  | step_send id payload self :
      (length (tx self) < buffer self)%nat \/ writer_alive self = false ->
      step (LSend id None payload) self (fst (send id payload self))
  | step_reply id req payload self :
      (length (tx self) < buffer self)%nat \/ writer_alive self = false ->
      step (LSend id (Some req) payload) self (fst (reply id req payload self))
  | step_write self :
      writer_alive self = true -> tx self <> [] -> step LWrite self (writer_step self)
  | step_read msg self :
      reader self = Reading -> step (LRead msg) self (on_message msg self)
  | step_read_error self :
      reader self = Reading -> step LReadError self (on_read_error self)
  | step_unblock msg self :
      reader self = Blocked msg -> (length (rx self) < buffer self)%nat ->
      step LUnblock self (to_inbox msg self)
  | step_timeout id self :
      id ∈ pending self -> step (LTimeout id) self (call_timeout id self)
  | step_recv self :
      rx self <> [] -> step LRecv self (fst (recv self)).

(** The steps of a run, with their labels. *)
Inductive steps `{Postcard} : list Label -> RpcTcp -> RpcTcp -> Prop :=
  | steps_nil self : steps [] self self
  | steps_cons l ls s1 s2 s3 : step l s1 s2 -> steps ls s2 s3 -> steps (l :: ls) s1 s3.

(** ** Client *)

Module ClientError.
(** [ersha-rpc/src/client.rs:19-27] ClientError *)
Inductive t := Rpc (e : RpcError.t) | UnexpectedResponse | ErrorResponse (e : WireError).
End ClientError.

(** [ersha-rpc/src/client.rs:12-12] DEFAULT_TIMEOUT, in seconds *)
Definition DEFAULT_TIMEOUT : Z := 5.

(** [ersha-rpc/src/client.rs:14-17] Client *)
Record Client := mkClient { rpc : RpcTcp; timeout : Z }.

(** [ersha-rpc/src/client.rs:37-45] Client::with_buffer *)
Definition Client_with_buffer (w : Writer) (buffer : nat) : Client :=
  mkClient (RpcTcp_new buffer w) DEFAULT_TIMEOUT.

(** [ersha-rpc/src/client.rs:30-35] Client::new *)
Definition Client_new (w : Writer) : Client := Client_with_buffer w 1024.

(** [ersha-rpc/src/client.rs:47-50] Client::with_timeout *)
Definition Client_with_timeout (timeout : Z) (self : Client) : Client := mkClient (rpc self) timeout.

(** What each method makes of the result of its [call]. *)
Module ClientOps.
(** [ersha-rpc/src/client.rs:55-59] ping *)
Definition ping (r : result Envelope RpcError.t) : result unit ClientError.t :=
  let? response := map_err ClientError.Rpc r in
  match env_payload response with
  | WireMessage.Pong => Ok tt
  | WireMessage.Error err => Err (ClientError.ErrorResponse err)
  | _ => Err ClientError.UnexpectedResponse
  end.

(** [ersha-rpc/src/client.rs:68-72] hello *)
Definition hello (r : result Envelope RpcError.t) : result HelloResponse.t ClientError.t :=
  let? response := map_err ClientError.Rpc r in
  match env_payload response with
  | WireMessage.HelloResponse resp => Ok resp
  | WireMessage.Error err => Err (ClientError.ErrorResponse err)
  | _ => Err ClientError.UnexpectedResponse
  end.

(** [ersha-rpc/src/client.rs:84-88] batch_upload *)
Definition batch_upload (r : result Envelope RpcError.t) : result BatchUploadResponse ClientError.t :=
  let? response := map_err ClientError.Rpc r in
  match env_payload response with
  | WireMessage.BatchUploadResponse resp => Ok resp
  | WireMessage.Error err => Err (ClientError.ErrorResponse err)
  | _ => Err ClientError.UnexpectedResponse
  end.

(** [ersha-rpc/src/client.rs:97-101] alert *)
Definition alert (r : result Envelope RpcError.t) : result AlertResponse ClientError.t :=
  let? response := map_err ClientError.Rpc r in
  match env_payload response with
  | WireMessage.AlertResponse resp => Ok resp
  | WireMessage.Error err => Err (ClientError.ErrorResponse err)
  | _ => Err ClientError.UnexpectedResponse
  end.

(** [ersha-rpc/src/client.rs:113-117] dispatcher_status *)
Definition dispatcher_status (r : result Envelope RpcError.t) :
    result DispatcherStatusResponse ClientError.t :=
  let? response := map_err ClientError.Rpc r in
  match env_payload response with
  | WireMessage.DispatcherStatusResponse resp => Ok resp
  | WireMessage.Error err => Err (ClientError.ErrorResponse err)
  | _ => Err ClientError.UnexpectedResponse
  end.

(** [ersha-rpc/src/client.rs:132-136] device_disconnection *)
Definition device_disconnection (r : result Envelope RpcError.t) :
    result DeviceDisconnectionResponse ClientError.t :=
  let? response := map_err ClientError.Rpc r in
  match env_payload response with
  | WireMessage.DeviceDisconnectionResponse resp => Ok resp
  | WireMessage.Error err => Err (ClientError.ErrorResponse err)
  | _ => Err ClientError.UnexpectedResponse
  end.
End ClientOps.

(** ** Server *)

(** A handler runs on the shared state; [msg_id] is the request's. *)
Definition HandlerFn (Req Res S : Type) := Req -> MessageId -> S -> S * Res.

(** [ersha-rpc/src/server.rs:27-35] ServerHandlers *)
Record ServerHandlers (S : Type) := mkServerHandlers {
  h_ping : option (HandlerFn unit unit S);
  h_hello : option (HandlerFn HelloRequest HelloResponse.t S);
  h_batch_upload : option (HandlerFn BatchUploadRequest BatchUploadResponse S);
  h_alert : option (HandlerFn AlertRequest AlertResponse S);
  h_dispatcher_status : option (HandlerFn DispatcherStatusRequest DispatcherStatusResponse S);
  h_device_disconnection : option (HandlerFn DeviceDisconnectionRequest DeviceDisconnectionResponse S)
}.
Arguments mkServerHandlers {S}.
Arguments h_ping {S}.
Arguments h_hello {S}.
Arguments h_batch_upload {S}.
Arguments h_alert {S}.
Arguments h_dispatcher_status {S}.
Arguments h_device_disconnection {S}.

Section server.
Context {S : Type}.

(** [ersha-rpc/src/server.rs:38-53] Server::new: no handler registered *)
Definition no_handlers : ServerHandlers S := mkServerHandlers None None None None None None.

(** [ersha-rpc/src/server.rs:60-69] on_hello *)
Definition with_hello (f : HandlerFn HelloRequest HelloResponse.t S) (h : ServerHandlers S) :=
  mkServerHandlers (h_ping h) (Some f) (h_batch_upload h) (h_alert h) (h_dispatcher_status h)
    (h_device_disconnection h).

(** [ersha-rpc/src/server.rs:71-80] on_ping *)
Definition with_ping (f : HandlerFn unit unit S) (h : ServerHandlers S) :=
  mkServerHandlers (Some f) (h_hello h) (h_batch_upload h) (h_alert h) (h_dispatcher_status h)
    (h_device_disconnection h).

(** [ersha-rpc/src/server.rs:82-91] on_batch_upload *)
Definition with_batch_upload (f : HandlerFn BatchUploadRequest BatchUploadResponse S) (h : ServerHandlers S) :=
  mkServerHandlers (h_ping h) (h_hello h) (Some f) (h_alert h) (h_dispatcher_status h)
    (h_device_disconnection h).

(** [ersha-rpc/src/server.rs:93-102] on_alert *)
Definition with_alert (f : HandlerFn AlertRequest AlertResponse S) (h : ServerHandlers S) :=
  mkServerHandlers (h_ping h) (h_hello h) (h_batch_upload h) (Some f) (h_dispatcher_status h)
    (h_device_disconnection h).

(** [ersha-rpc/src/server.rs:104-113] on_dispatcher_status *)
Definition with_dispatcher_status (f : HandlerFn DispatcherStatusRequest DispatcherStatusResponse S)
    (h : ServerHandlers S) :=
  mkServerHandlers (h_ping h) (h_hello h) (h_batch_upload h) (h_alert h) (Some f)
    (h_device_disconnection h).

(** [ersha-rpc/src/server.rs:115-125] on_device_disconnection *)
Definition with_device_disconnection
    (f : HandlerFn DeviceDisconnectionRequest DeviceDisconnectionResponse S) (h : ServerHandlers S) :=
  mkServerHandlers (h_ping h) (h_hello h) (h_batch_upload h) (h_alert h) (h_dispatcher_status h)
    (Some f).

(** A handler's effect and the reply it makes, when one is registered. *)
Definition answer {Req Res} (h : option (HandlerFn Req Res S)) (wrap : Res -> WireMessage.t) (req : Req)
    (msg_id : MessageId) (state : S) : S * option WireMessage.t :=
  match h with
  | Some handler => let (state, res) := handler req msg_id state in (state, Some (wrap res))
  | None => (state, None)
  end.

(** [ersha-rpc/src/server.rs:144-261] handle_connection: one envelope; the reply, and whether to close *)
Definition handle_envelope (h : ServerHandlers S) (envelope : Envelope) (state : S) :
    S * option WireMessage.t * bool :=
  let msg_id := env_msg_id envelope in
  match env_payload envelope with
  | WireMessage.Ping =>
      let state := match h_ping h with
                   | Some handler => fst (handler tt msg_id state)
                   | None => state
                   end in
      (state, Some WireMessage.Pong, false)
  | WireMessage.HelloRequest hello =>
      match h_hello h with
      | Some handler =>
          let (state, response) := handler hello msg_id state in
          let should_close := match response with HelloResponse.Rejected _ => true | _ => false end in
          (state, Some (WireMessage.HelloResponse response), should_close)
      | None => (state, None, false)
      end
  | WireMessage.BatchUploadRequest request =>
      (answer (h_batch_upload h) WireMessage.BatchUploadResponse request msg_id state, false)
  | WireMessage.AlertRequest request =>
      (answer (h_alert h) WireMessage.AlertResponse request msg_id state, false)
  | WireMessage.DispatcherStatusRequest request =>
      (answer (h_dispatcher_status h) WireMessage.DispatcherStatusResponse request msg_id state, false)
  | WireMessage.DeviceDisconnectionRequest request =>
      (answer (h_device_disconnection h) WireMessage.DeviceDisconnectionResponse request msg_id state, false)
  | WireMessage.Pong | WireMessage.HelloResponse _ | WireMessage.BatchUploadResponse _
  | WireMessage.AlertResponse _ | WireMessage.DispatcherStatusResponse _
  | WireMessage.DeviceDisconnectionResponse _ | WireMessage.Error _ => (state, None, false)
  end.

(** [ersha-rpc/src/server.rs:127-263] handle_connection: the envelopes that arrive before the peer
    closes; the replies, each with the id it answers, and the envelopes left unread *)
Fixpoint handle_connection (h : ServerHandlers S) (envelopes : list Envelope) (state : S) :
    S * list (MessageId * WireMessage.t) * list Envelope :=
  match envelopes with
  | [] => (state, [], [])
  | envelope :: rest =>
      let '(state, payload, close) := handle_envelope h envelope state in
      let out := match payload with Some p => [(env_msg_id envelope, p)] | None => [] end in
      if (close : bool) then (state, out, rest)
      else
        let '(state, replies, unread) := handle_connection h rest state in
        (state, out ++ replies, unread)
  end.
End server.

(** ** Properties of an endpoint *)

Section endpoint.
Context `{Postcard}.

(** A delivered reply names the call it answers, a waiting call has no outcome yet, and no call
    fails because its channel was closed. *)
Definition rpc_inv (self : RpcTcp) : Prop :=
  (∀ id env, results self !! id = Some (Ok env) -> env_reply_to env = Some id) /\
  (∀ id, id ∈ pending self -> results self !! id = None) /\
  (∀ id, results self !! id <> Some (Err RpcError.ChannelClosed)).

(** Nothing but the outcome of [id] is added. *)
Definition outcomes_kept (s1 s2 : RpcTcp) : Prop :=
  ∀ id r, results s1 !! id = Some r -> results s2 !! id = Some r.

Lemma set_outcome id r self s' :
  rpc_inv self -> results self !! id = None -> r <> Err RpcError.ChannelClosed ->
  (∀ env, r = Ok env -> env_reply_to env = Some id) ->
  pending s' = pending self ∖ {[id]} -> results s' = <[id := r]> (results self) ->
  rpc_inv s' /\ outcomes_kept self s'.
Proof.
  intros (H1 & H2 & H3) Hnone Hr Henv Hp Hres. split; [split_and!|].
  - intros i env. rewrite Hres, lookup_insert_Some. naive_solver.
  - intros i. rewrite Hp, Hres, elem_of_difference, elem_of_singleton. intros [Hi Hne].
    rewrite lookup_insert_ne by done. by apply H2.
  - intros i. rewrite Hres, lookup_insert_Some. naive_solver.
  - intros i r' Hi. rewrite Hres, lookup_insert_ne by congruence. done.
Qed.

Lemma same_outcomes self s' :
  rpc_inv self -> pending s' = pending self -> results s' = results self ->
  rpc_inv s' /\ outcomes_kept self s'.
Proof.
  intros (H1 & H2 & H3) Hp Hr. split; [split_and!|]; unfold outcomes_kept; rewrite ?Hr, ?Hp; done.
Qed.

Lemma to_inbox_fields msg self :
  pending (to_inbox msg self) = pending self /\ results (to_inbox msg self) = results self.
Proof. unfold to_inbox. by destruct (Nat.ltb _ _). Qed.

Lemma step_inv l s1 s2 : step l s1 s2 -> rpc_inv s1 -> rpc_inv s2 /\ outcomes_kept s1 s2.
Proof.
  intros Hstep Hinv. pose proof Hinv as (H1 & H2 & H3). destruct Hstep as
    [id payload self Hid Hnone _|id payload self _|id req payload self _|self _ _|msg self _|self _
    |msg self _ _|id self Hid|self _].
  - unfold call_start, send_env. cbn. destruct (writer_alive self).
    + split; [|by intros i r]. split_and!; [exact H1| |exact H3]. cbn.
      intros i [->%elem_of_singleton|Hi]%elem_of_union; auto.
    + eapply set_outcome; [exact Hinv|exact Hnone| | | |reflexivity]; [done..|].
      cbn. set_solver.
  - apply same_outcomes; unfold send, send_env; by destruct (writer_alive self).
  - apply same_outcomes; unfold reply, send_env; by destruct (writer_alive self).
  - apply same_outcomes; unfold writer_step; destruct (tx self); try done;
      by destruct (write_frame _ _) as [? []].
  - unfold on_message. destruct (env_reply_to msg) as [id|] eqn:Hre.
    + destruct (decide _) as [Hin|].
      * eapply (set_outcome id (Ok msg)); auto; naive_solver.
      * apply same_outcomes; [done|apply to_inbox_fields..].
    + apply same_outcomes; [done|apply to_inbox_fields..].
  - by apply same_outcomes.
  - apply same_outcomes; [done|apply to_inbox_fields..].
  - eapply (set_outcome id (Err RpcError.Timeout)); auto; naive_solver.
  - apply same_outcomes; unfold recv; by destruct (rx self).
Qed.

Lemma steps_inv ls s1 s2 : steps ls s1 s2 -> rpc_inv s1 -> rpc_inv s2 /\ outcomes_kept s1 s2.
Proof.
  induction 1 as [self|l ls s1 s2 s3 Hstep _ IH]; intros Hinv; [by split; [|intros id r]|].
  destruct (step_inv _ _ _ Hstep Hinv) as [Hinv2 Hk]. destruct (IH Hinv2) as [Hinv3 Hk'].
  split; [done|]. intros id r Hr. by apply Hk', Hk.
Qed.

Lemma new_inv b w : rpc_inv (RpcTcp_new b w).
Proof. split_and!; cbn; intros; set_solver. Qed.

(** A call that was made waits or has an outcome. *)
Lemma step_accounted l s1 s2 id : step l s1 s2 ->
  (id ∈ pending s1 \/ is_Some (results s1 !! id)) \/ (∃ p, l = LCall id p) ->
  id ∈ pending s2 \/ is_Some (results s2 !! id).
Proof.
  intros Hstep. assert (∀ i r (m : gmap MessageId (result Envelope RpcError.t)),
    is_Some (m !! id) -> is_Some (<[i := r]> m !! id)) as Hins
    by (intros; rewrite lookup_insert_is_Some; destruct (decide (i = id)); auto).
  destruct Hstep as
    [i payload self _ _ _|i payload self _|i req payload self _|self _ _|msg self _|self _
    |msg self _ _|i self _|self _]; intros [Hacc|[p Hl]]; try discriminate Hl.
  - unfold call_start, send_env. cbn. destruct (writer_alive self); cbn; [set_solver|].
    destruct (decide (i = id)) as [->|]; [right; rewrite lookup_insert_eq; eauto|].
    destruct Hacc; [left; set_solver|right; auto].
  - simplify_eq. unfold call_start, send_env. cbn. destruct (writer_alive self); cbn; [set_solver|].
    right; rewrite lookup_insert_eq; eauto.
  - unfold send, send_env; by destruct (writer_alive self).
  - unfold reply, send_env; by destruct (writer_alive self).
  - unfold writer_step; destruct (tx self); try done; by destruct (write_frame _ _) as [? []].
  - unfold on_message. destruct (env_reply_to msg) as [i|];
      [|by destruct (to_inbox_fields msg self) as [-> ->]].
    destruct (decide _); [|by destruct (to_inbox_fields msg self) as [-> ->]]. cbn.
    destruct (decide (i = id)) as [->|]; [right; rewrite lookup_insert_eq; eauto|].
    destruct Hacc; [left; set_solver|right; auto].
  - done.
  - by destruct (to_inbox_fields msg self) as [-> ->].
  - cbn. destruct (decide (i = id)) as [->|]; [right; rewrite lookup_insert_eq; eauto|].
    destruct Hacc; [left; set_solver|right; auto].
  - unfold recv; by destruct (rx self).
Qed.

Lemma steps_accounted ls s1 s2 id : steps ls s1 s2 ->
  (id ∈ pending s1 \/ is_Some (results s1 !! id)) \/ (∃ p, LCall id p ∈ ls) ->
  id ∈ pending s2 \/ is_Some (results s2 !! id).
Proof.
  induction 1 as [self|l ls s1 s2 s3 Hstep _ IH].
  - intros [Hacc|[p Hp]]; [done|set_solver].
  - intros Hacc. apply IH.
    destruct Hacc as [Hacc|[p [Hl|Hp]%elem_of_cons]]; [left|left|right; eauto];
      (eapply step_accounted; [exact Hstep|]); eauto.
Qed.

(** With its inbox full and nobody receiving, a blocked reader stays blocked and delivers nothing. *)
Definition stuck (msg : Envelope) (self : RpcTcp) : Prop :=
  reader self = Blocked msg /\ length (rx self) = buffer self.

Lemma step_stuck l msg s1 s2 : l <> LRecv -> step l s1 s2 -> stuck msg s1 ->
  stuck msg s2 /\ ∀ id env, results s2 !! id = Some (Ok env) -> results s1 !! id = Some (Ok env).
Proof.
  intros Hl Hstep [Hread Hfull]. destruct Hstep as
    [id payload self _ _ _|id payload self _|id req payload self _|self _ _|m self Hr|self Hr
    |m self Hr Hroom|id self Hid|self _]; try congruence; try lia.
  - unfold call_start, send_env. cbn. destruct (writer_alive self); cbn; (split; [by split|]); [done|].
    intros i env. rewrite lookup_insert_Some. naive_solver.
  - unfold send, send_env; by destruct (writer_alive self).
  - unfold reply, send_env; by destruct (writer_alive self).
  - unfold writer_step; destruct (tx self); try done; by destruct (write_frame _ _) as [? []].
  - cbn. split; [by split|]. intros i env. rewrite lookup_insert_Some. naive_solver.
Qed.

Lemma steps_stuck ls msg s1 s2 : LRecv ∉ ls -> steps ls s1 s2 -> stuck msg s1 ->
  stuck msg s2 /\ ∀ id env, results s2 !! id = Some (Ok env) -> results s1 !! id = Some (Ok env).
Proof.
  intros Hls Hsteps. induction Hsteps as [self|l ls s1 s2 s3 Hstep _ IH]; intros Hst; [done|].
  destruct (step_stuck l msg s1 s2) as [H2 Hk]; [set_solver|done..|].
  destruct IH as [H3 Hk']; [set_solver|done|]. split; [done|]. auto.
Qed.

(** Messages that answer no waiting call fill the inbox, then block the reader. *)
Lemma unmatched_fill msgs : ∀ self,
  reader self = Reading -> (length (rx self) <= buffer self)%nat ->
  length msgs = S (buffer self - length (rx self)) ->
  Forall (fun m => ∀ id, env_reply_to m = Some id -> id ∉ pending self) msgs ->
  ∃ msg s', steps (LRead <$> msgs) self s' /\ stuck msg s' /\
    pending s' = pending self /\ results s' = results self.
Proof.
  induction msgs as [|m msgs IH]; intros self Hread Hle Hlen Hun; [done|].
  apply Forall_cons in Hun as [Hm Hun].
  assert (on_message m self = to_inbox m self) as Hinbox.
  { unfold on_message. destruct (env_reply_to m) as [id|] eqn:E; [|done].
    by rewrite decide_False by (by apply Hm). }
  pose proof (step_read m self Hread) as Hstep. rewrite Hinbox in Hstep.
  unfold to_inbox in Hstep. destruct (Nat.ltb_spec (length (rx self)) (buffer self)) as [Hlt|Hge].
  - match type of Hstep with step _ _ ?s => set (s1 := s) in * end.
    destruct (IH s1) as (msg & s' & Hsteps & Hst & Hp & Hr); cbn.
    + done.
    + rewrite length_app. cbn. lia.
    + rewrite length_app. cbn in *. lia.
    + done.
    + exists msg, s'. split; [by econstructor|]. done.
  - cbn in Hlen. assert (msgs = []) as -> by (apply nil_length_inv; lia).
    eexists m, _. split; [econstructor; [exact Hstep|constructor]|].
    split; [|done]. split; [done|]. cbn. lia.
Qed.
End endpoint.

(** C21: along every interleaving of an endpoint's calls, its two tasks, its timeouts and its
    receiver, each call made so far either waits or has one outcome; an outcome never changes, and a
    delivered reply is one whose [reply_to] is the id of that call. No call ends in [ChannelClosed],
    even when the connection is gone: what remains is the timeout. *)
Theorem rpc_calls_accounted `{Postcard} b w ls1 ls2 s1 s2 :
  steps ls1 (RpcTcp_new b w) s1 -> steps ls2 s1 s2 ->
  (∀ id payload, LCall id payload ∈ ls1 ->
     (id ∈ pending s1 /\ results s1 !! id = None) \/ (id ∉ pending s1 /\ is_Some (results s1 !! id))) /\
  (∀ id r, results s1 !! id = Some r -> results s2 !! id = Some r) /\
  (∀ id env, results s2 !! id = Some (Ok env) -> env_reply_to env = Some id) /\
  (∀ id, results s2 !! id <> Some (Err RpcError.ChannelClosed)).
Proof.
  intros Hs1 Hs2. destruct (steps_inv _ _ _ Hs1 (new_inv b w)) as [I1 _].
  destruct (steps_inv _ _ _ Hs2 I1) as [I2 Hkept]. destruct I1 as (_ & Hp1 & _).
  destruct I2 as (Hre & _ & Hcl). split_and!; [|done..]. intros id payload Hcall.
  destruct (steps_accounted _ _ _ id Hs1) as [Hp|[r Hr]]; [eauto|auto|].
  right. split; [|eauto]. intros Hp%Hp1. congruence.
Qed.

(** C39: an endpoint whose owner never receives, like the dispatcher's client, survives only as many
    unmatched messages (replies that came after their timeout) as its inbox holds: one more blocks
    the reader, and from then on no call is ever answered, whatever the peer sends. *)
Theorem unread_inbox_blocks_replies `{Postcard} (self : RpcTcp) msgs :
  reader self = Reading -> (length (rx self) <= buffer self)%nat ->
  length msgs = S (buffer self - length (rx self)) ->
  Forall (fun m => ∀ id, env_reply_to m = Some id -> id ∉ pending self) msgs ->
  ∃ s', steps (LRead <$> msgs) self s' /\
    ∀ ls s'', LRecv ∉ ls -> steps ls s' s'' ->
      ∀ id env, results s'' !! id = Some (Ok env) -> results self !! id = Some (Ok env).
Proof.
  intros Hread Hle Hlen Hun.
  destruct (unmatched_fill msgs self Hread Hle Hlen Hun) as (msg & s' & Hsteps & Hst & _ & Hres).
  exists s'. split; [done|]. intros ls s'' Hls Hs id env Hid. rewrite <- Hres.
  by apply (steps_stuck ls msg s' s'').
Qed.

(** ** Properties of the server *)

(** The reply that belongs to a request. *)
Definition answers (p r : WireMessage.t) : Prop :=
  match p, r with
  | WireMessage.Ping, WireMessage.Pong
  | WireMessage.HelloRequest _, WireMessage.HelloResponse _
  | WireMessage.BatchUploadRequest _, WireMessage.BatchUploadResponse _
  | WireMessage.AlertRequest _, WireMessage.AlertResponse _
  | WireMessage.DispatcherStatusRequest _, WireMessage.DispatcherStatusResponse _
  | WireMessage.DeviceDisconnectionRequest _, WireMessage.DeviceDisconnectionResponse _ => True
  | _, _ => False
  end.

Definition is_some {A} (o : option A) : bool := match o with Some _ => true | None => false end.

(** The message is a request the server has a handler for; a ping needs none. *)
Definition handled {S} (h : ServerHandlers S) (env : Envelope) : bool :=
  match env_payload env with
  | WireMessage.Ping => true
  | WireMessage.HelloRequest _ => is_some (h_hello h)
  | WireMessage.BatchUploadRequest _ => is_some (h_batch_upload h)
  | WireMessage.AlertRequest _ => is_some (h_alert h)
  | WireMessage.DispatcherStatusRequest _ => is_some (h_dispatcher_status h)
  | WireMessage.DeviceDisconnectionRequest _ => is_some (h_device_disconnection h)
  | _ => false
  end.

Definition is_rejection (p : WireMessage.t) : bool :=
  match p with WireMessage.HelloResponse (HelloResponse.Rejected _) => true | _ => false end.

Lemma handle_envelope_spec {S} (h : ServerHandlers S) env state state' out close :
  handle_envelope h env state = (state', out, close) ->
  match out with
  | Some p => handled h env = true /\ answers (env_payload env) p /\ close = is_rejection p
  | None => handled h env = false /\ close = false
  end.
Proof.
  unfold handle_envelope, handled, answer. destruct (env_payload env); try by intros [= _ <- <-].
  - destruct (h_hello h) as [f|]; [|by intros [= _ <- <-]].
    destruct (f _ _ _) as [s resp]. intros [= _ <- <-]. by destruct resp.
  - destruct (h_batch_upload h) as [f|]; [|by intros [= _ <- <-]].
    destruct (f _ _ _) as [s resp]. by intros [= _ <- <-].
  - destruct (h_alert h) as [f|]; [|by intros [= _ <- <-]].
    destruct (f _ _ _) as [s resp]. by intros [= _ <- <-].
  - destruct (h_dispatcher_status h) as [f|]; [|by intros [= _ <- <-]].
    destruct (f _ _ _) as [s resp]. by intros [= _ <- <-].
  - destruct (h_device_disconnection h) as [f|]; [|by intros [= _ <- <-]].
    destruct (f _ _ _) as [s resp]. by intros [= _ <- <-].
Qed.


Module RpcWitness.
#[local] Existing Instance RpcFrameWitness.tiny.

Definition stray (n : Z) : Envelope := mkEnvelope (mkMessageId n) (Some (mkMessageId 0)) WireMessage.Pong.
Definition call0 : list Label := [LCall (mkMessageId 7) WireMessage.Ping; LWrite].
Definition answered : list Label :=
  [LRead (mkEnvelope (mkMessageId 8) (Some (mkMessageId 7)) WireMessage.Pong)].

Lemma rpc_calls_accounted_witness :
  ∃ s1 s2, steps call0 (RpcTcp_new 1 (mkWriter [] None)) s1 /\ steps answered s1 s2 /\
    (mkMessageId 7 ∈ pending s1) /\
    ∀ env, results s2 !! mkMessageId 7 = Some (Ok env) -> env_reply_to env = Some (mkMessageId 7).
Proof.
  pose (s0 := RpcTcp_new 1 (mkWriter [] None)).
  pose (sa := call_start (mkMessageId 7) WireMessage.Ping s0). pose (s1 := writer_step sa).
  pose (s2 := on_message (mkEnvelope (mkMessageId 8) (Some (mkMessageId 7)) WireMessage.Pong) s1).
  assert (steps call0 s0 s1) as Hs1.
  { econstructor; [apply (step_call (mkMessageId 7) WireMessage.Ping s0); [set_solver|reflexivity|left; cbn; lia]|].
    econstructor; [apply step_write; [reflexivity|discriminate]|]. constructor. }
  assert (steps answered s1 s2) as Hs2.
  { econstructor; [apply step_read; reflexivity|]. constructor. }
  destruct (rpc_calls_accounted 1 (mkWriter [] None) call0 answered s1 s2 Hs1 Hs2)
    as (Hacc & _ & Hre & _).
  exists s1, s2. split; [exact Hs1|]. split; [exact Hs2|]. split; [|apply Hre].
  destruct (Hacc (mkMessageId 7) WireMessage.Ping) as [[Hp _]|[_ Hr]];
    [apply list_elem_of_here|exact Hp|].
  assert (results s1 !! mkMessageId 7 = None) as Hn by reflexivity.
  rewrite Hn in Hr. destruct Hr as [? Hr]. discriminate Hr.
Defined.

Lemma unread_inbox_blocks_replies_witness :
  ∃ s', steps (LRead <$> [stray 1; stray 2]) (RpcTcp_new 1 (mkWriter [] None)) s' /\
    ∀ ls s'', LRecv ∉ ls -> steps ls s' s'' ->
      ∀ id env, results s'' !! id = Some (Ok env) ->
        results (RpcTcp_new 1 (mkWriter [] None)) !! id = Some (Ok env).
Proof.
  apply (unread_inbox_blocks_replies (RpcTcp_new 1 (mkWriter [] None)) [stray 1; stray 2]);
    [reflexivity|cbn; lia|reflexivity|]. repeat constructor; cbn; set_solver.
Defined.

(** A rejected hello: the ping behind it is not answered. *)
Definition reject : HandlerFn HelloRequest HelloResponse.t unit :=
  fun _ _ s => (s, HelloResponse.Rejected HelloRejectionReason.UnknownDispatcher).

End RpcWitness.
