(* ===== verification/RpcServe.v ===== *)
(** * The accept loop of a server: [Server::serve] in ersha-rpc/src/server.rs

    The loop, the connections it spawned and the state their handlers share, as the steps of
    [serve_step] in any order.  A handler runs to its end in one step here; ersha-prime's hold the
    lock of a registry for one operation at a time, and PrimeHandlers.v says what they do. *)
From Stdlib Require Import ZArith Lia Strings.String.
From stdpp Require Import base gmap strings list.
From S2P Require Import Prelude Platform Core RpcFrame Rpc.
Open Scope Z_scope.

(** Where the task of an accepted connection is: in the TLS handshake, in [handle_connection], or
    returned. *)
Inductive ConnTask := Handshaking | Serving | Returned.
#[export] Instance ConnTask_eq_dec : EqDecision ConnTask. Proof. solve_decision. Defined.

Inductive ServeEvent :=
  | Accepted (ok : bool)                    (* [listener.accept()] returns a stream or an error *)
  | Handshook (i : nat) (ok : bool)         (* [acceptor.accept(stream)] of connection [i] returns *)
  | Received (i : nat) (env : Envelope)     (* [rpc.recv()] of connection [i] returns an envelope *)
  | PeerClosed (i : nat)                    (* [rpc.recv()] of connection [i] returns [None] *)
  | CancelRequested
  | LoopCancelled.                          (* the loop takes its cancellation branch *)

Section serve.
Context {S : Type} (h : ServerHandlers S).

(** [ersha-rpc/src/server.rs:265-302] serve: the loop's state, the shared state, the connections in the
    order they were accepted, and what was sent on which connection *)
Record Serve := mkServe {
  sv_listening : bool;
  sv_cancelled : bool;
  sv_state : S;
  sv_tasks : list ConnTask;
  sv_sent : list (nat * (MessageId * WireMessage.t))
}.

(** [ersha-rpc/src/server.rs:265-269] serve: before the loop *)
Definition serve_start (state : S) : Serve := mkServe true false state [] [].

(** [ersha-rpc/src/server.rs:284-293] serve: the task of a connection after its handshake *)
Definition on_handshake (i : nat) (ok : bool) (s : Serve) : Serve :=
  match sv_tasks s !! i with
  | Some Handshaking =>
      mkServe (sv_listening s) (sv_cancelled s) (sv_state s)
        (<[i := if ok then Serving else Returned]> (sv_tasks s)) (sv_sent s)
  | _ => s
  end.

(** [ersha-rpc/src/server.rs:135-262] handle_connection: one turn of the loop of connection [i] *)
Definition on_received (i : nat) (env : Envelope) (s : Serve) : Serve :=
  match sv_tasks s !! i with
  | Some Serving =>
      let '(state, payload, close) := handle_envelope h env (sv_state s) in
      let out := match payload with Some p => [(i, (env_msg_id env, p))] | None => [] end in
      mkServe (sv_listening s) (sv_cancelled s) state
        (if close : bool then <[i := Returned]> (sv_tasks s) else sv_tasks s) (sv_sent s ++ out)
  | _ => s
  end.

(** [ersha-rpc/src/server.rs:269-301] serve: the branches of the loop, and the steps of the connections
    it spawned, which go on after it has ended *)
Definition serve_step (s : Serve) (e : ServeEvent) : Serve :=
  match e with
  | Accepted ok =>
      if sv_listening s then
        mkServe true (sv_cancelled s) (sv_state s)
          (if ok : bool then sv_tasks s ++ [Handshaking] else sv_tasks s) (sv_sent s)
      else s
  | Handshook i ok => on_handshake i ok s
  | Received i env => on_received i env s
  | PeerClosed i =>
      match sv_tasks s !! i with
      | Some Serving =>
          mkServe (sv_listening s) (sv_cancelled s) (sv_state s) (<[i := Returned]> (sv_tasks s)) (sv_sent s)
      | _ => s
      end
  | CancelRequested => mkServe (sv_listening s) true (sv_state s) (sv_tasks s) (sv_sent s)
  | LoopCancelled =>
      mkServe (if sv_cancelled s then false else sv_listening s) (sv_cancelled s) (sv_state s) (sv_tasks s) (sv_sent s)
  end.

Definition serve (es : list ServeEvent) (state : S) : Serve := foldl serve_step (serve_start state) es.
End serve.
Arguments Serve : clear implicits.
Arguments mkServe {S}.
Arguments sv_listening {S}.
Arguments sv_cancelled {S}.
Arguments sv_state {S}.
Arguments sv_tasks {S}.
Arguments sv_sent {S}.

(** ** The sequential server *)

(** The requests of all connections handled one after another: the state and the replies. *)
Fixpoint replay {S} (h : ServerHandlers S) (reqs : list (nat * Envelope)) (state : S) :
    S * list (nat * (MessageId * WireMessage.t)) :=
  match reqs with
  | [] => (state, [])
  | (i, env) :: reqs =>
      let '(state, payload, _) := handle_envelope h env state in
      let out := match payload with Some p => [(i, (env_msg_id env, p))] | None => [] end in
      let (state, replies) := replay h reqs state in (state, out ++ replies)
  end.

(** What concerns connection [i]. *)
Definition on {A} (i : nat) (l : list (nat * A)) : list A := snd <$> filter (fun x => fst x = i) l.

Definition received_of (e : ServeEvent) : option (nat * Envelope) :=
  match e with Received i env => Some (i, env) | _ => None end.

Section properties.
Context {S : Type} (h : ServerHandlers S).

Lemma on_app {A} i (l l' : list (nat * A)) : on i (l ++ l') = on i l ++ on i l'.
Proof. unfold on. by rewrite filter_app, fmap_app. Qed.

Lemma on_one {A} i j (x : A) : on i [(j, x)] = if decide (j = i) then [x] else [].
Proof. unfold on. rewrite filter_cons, filter_nil. cbn. by case_decide. Qed.

Lemma replay_snoc reqs i env state :
  replay h (reqs ++ [(i, env)]) state =
  let (st, replies) := replay h reqs state in
  let '(st, payload, _) := handle_envelope h env st in
  (st, replies ++ match payload with Some p => [(i, (env_msg_id env, p))] | None => [] end).
Proof.
  revert state. induction reqs as [|[j e] reqs IH]; intros state; cbn [replay app].
  - destruct (handle_envelope h env state) as [[st p] c]. cbn. by rewrite app_nil_r.
  - destruct (handle_envelope h e state) as [[st p] c]. rewrite IH.
    destruct (replay h reqs st) as [st' replies].
    destruct (handle_envelope h env st') as [[st'' p'] c']. by rewrite (assoc_L (++)).
Qed.

(** On each connection the replies answer the handled requests, in order and under their ids. *)
Lemma replay_answers reqs state i :
  Forall2 (fun env reply => fst reply = env_msg_id env /\ answers (env_payload env) (snd reply))
    (filter (fun env => handled h env = true) (on i reqs)) (on i (snd (replay h reqs state))).
Proof.
  revert state. induction reqs as [|[j env] reqs IH]; intros state; [constructor|].
  cbn [replay]. destruct (handle_envelope h env state) as [[st p] c] eqn:E.
  apply handle_envelope_spec in E. specialize (IH st). destruct (replay h reqs st) as [st' replies].
  cbn [snd] in *. rewrite on_app. change ((j, env) :: reqs) with ([(j, env)] ++ reqs).
  rewrite on_app, filter_app. apply Forall2_app; [|exact IH]. rewrite on_one.
  destruct p as [p|].
  - destruct E as (Hh & Ha & _). rewrite on_one. case_decide; [|by rewrite filter_nil].
    rewrite filter_cons, decide_True by done. by repeat constructor.
  - destruct E as [Hh _]. case_decide; [|by rewrite filter_nil]. rewrite filter_cons, decide_False by congruence.
    constructor.
Qed.

(** A rejection is the last thing sent on its connection, whose task has returned. *)
Definition rejections_last (s : Serve S) : Prop := forall i k reply,
  on i (sv_sent s) !! k = Some reply -> is_rejection (snd reply) = true ->
  (1 + k)%nat = length (on i (sv_sent s)) /\ sv_tasks s !! i = Some Returned.

Definition serve_inv (init : S) (log : list (nat * Envelope)) (s : Serve S) : Prop :=
  (exists processed, processed `sublist_of` log /\ replay h processed init = (sv_state s, sv_sent s)) /\
  rejections_last s.

(** A step that handles no envelope keeps the invariant when it keeps the returned tasks. *)
Lemma serve_inv_quiet init log s s' :
  sv_state s' = sv_state s -> sv_sent s' = sv_sent s ->
  (forall i, sv_tasks s !! i = Some Returned -> sv_tasks s' !! i = Some Returned) ->
  serve_inv init log s -> serve_inv init log s'.
Proof.
  intros Hst Hsent Ht [Hp Hr]. split; [by rewrite Hst, Hsent|].
  intros i k reply. rewrite Hsent. intros Hk Hrej. destruct (Hr i k reply Hk Hrej). auto.
Qed.

Lemma serve_inv_more init log env s : serve_inv init log s -> serve_inv init (log ++ [env]) s.
Proof.
  intros [(p & Hs & Hp) Hr]. split; [|done]. exists p. split; [|done]. by apply sublist_inserts_r.
Qed.

Lemma still_returned i x y (tasks : list ConnTask) j :
  tasks !! i = Some x -> x <> Returned -> tasks !! j = Some Returned -> <[i := y]> tasks !! j = Some Returned.
Proof.
  intros Hi Hx Hj. destruct (decide (i = j)) as [->|Hne]; [congruence|]. by rewrite list_lookup_insert_ne.
Qed.

Lemma on_received_inv init log i env s : serve_inv init log s ->
  serve_inv init (log ++ [(i, env)]) (on_received h i env s).
Proof.
  intros Hinv. unfold on_received.
  destruct (sv_tasks s !! i) as [[]|] eqn:Ht; try by apply serve_inv_more.
  destruct (handle_envelope h env (sv_state s)) as [[st p] close] eqn:E.
  destruct Hinv as [(processed & Hsub & Hrep) Hrej]. split.
  - exists (processed ++ [(i, env)]). split; [by apply sublist_app|]. by rewrite replay_snoc, Hrep, E.
  - apply handle_envelope_spec in E. intros j k reply. cbn [sv_sent sv_tasks]. rewrite on_app.
    intros [Hk|[Hge Hk]]%lookup_app_Some Hreply.
    + destruct (Hrej j k reply Hk Hreply) as [Hlast Hret].
      assert (j <> i) as Hne by congruence. rewrite length_app.
      replace (on j match p with Some p => _ | None => _ end) with (@nil (MessageId * WireMessage.t)).
      2:{ destruct p; [|done]. by rewrite on_one, decide_False by congruence. }
      cbn [length]. split; [lia|]. destruct close; [|done]. by eapply still_returned.
    + destruct p as [p|]; [|done]. rewrite on_one in Hk |- *. case_decide as Hij; [|done]. subst j.
      apply list_lookup_singleton_Some in Hk as [Hk <-]. destruct E as (_ & _ & ->). cbn in Hreply.
      rewrite Hreply, length_app. cbn [length]. split; [lia|].
      apply list_lookup_insert_eq. by eapply lookup_lt_Some.
Qed.

Lemma serve_step_inv init log s e : serve_inv init log s ->
  serve_inv init (log ++ option_list (received_of e)) (serve_step h s e).
Proof.
  intros Hinv. destruct e as [ok|i ok|i env|i| |]; cbn [received_of option_list serve_step];
    rewrite ?app_nil_r; [| |by apply on_received_inv| | |].
  - destruct (sv_listening s); [|done]. eapply serve_inv_quiet; [..|exact Hinv]; [done..|].
    intros j Hj. cbn. destruct ok; [by apply lookup_app_l_Some|done].
  - unfold on_handshake. destruct (sv_tasks s !! i) as [[]|] eqn:Hi; try done.
    eapply serve_inv_quiet; [..|exact Hinv]; [done..|]. intros j Hj. by eapply still_returned.
  - destruct (sv_tasks s !! i) as [[]|] eqn:Hi; try done.
    eapply serve_inv_quiet; [..|exact Hinv]; [done..|]. intros j Hj. by eapply still_returned.
  - by eapply serve_inv_quiet.
  - by eapply serve_inv_quiet.
Qed.

Lemma serve_run_inv init es : serve_inv init (omap received_of es) (serve h es init).
Proof.
  induction es as [|e es IH] using rev_ind.
  - split; [by exists []|]. by intros i k reply.
  - unfold serve. rewrite foldl_app, omap_app. cbn [foldl].
    replace (omap received_of [e]) with (option_list (received_of e)) by (cbn; by destruct (received_of e)).
    by apply serve_step_inv.
Qed.
End properties.

Lemma serve_closed_tasks {S} (h : ServerHandlers S) es s : sv_listening s = false ->
  length (sv_tasks (foldl (serve_step h) s es)) = length (sv_tasks s).
Proof.
  revert s. induction es as [|e es IH]; intros s Hs; [done|]. cbn [foldl].
  assert (sv_listening (serve_step h s e) = false /\ length (sv_tasks (serve_step h s e)) = length (sv_tasks s))
    as [Hl <-]; [|by apply IH].
  destruct e as [ok|i ok|i env|i| |]; cbn [serve_step].
  - by rewrite Hs.
  - unfold on_handshake. repeat case_match; cbn; by rewrite ?length_insert.
  - unfold on_received. repeat case_match; cbn; by rewrite ?length_insert.
  - repeat case_match; cbn; by rewrite ?length_insert.
  - done.
  - cbn. by destruct (sv_cancelled s).
Qed.


(** ** Witnesses *)

Module RpcServeWitness.
Definition ping (n : Z) : Envelope := mkEnvelope (mkMessageId n) None WireMessage.Ping.
Definition hello (n : Z) : Envelope :=
  mkEnvelope (mkMessageId n) None (WireMessage.HelloRequest (mkHelloRequest (mkDispatcherId 1) (mkH3Cell 0))).

(** Two connections; the first is rejected, the second is served across the shutdown. *)
Definition events : list ServeEvent :=
  [Accepted true; Accepted false; Accepted true; Handshook 1 true; Handshook 0 true; Received 1 (ping 1);
   Received 0 (hello 1); Received 0 (ping 2); CancelRequested; LoopCancelled; Accepted true; Received 1 (ping 2)].

End RpcServeWitness.
