(* ===== verification/RpcLink.v ===== *)
(** * The dispatcher's connection over the wire

    [prime_handlers] is the table of handlers ersha-prime registers on its RPC server.  [wire_link] is
    the [PrimeLink] the uploader really has: a request becomes an envelope, the client's writer task
    frames it, the server reads the frame, runs the handler and frames the reply, and the client
    matches the reply.  Where a frame cannot be written or read, the call ends in the timeout, and a
    writer task that failed does not come back.  The stream itself is reliable here. *)
From Stdlib Require Import ZArith Lia Strings.String.
From stdpp Require Import base gmap strings list.
From S2P Require Import Prelude Platform Core Samples Filter Registry InMemory PrimeHandlers.
From S2P Require Import DispatchStorage DispatchMain EndToEnd RpcFrame Rpc.
Open Scope Z_scope.

(** The two ends: the state of ersha-prime, the client's writer task, the message ids used. *)
Record Wire (P : Type) := mkWire { wire_prime : P; wire_alive : bool; wire_next : nat }.
Arguments mkWire {P}.
Arguments wire_prime {P}.
Arguments wire_alive {P}.
Arguments wire_next {P}.

Section wire.
Context {DR VR RR SR DE VE RdE StE : Type} `{!DispatcherRegistry DR DE} `{!DeviceRegistry VR VE}
  `{!ReadingRegistry RR RdE} `{!DeviceStatusRegistry SR StE} {codec : Postcard} `{!UlidGen}.
Local Abbreviation State := (AppState DR VR RR SR).

(** [ersha-prime/src/main.rs:186-354] rpc_server: the handlers registered *)
Definition prime_handlers : ServerHandlers State :=
  with_device_disconnection (fun r _ s => on_device_disconnection r s)
    (with_dispatcher_status (fun r _ s => on_dispatcher_status r s)
       (with_alert (fun r _ s => on_alert r s)
          (with_batch_upload (fun r _ s => on_batch_upload r s)
             (with_hello (fun r _ s => on_hello r s) no_handlers)))).

Definition fresh_writer : Writer := mkWriter [] None.

(** [ersha-rpc/src/rpc.rs:108-137] call, with the server at the other end of the stream *)
Definition wire_call (payload : WireMessage.t) (net : Wire State) : Wire State * result Envelope RpcError.t :=
  let n := wire_next net in
  let request := mkEnvelope (MessageId_new n) None payload in
  if wire_alive net then
    match write_frame request fresh_writer with
    | (_, Err _) => (mkWire (wire_prime net) false (1 + n), Err RpcError.Timeout)
    | (w, Ok _) =>
        match read_frame (written w) with
        | (_, Err _) => (mkWire (wire_prime net) true (1 + n), Err RpcError.Timeout)
        | (_, Ok envelope) =>
            let '(prime, out, _) := handle_envelope prime_handlers envelope (wire_prime net) in
            let lost := (mkWire prime true (2 + n), Err RpcError.Timeout) in
            match out with
            | None => lost
            | Some p =>
                let rep := mkEnvelope (MessageId_new (1 + n)) (Some (env_msg_id envelope)) p in
                match write_frame rep fresh_writer with
                | (_, Err _) => lost
                | (w, Ok _) =>
                    match read_frame (written w) with
                    | (_, Ok response) => (mkWire prime true (2 + n), Ok response)
                    | (_, Err _) => lost
                    end
                end
            end
        end
    end
  else (mkWire (wire_prime net) false (1 + n), Err RpcError.SendError).

(** [ersha-dispatch/src/main.rs:516-525] connect_and_register: a new stream and a new client *)
Definition wire_connect (net : Wire State) : Wire State * result unit Rpc.ClientError.t :=
  (mkWire (wire_prime net) true (wire_next net), Ok tt).

Definition wire_op {R} (payload : WireMessage.t)
    (f : result Envelope RpcError.t -> result R Rpc.ClientError.t) (net : Wire State) :
    Wire State * result R Rpc.ClientError.t :=
  let (net, r) := wire_call payload net in (net, f r).

(** [ersha-rpc/src/client.rs:29-138] Client, as the uploader calls it *)
#[export] Instance wire_link : PrimeLink (Wire State) Rpc.ClientError.t := {|
  link_connect := wire_connect;
  link_hello r := wire_op (WireMessage.HelloRequest r) Rpc.ClientOps.hello;
  link_dispatcher_status r :=
    wire_op (WireMessage.DispatcherStatusRequest r) Rpc.ClientOps.dispatcher_status;
  link_device_disconnection r :=
    wire_op (WireMessage.DeviceDisconnectionRequest r) Rpc.ClientOps.device_disconnection;
  link_alert r := wire_op (WireMessage.AlertRequest r) Rpc.ClientOps.alert;
  link_batch_upload r := wire_op (WireMessage.BatchUploadRequest r) Rpc.ClientOps.batch_upload
|}.

(** ** The wire carries a small enough request to its handler and the reply back *)

Lemma write_fresh msg b :
  to_stdvec msg = Some b -> Z.of_nat (length b) <= MAX_FRAME_BYTES ->
  ∃ w, write_frame msg fresh_writer = (w, Ok tt) /\
    written w = to_be_bytes (as_u32 (Z.of_nat (length b))) ++ b ++ [].
Proof.
  intros Hb Hlen. unfold write_frame. rewrite Hb.
  unfold as_u32. rewrite wrap_small by (unfold is_unsigned, MAX_FRAME_BYTES in *; lia).
  rewrite (proj2 (Z.ltb_ge _ _)) by done. unfold write_all, fresh_writer. cbn [room written app].
  eexists. split; [done|]. cbn [written]. by rewrite app_nil_r.
Qed.

(** The message fits a frame. *)
Definition fits (msg : Envelope) : Prop :=
  ∃ b, to_stdvec msg = Some b /\ Z.of_nat (length b) <= MAX_FRAME_BYTES.

Lemma wire_call_fits `{!PostcardLaws} payload (net : Wire State) prime p close :
  wire_alive net = true ->
  handle_envelope prime_handlers (mkEnvelope (MessageId_new (wire_next net)) None payload)
    (wire_prime net) = (prime, Some p, close) ->
  fits (mkEnvelope (MessageId_new (wire_next net)) None payload) ->
  fits (mkEnvelope (MessageId_new (1 + wire_next net)) (Some (MessageId_new (wire_next net))) p) ->
  wire_call payload net =
    (mkWire prime true (2 + wire_next net),
     Ok (mkEnvelope (MessageId_new (1 + wire_next net)) (Some (MessageId_new (wire_next net))) p)).
Proof.
  intros Ha Hh (b & Hb & Hlen) (b' & Hb' & Hlen'). unfold wire_call. rewrite Ha.
  destruct (write_fresh _ _ Hb Hlen) as (w & -> & ->). rewrite (read_written _ _ [] Hb Hlen).
  rewrite Hh. cbn [env_msg_id]. destruct (write_fresh _ _ Hb' Hlen') as (w' & -> & ->).
  by rewrite (read_written _ _ [] Hb' Hlen').
Qed.

(** A request too large for a frame never reaches the server and ends the writer task. *)
Lemma wire_call_too_large payload (net : Wire State) :
  (∀ b, to_stdvec (mkEnvelope (MessageId_new (wire_next net)) None payload) = Some b ->
     MAX_FRAME_BYTES < Z.of_nat (length b) < 2 ^ 32) ->
  ∃ e, snd (wire_call payload net) = Err e /\ wire_prime (fst (wire_call payload net)) = wire_prime net.
Proof.
  intros Hlarge. unfold wire_call. destruct (wire_alive net); [|eauto].
  unfold write_frame. destruct (to_stdvec _) as [b|]; [|eauto].
  specialize (Hlarge b eq_refl). unfold as_u32.
  rewrite wrap_small by (unfold is_unsigned, MAX_FRAME_BYTES in *; lia).
  rewrite (proj2 (Z.ltb_lt _ _)) by lia. eauto.
Qed.

(** The connection is up, and the request and its reply fit a frame. *)
Definition exchangeable (net : Wire State) (payload p : WireMessage.t) : Prop :=
  wire_alive net = true /\
  fits (mkEnvelope (MessageId_new (wire_next net)) None payload) /\
  fits (mkEnvelope (MessageId_new (1 + wire_next net)) (Some (MessageId_new (wire_next net))) p).
End wire.

Section properties.
Context {DR VR RR SR DE VE RdE StE : Type} `{!DispatcherRegistry DR DE} `{!DeviceRegistry VR VE}
  `{!ReadingRegistry RR RdE} `{!DeviceStatusRegistry SR StE} {codec : Postcard} `{!UlidGen}.
Local Abbreviation State := (AppState DR VR RR SR).

(** When a request and its reply fit a frame, the client's call over the wire is the handler of
    ersha-prime: it returns exactly the handler's response and leaves ersha-prime in the state the
    handler left it, for each of the five requests. *)
Lemma wire_refines_handlers `{!PostcardLaws} (net : Wire State) :
  (∀ r, exchangeable net (WireMessage.HelloRequest r)
          (WireMessage.HelloResponse (snd (on_hello r (wire_prime net)))) ->
     link_hello r net = (mkWire (fst (on_hello r (wire_prime net))) true (2 + wire_next net),
                         Ok (snd (on_hello r (wire_prime net))))) /\
  (∀ r, exchangeable net (WireMessage.BatchUploadRequest r)
          (WireMessage.BatchUploadResponse (snd (on_batch_upload r (wire_prime net)))) ->
     link_batch_upload r net = (mkWire (fst (on_batch_upload r (wire_prime net))) true (2 + wire_next net),
                                Ok (snd (on_batch_upload r (wire_prime net))))) /\
  (∀ r, exchangeable net (WireMessage.AlertRequest r)
          (WireMessage.AlertResponse (snd (on_alert r (wire_prime net)))) ->
     link_alert r net = (mkWire (wire_prime net) true (2 + wire_next net),
                         Ok (mkAlertResponse (alert_id r) true))) /\
  (∀ r, exchangeable net (WireMessage.DispatcherStatusRequest r)
          (WireMessage.DispatcherStatusResponse (snd (on_dispatcher_status r (wire_prime net)))) ->
     link_dispatcher_status r net = (mkWire (wire_prime net) true (2 + wire_next net),
                                     Ok (mkDispatcherStatusResponse (dsr_dispatcher_id r)))) /\
  (∀ r, exchangeable net (WireMessage.DeviceDisconnectionRequest r)
          (WireMessage.DeviceDisconnectionResponse (snd (on_device_disconnection r (wire_prime net)))) ->
     link_device_disconnection r net = (mkWire (wire_prime net) true (2 + wire_next net),
                                        Ok (mkDeviceDisconnectionResponse (ddr_device_id r)))).
Proof.
  split_and!; intros r (Ha & Hreq & Hrep);
    cbn [link_hello link_batch_upload link_alert link_dispatcher_status link_device_disconnection wire_link];
    unfold wire_op.
  - destruct (on_hello r (wire_prime net)) as [prime resp] eqn:E.
    erewrite (wire_call_fits _ net prime (WireMessage.HelloResponse resp)); [done|done| |done|done].
    cbn -[on_hello on_batch_upload]. by rewrite E.
  - destruct (on_batch_upload r (wire_prime net)) as [prime resp] eqn:E.
    erewrite (wire_call_fits _ net prime (WireMessage.BatchUploadResponse resp)); [done|done| |done|done].
    cbn -[on_hello on_batch_upload]. by rewrite E.
  - rewrite (wire_call_fits _ net (wire_prime net)
      (WireMessage.AlertResponse (mkAlertResponse (alert_id r) true)) false); done.
  - rewrite (wire_call_fits _ net (wire_prime net)
      (WireMessage.DispatcherStatusResponse (mkDispatcherStatusResponse (dsr_dispatcher_id r))) false); done.
  - rewrite (wire_call_fits _ net (wire_prime net)
      (WireMessage.DeviceDisconnectionResponse (mkDeviceDisconnectionResponse (ddr_device_id r))) false); done.
Qed.

Context {S RE SE Fr Fs : Type} `{!EventStorage ReadingId SensorReading S RE}
  `{!EventStorage StatusId DeviceStatus S SE} {rstorable sstorable rinv sinv rview sview}
  {rframe : S -> Fr} {sframe : S -> Fs}
  `{!DispatcherStorageLaws rstorable sstorable rinv sinv rview sview rframe sframe}
  `{!Clock} (dispatcher_id : DispatcherId) (location : H3Cell).

End properties.

(** ** Witnesses *)

Module RpcLinkWitness.
#[local] Existing Instance hash_iter_std.
#[local] Existing Instance lowercase_ascii.
#[local] Existing Instance DispatchMainWitness.gen.
#[local] Existing Instance DispatchMainWitness.clock.

(** A codec of the messages of a table: their index in one byte. *)
Definition table_codec (tbl : list Envelope) : Postcard := {|
  to_stdvec e := (fun p => [Z.of_nat (fst p)]) <$> list_find (fun x => e = x) tbl;
  from_bytes b := match b with [i] => tbl !! Z.to_nat i | _ => None end
|}.
Lemma table_codec_laws tbl : @PostcardLaws (table_codec tbl).
Proof.
  intros e b. cbn. destruct (list_find _ tbl) as [[i x]|] eqn:E; cbn; [|done]. intros [= <-].
  apply list_find_Some in E as (Hi & -> & _). by rewrite Nat2Z.id.
Qed.

Definition alert0 : AlertRequest :=
  mkAlertRequest (mkAlertId 3) (mkDispatcherId 1) None AlertSeverity.Info AlertType.SecurityEvent
    "tamper" (mkTimestamp 0).
Definition exchanged : list Envelope :=
  [mkEnvelope (mkMessageId 1000) None (WireMessage.AlertRequest alert0);
   mkEnvelope (mkMessageId 1001) (Some (mkMessageId 1000))
     (WireMessage.AlertResponse (mkAlertResponse (mkAlertId 3) true))].

Lemma alert_over_the_wire :
  snd (link_alert (PrimeLink := wire_link (codec := table_codec exchanged)) alert0
         (mkWire PrimeWitness.state0 true 0)) = Ok (mkAlertResponse (mkAlertId 3) true).
Proof.
  destruct (wire_refines_handlers (codec := table_codec exchanged) (H0 := table_codec_laws exchanged)
    (mkWire PrimeWitness.state0 true 0)) as (_ & _ & Ha & _).
  rewrite Ha; [reflexivity|]. split; [reflexivity|].
  split; eexists; (split; [reflexivity|]); vm_compute; discriminate.
Qed.

(** A codec that spends three million bytes on every reading. *)
Definition wasteful : Postcard := {|
  to_stdvec e :=
    match env_payload e with
    | WireMessage.BatchUploadRequest batch =>
        if Nat.leb (length (bu_readings batch)) 1000
        then Some (replicate (Z.to_nat (3000000 * Z.of_nat (length (bu_readings batch)))) 0) else None
    | _ => None
    end;
  from_bytes _ := None
|}.

End RpcLinkWitness.
