(* ===== verification/WireUploader.v ===== *)
(** * The uploader over the wire

    What a dispatcher's uploader does over the RPC protocol is what it does when it calls the handlers
    of ersha-prime directly.  [LinkSim] is the interface between the two: a connection that gives the
    results of another one as long as that one is [fine].  [prime_log] is the direct connection that also
    keeps what was exchanged; over the wire the same happens as long as what was exchanged fits the
    frames. *)
From Stdlib Require Import ZArith Lia Strings.String.
From stdpp Require Import base gmap strings list.
From S2P Require Import Prelude Platform Core Samples Filter Registry InMemory PrimeHandlers.
From S2P Require Import DispatchStorage DispatchMain EndToEnd RpcFrame Rpc RpcLink.
Open Scope Z_scope.

(** ** Simulations of connections *)

(** Every call of a connection is answered, and [grows] is what it may do to the state. *)
Class Answers {N E : Type} (L : PrimeLink N E) (grows : N -> N -> Prop) : Prop := {
  answers_preorder :: PreOrder grows;
  answers_connect s : exists s', link_connect s = (s', Ok tt) /\ grows s s';
  answers_hello r s : exists s' a, link_hello r s = (s', Ok a) /\ grows s s';
  answers_status r s : exists s' a, link_dispatcher_status r s = (s', Ok a) /\ grows s s';
  answers_disconnection r s : exists s' a, link_device_disconnection r s = (s', Ok a) /\ grows s s';
  answers_alert r s : exists s' a, link_alert r s = (s', Ok a) /\ grows s s';
  answers_batch r s : exists s' a, link_batch_upload r s = (s', Ok a) /\ grows s s'
}.

(** [up] relates the states of the two connections while the client is connected, [down] otherwise; a
    call that leaves the second one [fine] has the same result on the first, and what [fine] holds of
    it held of before. *)
Class LinkSim {N1 N2 E1 E2 : Type} (L1 : PrimeLink N1 E1) (L2 : PrimeLink N2 E2) (down up : N1 -> N2 -> Prop)
    (grows : N2 -> N2 -> Prop) (fine : N2 -> Prop) : Prop := {
  sim_fine s s' : grows s s' -> fine s' -> fine s;
  sim_down w s : up w s -> down w s;
  sim_connect w s s' : down w s -> link_connect s = (s', Ok tt) -> fine s' ->
    exists w', link_connect w = (w', Ok tt) /\ up w' s';
  sim_hello r w s s' a : up w s -> link_hello r s = (s', Ok a) -> fine s' ->
    exists w', link_hello r w = (w', Ok a) /\ up w' s';
  sim_status r w s s' a : up w s -> link_dispatcher_status r s = (s', Ok a) -> fine s' ->
    exists w', link_dispatcher_status r w = (w', Ok a) /\ up w' s';
  sim_disconnection r w s s' a : up w s -> link_device_disconnection r s = (s', Ok a) -> fine s' ->
    exists w', link_device_disconnection r w = (w', Ok a) /\ up w' s';
  sim_alert r w s s' a : up w s -> link_alert r s = (s', Ok a) -> fine s' ->
    exists w', link_alert r w = (w', Ok a) /\ up w' s';
  sim_batch r w s s' a : up w s -> link_batch_upload r s = (s', Ok a) -> fine s' ->
    exists w', link_batch_upload r w = (w', Ok a) /\ up w' s'
}.

Section simulation.
Context {N1 N2 E1 E2 : Type} {L1 : PrimeLink N1 E1} {L2 : PrimeLink N2 E2} {down up : N1 -> N2 -> Prop}
  {grows : N2 -> N2 -> Prop} {fine : N2 -> Prop} `{!Answers L2 grows} `{!LinkSim L1 L2 down up grows fine}.
Context {S RE SE : Type} `{!EventStorage ReadingId SensorReading S RE} `{!EventStorage StatusId DeviceStatus S SE}
  `{!UlidGen} `{!Clock} (dispatcher_id : DispatcherId) (location : H3Cell).

(** The uploaders agree on everything but their connections, which are related. *)
Definition same_uploader (u : Uploader S N1) (v : Uploader S N2) : Prop :=
  up_storage u = up_storage v /\ up_state u = up_state v /\ up_client u = up_client v /\
  up_backoff u = up_backoff v /\ (if up_client v then up else down) (up_net u) (up_net v).

Lemma connect_grows s s' r : connect_and_register dispatcher_id location s = (s', r) -> grows s s'.
Proof.
  unfold connect_and_register. destruct (answers_connect s) as (s1 & C1 & G1). rewrite C1.
  destruct (answers_hello (mkHelloRequest dispatcher_id location) s1) as (s2 & a & C2 & G2). rewrite C2.
  destruct a; intros [= <- _]; by etrans.
Qed.

Lemma connect_sim w s s' r : down w s -> connect_and_register dispatcher_id location s = (s', r) -> fine s' ->
  exists w' r', connect_and_register dispatcher_id location w = (w', r') /\ is_ok r' = is_ok r /\ up w' s'.
Proof.
  intros Hd. unfold connect_and_register. destruct (answers_connect s) as (s1 & C1 & _). rewrite C1.
  destruct (answers_hello (mkHelloRequest dispatcher_id location) s1) as (s2 & a & C2 & G2). rewrite C2.
  intros Heq Hf. assert (s2 = s') as -> by (by destruct a; injection Heq).
  destruct (sim_connect w s s1 Hd C1 (sim_fine _ _ G2 Hf)) as (w1 & -> & U1).
  destruct (sim_hello _ w1 s1 s' a U1 C2 Hf) as (w2 & -> & U2).
  destruct a; injection Heq as <-; eauto.
Qed.

Lemma send_events_grows events s s' n n' : send_events dispatcher_id events s n = (s', n') -> grows s s'.
Proof.
  revert s n. induction events as [|[d reason|alert] events IH]; intros s n; cbn [send_events]; [by intros [= <- _]|..].
  - destruct (answers_disconnection (mkDeviceDisconnectionRequest d dispatcher_id (ts_now n) (Some reason)) s)
      as (s1 & a & -> & G1). intros Hse%IH. by etrans.
  - destruct (answers_alert alert s) as (s1 & a & -> & G1). intros Hse%IH. by etrans.
Qed.

Lemma send_events_sim events w s s' n n' : up w s -> send_events dispatcher_id events s n = (s', n') -> fine s' ->
  exists w', send_events dispatcher_id events w n = (w', n') /\ up w' s'.
Proof.
  revert w s n. induction events as [|[d reason|alert] events IH]; intros w s n Hu; cbn [send_events].
  - intros [= <- <-] _. eauto.
  - destruct (answers_disconnection (mkDeviceDisconnectionRequest d dispatcher_id (ts_now n) (Some reason)) s)
      as (s1 & a & C1 & _). rewrite C1. cbn [fst]. intros Hse Hf. pose proof (send_events_grows _ _ _ _ _ Hse) as G.
    destruct (sim_disconnection _ w s s1 a Hu C1 (sim_fine _ _ G Hf)) as (w1 & -> & U1). by apply (IH w1 s1).
  - destruct (answers_alert alert s) as (s1 & a & C1 & _). rewrite C1. cbn [fst].
    intros Hse Hf. pose proof (send_events_grows _ _ _ _ _ Hse) as G.
    destruct (sim_alert _ w s s1 a Hu C1 (sim_fine _ _ G Hf)) as (w1 & -> & U1). by apply (IH w1 s1).
Qed.

Lemma report_grows instant (v v' : Uploader S N2) n n' ok : report dispatcher_id instant v n = (v', n', ok) ->
  ok = true /\ up_client v' = up_client v /\ grows (up_net v) (up_net v').
Proof.
  unfold report. cbn -[send_events]. match goal with |- context [link_dispatcher_status ?r (up_net v)] =>
    destruct (answers_status r (up_net v)) as (s1 & a & -> & G1) end.
  destruct (send_events _ _ s1 _) as [s2 n2] eqn:E. intros [= <- _ <-]. cbn.
  split_and!; [done..|]. etrans; [done|]. by eapply send_events_grows.
Qed.

Lemma report_sim instant (u : Uploader S N1) (v v' : Uploader S N2) n n' : same_uploader u v -> up_client v = true ->
  report dispatcher_id instant v n = (v', n', true) -> fine (up_net v') ->
  exists u', report dispatcher_id instant u n = (u', n', true) /\ same_uploader u' v'.
Proof.
  intros (Hst & Hs & Hc & Hb & Hn) Hup. rewrite Hup in *. unfold report. rewrite Hs. cbn -[send_events].
  match goal with |- context [link_dispatcher_status ?r (up_net v)] =>
    destruct (answers_status r (up_net v)) as (s1 & a & C1 & _) end. rewrite C1.
  destruct (send_events _ _ s1 _) as [s2 n2] eqn:E. intros [= <- <-] Hf. cbn in Hf.
  destruct (sim_status _ _ _ _ _ Hn C1 (sim_fine _ _ (send_events_grows _ _ _ _ _ E) Hf)) as (w1 & -> & U1).
  destruct (send_events_sim _ _ _ _ _ _ U1 E Hf) as (w2 & -> & U2). eexists. split; [done|].
  unfold same_uploader. cbn. rewrite Hup. by split_and!.
Qed.

Lemma upload_batch_grows (v v' : Uploader S N2) n n' : upload_batch dispatcher_id v n = (v', n') ->
  up_client v' = up_client v /\ grows (up_net v) (up_net v').
Proof.
  unfold upload_batch. destruct (fetch_pending _) as [st1 [readings|e]]; [|by intros [= <- _]].
  destruct (fetch_pending _) as [st2 [statuses|e]]; [|by intros [= <- _]].
  destruct (answers_batch (mkBatchUploadRequest (mkBatchId (ulid_new n)) dispatcher_id readings statuses (ts_now n))
    (up_net v)) as (s1 & a & -> & G). destruct readings, statuses; by intros [= <- _].
Qed.

Lemma upload_batch_sim (u : Uploader S N1) (v v' : Uploader S N2) n n' : same_uploader u v -> up_client v = true ->
  upload_batch dispatcher_id v n = (v', n') -> fine (up_net v') ->
  exists u', upload_batch dispatcher_id u n = (u', n') /\ same_uploader u' v'.
Proof.
  intros (Hst & Hs & Hc & Hb & Hn) Hup. unfold upload_batch, same_uploader. rewrite Hst, Hs, Hc, Hb.
  destruct (fetch_pending (up_storage v)) as [st1 [readings|e]].
  2:{ intros [= <- <-] Hf. eexists. split; [reflexivity|]. by split_and!. }
  destruct (fetch_pending st1) as [st2 [statuses|e]].
  2:{ intros [= <- <-] Hf. eexists. split; [reflexivity|]. by split_and!. }
  rewrite Hup in *.
  destruct (answers_batch (mkBatchUploadRequest (mkBatchId (ulid_new n)) dispatcher_id readings statuses (ts_now n))
    (up_net v)) as (s1 & a & C1 & G). rewrite C1.
  destruct readings as [|r readings]; [destruct statuses as [|st statuses]|].
  { intros [= <- <-] Hf. eexists. split; [reflexivity|]. cbn. rewrite ?Hup. by split_and!. }
  all: intros [= <- <-] Hf; cbn in Hf; destruct (sim_batch _ _ _ _ _ Hn C1 Hf) as (w1 & -> & U1);
    (eexists; split; [reflexivity|]; cbn; rewrite ?Hup; by split_and!).
Qed.

Lemma tick_grows instant (v v' : Uploader S N2) n n' slept : tick dispatcher_id location instant v n = (v', n', slept) ->
  grows (up_net v) (up_net v').
Proof.
  unfold tick. destruct (if up_client v then _ else _) as [s1 r] eqn:C.
  assert (grows (up_net v) s1) as G1.
  { destruct (up_client v); [by injection C as <- _|by eapply connect_grows]. }
  destruct r as [[]|e]; [|by intros [= <- _ _]].
  destruct (report _ _ _ _) as [[v1 n1] ok] eqn:R. apply report_grows in R as (-> & _ & G2). cbn in G2.
  destruct (upload_batch _ _ _) as [v2 n2] eqn:B. apply upload_batch_grows in B as [_ G3].
  intros [= <- _ _]. etrans; [exact G1|]. by etrans.
Qed.

(** One tick of the second uploader is one tick of the first. *)
Lemma tick_sim instant (u : Uploader S N1) (v v' : Uploader S N2) n n' slept : same_uploader u v ->
  tick dispatcher_id location instant v n = (v', n', slept) -> fine (up_net v') ->
  exists u', tick dispatcher_id location instant u n = (u', n', slept) /\ same_uploader u' v'.
Proof.
  intros (Hst & Hs & Hc & Hb & Hn). unfold tick. rewrite Hst, Hs, Hc, Hb.
  destruct (if up_client v then (up_net v, _) else _) as [s1 r] eqn:C. intros Ht Hf.
  assert (grows s1 (up_net v')) as G.
  { destruct r as [[]|e]; [|by injection Ht as <- _ _].
    destruct (report _ _ _ _) as [[v1 n1] ok] eqn:R. apply report_grows in R as (-> & _ & G2). cbn in G2.
    destruct (upload_batch _ _ _) as [v2 n2] eqn:B. apply upload_batch_grows in B as [_ G3].
    injection Ht as <- _ _. by etrans. }
  assert (exists w1 r1, (if up_client v then (up_net u, Ok tt)
    else connect_and_register dispatcher_id location (up_net u)) = (w1, r1) /\ is_ok r1 = is_ok r /\ up w1 s1)
    as (w1 & r1 & -> & Hok & U1).
  { destruct (up_client v); [injection C as <- <-; eauto|].
    destruct (connect_sim _ _ _ _ Hn C (sim_fine _ _ G Hf)) as (w1 & r1 & -> & ? & ?). eauto. }
  destruct r as [[]|e], r1 as [[]|e1]; try done.
  - destruct (report _ _ (mkUploader _ _ s1 _ _) _) as [[v1 n1] ok] eqn:R.
    pose proof R as Rg. apply report_grows in Rg as (-> & Hc1 & G2). cbn in Hc1, G2.
    destruct (upload_batch _ v1 n1) as [v2 n2] eqn:B. injection Ht as <- <- <-.
    pose proof B as Bg. apply upload_batch_grows in Bg as [_ G3].
    match type of R with report _ _ ?w _ = _ =>
      destruct (report_sim instant (mkUploader (up_storage w) (up_state w) w1 true (up_backoff w)) w v1 n n1)
        as (u1 & Hu1 & S1); [by split_and!|done|exact R|by eapply sim_fine|] end.
    cbn [up_storage up_state up_backoff] in Hu1. rewrite Hu1.
    destruct (upload_batch_sim u1 v1 v2 n1 n2 S1 Hc1 B Hf) as (u2 & -> & S2). eauto.
  - injection Ht as <- <- <-. eexists. split; [done|]. unfold same_uploader. cbn. split_and!; try done. by apply sim_down.
Qed.

Lemma run_uploader_grows instants (v v' : Uploader S N2) n n' sleeps :
  run_uploader dispatcher_id location instants v n = (v', n', sleeps) -> grows (up_net v) (up_net v').
Proof.
  revert v n sleeps. induction instants as [|i instants IH]; intros v n sleeps; cbn [run_uploader];
    [intros [= <- _ _]; reflexivity|].
  destruct (tick _ _ _ _ _) as [[v1 n1] slept] eqn:T. destruct (run_uploader _ _ _ _ _) as [[v2 n2] rest] eqn:R.
  intros [= <- <- _]. apply tick_grows in T. etrans; [exact T|]. exact (IH _ _ _ R).
Qed.

(** A run of the second uploader that ends fine is a run of the first. *)
Lemma run_uploader_sim instants (u : Uploader S N1) (v v' : Uploader S N2) n n' sleeps : same_uploader u v ->
  run_uploader dispatcher_id location instants v n = (v', n', sleeps) -> fine (up_net v') ->
  exists u', run_uploader dispatcher_id location instants u n = (u', n', sleeps) /\ same_uploader u' v'.
Proof.
  revert u v n sleeps. induction instants as [|i instants IH]; intros u v n sleeps Huv; cbn [run_uploader].
  { intros [= <- <- <-] _. eauto. }
  destruct (tick _ _ _ v _) as [[v1 n1] slept] eqn:T. destruct (run_uploader _ _ _ v1 _) as [[v2 n2] rest] eqn:R.
  intros [= <- <- <-] Hf. pose proof (sim_fine _ _ (run_uploader_grows _ _ _ _ _ _ R) Hf) as Hf1.
  destruct (tick_sim _ _ _ _ _ _ _ Huv T Hf1) as (u1 & -> & S1).
  destruct (IH _ _ _ _ S1 R Hf) as (u2 & -> & S2). eauto.
Qed.
End simulation.

(** ** The direct connection, its log, and the wire *)

(** The state of ersha-prime, and the requests made so far with their responses. *)
Record Logged (P : Type) := mkLogged { lg_prime : P; lg_log : list (WireMessage.t * WireMessage.t) }.
Arguments mkLogged {P}.
Arguments lg_prime {P}.
Arguments lg_log {P}.

Definition with_net {S N N'} (net : N') (u : Uploader S N) : Uploader S N' :=
  mkUploader (up_storage u) (up_state u) net (up_client u) (up_backoff u).

Section wire_uploader.
Context {DR VR RR SR DE VE RdE StE : Type} `{!DispatcherRegistry DR DE} `{!DeviceRegistry VR VE}
  `{!ReadingRegistry RR RdE} `{!DeviceStatusRegistry SR StE} {codec : Postcard} `{!UlidGen}.
Local Abbreviation State := (AppState DR VR RR SR).

(** A call of a handler that is logged. *)
Definition logged {Q A} (request : Q -> WireMessage.t) (response : A -> WireMessage.t)
    (handler : Q -> State -> State * A) (r : Q) (s : Logged State) : Logged State * result A Empty_set :=
  let (prime, a) := handler r (lg_prime s) in
  (mkLogged prime (lg_log s ++ [(request r, response a)]), Ok a).

#[export] Instance prime_log : PrimeLink (Logged State) Empty_set := {|
  link_connect s := (s, Ok tt);
  link_hello := logged WireMessage.HelloRequest WireMessage.HelloResponse on_hello;
  link_dispatcher_status :=
    logged WireMessage.DispatcherStatusRequest WireMessage.DispatcherStatusResponse on_dispatcher_status;
  link_device_disconnection :=
    logged WireMessage.DeviceDisconnectionRequest WireMessage.DeviceDisconnectionResponse on_device_disconnection;
  link_alert := logged WireMessage.AlertRequest WireMessage.AlertResponse on_alert;
  link_batch_upload := logged WireMessage.BatchUploadRequest WireMessage.BatchUploadResponse on_batch_upload
|}.

Definition log_grows (s s' : Logged State) : Prop := lg_log s `prefix_of` lg_log s'.

Lemma logged_grows {Q A} rq rs (handler : Q -> State -> State * A) r s :
  exists s' a, logged rq rs handler r s = (s', Ok a) /\ log_grows s s'.
Proof.
  unfold logged, log_grows. destruct (handler r (lg_prime s)) as [p a]. eexists _, _.
  split; [done|]. by apply prefix_app_r.
Qed.

#[export] Instance prime_log_answers : Answers prime_log log_grows.
Proof.
  split; try (intros; apply logged_grows).
  - split; [intros s; by exists []; rewrite app_nil_r|]. intros s1 s2 s3. apply (transitivity (R := prefix)).
  - intros s. exists s. split; [done|]. by exists []; rewrite app_nil_r.
Qed.

(** The direct connection does the same without the log. *)
#[export] Instance prime_link_sim : LinkSim prime_link prime_log
  (fun p s => p = lg_prime s) (fun p s => p = lg_prime s) log_grows (fun _ => True).
Proof.
  split; try done.
  - intros w s s' -> [= <-] _. eauto.
  - intros r w s s' a ->. cbn. unfold logged. destruct (on_hello r (lg_prime s)). intros [= <- <-] _. eauto.
  - intros r w s s' a ->. cbn. intros [= <- <-] _. eauto.
  - intros r w s s' a ->. cbn. intros [= <- <-] _. eauto.
  - intros r w s s' a ->. cbn. intros [= <- <-] _. eauto.
  - intros r w s s' a ->. cbn. unfold logged. destruct (on_batch_upload r (lg_prime s)). intros [= <- <-] _. eauto.
Qed.

(** Each request of a log, numbered from [n] on, and its response fit a frame. *)
Fixpoint log_fits (n : nat) (log : list (WireMessage.t * WireMessage.t)) : Prop :=
  match log with
  | [] => True
  | (req, resp) :: log =>
      fits (mkEnvelope (MessageId_new n) None req) /\
      fits (mkEnvelope (MessageId_new (1 + n)) (Some (MessageId_new n)) resp) /\ log_fits (2 + n) log
  end.

Lemma log_fits_app n log log' :
  log_fits n (log ++ log') <-> log_fits n log /\ log_fits (n + 2 * length log) log'.
Proof.
  revert n. induction log as [|[req resp] log IH]; intros n; cbn [app log_fits length].
  - rewrite Nat.mul_0_r, Nat.add_0_r. tauto.
  - rewrite IH. replace (2 + n + 2 * length log)%nat with (n + 2 * S (length log))%nat by lia. tauto.
Qed.

(** The wire after it has carried a log from number [n0] on. *)
Definition carried (n0 : nat) (w : Wire State) (s : Logged State) : Prop :=
  wire_prime w = lg_prime s /\ wire_next w = (n0 + 2 * length (lg_log s))%nat.
Definition carrying n0 w s : Prop := carried n0 w s /\ wire_alive w = true.

Lemma carrying_call {Q A} rq rs (handler : Q -> State -> State * A) n0 r w s s' a
    (call : Wire State -> Wire State * result A Rpc.ClientError.t) :
  (exchangeable w (rq r) (rs (snd (handler r (wire_prime w)))) ->
     call w = (mkWire (fst (handler r (wire_prime w))) true (2 + wire_next w), Ok (snd (handler r (wire_prime w))))) ->
  carrying n0 w s -> logged rq rs handler r s = (s', Ok a) -> log_fits n0 (lg_log s') ->
  exists w', call w = (w', Ok a) /\ carrying n0 w' s'.
Proof.
  intros Hcall [[Hp Hn] Ha]. unfold logged. rewrite Hp in Hcall.
  destruct (handler r (lg_prime s)) as [prime b]. intros [= <- <-]. cbn [lg_log fst snd] in *.
  rewrite log_fits_app. cbn [log_fits]. rewrite <- Hn. intros (_ & Hreq & Hresp & _).
  rewrite Hcall by (split_and!; done). eexists. split; [done|]. split; [|done]. split; [done|].
  cbn [wire_next lg_log]. rewrite length_app. cbn [length]. lia.
Qed.

#[export] Instance wire_link_sim `{!PostcardLaws} n0 : LinkSim wire_link prime_log
  (carried n0) (carrying n0) log_grows (fun s => log_fits n0 (lg_log s)).
Proof.
  pose proof wire_refines_handlers as Hwire.
  split.
  - intros s s' [log ->]. rewrite log_fits_app. tauto.
  - by intros w s [].
  - intros w s s' [Hp Hn] [= <-] _. eexists. split; [done|]. by split.
  - intros r w s s' a. apply carrying_call. apply (Hwire w).
  - intros r w s s' a. apply carrying_call. apply (Hwire w).
  - intros r w s s' a. apply carrying_call. apply (Hwire w).
  - intros r w s s' a. apply carrying_call. apply (Hwire w).
  - intros r w s s' a. apply carrying_call. apply (Hwire w).
Qed.

Context {S RE SE : Type} `{!EventStorage ReadingId SensorReading S RE} `{!EventStorage StatusId DeviceStatus S SE}
  `{!Clock} (dispatcher_id : DispatcherId) (location : H3Cell).

(** C7: the uploader over the wire is the uploader that calls the handlers of ersha-prime: run for any
    number of ticks, the two draw the same numbers, sleep as long, and leave the same storage, shared
    state, backoff and ersha-prime, provided every request that the run makes and its response, under
    the ids the client and the server give them, fit a frame. *)
Theorem wire_uploader_refines `{!PostcardLaws} instants (u : Uploader S (Wire State)) n v' n' sleeps :
  (up_client u = true -> wire_alive (up_net u) = true) ->
  run_uploader dispatcher_id location instants (with_net (mkLogged (wire_prime (up_net u)) []) u) n =
    (v', n', sleeps) ->
  log_fits (wire_next (up_net u)) (lg_log (up_net v')) ->
  exists (u' : Uploader S (Wire State)) (d' : Uploader S State),
    run_uploader dispatcher_id location instants u n = (u', n', sleeps) /\
    run_uploader dispatcher_id location instants (with_net (wire_prime (up_net u)) u) n = (d', n', sleeps) /\
    up_storage u' = up_storage d' /\ up_state u' = up_state d' /\ up_client u' = up_client d' /\
    up_backoff u' = up_backoff d' /\ wire_prime (up_net u') = up_net d' /\
    (up_client u' = true -> wire_alive (up_net u') = true).
Proof.
  intros Halive Hrun Hfits.
  assert (same_uploader (down := carried (wire_next (up_net u))) (up := carrying (wire_next (up_net u))) u
    (with_net (mkLogged (wire_prime (up_net u)) []) u)) as Hw.
  { split_and!; [done..|].
    assert (carried (wire_next (up_net u)) (up_net u) (mkLogged (wire_prime (up_net u)) [])) by (split; cbn; lia || done).
    unfold with_net, carrying. cbn [up_client up_net]. destruct (up_client u); auto. }
  destruct (run_uploader_sim dispatcher_id location instants _ _ _ _ _ _ Hw Hrun Hfits)
    as (u' & Hu' & E1 & E2 & E3 & E4 & E5).
  assert (same_uploader (down := fun p s => p = lg_prime s) (up := fun p s => p = lg_prime s)
    (with_net (wire_prime (up_net u)) u) (with_net (mkLogged (wire_prime (up_net u)) []) u)) as Hd.
  { split_and!; [done..|]. unfold with_net. cbn. by destruct (up_client u). }
  destruct (run_uploader_sim (fine := fun _ => True) dispatcher_id location instants _ _ _ _ _ _ Hd Hrun I)
    as (d' & Hd' & F1 & F2 & F3 & F4 & F5).
  exists u', d'. split_and!; try congruence.
  - destruct (up_client v'); [destruct E5 as [[-> _] _]|destruct E5 as [-> _]]; done.
  - rewrite E3. intros Hc. rewrite Hc in E5. by destruct E5.
Qed.
End wire_uploader.

(** ** Witness *)

Module WireUploaderWitness.
#[local] Existing Instance hash_iter_std.
#[local] Existing Instance lowercase_ascii.
#[local] Existing Instance DispatchMainWitness.gen.
#[local] Existing Instance DispatchMainWitness.clock.

(** A dispatcher with a reading and an alert to send, not yet connected, and two ticks of it. *)
Definition u0 : Uploader MemoryStorage.t (Wire MemState) :=
  uploader_start DispatchMainWitness.storage1 (DispatchState.queue_alert RpcLinkWitness.alert0 (DispatchState.new 0))
    (mkWire PrimeWitness.state0 false 0).
Definition logged0 := run_uploader (mkDispatcherId 1) (mkH3Cell 7) [1; 2]
  (with_net (mkLogged PrimeWitness.state0 []) u0) 0.

(** The messages of the run, with the ids they get on the wire. *)
Fixpoint envelopes (n : nat) (log : list (WireMessage.t * WireMessage.t)) : list Envelope :=
  match log with
  | [] => []
  | (req, resp) :: log =>
      mkEnvelope (MessageId_new n) None req ::
      mkEnvelope (MessageId_new (1 + n)) (Some (MessageId_new n)) resp :: envelopes (2 + n) log
  end.
Definition log0 := Eval vm_compute in lg_log (up_net (fst (fst logged0))).
Definition messages : list Envelope := envelopes 0 log0.

Lemma logged0_log : lg_log (up_net (fst (fst logged0))) = log0.
Proof. vm_compute. reflexivity. Qed.

Lemma log0_fits : log_fits (codec := RpcLinkWitness.table_codec messages) 0 log0.
Proof.
  unfold log0. cbn [log_fits]. split_and!; try exact I; eexists; (split; [reflexivity|]); vm_compute; discriminate.
Qed.

Lemma wire_uploader_refines_witness :
  length messages = 10%nat /\
  let '(u', _, _) := run_uploader (PrimeLink0 := wire_link (codec := RpcLinkWitness.table_codec messages))
    (mkDispatcherId 1) (mkH3Cell 7) [1; 2] u0 0 in
  MemoryStorageProofs.reading_view (up_storage u') !! mkReadingId 1 = Some (sample_reading 1 1, Uploaded).
Proof.
  split; [reflexivity|].
  destruct (wire_uploader_refines (codec := RpcLinkWitness.table_codec messages)
    (H1 := RpcLinkWitness.table_codec_laws messages) (mkDispatcherId 1) (mkH3Cell 7) [1; 2] u0 0
    (fst (fst logged0)) (snd (fst logged0)) (snd logged0)) as (u' & d' & Hu & Hd & Hst & _).
  - discriminate.
  - unfold logged0. by destruct (run_uploader _ _ _ _ _) as [[? ?] ?].
  - rewrite logged0_log. apply log0_fits.
  - rewrite Hu. rewrite Hst. clear Hu Hst u'. revert Hd. vm_compute. intros [= <-]. reflexivity.
Defined.
End WireUploaderWitness.
