(* ===== verification/EdgeDevice.v ===== *)
(** * The firmware of an edge device: ersha-edge/src/

    The metric a sensor reports and its calibration, the queue between the sensor tasks and the
    engine, the engine's loop, and the Wi-Fi transport over an abstract TCP [Socket], whose [write]
    may take fewer bytes than it is given.  The postcard codec of the two packet types is the class
    [EdgeCodec]; its laws say that packets read back and that decoding a prefix of a stream does not
    depend on what follows. *)
From Stdlib Require Import ZArith Lia Strings.String.
From stdpp Require Import base gmap strings list.
From S2P Require Import Prelude Platform Core RpcFrame.
Open Scope Z_scope.

Module EdgeMetric.
(** [ersha-edge/src/sensor.rs:15-26] SensorMetric: u8, i16, i16, u8, u16 *)
Inductive t :=
  | SoilMoisture (v : Z)
  | SoilTemp (v : Z)
  | AirTemp (v : Z)
  | Humidity (v : Z)
  | Rainfall (v : Z).
#[export] Instance eq_dec : EqDecision t. Proof. solve_decision. Defined.

Definition wf (m : t) : Prop :=
  match m with
  | SoilMoisture v | Humidity v => u8 v
  | SoilTemp v | AirTemp v => i16 v
  | Rainfall v => u16 v
  end.
End EdgeMetric.
Export (hints) EdgeMetric.

Module SensorError.
(** [ersha-edge/src/sensor.rs:7-11] SensorError *)
Inductive t := Timeout | InvalidData.
End SensorError.

(** [ersha-edge/src/sensor.rs:56-59] SensorConfig; the rate in milliseconds *)
Record SensorConfig := mkSensorConfig { sampling_rate : Z; cfg_sensor_id : Ulid }.

(** [Ord::clamp]. *)
Definition clamp (lo hi v : Z) : Z := if Z.ltb v lo then lo else if Z.ltb hi v then hi else v.

(** [a + b] at [i16]: with overflow checks a panic, [None], without them two's complement. *)
Definition add_i16 (checks : bool) (a b : Z) : option Z :=
  if decide (- 2 ^ 15 <= a + b < 2 ^ 15) then Some (a + b)
  else if checks then None else Some (as_i16 (a + b)).

(** [i16::saturating_add]. *)
Definition saturating_add_i16 (a b : Z) : Z := clamp (- 2 ^ 15) (2 ^ 15 - 1) (a + b).

(** [ersha-edge/src/sensor.rs:28-54] calibrate *)
Definition calibrate (checks : bool) (self : EdgeMetric.t) (offset : Z) : option EdgeMetric.t :=
  match self with
  | EdgeMetric.SoilMoisture val =>
      v ← add_i16 checks val offset; Some (EdgeMetric.SoilMoisture (as_u8 (clamp 0 100 v)))
  | EdgeMetric.Humidity val =>
      v ← add_i16 checks val offset; Some (EdgeMetric.Humidity (as_u8 (clamp 0 100 v)))
  | EdgeMetric.SoilTemp val => Some (EdgeMetric.SoilTemp (saturating_add_i16 val offset))
  | EdgeMetric.AirTemp val => Some (EdgeMetric.AirTemp (saturating_add_i16 val offset))
  | EdgeMetric.Rainfall val =>
      Some (EdgeMetric.Rainfall (as_u16 (clamp 0 65535 (val + offset))))
  end.

(** [ersha-edge/src/lib.rs:19-25] ReadingPacket *)
Record ReadingPacket := mkReadingPacket {
  rp_device_id : Z;
  rp_sensor_id : Z;
  rp_reading_id : Z;
  rp_metric : EdgeMetric.t
}.
#[export] Instance ReadingPacket_eq_dec : EqDecision ReadingPacket. Proof. solve_decision. Defined.

(** [ersha-edge/src/lib.rs:27-31] TaggedReading *)
Record TaggedReading := mkTaggedReading { tr_sensor_id : Z; tr_metric : EdgeMetric.t }.

Definition ReadingPacket_wf (p : ReadingPacket) : Prop :=
  u128 (rp_device_id p) /\ u128 (rp_sensor_id p) /\ u16 (rp_reading_id p) /\ EdgeMetric.wf (rp_metric p).

Module EdgeError.
(** [ersha-edge/src/lib.rs:33-39] Error *)
Inductive t := UnableToSend | SerializationFailed | ServerNotFound | TooManySensors.
End EdgeError.

(** ** Packets *)

(** [ersha-edge/src/transport/mod.rs:9-14] the constants of the protocol *)
Definition PACKET_PREAMBLE : Z := 58458.   (* 0xE45A *)
Definition PROTOCOL_VERSION : Z := 1.
Definition MAX_PACKET_SIZE : Z := 128.
Definition PREAMBLE_SIZE : Z := 2.
Definition PACKET_HEADER_SIZE : Z := 6.
Definition MAX_PAYLOAD_SIZE : Z := MAX_PACKET_SIZE - PREAMBLE_SIZE - PACKET_HEADER_SIZE.

(** [ersha-edge/src/transport/mod.rs:16-19] MsgType *)
Inductive MsgType := MsgReading.

(** [ersha-edge/src/transport/mod.rs:21-27] Msg *)
Record Msg := mkMsg { msg_preamble : Z; msg_version : Z; msg_type : MsgType; msg_payload : bytes }.

Definition Msg_wf (m : Msg) : Prop :=
  u16 (msg_preamble m) /\ u8 (msg_version m) /\ Forall u8 (msg_payload m).

(** The result of [postcard::take_from_bytes]: a value and the rest, an incomplete input
    ([DeserializeUnexpectedEnd]), or another error. *)
Inductive Take (A : Type) := Got (a : A) (rest : bytes) | More | Bad (message : string).
Arguments Got {A}.
Arguments More {A}.
Arguments Bad {A}.

Class EdgeCodec := {
  packet_to_bytes : ReadingPacket -> bytes;
  packet_from_bytes : bytes -> result ReadingPacket string;
  msg_to_bytes : Msg -> bytes;
  msg_take_from_bytes : bytes -> Take Msg
}.

Class EdgeCodecLaws `{EdgeCodec} : Prop := {
  packet_roundtrip p : ReadingPacket_wf p -> packet_from_bytes (packet_to_bytes p) = Ok p;
  packet_to_bytes_u8 p : Forall u8 (packet_to_bytes p);
  packet_decoded_wf b p : packet_from_bytes b = Ok p -> ReadingPacket_wf p;
  msg_roundtrip m : Msg_wf m -> msg_take_from_bytes (msg_to_bytes m) = Got m [];
  take_consumes b m rest : msg_take_from_bytes b = Got m rest -> (length rest < length b)%nat;
  take_got_more b m rest c : msg_take_from_bytes b = Got m rest -> msg_take_from_bytes (b ++ c) = Got m (rest ++ c);
  take_bad_more b e c : msg_take_from_bytes b = Bad e -> msg_take_from_bytes (b ++ c) = Bad e
}.

(** ** The queue of readings *)

(** [ersha-edge/src/engine.rs:10-13] READING_QUEUE_DEPTH *)
Definition READING_QUEUE_DEPTH : nat := 16.

(** [ersha-edge/src/lib.rs:49-66] sensor_task: one turn of the loop; a full queue drops the reading *)
Definition sensor_turn (config : SensorConfig) (read : result EdgeMetric.t SensorError.t)
    (queue : list TaggedReading) : list TaggedReading :=
  match read with
  | Ok reading =>
      if Nat.ltb (length queue) READING_QUEUE_DEPTH
      then queue ++ [mkTaggedReading (cfg_sensor_id config) reading]
      else queue
  | Err _ => queue
  end.

(** ** The transport *)

(** The TCP socket of embassy-net: [write] returns how many bytes it took, [read] up to [n] bytes and
    none when the peer closed; [None] is an error. *)
Class Socket (S : Type) := {
  sock_established : S -> bool;
  sock_connect : S -> S * bool;
  sock_write : bytes -> S -> S * option nat;
  sock_read : nat -> S -> S * option bytes
}.

(** [ersha-edge/src/transport/wifi.rs:22-25] Wifi *)
Record Wifi (S : Type) := mkWifi { socket : S; wifi_device_id : option Z }.
Arguments mkWifi {S}.
Arguments socket {S}.
Arguments wifi_device_id {S}.

(** Big-endian bytes of an integer of [k] bytes. *)
Fixpoint be_bytes (k : nat) (n : Z) : bytes :=
  match k with O => [] | S k' => be_bytes k' (n / 256) ++ [n mod 256] end.
Definition of_be_bytes (b : bytes) : Z := fold_left (fun acc x => acc * 256 + x) b 0.

Definition HELLO : bytes := [72; 69; 76; 76; 79].

Section transport.
Context {S : Type} `{!Socket S} `{!EdgeCodec}.

(** [ersha-edge/src/transport/wifi.rs:86-97] read_exact; every turn reads a byte or ends the loop *)
Fixpoint read_exact (fuel n : nat) (got : bytes) (s : S) : S * option (result bytes EdgeError.t) :=
  match n with
  | O => (s, Some (Ok got))
  | _ =>
      match fuel with
      | O => (s, None)
      | Datatypes.S fuel' =>
          match sock_read n s with
          | (s, None) => (s, Some (Err EdgeError.UnableToSend))
          | (s, Some []) => (s, Some (Err EdgeError.ServerNotFound))
          | (s, Some b) => read_exact fuel' (n - length b) (got ++ b) s
          end
      end
  end.

(** [ersha-edge/src/transport/wifi.rs:99-105] write_all; [None] when [fuel] turns are not enough *)
Fixpoint write_all (fuel : nat) (b : bytes) (s : S) : S * option (result unit EdgeError.t) :=
  match b with
  | [] => (s, Some (Ok tt))
  | _ =>
      match fuel with
      | O => (s, None)
      | Datatypes.S fuel' =>
          match sock_write b s with
          | (s, None) => (s, Some (Err EdgeError.UnableToSend))
          | (s, Some n) => write_all fuel' (drop n b) s
          end
      end
  end.

(** [ersha-edge/src/transport/wifi.rs:37-64] provision; the two writes are not repeated when short *)
Definition provision (location : Z) (self : Wifi S) : Wifi S * option (result Z EdgeError.t) :=
  let with_socket s := mkWifi s (wifi_device_id self) in
  let (s, connected) :=
    if sock_established (socket self) then (socket self, true) else sock_connect (socket self) in
  if connected then
    match sock_write HELLO s with
    | (s, None) => (with_socket s, Some (Err EdgeError.UnableToSend))
    | (s, Some _) =>
        match sock_write (be_bytes 8 location) s with
        | (s, None) => (with_socket s, Some (Err EdgeError.UnableToSend))
        | (s, Some _) =>
            match read_exact 16 16 [] s with
            | (s, Some (Ok buf)) =>
                let id := of_be_bytes buf in (mkWifi s (Some id), Some (Ok id))
            | (s, Some (Err _)) => (with_socket s, Some (Err EdgeError.UnableToSend))
            | (s, None) => (with_socket s, None)
            end
        end
    end
  else (with_socket s, Some (Err EdgeError.ServerNotFound)).

(** The bytes of one reading on the stream, when both buffers are large enough. *)
Definition reading_bytes (packet : ReadingPacket) : result bytes EdgeError.t :=
  let payload := packet_to_bytes packet in
  if Z.ltb MAX_PAYLOAD_SIZE (Z.of_nat (length payload)) then Err EdgeError.SerializationFailed
  else
    let used := msg_to_bytes (mkMsg PACKET_PREAMBLE PROTOCOL_VERSION MsgReading payload) in
    if Z.ltb MAX_PACKET_SIZE (Z.of_nat (length used)) then Err EdgeError.SerializationFailed
    else Ok used.

(** [ersha-edge/src/transport/wifi.rs:66-83] send_reading *)
Definition send_reading (packet : ReadingPacket) (self : Wifi S) : Wifi S * option (result unit EdgeError.t) :=
  match reading_bytes packet with
  | Err e => (self, Some (Err e))
  | Ok used =>
      let (s, r) := write_all (length used) used (socket self) in
      (mkWifi s (wifi_device_id self), r)
  end.

(** ** The engine *)

(** [ersha-edge/src/engine.rs:15-19] Engine *)
Record Engine := mkEngine { transport : Wifi S; device_id : Z; reading_seq : Z }.

(** [ersha-edge/src/engine.rs:22-30] Engine::new *)
Definition Engine_new (t : Wifi S) (location : Z) : Wifi S * option (result Engine EdgeError.t) :=
  match provision location t with
  | (t, Some (Ok id)) => (t, Some (Ok (mkEngine t id 0)))
  | (t, Some (Err e)) => (t, Some (Err e))
  | (t, None) => (t, None)
  end.

(** [ersha-edge/src/engine.rs:36-43] Engine::run: the packet of a queued reading *)
Definition engine_packet (e : Engine) (reading : TaggedReading) : ReadingPacket :=
  mkReadingPacket (device_id e) (tr_sensor_id reading) (reading_seq e) (tr_metric reading).

(** [ersha-edge/src/engine.rs:35-51] Engine::run: one turn of the loop *)
Definition engine_turn (reading : TaggedReading) (self : Engine) : Engine :=
  let (t, _) := send_reading (engine_packet self reading) (transport self) in
  mkEngine t (device_id self) (as_u16 (reading_seq self + 1)).
End transport.

(** ** Big-endian integers *)

Lemma of_be_bytes_app b c : of_be_bytes (b ++ [c]) = of_be_bytes b * 256 + c.
Proof. unfold of_be_bytes. by rewrite fold_left_app. Qed.

Lemma be_bytes_roundtrip k n : 0 <= n < 256 ^ Z.of_nat k -> of_be_bytes (be_bytes k n) = n.
Proof.
  revert n. induction k as [|k IH]; intros n Hn; [simpl in *; unfold of_be_bytes; simpl; lia|].
  cbn [be_bytes]. rewrite Nat2Z.inj_succ, Z.pow_succ_r in Hn by lia. rewrite of_be_bytes_app, IH.
  - pose proof (Z.div_mod n 256). lia.
  - split; [apply Z.div_pos; lia|]. apply Z.div_lt_upper_bound; lia.
Qed.

Lemma length_be_bytes k n : length (be_bytes k n) = k.
Proof. revert n. induction k; intros n; [done|]. cbn [be_bytes]. rewrite length_app, IHk. simpl. lia. Qed.

Lemma be_bytes_u8 k n : Forall u8 (be_bytes k n).
Proof.
  revert n. induction k; intros n; [constructor|]. cbn [be_bytes]. apply Forall_app. split; [done|].
  constructor; [|constructor]. apply (wrap_range 8). lia.
Qed.

Lemma of_be_bytes_range b : Forall u8 b -> 0 <= of_be_bytes b < 256 ^ Z.of_nat (length b).
Proof.
  induction b as [|x b IH] using rev_ind; [unfold of_be_bytes; simpl; lia|].
  intros [Hb Hx]%Forall_app. apply Forall_cons in Hx as [Hx _]. specialize (IH Hb). rewrite of_be_bytes_app, length_app, Nat.add_1_r.
  rewrite Nat2Z.inj_succ, Z.pow_succ_r by lia. unfold is_unsigned in Hx. change (2 ^ 8) with 256 in Hx. lia.
Qed.

(** ** Calibration *)

Lemma clamp_spec lo hi v : lo <= hi -> clamp lo hi v = Z.max lo (Z.min hi v).
Proof. intros. unfold clamp. repeat case_match; lia. Qed.

(** Calibration adds the offset and saturates at the bounds of the metric: a moisture or humidity
    at 0 and 100 percent, a temperature at the bounds of i16, a rainfall at those of u16.  The sum of a
    percentage and the offset is an i16 addition, so an offset near its maximum overflows: with
    overflow checks the firmware panics, without them the reading becomes 0 instead of 100. *)
Theorem calibrate_branches checks m offset :
  EdgeMetric.wf m -> i16 offset ->
  match m with
  | EdgeMetric.SoilMoisture v =>
      calibrate checks m offset =
        if Z.leb (v + offset) 32767 then Some (EdgeMetric.SoilMoisture (Z.max 0 (Z.min 100 (v + offset))))
        else if checks then None else Some (EdgeMetric.SoilMoisture 0)
  | EdgeMetric.Humidity v =>
      calibrate checks m offset =
        if Z.leb (v + offset) 32767 then Some (EdgeMetric.Humidity (Z.max 0 (Z.min 100 (v + offset))))
        else if checks then None else Some (EdgeMetric.Humidity 0)
  | EdgeMetric.SoilTemp v =>
      calibrate checks m offset = Some (EdgeMetric.SoilTemp (Z.max (-32768) (Z.min 32767 (v + offset))))
  | EdgeMetric.AirTemp v =>
      calibrate checks m offset = Some (EdgeMetric.AirTemp (Z.max (-32768) (Z.min 32767 (v + offset))))
  | EdgeMetric.Rainfall v =>
      calibrate checks m offset = Some (EdgeMetric.Rainfall (Z.max 0 (Z.min 65535 (v + offset))))
  end.
Proof.
  assert (forall v, u8 v -> i16 offset -> add_i16 checks v offset =
    if Z.leb (v + offset) 32767 then Some (v + offset)
    else if checks then None else Some (v + offset - 65536)) as Hadd.
  { intros v Hv Ho. unfold add_i16, is_unsigned, is_signed in *. cbn in Hv, Ho.
    case_decide as Hd; cbn in Hd; destruct (Z.leb_spec (v + offset) 32767); try lia; [done|].
    destruct checks; [done|]. f_equal. unfold as_i16, to_signed, wrap.
    change (2 ^ 16) with 65536. change (2 ^ (16 - 1)) with 32768. rewrite Z.mod_small by lia.
    destruct (Z.ltb_spec (v + offset) 32768); lia. }
  assert (forall z, as_u8 (clamp 0 100 z) = Z.max 0 (Z.min 100 z)) as H8.
  { intros z. rewrite clamp_spec by lia. unfold as_u8, wrap. change (2 ^ 8) with 256. apply Z.mod_small. lia. }
  assert (forall z, as_u16 (clamp 0 65535 z) = Z.max 0 (Z.min 65535 z)) as H16.
  { intros z. rewrite clamp_spec by lia. unfold as_u16, wrap. change (2 ^ 16) with 65536. apply Z.mod_small. lia. }
  intros Hm Ho. destruct m as [v|v|v|v|v]; cbn [calibrate EdgeMetric.wf] in *.
  1, 4: rewrite Hadd by done; unfold is_unsigned, is_signed in Hm, Ho; cbn in Hm, Ho;
    destruct (Z.leb_spec (v + offset) 32767); cbn [mbind option_bind]; [by rewrite H8|];
    destruct checks; cbn [mbind option_bind]; [done|]; rewrite H8; by rewrite Z.max_l by lia.
  - unfold saturating_add_i16. by rewrite clamp_spec by lia.
  - unfold saturating_add_i16. by rewrite clamp_spec by lia.
  - by rewrite H16.
Qed.

Lemma calibrate_branches_witness :
  calibrate false (EdgeMetric.Humidity 100) 32700 = Some (EdgeMetric.Humidity 0).
Proof. apply (calibrate_branches false (EdgeMetric.Humidity 100) 32700); by vm_compute. Defined.

(** ** A codec with its laws *)

(** Fixed-width integers, and a payload whose bytes are each announced by a 1 and ended by a 0. *)
Module SampleCodec.
Definition metric_tag (m : EdgeMetric.t) : Z * Z :=
  match m with
  | EdgeMetric.SoilMoisture v => (0, v)
  | EdgeMetric.SoilTemp v => (1, v)
  | EdgeMetric.AirTemp v => (2, v)
  | EdgeMetric.Humidity v => (3, v)
  | EdgeMetric.Rainfall v => (4, v)
  end.

Definition metric_of (tag v : Z) : result EdgeMetric.t string :=
  match tag with
  | 0 => if Z.ltb v 256 then Ok (EdgeMetric.SoilMoisture v) else Err "u8"%string
  | 1 => Ok (EdgeMetric.SoilTemp (as_i16 v))
  | 2 => Ok (EdgeMetric.AirTemp (as_i16 v))
  | 3 => if Z.ltb v 256 then Ok (EdgeMetric.Humidity v) else Err "u8"%string
  | 4 => Ok (EdgeMetric.Rainfall v)
  | _ => Err "tag"%string
  end.

Definition packet_to (p : ReadingPacket) : bytes :=
  be_bytes 16 (rp_device_id p) ++ be_bytes 16 (rp_sensor_id p) ++ be_bytes 2 (rp_reading_id p) ++
  be_bytes 1 (fst (metric_tag (rp_metric p))) ++ be_bytes 2 (snd (metric_tag (rp_metric p)) mod 65536).

(** The first [k] bytes as an integer. *)
Definition field (k : nat) (b : bytes) : option (Z * bytes) :=
  if decide (length (take k b) = k /\ Forall u8 (take k b)) then Some (of_be_bytes (take k b), drop k b) else None.

Definition packet_from (b : bytes) : result ReadingPacket string :=
  let parsed :=
    '(d, b) ← field 16 b; '(s, b) ← field 16 b; '(r, b) ← field 2 b; '(tag, b) ← field 1 b;
    '(v, b) ← field 2 b; Some (d, s, r, metric_of tag v) in
  match parsed with
  | Some (d, s, r, Ok m) => Ok (mkReadingPacket d s r m)
  | Some (_, _, _, Err e) => Err e
  | None => Err "end"%string
  end.

Definition msg_to (m : Msg) : bytes :=
  be_bytes 2 (msg_preamble m) ++ msg_version m :: ((x ← msg_payload m; [1; x]) ++ [0]).

Fixpoint payload_from (b : bytes) : Take bytes :=
  match b with
  | [] => More
  | 0 :: b => Got [] b
  | 1 :: x :: b => match payload_from b with Got p rest => Got (x :: p) rest | More => More | Bad e => Bad e end
  | [1] => More
  | _ => Bad "payload"
  end.

Definition msg_from (b : bytes) : Take Msg :=
  match b with
  | p :: q :: v :: b =>
      match payload_from b with
      | Got payload rest => Got (mkMsg (of_be_bytes [p; q]) v MsgReading payload) rest
      | More => More
      | Bad e => Bad e
      end
  | _ => More
  end.
#[export] Instance codec : EdgeCodec := Build_EdgeCodec packet_to packet_from msg_to msg_from.

Lemma field_app k n rest : 0 <= n < 256 ^ Z.of_nat k -> field k (be_bytes k n ++ rest) = Some (n, rest).
Proof.
  intros Hn. unfold field. rewrite take_app_length' by (by rewrite length_be_bytes).
  rewrite drop_app_length' by (by rewrite length_be_bytes).
  rewrite decide_True by auto using length_be_bytes, be_bytes_u8. by rewrite be_bytes_roundtrip.
Qed.

Lemma field_range k b n rest : field k b = Some (n, rest) -> 0 <= n < 256 ^ Z.of_nat k.
Proof.
  unfold field. case_decide as Hd; [|done]. destruct Hd as [Hl Hb]. intros [= <- _].
  pose proof (of_be_bytes_range _ Hb) as Hr. by rewrite Hl in Hr.
Qed.

Lemma metric_roundtrip m :
  EdgeMetric.wf m ->
  metric_of (fst (metric_tag m)) (snd (metric_tag m) mod 65536) = Ok m.
Proof.
  unfold EdgeMetric.wf, is_unsigned, is_signed. destruct m as [v|v|v|v|v]; cbn -[Z.modulo]; intros Hv.
  - rewrite Z.mod_small by lia. by destruct (Z.ltb_spec v 256); [|lia].
  - change (as_i16 (v mod 65536)) with (to_signed 16 (wrap 16 v)). by rewrite to_signed_wrap.
  - change (as_i16 (v mod 65536)) with (to_signed 16 (wrap 16 v)). by rewrite to_signed_wrap.
  - rewrite Z.mod_small by lia. by destruct (Z.ltb_spec v 256); [|lia].
  - by rewrite Z.mod_small by lia.
Qed.

Lemma metric_of_wf tag v m : 0 <= v < 65536 -> metric_of tag v = Ok m -> EdgeMetric.wf m.
Proof.
  intros Hv. unfold metric_of.
  repeat case_match; intros [= <-]; cbn; try done; try (apply (to_signed_range 16); lia);
    unfold is_unsigned; cbn; lia.
Qed.

Lemma payload_to_from p rest : payload_from ((x ← p; [1; x]) ++ 0 :: rest) = Got p rest.
Proof. induction p as [|x p IH]; [done|]. cbn in *. by rewrite IH. Qed.

(** The equations of the payload decoder, by the length of the input. *)
Lemma payload_from_laws b :
  (forall p rest, payload_from b = Got p rest -> (length rest < length b)%nat) /\
  (forall p rest c, payload_from b = Got p rest -> payload_from (b ++ c) = Got p (rest ++ c)) /\
  (forall e c, payload_from b = Bad e -> payload_from (b ++ c) = Bad e).
Proof.
  induction b as [b IH] using (induction_ltof1 _ (@length Z)). unfold ltof in IH.
  destruct b as [|z b]; [done|].
  destruct z as [|[z|z|]|z]; try (split_and!; cbn; intros; simplify_eq; done).
  - cbn. split_and!; intros; simplify_eq; [lia|done].
  - destruct b as [|x b]; [done|]. destruct (IH b) as (Hlen & Hgot & Hbad); [simpl; lia|].
    cbn. destruct (payload_from b) as [p rest| |e] eqn:Hb; split_and!; intros; simplify_eq.
    + specialize (Hlen _ _ eq_refl). simpl. lia.
    + by rewrite (Hgot _ _ _ eq_refl).
    + by rewrite (Hbad _ _ eq_refl).
Qed.

Lemma packet_to_from p : ReadingPacket_wf p -> packet_from (packet_to p) = Ok p.
Proof.
  intros (Hd & Hs & Hr & Hm). unfold packet_from, packet_to.
  rewrite field_app by done. cbn [mbind option_bind]. rewrite field_app by done. cbn [mbind option_bind].
  rewrite field_app by done. cbn [mbind option_bind].
  rewrite field_app by (by destruct (rp_metric p)). cbn [mbind option_bind].
  rewrite <- (app_nil_r (be_bytes 2 _)), field_app by (apply Z.mod_pos_bound; lia). cbn [mbind option_bind].
  rewrite metric_roundtrip by done. by destruct p.
Qed.

Lemma packet_from_wf b p : packet_from b = Ok p -> ReadingPacket_wf p.
Proof.
  unfold packet_from.
  destruct (field 16 b) as [[d b1]|] eqn:Hd; [|done]. cbn [mbind option_bind].
  destruct (field 16 b1) as [[s b2]|] eqn:Hs; [|done]. cbn [mbind option_bind].
  destruct (field 2 b2) as [[r b3]|] eqn:Hr; [|done]. cbn [mbind option_bind].
  destruct (field 1 b3) as [[tag b4]|] eqn:Ht; [|done]. cbn [mbind option_bind].
  destruct (field 2 b4) as [[v b5]|] eqn:Hv; [|done]. cbn [mbind option_bind].
  destruct (metric_of tag v) as [m|] eqn:Hm; [|done]. intros [= <-].
  apply field_range in Hd, Hs, Hr, Hv. by apply metric_of_wf in Hm.
Qed.

Lemma msg_to_from m : Msg_wf m -> msg_from (msg_to m) = Got m [].
Proof.
  intros (Hp & _ & _). pose proof (be_bytes_roundtrip 2 (msg_preamble m) Hp) as Hb.
  unfold msg_from, msg_to. cbn -[of_be_bytes payload_from]. rewrite payload_to_from.
  cbn -[of_be_bytes] in Hb. rewrite Hb. by destruct m as [? ? [] ?].
Qed.

#[export] Instance codec_laws : EdgeCodecLaws.
Proof.
  assert (forall p, Forall u8 (packet_to p)) as Hu by
    (intros p; unfold packet_to; rewrite !Forall_app; split_and!; apply be_bytes_u8).
  constructor; [apply packet_to_from|exact Hu|apply packet_from_wf|apply msg_to_from|..];
    cbn [msg_take_from_bytes codec]; intros b;
    (destruct b as [|p [|q [|v b]]]; [done..|]); destruct (payload_from_laws b) as (Hlen & Hgot & Hbad); cbn.
  - intros m rest. destruct (payload_from b) as [pl r| |]; intros [= <- <-].
    specialize (Hlen _ _ eq_refl). lia.
  - intros m rest c. destruct (payload_from b) as [pl r| |]; intros [= <- <-]. by rewrite (Hgot _ _ _ eq_refl).
  - intros e c. destruct (payload_from b) as [pl r| |]; intros [= <-]. by rewrite (Hbad _ _ eq_refl).
Qed.
End SampleCodec.
