(* ===== verification/EdgeFirmware.v ===== *)
(** * What a device writes: Engine::new and Engine::run of ersha-edge

    The engine of EdgeDevice.v over a socket that takes any part of what it is given.  The bytes on the
    connection are the stream EdgeStream.v follows at the other end. *)
From Stdlib Require Import ZArith Lia Strings.String.
From stdpp Require Import base strings list.
From S2P Require Import Prelude Platform Core RpcFrame EdgeDevice.
Open Scope Z_scope.

(** [wrote] is what was written on the connection a socket has; a write takes some of the bytes. *)
Class SocketLaws (S : Type) `{Socket S} (wrote : S -> bytes) : Prop := {
  sock_connect_wrote s s' : sock_connect s = (s', true) -> wrote s' = [];
  sock_write_wrote b s s' n : sock_write b s = (s', Some n) -> (n <= length b)%nat /\ wrote s' = wrote s ++ take n b;
  sock_write_progress b s s' n : b <> [] -> sock_write b s = (s', Some n) -> (0 < n)%nat;
  sock_read_wrote n s : wrote (fst (sock_read n s)) = wrote s
}.

Section engine.
Context {S : Type} `{SocketLaws S wrote} `{EdgeCodecLaws}.

(** [ersha-edge/src/engine.rs:32-52] Engine::run: the readings received so far *)
Fixpoint engine_run (readings : list TaggedReading) (e : Engine (S := S)) : Engine :=
  match readings with
  | [] => e
  | reading :: rest => engine_run rest (engine_turn reading e)
  end.

(** The packets of readings when the next sequence number is [seq]. *)
Fixpoint engine_packets (id seq : Z) (readings : list TaggedReading) : list ReadingPacket :=
  match readings with
  | [] => []
  | r :: rest => mkReadingPacket id (tr_sensor_id r) seq (tr_metric r) :: engine_packets id (as_u16 (seq + 1)) rest
  end.

(** The frames of the packets that fit the buffers. *)
Definition frames_of (packets : list ReadingPacket) : list bytes :=
  omap (fun p => match reading_bytes p with Ok f => Some f | Err _ => None end) packets.
Definition encodable (p : ReadingPacket) : bool := is_ok (reading_bytes p).

(** The socket takes whatever it is offered, in pieces. *)
Definition takes_bytes : Prop := forall b (s : S), is_Some (snd (sock_write b s)).

Lemma write_all_wrote fuel b s : takes_bytes -> (length b <= fuel)%nat ->
  exists s', write_all fuel b s = (s', Some (Ok tt)) /\ wrote s' = wrote s ++ b.
Proof.
  intros Htakes. revert b s. induction fuel as [|fuel IH]; intros b s Hlen.
  { destruct b; cbn in Hlen; [|lia]. exists s. by rewrite app_nil_r. }
  destruct b as [|x b]; [exists s; by rewrite app_nil_r|]. cbn [write_all]. set (xb := x :: b) in *.
  destruct (sock_write xb s) as [s1 [n|]] eqn:Hw; [|destruct (Htakes xb s) as [? Hs]; by rewrite Hw in Hs].
  pose proof (sock_write_progress xb s s1 n ltac:(done) Hw) as Hpos. apply sock_write_wrote in Hw as [Hn Hs1].
  destruct (IH (drop n xb) s1) as (s' & -> & Hs'); [rewrite length_drop; lia|].
  exists s'. split; [done|]. by rewrite Hs', Hs1, <- (assoc_L (++)), take_drop.
Qed.

Lemma read_exact_wrote fuel n got s : wrote (fst (read_exact fuel n got s)) = wrote s.
Proof.
  revert n got s. induction fuel as [|fuel IH]; intros n got s; destruct n as [|n]; cbn [read_exact]; try done.
  pose proof (sock_read_wrote (Datatypes.S n) s) as Hr. destruct (sock_read _ s) as [s' [[|x b]|]]; cbn [fst] in *; try done.
  by rewrite IH.
Qed.

Lemma engine_turn_wrote r e : takes_bytes ->
  exists t, engine_turn r e = mkEngine t (device_id e) (as_u16 (reading_seq e + 1)) /\
    wrote (socket t) = wrote (socket (transport e)) ++ match reading_bytes (engine_packet e r) with Ok f => f | Err _ => [] end.
Proof.
  intros Htakes. unfold engine_turn, send_reading. destruct (reading_bytes (engine_packet e r)) as [f|err].
  - destruct (write_all_wrote (length f) f (socket (transport e)) Htakes (Nat.le_refl _)) as (s' & -> & Hs'). eauto.
  - eexists. split; [done|]. by rewrite app_nil_r.
Qed.

Lemma frames_of_encodable packets :
  Forall2 (fun p f => reading_bytes p = Ok f) (filter (fun p => encodable p = true) packets) (frames_of packets).
Proof.
  induction packets as [|p packets IH]; [constructor|]. rewrite filter_cons. unfold frames_of, encodable in *. cbn [omap list_omap].
  destruct (reading_bytes p) as [f|err] eqn:Hp; cbn [is_ok]; [|by rewrite decide_False].
  rewrite decide_True by done. by constructor.
Qed.

Lemma engine_packets_lookup id seq readings k r : readings !! k = Some r -> u16 seq ->
  engine_packets id seq readings !! k =
    Some (mkReadingPacket id (tr_sensor_id r) (as_u16 (seq + Z.of_nat k)) (tr_metric r)).
Proof.
  revert seq k. induction readings as [|x readings IH]; intros seq k Hk Hseq; [done|]. destruct k as [|k].
  - injection Hk as ->. cbn. rewrite Z.add_0_r. unfold as_u16. by rewrite wrap_small.
  - cbn [engine_packets]. cbn in Hk. change ((?x :: ?l) !! Datatypes.S k) with (l !! k).
    rewrite (IH _ _ Hk) by (apply wrap_range; lia). f_equal. f_equal. unfold as_u16. rewrite wrap_add_l. f_equal. lia.
Qed.

Lemma engine_run_wrote readings e : takes_bytes ->
  let e' := engine_run readings e in
  wrote (socket (transport e')) =
    wrote (socket (transport e)) ++ concat (frames_of (engine_packets (device_id e) (reading_seq e) readings)) /\
  device_id e' = device_id e.
Proof.
  intros Htakes. cbv zeta. revert e. induction readings as [|r readings IH]; intros e; [split; [by rewrite app_nil_r|done]|].
  destruct (engine_turn_wrote r e Htakes) as (t & Ht & Hw). cbn [engine_run engine_packets]. rewrite Ht.
  destruct (IH (mkEngine t (device_id e) (as_u16 (reading_seq e + 1)))) as [-> ->]. cbn [transport device_id reading_seq].
  rewrite Hw, <- (assoc_L (++)). split; [|done]. f_equal. unfold frames_of, engine_packet. cbn [omap list_omap].
  by destruct (reading_bytes _).
Qed.

(** Engine::new on a fresh connection writes the greeting, when neither short write of it is cut. *)
Lemma engine_new_wrote location t t' e : takes_bytes ->
  (forall s n, snd (sock_write HELLO s) = Some n -> n = 5%nat) ->
  (forall s n, snd (sock_write (be_bytes 8 location) s) = Some n -> n = 8%nat) ->
  (sock_established (socket t) = true -> wrote (socket t) = []) ->
  Engine_new t location = (t', Some (Ok e)) ->
  wrote (socket (transport e)) = HELLO ++ be_bytes 8 location /\ reading_seq e = 0.
Proof.
  intros Htakes Hhello Hloc Hfresh. unfold Engine_new, provision.
  destruct (if sock_established (socket t) then _ else _) as [s connected] eqn:Hc.
  destruct connected; [|done].
  assert (wrote s = []) as Hs.
  { destruct (sock_established (socket t)); [injection Hc as <-; by apply Hfresh|]. by apply sock_connect_wrote in Hc. }
  destruct (sock_write HELLO s) as [s1 [n1|]] eqn:H1'; [|done].
  pose proof (Hhello s n1) as Hn1. rewrite H1' in Hn1. specialize (Hn1 eq_refl). subst n1.
  apply sock_write_wrote in H1' as [_ Hs1].
  destruct (sock_write (be_bytes 8 location) s1) as [s2 [n2|]] eqn:H2'; [|done].
  pose proof (Hloc s1 n2) as Hn2. rewrite H2' in Hn2. specialize (Hn2 eq_refl). subst n2.
  apply sock_write_wrote in H2' as [_ Hs2].
  pose proof (read_exact_wrote 16 16 [] s2) as Hr. destruct (read_exact 16 16 [] s2) as [s3 [[buf|err]|]]; try done.
  intros [= <- <-]. cbn in Hr |- *. split; [|done].
  rewrite Hr, Hs2, Hs1, Hs. by rewrite (take_ge (be_bytes 8 location)) by (by rewrite length_be_bytes).
Qed.

End engine.

(** ** Witness *)

Module EdgeFirmwareWitness.
#[local] Existing Instance SampleCodec.codec.
#[local] Existing Instance SampleCodec.codec_laws.

(** A connected socket that takes at most eight bytes at a time. *)
Record Small := mkSmall { written : bytes; incoming : bytes }.
#[local] Instance small_socket : Socket Small := {|
  sock_established _ := true;
  sock_connect s := (mkSmall [] (incoming s), true);
  sock_write b s := (mkSmall (written s ++ take 8 b) (incoming s), Some (length (take 8 b)));
  sock_read n s := (mkSmall (written s) (drop n (incoming s)), Some (take n (incoming s)))
|}.
#[local] Instance small_socket_laws : SocketLaws Small written.
Proof.
  split.
  - intros s s' [= <-]. done.
  - intros b s s' n. cbn -[take]. intros [= <- <-]. split; [rewrite length_take; lia|]. cbn [written]. f_equal.
    rewrite length_take. destruct (Nat.le_gt_cases 8 (length b)); [by rewrite Nat.min_l|].
    rewrite Nat.min_r by lia. by rewrite !take_ge by lia.
  - intros b s s' n Hb. cbn -[take]. intros [= _ <-]. destruct b; [done|]. cbn. lia.
  - done.
Qed.

Definition start : Wifi Small := mkWifi (mkSmall [] (be_bytes 16 1000)) None.
Definition provisioned : Engine (S := Small) :=
  mkEngine (mkWifi (mkSmall (HELLO ++ be_bytes 8 77) []) (Some 1000)) 1000 0.
Definition readings : list TaggedReading :=
  [mkTaggedReading 100 (EdgeMetric.SoilTemp (-512)); mkTaggedReading 101 (EdgeMetric.Humidity 61)].

End EdgeFirmwareWitness.
