(* ===== verification/EdgeTcp.v ===== *)
(** * The TCP receiver of a dispatcher: ersha-dispatch/src/edge/tcp.rs

    A connection is a [Phase]: where [handle_edge_device] waits, with the variables that are live
    there.  [connection_step] runs the handler from one await point to the next on an [Input]; the
    handlers share [Shared], and [server_step] interleaves them with the accept loop and with the
    other tasks that touch the shared state.  The capacity of the channel is left out: a send waits
    for room, and what is sent and in which order does not depend on when. *)
From Stdlib Require Import ZArith Lia Strings.String.
From stdpp Require Import base gmap strings list.
From S2P Require Import Prelude Platform Core RpcFrame DispatchMain EdgeDevice.
Open Scope Z_scope.

Module EdgeConnectionError.
(** [ersha-dispatch/src/edge/tcp.rs:25-41] EdgeConnectionError *)
Inductive t :=
  | HandshakeMismatch (hello : bytes)
  | Postcard (e : string)
  | Io (e : string)
  | InvalidPreamble (preamble : Z)
  | ChannelClosed.
End EdgeConnectionError.

Module ErrorKind.
(** [ersha-dispatch/src/edge/tcp.rs:137-143] the [std::io::ErrorKind]s is_transient_error names *)
Inductive t :=
  | ConnectionRefused | ConnectionAborted | ConnectionReset | OutOfMemory | Other
  | AnyOther (name : string).
End ErrorKind.

(** [ersha-dispatch/src/edge/tcp.rs:137-143] is_transient_error *)
Definition is_transient_error (e : ErrorKind.t) : bool :=
  match e with
  | ErrorKind.AnyOther _ => false
  | _ => true
  end.

(** [f64::from(v) / 100.0] wrapped by [NotNan::new(..).unwrap()], a panic on NaN. *)
Definition hundredths (v : Z) : option NotNan := NotNan_new (f64_div (f64_of_int v) (f64_of_int 100)).

(** [ersha-dispatch/src/edge/tcp.rs:263-281] convert_metric *)
Definition convert_metric (source : EdgeMetric.t) : option SensorMetric.t :=
  match source with
  | EdgeMetric.SoilMoisture v => Some (SensorMetric.SoilMoisture (mkPercentage v))
  | EdgeMetric.SoilTemp v => SensorMetric.SoilTemp <$> hundredths v
  | EdgeMetric.AirTemp v => SensorMetric.AirTemp <$> hundredths v
  | EdgeMetric.Humidity v => Some (SensorMetric.Humidity (mkPercentage v))
  | EdgeMetric.Rainfall v => SensorMetric.Rainfall <$> hundredths v
  end.

(** What the connections share: the dispatcher's state, what was sent on the channel so far, whether
    its receiver is alive, and how many identifiers were drawn. *)
Record Shared := mkShared {
  sh_state : DispatchState.t;
  sh_sent : list EdgeData;
  sh_rx_open : bool;
  sh_next : nat
}.

(** How the task of a connection ended, as far as [connected_devices] is concerned: before the
    device was registered, after reporting its disconnection, or without reporting it. *)
Inductive Fate := Unregistered | Reported (device_id : DeviceId) | Unreported (device_id : DeviceId).

(** [ersha-dispatch/src/edge/tcp.rs:145-261] handle_edge_device: its await points *)
Inductive Phase :=
  | AwaitHello (hello : bytes)                                        (* 156 *)
  | AwaitLocation (location : bytes)                                  (* 163 *)
  | SendId (device_id : DeviceId) (location_raw : Z)                  (* 172 *)
  | Receiving (device_id : DeviceId) (location_raw : Z) (buf : bytes) (* 183 *)
  | Decoding (device_id : DeviceId) (location_raw : Z) (buf : bytes)  (* 204 *)
  | Done (fate : Fate) (r : result unit EdgeConnectionError.t)
  | Panicked (device_id : DeviceId).

(** What resumes a handler: bytes of the stream (none at its end), an I/O error of the read, the
    outcome of writing the identifier, the cancellation, or nothing but the scheduler. *)
Inductive Input :=
  | Read (b : bytes)
  | ReadError (e : string)
  | IdWritten (r : result unit string)
  | Cancelled
  | Work.

Section handler.
Context `{!EdgeCodec} `{!UlidGen} `{!Clock} (dispatcher_id : DispatcherId).

Definition unexpected_eof : result unit EdgeConnectionError.t :=
  Err (EdgeConnectionError.Io "early eof").

(** [ersha-dispatch/src/edge/tcp.rs:155-160] handle_edge_device: the greeting *)
Definition on_hello (hello b : bytes) : Phase :=
  match b with
  | [] => Done Unregistered unexpected_eof
  | _ =>
      let hello := hello ++ b in
      if Nat.ltb (length hello) 5 then AwaitHello hello
      else if decide (hello = HELLO) then AwaitLocation []
      else Done Unregistered (Err (EdgeConnectionError.HandshakeMismatch hello))
  end.

(** [ersha-dispatch/src/edge/tcp.rs:162-170] handle_edge_device: the location *)
Definition on_location (location b : bytes) (sh : Shared) : Shared * Phase :=
  match b with
  | [] => (sh, Done Unregistered unexpected_eof)
  | _ =>
      let location := location ++ b in
      if Nat.ltb (length location) 8 then (sh, AwaitLocation location)
      else
        let device_ulid := ulid_new (sh_next sh) in
        (mkShared (sh_state sh) (sh_sent sh) (sh_rx_open sh) (1 + sh_next sh),
         SendId (mkDeviceId device_ulid) (of_be_bytes location))
  end.

(** The bytes [device_ulid.0.to_be_bytes()] written to the device. *)
Definition id_reply (device_id : DeviceId) : bytes := be_bytes 16 (device_ulid device_id).

(** [ersha-dispatch/src/edge/tcp.rs:172-180] handle_edge_device: the identifier and the registration *)
Definition on_id_written (device_id : DeviceId) (location_raw : Z) (r : result unit string) (sh : Shared) :
    Shared * Phase :=
  match r with
  | Err e => (sh, Done Unregistered (Err (EdgeConnectionError.Io e)))
  | Ok _ =>
      (mkShared (DispatchState.device_connected device_id (sh_state sh)) (sh_sent sh) (sh_rx_open sh) (sh_next sh),
       Receiving device_id location_raw [])
  end.

(** [ersha-dispatch/src/edge/tcp.rs:195-199] handle_edge_device: report a disconnection and return *)
Definition disconnect (device_id : DeviceId) (reason : DisconnectionReason.t)
    (r : result unit EdgeConnectionError.t) (sh : Shared) : Shared * Phase :=
  (mkShared (DispatchState.device_disconnected device_id reason (sh_state sh)) (sh_sent sh) (sh_rx_open sh) (sh_next sh),
   Done (Reported device_id) r).

(** [ersha-dispatch/src/edge/tcp.rs:182-202] handle_edge_device: one read of the loop *)
Definition on_read (device_id : DeviceId) (location_raw : Z) (buf b : bytes) (sh : Shared) : Shared * Phase :=
  match b with
  | [] => disconnect device_id DisconnectionReason.GracefulClose (Ok tt) sh
  | _ => (sh, Decoding device_id location_raw (buf ++ b))
  end.

(** [ersha-dispatch/src/edge/tcp.rs:229-238] handle_edge_device: the reading of a packet *)
Definition edge_reading (device_id : DeviceId) (location_raw : Z) (packet : ReadingPacket)
    (metric : SensorMetric.t) (n : nat) : SensorReading :=
  mkSensorReading (mkReadingId (ulid_new n)) device_id dispatcher_id metric (mkH3Cell location_raw)
    (mkPercentage 100) (ts_now n) (mkSensorId (rp_sensor_id packet)).

(** [ersha-dispatch/src/edge/tcp.rs:221-247] handle_edge_device: the payload of a message; [rest] is
    the buffer that remains *)
Definition on_payload (device_id : DeviceId) (location_raw : Z) (payload rest : bytes) (sh : Shared) :
    Shared * Phase :=
  match packet_from_bytes payload with
  | Err e => (sh, Done (Unreported device_id) (Err (EdgeConnectionError.Postcard e)))
  | Ok packet =>
      match convert_metric (rp_metric packet) with
      | None => (sh, Panicked device_id)
      | Some metric =>
          let reading := edge_reading device_id location_raw packet metric (sh_next sh) in
          if sh_rx_open sh then
            (mkShared (sh_state sh) (sh_sent sh ++ [Reading reading]) true (1 + sh_next sh),
             Decoding device_id location_raw rest)
          else
            disconnect device_id (DisconnectionReason.Error "Channel closed") (Err EdgeConnectionError.ChannelClosed)
              (mkShared (sh_state sh) (sh_sent sh) false (1 + sh_next sh))
      end
  end.

(** [ersha-dispatch/src/edge/tcp.rs:204-250] handle_edge_device: one turn of the [while] loop *)
Definition decode_one (device_id : DeviceId) (location_raw : Z) (buf : bytes) (sh : Shared) : Shared * Phase :=
  match buf with
  | [] => (sh, Receiving device_id location_raw [])
  | _ =>
      match msg_take_from_bytes buf with
      | More => (sh, Receiving device_id location_raw buf)
      | Bad e => disconnect device_id (DisconnectionReason.Error e) (Err (EdgeConnectionError.Postcard e)) sh
      | Got msg rest =>
          if decide (msg_preamble msg = PACKET_PREAMBLE) then
            match msg_type msg with
            | MsgReading => on_payload device_id location_raw (msg_payload msg) rest sh
            end
          else disconnect device_id (DisconnectionReason.Error "Invalid preamble")
                 (Err (EdgeConnectionError.InvalidPreamble (msg_preamble msg))) sh
      end
  end.

(** [ersha-dispatch/src/edge/tcp.rs:148-261] handle_edge_device: from an await point to the next; the
    cancellation is watched in the receiving loop only *)
Definition connection_step (i : Input) (sh : Shared) (p : Phase) : Shared * Phase :=
  match p, i with
  | AwaitHello hello, Read b => (sh, on_hello hello b)
  | AwaitLocation location, Read b => on_location location b sh
  | (AwaitHello _ | AwaitLocation _), ReadError e => (sh, Done Unregistered (Err (EdgeConnectionError.Io e)))
  | SendId device_id location_raw, IdWritten r => on_id_written device_id location_raw r sh
  | Receiving device_id location_raw buf, Read b => on_read device_id location_raw buf b sh
  | Receiving device_id _ _, ReadError e =>
      disconnect device_id (DisconnectionReason.Error e) (Err (EdgeConnectionError.Io e)) sh
  | Receiving device_id _ _, Cancelled => disconnect device_id DisconnectionReason.GracefulClose (Ok tt) sh
  | Decoding device_id location_raw buf, Work => decode_one device_id location_raw buf sh
  | _, _ => (sh, p)
  end.

(** The turns of the [while] loop until it waits for the stream again or the handler returns. *)
Fixpoint drain (fuel : nat) (x : Shared * Phase) : Shared * Phase :=
  match fuel, x with
  | Datatypes.S fuel', (sh, Decoding device_id location_raw buf) =>
      drain fuel' (decode_one device_id location_raw buf sh)
  | _, _ => x
  end.

(** The reads of a connection that runs alone: after each one the buffer is decoded. *)
Definition read_and_drain (x : Shared * Phase) (b : bytes) : Shared * Phase :=
  match connection_step (Read b) (fst x) (snd x) with
  | (sh, Decoding d l buf) => drain (1 + length buf) (sh, Decoding d l buf)
  | (sh, SendId d l) => connection_step (IdWritten (Ok tt)) sh (SendId d l)
  | y => y
  end.

(** How many bytes a read may return where the handler waits: [read_exact] asks for what is missing,
    the loop for [tmp.len()]; of a closed connection nothing is read, whatever arrives. *)
Definition read_limit (p : Phase) : nat :=
  match p with
  | AwaitHello hello => 5 - length hello
  | AwaitLocation location => 8 - length location
  | SendId _ _ | Decoding _ _ _ => 0
  | Receiving _ _ _ | Done _ _ | Panicked _ => 256
  end.

(** A sequence of reads the stream may deliver to a connection in [x]. *)
Definition run_reads (x : Shared * Phase) (reads : list bytes) : Shared * Phase :=
  foldl read_and_drain x reads.

Fixpoint legal_reads (x : Shared * Phase) (reads : list bytes) : Prop :=
  match reads with
  | [] => True
  | b :: reads =>
      b <> [] /\ (length b <= read_limit (snd x))%nat /\ legal_reads (read_and_drain x b) reads
  end.

(** The readings a list of packets stands for, when the first one is given the [n]-th identifier. *)
Fixpoint packet_readings (device_id : DeviceId) (location_raw : Z) (packets : list ReadingPacket) (n : nat) :
    option (list SensorReading) :=
  match packets with
  | [] => Some []
  | p :: packets =>
      m ← convert_metric (rp_metric p);
      rs ← packet_readings device_id location_raw packets (1 + n);
      Some (edge_reading device_id location_raw p m n :: rs)
  end.
End handler.

(** ** The server *)

(** [ersha-dispatch/src/edge/tcp.rs:85-135] run_server_loop: the loop, the tasks it spawned, and the
    rest of the process as far as it touches what they share; [srv_taken] is what the uploader took
    from the pending events. *)
Record Server := mkServer {
  srv_accepting : bool;
  srv_cancelled : bool;
  srv_connections : list Phase;
  srv_shared : Shared;
  srv_taken : list PrimeEvent
}.

Inductive Event :=
  | Accept                           (* 103: a client connects *)
  | AcceptError (e : ErrorKind.t)    (* 123 *)
  | Cancel                           (* the token is cancelled *)
  | LoopCancelled                    (* 97: the loop sees it *)
  | ReceiverDropped                  (* the collector is gone *)
  | EventsTaken                      (* the uploader takes the pending events *)
  | AlertQueued (a : AlertRequest)   (* the collector queues an alert *)
  | OnConnection (i : nat) (input : Input).

Section server.
Context `{!EdgeCodec} `{!UlidGen} `{!Clock} (dispatcher_id : DispatcherId).

(** [ersha-dispatch/src/edge/tcp.rs:63-82] start: the server after the bind *)
Definition start (state : DispatchState.t) (n : nat) : Server :=
  mkServer true false [] (mkShared state [] true n) [].

Definition with_state (f : DispatchState.t -> DispatchState.t) (sh : Shared) : Shared :=
  mkShared (f (sh_state sh)) (sh_sent sh) (sh_rx_open sh) (sh_next sh).

(** [ersha-dispatch/src/edge/tcp.rs:95-133] run_server_loop: one event *)
Definition server_step (e : Event) (s : Server) : Server :=
  let '(mkServer accepting cancelled connections sh taken) := s in
  match e with
  | Accept => mkServer accepting cancelled (connections ++ [AwaitHello []]) sh taken
  | AcceptError k => mkServer (is_transient_error k) cancelled connections sh taken
  | Cancel => mkServer accepting true connections sh taken
  | LoopCancelled => mkServer false cancelled connections sh taken
  | ReceiverDropped =>
      mkServer accepting cancelled connections (mkShared (sh_state sh) (sh_sent sh) false (sh_next sh)) taken
  | EventsTaken =>
      mkServer accepting cancelled connections
        (with_state (fun st => fst (DispatchState.take_pending_events st)) sh)
        (taken ++ snd (DispatchState.take_pending_events (sh_state sh)))
  | AlertQueued a =>
      mkServer accepting cancelled connections (with_state (DispatchState.queue_alert a) sh) taken
  | OnConnection i input =>
      match connections !! i with
      | Some p =>
          let (sh, p) := connection_step dispatcher_id input sh p in
          mkServer accepting cancelled (<[i := p]> connections) sh taken
      | None => s
      end
  end.

(** Whether an event can happen. *)
Definition input_enabled (cancelled : bool) (i : Input) (p : Phase) : bool :=
  match p, i with
  | (AwaitHello _ | AwaitLocation _ | Receiving _ _ _), Read b => Nat.leb (length b) (read_limit p)
  | (AwaitHello _ | AwaitLocation _ | Receiving _ _ _), ReadError _ => true
  | SendId _ _, IdWritten _ => true
  | Receiving _ _ _, Cancelled => cancelled
  | Decoding _ _ _, Work => true
  | _, _ => false
  end.

Definition enabled (s : Server) (e : Event) : bool :=
  match e with
  | Accept | AcceptError _ => srv_accepting s
  | LoopCancelled => srv_accepting s && srv_cancelled s
  | OnConnection i input =>
      match srv_connections s !! i with
      | Some p => input_enabled (srv_cancelled s) input p
      | None => false
      end
  | Cancel | ReceiverDropped | EventsTaken | AlertQueued _ => true
  end.

Inductive reachable (state : DispatchState.t) (n : nat) : Server -> Prop :=
  | reach_start : reachable state n (start state n)
  | reach_step s e : reachable state n s -> enabled s e = true -> reachable state n (server_step e s).
End server.

(** ** Decoding a stream *)

Lemma hundredths_is_Some v : is_Some (hundredths v).
Proof. apply NotNan_new_is_Some, f64_div_not_nan, f64_of_int_not_nan. Qed.

Lemma convert_metric_is_Some m : is_Some (convert_metric m).
Proof. destruct m; simpl; rewrite ?fmap_is_Some; eauto using hundredths_is_Some. Qed.

Section stream.
Context `{EdgeCodecLaws} `{!UlidGen} `{!Clock} (dispatcher_id : DispatcherId).
Local Abbreviation decode_one := (decode_one dispatcher_id).
Local Abbreviation drain := (drain dispatcher_id).
Local Abbreviation read_and_drain := (read_and_drain dispatcher_id).
Local Abbreviation run_reads := (run_reads dispatcher_id).
Local Abbreviation legal_reads := (legal_reads dispatcher_id).

(** The loop as a function of the buffer, with the fuel it needs. *)
Definition decode (d : DeviceId) (l : Z) (buf : bytes) (sh : Shared) : Shared * Phase :=
  drain (1 + length buf) (sh, Decoding d l buf).

Lemma decode_one_shrinks d l buf sh sh' d' l' buf' :
  decode_one d l buf sh = (sh', Decoding d' l' buf') -> d' = d /\ l' = l /\ (length buf' < length buf)%nat.
Proof.
  unfold EdgeTcp.decode_one, on_payload, disconnect.
  destruct buf as [|x b]; [done|]. destruct (msg_take_from_bytes _) as [msg rest| |] eqn:Ht; try done.
  apply take_consumes in Ht. repeat case_match; intros [= <- <- <- <-]; auto.
Qed.

Lemma drain_fuel f f' d l buf sh :
  (length buf < f)%nat -> (length buf < f')%nat ->
  drain f (sh, Decoding d l buf) = drain f' (sh, Decoding d l buf).
Proof.
  revert f' buf sh. induction f as [|f IH]; intros f' buf sh Hf Hf'; [lia|].
  destruct f' as [|f']; [lia|]. cbn [EdgeTcp.drain].
  destruct (decode_one d l buf sh) as [sh' p] eqn:He. destruct p; try by destruct f, f'.
  apply decode_one_shrinks in He as (-> & -> & Hlt). apply IH; lia.
Qed.

Lemma decode_eq d l buf sh :
  decode d l buf sh =
  match decode_one d l buf sh with
  | (sh', Decoding _ _ buf') => decode d l buf' sh'
  | y => y
  end.
Proof.
  unfold decode at 1. cbn [EdgeTcp.drain Nat.add].
  destruct (decode_one d l buf sh) as [sh' p] eqn:He. destruct p; try by destruct buf.
  apply decode_one_shrinks in He as (-> & -> & Hlt). apply drain_fuel; lia.
Qed.

(** What a buffer decodes to does not change when more bytes follow: they are decoded after it. *)
Lemma decode_app d l w c sh :
  decode d l (w ++ c) sh =
  match decode d l w sh with
  | (sh', Receiving _ _ buf') => decode d l (buf' ++ c) sh'
  | y => y
  end.
Proof.
  revert sh. induction w as [w IH] using (induction_ltof1 _ (@length Z)). unfold ltof in IH. intros sh.
  rewrite (decode_eq d l w).
  destruct w as [|x w']; [done|]. set (w := x :: w') in *.
  assert (forall b, b <> [] -> decode_one d l b sh =
    match msg_take_from_bytes b with
    | More => (sh, Receiving d l b)
    | Bad e => disconnect d (DisconnectionReason.Error e) (Err (EdgeConnectionError.Postcard e)) sh
    | Got msg rest =>
        if decide (msg_preamble msg = PACKET_PREAMBLE) then on_payload dispatcher_id d l (msg_payload msg) rest sh
        else disconnect d (DisconnectionReason.Error "Invalid preamble")
               (Err (EdgeConnectionError.InvalidPreamble (msg_preamble msg))) sh
    end) as Hone.
  { intros [|y b]; [done|]. intros _. cbn -[decide]. destruct (msg_take_from_bytes _) as [[? ? [] ?]| |]; done. }
  rewrite (Hone w) by done.
  destruct (msg_take_from_bytes w) as [msg rest| |e] eqn:Ht.
  - rewrite decode_eq, (Hone (w ++ c)) by done. rewrite (take_got_more _ _ _ c Ht).
    apply take_consumes in Ht. case_decide; [|done]. unfold on_payload, disconnect.
    destruct (packet_from_bytes _) as [packet|]; [|done].
    destruct (convert_metric _) as [m|]; [|done].
    destruct (sh_rx_open sh); [|done]. by apply IH.
  - done.
  - rewrite decode_eq, (Hone (w ++ c)) by done. by rewrite (take_bad_more _ _ c Ht).
Qed.

Lemma decode_phase d l buf sh :
  match snd (decode d l buf sh) with
  | Receiving d' l' _ => d' = d /\ l' = l
  | Done _ _ | Panicked _ => True
  | _ => False
  end.
Proof.
  revert sh. induction buf as [buf IH] using (induction_ltof1 _ (@length Z)). unfold ltof in IH. intros sh.
  rewrite decode_eq. destruct (decode_one d l buf sh) as [sh' p] eqn:He.
  assert (match p with
          | Receiving d' l' _ | Decoding d' l' _ => d' = d /\ l' = l
          | Done _ _ | Panicked _ => True | _ => False end) as Hp.
  { revert He. unfold EdgeTcp.decode_one, on_payload, disconnect. repeat case_match; intros [= <- <-]; auto. }
  destruct p; try done. apply decode_one_shrinks in He as (_ & _ & Hlt). by apply IH.
Qed.

(** [n] turns of the decoding loop of one connection, the [i]-th in the shared state [env i] that the
    rest of the process has left by then. *)
Definition decoding_turns (env : nat -> Shared) (p : Phase) (n : nat) : Phase :=
  foldl (fun p i => snd (connection_step dispatcher_id Work (env i) p)) p (seq 0 n).

Lemma decoding_turns_S env p n :
  decoding_turns env p (Datatypes.S n) =
  decoding_turns (fun i => env (Datatypes.S i)) (snd (connection_step dispatcher_id Work (env 0%nat) p)) n.
Proof.
  unfold decoding_turns. cbn [seq foldl]. rewrite <- (seq_shift n 0).
  generalize (snd (connection_step dispatcher_id Work (env 0%nat) p)). generalize (seq 0 n).
  intros l. induction l as [|i l IH]; intros q; [done|apply IH].
Qed.

Lemma decode_one_phase d l buf sh :
  match snd (decode_one d l buf sh) with
  | Receiving d' l' rest => d' = d /\ l' = l /\ rest = buf
  | Decoding d' l' rest => d' = d /\ l' = l /\ (length rest < length buf)%nat
  | Done _ _ | Panicked _ => True
  | _ => False
  end.
Proof.
  destruct (decode_one d l buf sh) as [sh' p] eqn:E. cbn [snd].
  destruct p as [| | | |d' l' rest| |]; try by (revert E; unfold EdgeTcp.decode_one, on_payload, disconnect;
    repeat case_match; by intros [=]).
  by apply decode_one_shrinks in E.
Qed.

Lemma decoding_turns_end env d l buf :
  exists n, (n <= 1 + length buf)%nat /\
    match decoding_turns env (Decoding d l buf) n with
    | Receiving d' l' rest => d' = d /\ l' = l /\ (length rest <= length buf)%nat
    | Done _ _ | Panicked _ => True
    | _ => False
    end.
Proof.
  revert env. induction buf as [buf IH] using (induction_ltof1 _ (@length Z)). unfold ltof in IH.
  intros env. pose proof (decode_one_phase d l buf (env 0%nat)) as Hone.
  destruct (snd (decode_one d l buf (env 0%nat))) as [| | |d' l' rest|d' l' rest| |] eqn:E; try done.
  - destruct Hone as (-> & -> & ->). exists 1%nat. split; [lia|].
    rewrite decoding_turns_S. cbn [connection_step]. by rewrite E.
  - destruct Hone as (-> & -> & Hlt). destruct (IH rest Hlt (fun i => env (Datatypes.S i))) as (n & Hn & Hm).
    exists (Datatypes.S n). split; [lia|]. rewrite decoding_turns_S. cbn [connection_step]. rewrite E.
    destruct (decoding_turns _ _ _); try done. destruct Hm as (-> & -> & ?). repeat split; lia.
  - exists 1%nat. split; [lia|]. rewrite decoding_turns_S. cbn [connection_step]. by rewrite E.
  - exists 1%nat. split; [lia|]. rewrite decoding_turns_S. cbn [connection_step]. by rewrite E.
Qed.

Lemma read_and_drain_receiving d l buf b sh : b <> [] ->
  read_and_drain (sh, Receiving d l buf) b = decode d l (buf ++ b) sh.
Proof. by destruct b. Qed.

(** One read may be split in two. *)
Lemma read_and_drain_app x b c :
  b <> [] -> c <> [] -> (length (b ++ c) <= read_limit (snd x))%nat ->
  read_and_drain x (b ++ c) = read_and_drain (read_and_drain x b) c.
Proof.
  intros Hb Hc Hlen. rewrite length_app in Hlen. destruct x as [sh p].
  assert (length b <> 0 /\ length c <> 0)%nat as [Lb Lc] by (destruct b, c; done || (split; simpl; lia)).
  assert (b ++ c <> []) as Hbc by (by destruct b).
  destruct p as [h|h|d l|d l buf|d l buf|f r|d]; try done; cbn [snd read_limit] in Hlen.
  - unfold EdgeTcp.read_and_drain at 1 3; cbn [fst snd connection_step on_hello].
    unfold on_hello. destruct b as [|b0 b'] eqn:Eb; [done|rewrite <- Eb in *].
    destruct (b ++ c) as [|bc0 bc'] eqn:Ebc; [done|rewrite <- Ebc in *]. rewrite !length_app.
    rewrite (proj2 (Nat.ltb_lt (length h + length b) 5)) by lia.
    unfold EdgeTcp.read_and_drain. cbn [fst snd connection_step]. unfold on_hello.
    destruct c as [|c0 c'] eqn:Ec; [done|rewrite <- Ec in *]. rewrite !length_app, !(assoc_L (++)).
    rewrite !Nat.add_assoc. by repeat case_match.
  - unfold EdgeTcp.read_and_drain at 1 3; cbn [fst snd connection_step].
    unfold on_location. destruct b as [|b0 b'] eqn:Eb; [done|rewrite <- Eb in *].
    destruct (b ++ c) as [|bc0 bc'] eqn:Ebc; [done|rewrite <- Ebc in *]. rewrite !length_app.
    rewrite (proj2 (Nat.ltb_lt (length h + length b) 8)) by lia.
    unfold EdgeTcp.read_and_drain. cbn [fst snd connection_step]. unfold on_location.
    destruct c as [|c0 c'] eqn:Ec; [done|rewrite <- Ec in *]. rewrite !length_app, !(assoc_L (++)).
    rewrite !Nat.add_assoc. by repeat case_match.
  - lia.
  - rewrite !read_and_drain_receiving by done. rewrite (assoc_L (++)), decode_app.
    pose proof (decode_phase d l (buf ++ b) sh) as Hp.
    destruct (decode d l (buf ++ b) sh) as [sh' p]. cbn [snd] in Hp.
    destruct p; try done. destruct Hp as [-> ->]. by rewrite read_and_drain_receiving.
  - lia.
Qed.

Lemma read_and_drain_bytes x b :
  b <> [] -> (length b <= read_limit (snd x))%nat -> read_and_drain x b = run_reads x ((fun c => [c]) <$> b).
Proof.
  induction b as [|c b IH] using rev_ind; [done|]. intros _ Hlen.
  destruct b as [|b0 b']; [done|]. set (b := b0 :: b') in *.
  rewrite read_and_drain_app, IH by (done || (rewrite length_app in Hlen; lia)).
  unfold EdgeTcp.run_reads. by rewrite fmap_app, foldl_app.
Qed.

Lemma run_reads_bytes x reads :
  legal_reads x reads -> run_reads x reads = run_reads x ((fun c => [c]) <$> concat reads).
Proof.
  revert x. induction reads as [|b reads IH]; [done|]. intros x (Hb & Hlen & Hr).
  unfold EdgeTcp.run_reads in *. cbn [foldl concat]. rewrite fmap_app, foldl_app, IH by done.
  f_equal. by apply read_and_drain_bytes.
Qed.

Lemma run_reads_rechunk x reads reads' :
  legal_reads x reads -> legal_reads x reads' -> concat reads = concat reads' ->
  run_reads x reads = run_reads x reads'.
Proof. intros Hl Hl' He. rewrite (run_reads_bytes x reads), (run_reads_bytes x reads') by done. by rewrite He. Qed.

(** A frame the firmware writes is decoded to the reading of its packet. *)
Lemma reading_bytes_inv p f : ReadingPacket_wf p -> reading_bytes p = Ok f ->
  f <> [] /\ (length f <= 128)%nat /\
  msg_take_from_bytes f = Got (mkMsg PACKET_PREAMBLE PROTOCOL_VERSION MsgReading (packet_to_bytes p)) [].
Proof.
  intros Hp. unfold reading_bytes. case_match; [done|]. case_match eqn:Hlen; [done|]. intros [= <-].
  apply Z.ltb_ge in Hlen. unfold MAX_PACKET_SIZE in Hlen.
  assert (msg_take_from_bytes (msg_to_bytes (mkMsg PACKET_PREAMBLE PROTOCOL_VERSION MsgReading (packet_to_bytes p)))
          = Got (mkMsg PACKET_PREAMBLE PROTOCOL_VERSION MsgReading (packet_to_bytes p)) []) as Hm.
  { apply msg_roundtrip. split_and!; [done|done|]. apply packet_to_bytes_u8. }
  split_and!; [|lia|done]. intros He. apply take_consumes in Hm. rewrite He in Hm. simpl in Hm. lia.
Qed.

Lemma decode_frame d l p f m sh :
  ReadingPacket_wf p -> reading_bytes p = Ok f -> convert_metric (rp_metric p) = Some m -> sh_rx_open sh = true ->
  decode d l f sh =
  (mkShared (sh_state sh) (sh_sent sh ++ [Reading (edge_reading dispatcher_id d l p m (sh_next sh))]) true
     (1 + sh_next sh), Receiving d l []).
Proof.
  intros Hp Hf Hm Hopen. destruct (reading_bytes_inv p f Hp Hf) as (Hne & _ & Ht).
  rewrite decode_eq. destruct f as [|x f]; [done|]. cbn -[decide]. rewrite Ht. cbn -[decide].
  rewrite decide_True by done. unfold on_payload. rewrite packet_roundtrip by done. by rewrite Hm, Hopen.
Qed.

Lemma run_frames d l packets frames sh :
  Forall ReadingPacket_wf packets -> Forall2 (fun p f => reading_bytes p = Ok f) packets frames ->
  sh_rx_open sh = true ->
  exists readings, packet_readings dispatcher_id d l packets (sh_next sh) = Some readings /\
    legal_reads (sh, Receiving d l []) frames /\
    run_reads (sh, Receiving d l []) frames =
      (mkShared (sh_state sh) (sh_sent sh ++ (Reading <$> readings)) true (length packets + sh_next sh),
       Receiving d l []).
Proof.
  intros Hwf Hf. revert sh. induction Hf as [|p f packets frames Hp Hf IH]; intros sh Hopen.
  - exists []. split_and!; [done..|]. cbn. rewrite app_nil_r, <- Hopen. by destruct sh.
  - apply Forall_cons in Hwf as [Hwp Hwf]. destruct (convert_metric_is_Some (rp_metric p)) as [m Hm].
    destruct (reading_bytes_inv p f Hwp Hp) as (Hne & Hlen & _).
    set (sh' := mkShared (sh_state sh) (sh_sent sh ++ [Reading (edge_reading dispatcher_id d l p m (sh_next sh))])
                  true (1 + sh_next sh)).
    destruct (IH Hwf sh' eq_refl) as (rs & Hrs & Hlegal & Hrun).
    assert (read_and_drain (sh, Receiving d l []) f = (sh', Receiving d l [])) as Hstep.
    { rewrite read_and_drain_receiving by done. by apply decode_frame. }
    exists (edge_reading dispatcher_id d l p m (sh_next sh) :: rs). split_and!.
    + cbn [packet_readings]. rewrite Hm. cbn. cbn in Hrs. by rewrite Hrs.
    + cbn [EdgeTcp.legal_reads]. rewrite Hstep. split_and!; [done|cbn; lia|done].
    + cbn [EdgeTcp.run_reads foldl]. unfold EdgeTcp.run_reads in *. cbn [foldl]. rewrite Hstep, Hrun.
      f_equal. unfold sh'. cbn. f_equal; [by rewrite <- (assoc_L (++))|lia].
Qed.

Lemma greeting sh location :
  u64 location ->
  let id := mkDeviceId (ulid_new (sh_next sh)) in
  legal_reads (sh, AwaitHello []) [HELLO; be_bytes 8 location] /\
  run_reads (sh, AwaitHello []) [HELLO; be_bytes 8 location] =
    (mkShared (DispatchState.device_connected id (sh_state sh)) (sh_sent sh) (sh_rx_open sh) (1 + sh_next sh),
     Receiving id location []).
Proof.
  intros Hl id. assert (of_be_bytes (be_bytes 8 location) = location) as Ho by (by apply be_bytes_roundtrip).
  pose proof (length_be_bytes 8 location) as Hn.
  split.
  - cbn -[be_bytes]. split_and!; [done|by vm_compute; lia|by intros He; rewrite He in Hn|rewrite Hn|done].
    by vm_compute; lia.
  - assert (read_and_drain (sh, AwaitHello []) HELLO = (sh, AwaitLocation [])) as Hhello by reflexivity.
    unfold EdgeTcp.run_reads. cbn [foldl]. rewrite Hhello.
    unfold EdgeTcp.read_and_drain. cbn [fst snd connection_step]. unfold on_location.
    destruct (be_bytes 8 location) as [|b0 b] eqn:Eb; [done|]. cbn [app] in *. by rewrite Hn, Ho.
Qed.

(** C35: However the network cuts the stream of a connection into reads, the handler ends in the same
    phase, with the same buffer, and with the same readings sent and disconnections reported: two
    sequences of reads of the same bytes, garbage included, cannot be told apart. *)
Theorem reads_can_be_cut_anywhere x reads reads' :
  legal_reads x reads -> legal_reads x reads' -> concat reads = concat reads' ->
  run_reads x reads = run_reads x reads'.
Proof. apply run_reads_rechunk. Qed.

(** C12: The decoding loop ends whatever the bytes are and whatever the other connections, the
    collector and the uploader do to the shared state between its turns: after at most one turn more
    than the buffer has bytes the handler waits for the stream again, has returned, or has panicked;
    and on its own it is [drain], for which that many turns are enough fuel and more change nothing. *)
Theorem decoding_terminates (env : nat -> Shared) d l buf :
  (exists n, (n <= 1 + length buf)%nat /\
     match decoding_turns env (Decoding d l buf) n with
     | Receiving d' l' rest => d' = d /\ l' = l /\ (length rest <= length buf)%nat
     | Done _ _ | Panicked _ => True
     | _ => False
     end) /\
  forall fuel sh, (length buf < fuel)%nat ->
    drain fuel (sh, Decoding d l buf) = decode d l buf sh /\
    match snd (decode d l buf sh) with Decoding _ _ _ => False | _ => True end.
Proof.
  split; [apply decoding_turns_end|]. intros fuel sh Hf. split; [apply drain_fuel; lia|].
  pose proof (decode_phase d l buf sh). by case_match.
Qed.

(** What a device's firmware writes after its greeting arrives: however the stream of HELLO, the
    location and the frames of [packets] is cut into reads, the handler registers one fresh device
    identifier, which the 16 bytes it answered decode to, and sends exactly one reading per packet on
    the channel, in order, with the packet's sensor and converted metric, the location and that
    identifier; no byte is left in the buffer. *)
Theorem firmware_stream_decoded sh location packets frames reads :
  u64 location -> u128 (ulid_new (sh_next sh)) -> Forall ReadingPacket_wf packets ->
  Forall2 (fun p f => reading_bytes p = Ok f) packets frames -> sh_rx_open sh = true ->
  legal_reads (sh, AwaitHello []) reads ->
  concat reads = HELLO ++ be_bytes 8 location ++ concat frames ->
  let id := mkDeviceId (ulid_new (sh_next sh)) in
  of_be_bytes (id_reply id) = device_ulid id /\
  exists readings,
    packet_readings dispatcher_id id location packets (1 + sh_next sh) = Some readings /\
    run_reads (sh, AwaitHello []) reads =
      (mkShared (DispatchState.device_connected id (sh_state sh)) (sh_sent sh ++ (Reading <$> readings)) true
         (length packets + (1 + sh_next sh)), Receiving id location []).
Proof.
  intros Hl Hu Hwf Hf Hopen Hlegal Hcat id. split; [by apply be_bytes_roundtrip|].
  destruct (greeting sh location Hl) as [Hg Hrun].
  set (sh' := mkShared (DispatchState.device_connected id (sh_state sh)) (sh_sent sh) (sh_rx_open sh) (1 + sh_next sh)) in *.
  destruct (run_frames id location packets frames sh' Hwf Hf Hopen) as (readings & Hr & Hfl & Hfr).
  exists readings. split; [done|].
  rewrite (run_reads_rechunk _ reads ([HELLO; be_bytes 8 location] ++ frames)).
  - unfold EdgeTcp.run_reads in *. by rewrite foldl_app, Hrun.
  - done.
  - destruct Hg as (? & ? & ? & ? & _). cbn [app EdgeTcp.legal_reads]. split_and!; try done.
    unfold EdgeTcp.run_reads in Hrun. cbn [foldl] in Hrun. by rewrite Hrun.
  - rewrite Hcat, concat_app. cbn [concat]. by rewrite app_nil_r, <- (assoc_L (++)).
Qed.
End stream.

(** ** Which devices the shared state takes for connected *)

(** The devices whose disconnection a list of events reports. *)
Definition disconnections (events : list PrimeEvent) : list DeviceId :=
  omap (fun e => match e with DeviceDisconnection d _ => Some d | Alert _ => None end) events.

(** The device of a connection in [p] is registered, and the handler has not reported that it left. *)
Definition tracked (d : DeviceId) (p : Phase) : Prop :=
  match p with
  | Receiving d' _ _ | Decoding d' _ _ | Done (Unreported d') _ => d' = d
  | _ => False
  end.
Definition reported (d : DeviceId) (p : Phase) : Prop :=
  match p with Done (Reported d') _ => d' = d | _ => False end.

Module Tracker.
Inductive stage := Assigned | Connected | Gone.

(** What tracking needs to know of a connection: its device, and how far it got. *)
Definition abs (p : Phase) : option (DeviceId * stage) :=
  match p with
  | AwaitHello _ | AwaitLocation _ | Done Unregistered _ => None
  | SendId d _ => Some (d, Assigned)
  | Receiving d _ _ | Decoding d _ _ | Done (Unreported d) _ | Panicked d => Some (d, Connected)
  | Done (Reported d) _ => Some (d, Gone)
  end.

Record t := mk {
  stages : list (option (DeviceId * stage));
  connected : gset DeviceId;
  gone : list DeviceId;
  drawn : nat
}.

Inductive step `{!UlidGen} (i : nat) : t -> t -> Prop :=
  | step_same l c g n o : l !! i = Some o -> step i (mk l c g n) (mk l c g n)
  | step_sent l c g n o : l !! i = Some o -> step i (mk l c g n) (mk l c g (1 + n))
  | step_assign l c g n : l !! i = Some None ->
      step i (mk l c g n) (mk (<[i := Some (mkDeviceId (ulid_new n), Assigned)]> l) c g (1 + n))
  | step_fail l c g n d : l !! i = Some (Some (d, Assigned)) -> step i (mk l c g n) (mk (<[i := None]> l) c g n)
  | step_connect l c g n d : l !! i = Some (Some (d, Assigned)) ->
      step i (mk l c g n) (mk (<[i := Some (d, Connected)]> l) ({[d]} ∪ c) g n)
  | step_leave l c g n n' d : l !! i = Some (Some (d, Connected)) -> (n <= n')%nat ->
      step i (mk l c g n) (mk (<[i := Some (d, Gone)]> l) (c ∖ {[d]}) (g ++ [d]) n').

Record inv `{!UlidGen} (x : t) : Prop := mkInv {
  inv_drawn i d k : stages x !! i = Some (Some (d, k)) -> exists j, (j < drawn x)%nat /\ d = mkDeviceId (ulid_new j);
  inv_distinct i j d k k' : stages x !! i = Some (Some (d, k)) -> stages x !! j = Some (Some (d, k')) -> i = j;
  inv_connected d : d ∈ connected x <-> exists i, stages x !! i = Some (Some (d, Connected));
  inv_nodup : NoDup (gone x);
  inv_gone d : d ∈ gone x <-> exists i, stages x !! i = Some (Some (d, Gone))
}.

Section inv.
Context `{!UlidGen} `{!Inj (=) (=) ulid_new}.

Lemma lookup_update {A} (l : list A) i o j y :
  l !! i = Some o -> (<[i := y]> l) !! j = if decide (i = j) then Some y else l !! j.
Proof.
  intros Hi. apply lookup_lt_Some in Hi. case_decide; [subst; by apply list_lookup_insert_eq|].
  by apply list_lookup_insert_ne.
Qed.

Lemma elem_stage (l : list (option (DeviceId * stage))) (i : nat) o y d k :
  l !! i = Some o ->
  (exists j : nat, <[i := y]> l !! j = Some (Some (d, k))) <->
  y = Some (d, k) \/ exists j : nat, j <> i /\ l !! j = Some (Some (d, k)).
Proof.
  intros Hi. setoid_rewrite (lookup_update l i _ _ _ Hi). split.
  - intros [j Hj]. case_decide; simplify_eq; eauto.
  - intros [->|(j & Hne & Hj)]; [exists i; by rewrite decide_True|].
    exists j. by rewrite decide_False by done.
Qed.

Lemma elem_stage_old (l : list (option (DeviceId * stage))) (i : nat) o d k :
  l !! i = Some o ->
  (exists j : nat, l !! j = Some (Some (d, k))) <->
  o = Some (d, k) \/ exists j : nat, j <> i /\ l !! j = Some (Some (d, k)).
Proof.
  intros Hi. split; [intros [j Hj]; destruct (decide (j = i)) as [->|]; simplify_eq; eauto|].
  intros [->|(j & ? & ?)]; eauto.
Qed.

(** The device of a connection is drawn already or the next one, and no other connection has it. *)
Lemma inv_stages l c g n n' (i : nat) o y :
  inv (mk l c g n) -> l !! i = Some o -> (n <= n')%nat ->
  (forall d k, y = Some (d, k) ->
    (exists k', o = Some (d, k')) \/ (d = mkDeviceId (ulid_new n) /\ (n < n')%nat)) ->
  (forall (j : nat) d k, <[i := y]> l !! j = Some (Some (d, k)) -> exists j', (j' < n')%nat /\ d = mkDeviceId (ulid_new j')) /\
  (forall (j1 j2 : nat) d k k', <[i := y]> l !! j1 = Some (Some (d, k)) -> <[i := y]> l !! j2 = Some (Some (d, k')) -> j1 = j2).
Proof.
  intros [Hd Hu _ _ _] Hi Hle Hy. cbn in *.
  assert (forall (j : nat) d k, l !! j = Some (Some (d, k)) -> d <> mkDeviceId (ulid_new n)) as Hnew.
  { intros j d k Hj ->. destruct (Hd j _ k Hj) as (m & Hm & [= He]). apply (inj _) in He. lia. }
  split; [intros j d k|intros j1 j2 d k k']; rewrite !(lookup_update l i _ _ _ Hi).
  - case_decide as Hij.
    + intros [= ->]. destruct (Hy d k eq_refl) as [[k' ->]|[-> Hlt]]; [|eauto].
      destruct (Hd i d k' Hi) as (m & Hm & ->). exists m. split; [lia|done].
    + intros Hj. destruct (Hd j d k Hj) as (m & Hm & ->). exists m. split; [lia|done].
  - repeat case_decide; subst; intros H1' H2'; simplify_eq; try done.
    + destruct (Hy d k eq_refl) as [[k1 ->]|[-> _]]; [eauto|]. by destruct (Hnew _ _ _ H2').
    + destruct (Hy d k' eq_refl) as [[k1 ->]|[-> _]]; [eauto|]. by destruct (Hnew _ _ _ H1').
    + eauto.
Qed.

Lemma inv_step i x y : inv x -> step i x y -> inv y.
Proof.
  intros Hx Hs.
  destruct Hs as [l c g n o Hi|l c g n o Hi|l c g n Hi|l c g n d Hi|l c g n d Hi|l c g n n' d Hi Hle]; [done|..].
  1: { destruct Hx as [Hd Hu Hc Hn Hg]. constructor; cbn in *; try done.
       intros j d k Hj. destruct (Hd j d k Hj) as (m & ? & ?). eauto with lia. }
  all: match goal with |- inv (mk (<[_ := ?y]> _) _ _ ?n') =>
         destruct (inv_stages l c g n n' i _ y Hx Hi) as [Hd' Hu'];
           [lia|by intros ? ? [= <- <-]; eauto with lia|] end.
  all: destruct Hx as [Hd Hu Hc Hn Hg]; constructor; cbn in *; try done;
    try (intros e; rewrite ?elem_of_difference, ?elem_of_union, ?elem_of_singleton, ?elem_of_app,
           ?list_elem_of_singleton, ?Hc, ?Hg, (elem_stage l i _ _ _ _ Hi), (elem_stage_old l i _ _ _ Hi);
         naive_solver).
  apply NoDup_app. split_and!; [done| |apply NoDup_singleton].
  intros e He ->%list_elem_of_singleton. apply Hg in He as [j Hj].
  by destruct (Hu i j d _ _ Hi Hj); simplify_eq.
Qed.
(** A connection that is only accepted has no device yet. *)
Lemma inv_idle l c g n : inv (mk l c g n) -> inv (mk (l ++ [None]) c g n).
Proof.
  assert (forall (i : nat) d k, (l ++ [None]) !! i = Some (Some (d, k)) <-> l !! i = Some (Some (d, k))) as Hl.
  { intros i d k. rewrite lookup_app_Some. split; [|by left].
    intros [?|[_ Hi]]; [done|]. by apply list_lookup_singleton_Some in Hi as [_ ?]. }
  intros [Hd Hu Hc Hn Hg]. constructor; cbn in *; try done; setoid_rewrite Hl; done.
Qed.
End inv.
End Tracker.

Lemma disconnections_app a b : disconnections (a ++ b) = disconnections a ++ disconnections b.
Proof. apply omap_app. Qed.

(** How the task of a connection can have ended. *)
Definition ended_well (p : Phase) : Prop :=
  match p with
  | Panicked _ => False
  | Done (Unreported _) r => exists e, r = Err (EdgeConnectionError.Postcard e)
  | _ => True
  end.

Section tracking.
Context `{!EdgeCodec} `{!UlidGen} `{!Clock} (dispatcher_id : DispatcherId).

Definition track (s : Server) : Tracker.t :=
  Tracker.mk (Tracker.abs <$> srv_connections s) (DispatchState.connected_devices (sh_state (srv_shared s)))
    (disconnections (srv_taken s ++ DispatchState.pending_events (sh_state (srv_shared s)))) (sh_next (srv_shared s)).

(** A step of a handler, for any input, is a step of the tracker. *)
Lemma connection_step_tracks input l i p taken sh sh' p' :
  l !! i = Some p -> connection_step dispatcher_id input sh p = (sh', p') ->
  Tracker.step i
    (Tracker.mk (Tracker.abs <$> l) (DispatchState.connected_devices (sh_state sh))
       (disconnections (taken ++ DispatchState.pending_events (sh_state sh))) (sh_next sh))
    (Tracker.mk (Tracker.abs <$> <[i := p']> l) (DispatchState.connected_devices (sh_state sh'))
       (disconnections (taken ++ DispatchState.pending_events (sh_state sh'))) (sh_next sh')).
Proof.
  intros Hi. rewrite list_fmap_insert.
  assert ((Tracker.abs <$> l) !! i = Some (Tracker.abs p)) as Hl by (by rewrite list_lookup_fmap, Hi).
  revert Hl. generalize (Tracker.abs <$> l). clear l Hi. intros l Hl Hs.
  assert (forall d reason r sh0, Tracker.abs p = Some (d, Tracker.Connected) -> sh_state sh0 = sh_state sh ->
    (sh_next sh <= sh_next sh0)%nat -> disconnect d reason r sh0 = (sh', p') ->
    Tracker.step i
      (Tracker.mk l (DispatchState.connected_devices (sh_state sh))
         (disconnections (taken ++ DispatchState.pending_events (sh_state sh))) (sh_next sh))
      (Tracker.mk (<[i := Tracker.abs p']> l) (DispatchState.connected_devices (sh_state sh'))
         (disconnections (taken ++ DispatchState.pending_events (sh_state sh'))) (sh_next sh'))) as Hleave.
  { intros d reason r sh0 Hp Hst Hle [= <- <-]. cbn. rewrite Hst, (assoc_L (++)), (disconnections_app (_ ++ _)).
    rewrite Hp in Hl. by apply Tracker.step_leave. }
  assert (forall q, p' = q -> Tracker.abs q = Tracker.abs p -> sh' = sh -> Tracker.step i
      (Tracker.mk l (DispatchState.connected_devices (sh_state sh))
         (disconnections (taken ++ DispatchState.pending_events (sh_state sh))) (sh_next sh))
      (Tracker.mk (<[i := Tracker.abs p']> l) (DispatchState.connected_devices (sh_state sh'))
         (disconnections (taken ++ DispatchState.pending_events (sh_state sh'))) (sh_next sh'))) as Hsame.
  { intros q -> -> ->. rewrite list_insert_id by done. by eapply Tracker.step_same. }
  destruct p as [h|h|d loc|d loc buf|d loc buf|f r|d], input as [b|e|r'| |];
    cbn [connection_step] in Hs; try (simplify_eq; by eapply Hsame);
    try (eapply Hleave; [..|exact Hs]; done).
  - injection Hs as <- <-. apply (Hsame _ eq_refl); [|done]. unfold on_hello. by repeat case_match.
  - unfold on_location in Hs. destruct b; [simplify_eq; by eapply Hsame|].
    case_match; simplify_eq; [by eapply Hsame|]. by apply Tracker.step_assign.
  - destruct r' as [[]|e]; simplify_eq/=; [by apply Tracker.step_connect|by eapply Tracker.step_fail].
  - destruct b; [by eapply Hleave; [..|exact Hs]|]. simplify_eq/=. by eapply Hsame.
  - unfold decode_one in Hs. destruct buf as [|x buf]; [simplify_eq; by eapply Hsame|].
    destruct (msg_take_from_bytes _) as [msg rest| |];
      [|simplify_eq; by eapply Hsame|by eapply Hleave; [..|exact Hs]].
    case_decide; [|by eapply Hleave; [..|exact Hs]]. destruct (msg_type msg). unfold on_payload in Hs.
    destruct (packet_from_bytes _) as [packet|]; [|simplify_eq; by eapply Hsame].
    destruct (convert_metric _) as [m|]; [|simplify_eq; by eapply Hsame].
    destruct (sh_rx_open sh); [|eapply Hleave; [| | |exact Hs]; cbn; [done|done|lia]].
    simplify_eq. cbn. rewrite list_insert_id by done. by eapply Tracker.step_sent.
Qed.

Lemma connection_step_ends_well input sh p sh' p' :
  ended_well p -> connection_step dispatcher_id input sh p = (sh', p') -> ended_well p'.
Proof.
  intros Hp Hs.
  assert (ended_well (snd (connection_step dispatcher_id input sh p))) as Hq; [|by rewrite Hs in Hq].
  clear Hs. destruct p as [h|h|d loc|d loc buf|d loc buf|f r|d], input as [b|e|r'| |]; try done; cbn.
  - unfold on_hello. by repeat case_match.
  - unfold on_location. by repeat case_match.
  - by destruct r'.
  - unfold on_read. by case_match.
  - unfold decode_one, on_payload. destruct buf; [done|].
    destruct (msg_take_from_bytes _) as [msg rest| |]; try done. case_decide; [|done].
    destruct (msg_type msg), (packet_from_bytes _) as [packet|e]; cbn; [|by eexists].
    destruct (convert_metric_is_Some (rp_metric packet)) as [m ->]. by case_match.
Qed.

Lemma reachable_tracked now n s `{!Inj (=) (=) ulid_new} :
  reachable dispatcher_id (DispatchState.new now) n s ->
  Tracker.inv (track s) /\ Forall ended_well (srv_connections s).
Proof.
  induction 1 as [|s e Hr [IH Hw] He].
  - split; [|constructor]. constructor; cbn; try done; [|apply NoDup_nil_2|].
    all: intros d; split; [by intros ?%elem_of_empty || by intros ?%elem_of_nil|by intros [i Hi]].
  - destruct s as [acc canc conns sh taken].
    destruct e as [|k| | | | |a|i input]; cbn -[connection_step] in *; try (split; assumption).
    + split; [|apply Forall_app; split; [done|by repeat constructor]].
      unfold track. cbn. rewrite fmap_app. by apply Tracker.inv_idle.
    + split; [|done]. unfold track in *. cbn in *. by rewrite app_nil_r.
    + split; [|done]. unfold track in *. cbn in *.
      by rewrite (assoc_L (++)), disconnections_app, app_nil_r.
    + destruct (conns !! i) as [p|] eqn:Hi; [|done].
      destruct (connection_step dispatcher_id input sh p) as [sh' p'] eqn:Hs. split; cbn.
      * eapply Tracker.inv_step; [exact IH|]. by eapply connection_step_tracks.
      * apply Forall_insert; [done|]. eapply connection_step_ends_well; [|done]. by eapply Forall_lookup_1.
Qed.

(** C22: In every state the receiver can reach, whatever the order in which connections, reads, writes,
    decoding turns, cancellation, the collector and the uploader interleave: the connected devices are
    exactly those of the connections that are receiving or decoding, and those whose task returned on
    a malformed payload, which it does without reporting that the device left; each disconnection is
    reported once, for exactly the connections that ended in one of the other ways after registering;
    and no connection's task panics. *)
Theorem connected_devices_tracked now n s `{!Inj (=) (=) ulid_new} :
  reachable dispatcher_id (DispatchState.new now) n s ->
  let state := sh_state (srv_shared s) in
  let reports := disconnections (srv_taken s ++ DispatchState.pending_events state) in
  (forall d, d ∈ DispatchState.connected_devices state <->
     exists i p, srv_connections s !! i = Some p /\ tracked d p) /\
  NoDup reports /\
  (forall d, d ∈ reports <-> exists i p, srv_connections s !! i = Some p /\ reported d p) /\
  Forall ended_well (srv_connections s).
Proof.
  intros Hr. destruct (reachable_tracked _ _ _ Hr) as [[_ _ Hc Hn Hg] Hw]. cbn in *.
  assert (forall d k (P : Phase -> Prop), (forall p, ended_well p -> P p <-> Tracker.abs p = Some (d, k)) ->
    (exists i, (Tracker.abs <$> srv_connections s) !! i = Some (Some (d, k))) <->
    exists i p, srv_connections s !! i = Some p /\ P p) as Habs.
  { intros d k P HP. split.
    - intros [i Hi]. apply list_lookup_fmap_Some in Hi as (p & Hk & Hi).
      exists i, p. split; [done|]. apply HP; [by eapply Forall_lookup_1|done].
    - intros (i & p & Hi & Hp). exists i. rewrite list_lookup_fmap, Hi. cbn. f_equal.
      apply HP; [by eapply Forall_lookup_1|done]. }
  split_and!; [|done| |done]; intros d; [rewrite Hc|rewrite Hg]; apply Habs;
    intros [] Hp; cbn in *; try done; repeat case_match; split; intros; by simplify_eq.
Qed.
End tracking.

(** ** Concrete connections *)

Module Witnesses.
#[local] Existing Instance SampleCodec.codec.
#[local] Existing Instance SampleCodec.codec_laws.
#[local] Instance gen : UlidGen := fun n => 1000 + Z.of_nat n.
#[local] Instance clock : Clock := fun n => mkTimestamp (Z.of_nat n).

Definition shared : Shared := mkShared (DispatchState.new 0) [] true 0.
Definition packet (n : Z) (m : EdgeMetric.t) : ReadingPacket := mkReadingPacket 1000 (100 + n) n m.
Definition packets : list ReadingPacket :=
  [packet 0 (EdgeMetric.SoilTemp (-512)); packet 1 (EdgeMetric.Humidity 61)].
Definition frames : list bytes :=
  Eval vm_compute in (p ← packets; match reading_bytes p with Ok f => [f] | Err _ => [] end).
Definition stream : bytes := Eval vm_compute in HELLO ++ be_bytes 8 77 ++ concat frames.

(** The stream cut in two ways, both within the limits of each read. *)
Definition reads1 : list bytes := [take 5 stream; take 8 (drop 5 stream); drop 13 stream].
Definition reads2 : list bytes :=
  [take 2 stream; take 3 (drop 2 stream); take 8 (drop 5 stream); take 90 (drop 13 stream); drop 103 stream].

Lemma reads_can_be_cut_anywhere_witness :
  run_reads (mkDispatcherId 1) (shared, AwaitHello []) reads1 =
  run_reads (mkDispatcherId 1) (shared, AwaitHello []) reads2.
Proof.
  apply (reads_can_be_cut_anywhere (mkDispatcherId 1) (shared, AwaitHello []) reads1 reads2);
    [..|reflexivity]; repeat split; try done; vm_compute; lia.
Defined.

Lemma decoding_terminates_witness :
  let buf := concat frames ++ [1] in
  drain (mkDispatcherId 1) 1000 (shared, Decoding (mkDeviceId 5) 77 buf) =
    decode (mkDispatcherId 1) (mkDeviceId 5) 77 buf shared /\
  snd (decode (mkDispatcherId 1) (mkDeviceId 5) 77 buf shared) = Receiving (mkDeviceId 5) 77 [1].
Proof.
  intros buf. split; [|by vm_compute].
  refine (proj1 (proj2 (decoding_terminates (mkDispatcherId 1) (fun _ => shared) (mkDeviceId 5) 77 buf) 1000%nat shared _)).
  vm_compute. lia.
Defined.

Lemma firmware_stream_decoded_witness :
  exists readings,
    packet_readings (mkDispatcherId 1) (mkDeviceId 1000) 77 packets 1 = Some readings /\
    run_reads (mkDispatcherId 1) (shared, AwaitHello []) reads2 =
      (mkShared (DispatchState.device_connected (mkDeviceId 1000) (DispatchState.new 0))
         (Reading <$> readings) true 3, Receiving (mkDeviceId 1000) 77 []).
Proof.
  destruct (firmware_stream_decoded (mkDispatcherId 1) shared 77 packets frames reads2) as [_ Hr];
    [done|done|repeat constructor; done|repeat constructor|done| |done|exact Hr].
  repeat split; try done; vm_compute; lia.
Defined.

(** One connection that sends a malformed payload, and its device afterwards. *)
Definition malformed : bytes := msg_to_bytes (mkMsg PACKET_PREAMBLE PROTOCOL_VERSION MsgReading [9]).
Definition events : list Event :=
  [Accept; OnConnection 0 (Read HELLO); OnConnection 0 (Read (be_bytes 8 77)); OnConnection 0 (IdWritten (Ok tt));
   OnConnection 0 (Read malformed); OnConnection 0 Work].
Definition leaked : Server := foldl (fun s e => server_step (mkDispatcherId 1) e s) (start (DispatchState.new 0) 0) events.

Lemma connected_devices_tracked_witness :
  reachable (mkDispatcherId 1) (DispatchState.new 0) 0 leaked /\
  mkDeviceId 1000 ∈ DispatchState.connected_devices (sh_state (srv_shared leaked)) /\
  srv_connections leaked !! 0%nat = Some (Done (Unreported (mkDeviceId 1000)) (Err (EdgeConnectionError.Postcard "end"))).
Proof.
  assert (Inj (=) (=) ulid_new) as Hinj by (intros i j; unfold ulid_new, gen; lia).
  assert (reachable (mkDispatcherId 1) (DispatchState.new 0) 0 leaked) as Hr.
  { unfold leaked, events. cbn [foldl]. do 6 (apply reach_step; [|by vm_compute]). apply reach_start. }
  split; [exact Hr|]. split; [|by vm_compute].
  apply (connected_devices_tracked (mkDispatcherId 1) 0 0 leaked Hr).
  exists 0%nat. eexists. split; [by vm_compute|done].
Defined.
End Witnesses.
