(* ===== verification/EdgeStream.v ===== *)
(** * A device's stream at its dispatcher, whatever else the dispatcher does

    EdgeTcp.v follows a connection that runs alone.  Here its steps are interleaved with those of the
    rest of the process, which may leave any shared state, as long as the collector runs: what the
    connection makes of the bytes the firmware writes is the same. *)
From Stdlib Require Import ZArith Lia Strings.String.
From stdpp Require Import base gmap strings list.
From S2P Require Import Prelude Platform Core RpcFrame DispatchMain EdgeDevice EdgeTcp.
Open Scope Z_scope.

Section stream.
Context `{EdgeCodecLaws} `{!UlidGen} `{!Clock} (dispatcher_id : DispatcherId).
Local Abbreviation connection_step := (connection_step dispatcher_id).

(** The readings a step of a connection put on the channel. *)
Definition emitted (sh sh' : Shared) : list EdgeData := drop (length (sh_sent sh)) (sh_sent sh').

(** The steps of one connection, each in the shared state it finds, and what they put on the channel. *)
Fixpoint conn_run (steps : list (Shared * Input)) (p : Phase) : Phase * list EdgeData :=
  match steps with
  | [] => (p, [])
  | (sh, i) :: rest =>
      let (sh', p') := connection_step i sh p in
      let (q, out) := conn_run rest p' in
      (q, emitted sh sh' ++ out)
  end.

(** The bytes read. *)
Definition bytes_read (steps : list (Shared * Input)) : bytes :=
  steps ≫= (fun x => match snd x with Read b => b | _ => [] end).

(** A connection on which nothing goes wrong: reads within their limits, the identifier written, and
    the collector running; spurious wake-ups do no harm. *)
Fixpoint undisturbed (steps : list (Shared * Input)) (p : Phase) : Prop :=
  match steps with
  | [] => True
  | (sh, i) :: rest =>
      sh_rx_open sh = true /\
      match i with
      | Read b => b <> [] /\ (length b <= read_limit p)%nat
      | IdWritten r => r = Ok tt
      | Work => True
      | ReadError _ | Cancelled => False
      end /\ undisturbed rest (snd (connection_step i sh p))
  end.

(** A reading of a packet, under some fresh identifier. *)
Definition reading_for (d : DeviceId) (location : Z) (p : ReadingPacket) (x : EdgeData) : Prop :=
  exists n m, convert_metric (rp_metric p) = Some m /\ x = Reading (edge_reading dispatcher_id d location p m n).

Context (location : Z) (packets : list ReadingPacket) (frames : list bytes).
Hypothesis location_u64 : u64 location.
Hypothesis packets_wf : Forall ReadingPacket_wf packets.
Hypothesis frames_of : Forall2 (fun p f => reading_bytes p = Ok f) packets frames.

Local Abbreviation greeting_bytes := (HELLO ++ be_bytes 8 location).

(** The bytes of the stream that were read, and what they were made into. *)
Inductive progress (c : bytes) (out : list EdgeData) : Phase -> Prop :=
  | at_hello : (length c < 5)%nat -> out = [] -> progress c out (AwaitHello c)
  | at_location l : c = HELLO ++ l -> (length l < 8)%nat -> out = [] -> progress c out (AwaitLocation l)
  | at_id d : c = greeting_bytes -> out = [] -> progress c out (SendId d location)
  | at_receiving d k buf : c = greeting_bytes ++ concat (take k frames) ++ buf ->
      Forall2 (reading_for d location) (take k packets) out ->
      (forall f, frames !! k = Some f -> (length buf < length f)%nat) -> progress c out (Receiving d location buf)
  | at_decoding d k buf : c = greeting_bytes ++ concat (take k frames) ++ buf ->
      Forall2 (reading_for d location) (take k packets) out -> progress c out (Decoding d location buf).

Lemma frame_message k f : frames !! k = Some f -> exists p, packets !! k = Some p /\ ReadingPacket_wf p /\
  f <> [] /\ msg_take_from_bytes f = Got (mkMsg PACKET_PREAMBLE PROTOCOL_VERSION MsgReading (packet_to_bytes p)) [].
Proof.
  intros Hf. destruct (Forall2_lookup_r _ _ _ _ _ frames_of Hf) as (p & Hp & Hpf).
  pose proof (Forall_lookup_1 _ _ _ _ packets_wf Hp) as Hwf.
  destruct (reading_bytes_inv p f Hwf Hpf) as (Hne & _ & Ht). eauto.
Qed.

(** A part of a message is not yet one. *)
Lemma partial_message f b x msg : msg_take_from_bytes f = Got msg [] -> f = b ++ x -> x <> [] ->
  msg_take_from_bytes b = More.
Proof.
  intros Hf -> Hx. destruct (msg_take_from_bytes b) as [msg' r| |e] eqn:Hb; [|done|].
  - rewrite (take_got_more _ _ _ x Hb) in Hf. injection Hf as _ Hr. by apply app_eq_nil in Hr as [_ ?].
  - by rewrite (take_bad_more _ _ x Hb) in Hf.
Qed.

Lemma emitted_same sh : emitted sh sh = [].
Proof. unfold emitted. by rewrite drop_all. Qed.

Lemma emitted_state sh state n : emitted sh (mkShared state (sh_sent sh) true n) = [].
Proof. unfold emitted. cbn. by rewrite drop_all. Qed.

(** The bytes the firmware writes. *)
Local Abbreviation stream := (greeting_bytes ++ concat frames).

(** One turn of the decoding loop on a part of the stream. *)
Lemma decoding_progress c out d k buf sh : c `prefix_of` stream -> sh_rx_open sh = true ->
  c = greeting_bytes ++ concat (take k frames) ++ buf -> Forall2 (reading_for d location) (take k packets) out ->
  let (sh', p') := connection_step Work sh (Decoding d location buf) in progress c (out ++ emitted sh sh') p'.
Proof.
  intros Hpre Hopen Hc Hout. cbn [EdgeTcp.connection_step]. unfold decode_one. destruct buf as [|b0 b1].
  { rewrite emitted_same, app_nil_r. apply (at_receiving _ _ d k); [done|done|]. intros f Hf.
    destruct (frame_message _ _ Hf) as (p & _ & _ & Hne & _). destruct f; [done|cbn; lia]. }
  set (buf := b0 :: b1) in *.
  assert (exists y, buf ++ y = concat (drop k frames)) as [y Hy].
  { destruct Hpre as [y Hy]. exists y.
    assert (concat frames = concat (take k frames) ++ concat (drop k frames)) as Hcat by (by rewrite <- concat_app, take_drop).
    rewrite Hc, Hcat in Hy. rewrite <- !(assoc_L (++)) in Hy. by do 3 apply (inj (app _)) in Hy. }
  destruct (frames !! k) as [f|] eqn:Hf.
  2:{ rewrite drop_ge in Hy by (by apply lookup_ge_None). done. }
  rewrite (drop_S _ _ _ Hf) in Hy. cbn [concat] in Hy.
  destruct (frame_message _ _ Hf) as (p & Hp & Hwf & Hne & Ht).
  destruct (convert_metric_is_Some (rp_metric p)) as [m Hm].
  assert ((exists rest, buf = f ++ rest) \/ exists x, f = buf ++ x /\ x <> []) as [[rest Hbuf]|(x & Hx & Hnil)].
  { apply app_eq_inv in Hy as [(rest & Hbuf & _)|(x & Hx & _)]; [by left; exists rest|].
    destruct (decide (x = [])) as [->|]; [left; exists []; by rewrite Hx, !app_nil_r|right; eauto]. }
  - rewrite Hbuf, (take_got_more _ _ _ rest Ht). cbn [msg_preamble msg_type msg_payload app]. rewrite decide_True by done.
    unfold on_payload. rewrite packet_roundtrip by done. rewrite Hm, Hopen.
    apply (at_decoding _ _ d (Datatypes.S k)).
    + rewrite Hc, Hbuf, (take_S_r _ _ _ Hf), concat_app. cbn. by rewrite app_nil_r, <- !(assoc_L (++)).
    + rewrite (take_S_r _ _ _ Hp). apply Forall2_app; [done|]. unfold emitted. cbn [sh_sent].
      rewrite drop_app_length. constructor; [by exists (sh_next sh), m|constructor].
  - rewrite (partial_message f buf x _ Ht Hx Hnil), emitted_same, app_nil_r.
    apply (at_receiving _ _ d k); [done|done|]. intros f' Hf'. rewrite Hf' in Hf. injection Hf as ->.
    rewrite Hx, length_app. destruct x; [done|cbn; lia].
Qed.

(** One step of the connection. *)
Lemma progress_step c out sh i p :
  progress c out p -> undisturbed [(sh, i)] p -> (c ++ bytes_read [(sh, i)]) `prefix_of` stream ->
  let (sh', p') := connection_step i sh p in progress (c ++ bytes_read [(sh, i)]) (out ++ emitted sh sh') p'.
Proof.
  intros Hp (Hopen & Hi & _). unfold bytes_read. cbn [mbind list_bind snd]. rewrite app_nil_r. intros Hpre.
  assert (forall q, progress c out q -> i = Work \/ i = IdWritten (Ok tt) -> progress (c ++ match i with Read b => b | _ => [] end)
    (out ++ emitted sh sh) q) as Hidle by (intros q Hq [-> | ->]; by rewrite emitted_same, !app_nil_r).
  assert (length HELLO = 5%nat) as H5 by done. pose proof (length_be_bytes 8 location) as H8.
  destruct Hp as [Hlen ->|l -> Hlen ->|d -> ->|d k buf Hc Hout Hf|d k buf Hc Hout].
  - destruct i as [b|e|r| |]; try done; [|subst r; apply Hidle; [by constructor|auto]|apply Hidle; [by constructor|auto]].
    destruct Hi as [Hb Hlim]. cbn [read_limit] in Hlim. cbn [EdgeTcp.connection_step]. rewrite emitted_same.
    unfold on_hello. destruct b as [|b0 b1]; [done|]. set (b := b0 :: b1) in *.
    destruct (Nat.ltb_spec (length (c ++ b)) 5) as [Hlt|Hge]; [by constructor|]. rewrite length_app in Hge.
    assert (c ++ b = HELLO) as Hh.
    { destruct Hpre as [y Hy]. rewrite <- (assoc_L (++)) in Hy. apply (app_inj_1 _ _ _ _) in Hy as [Hy _]; [done|].
      rewrite length_app, H5. lia. }
    rewrite Hh, decide_True by done. apply (at_location _ _ []); [by rewrite app_nil_r|cbn; lia|done].
  - destruct i as [b|e|r| |]; try done; [|subst r; apply Hidle; [by constructor|auto]|apply Hidle; [by constructor|auto]].
    destruct Hi as [Hb Hlim]. cbn [read_limit] in Hlim. cbn [EdgeTcp.connection_step].
    unfold on_location. destruct b as [|b0 b1]; [done|]. set (b := b0 :: b1) in *. rewrite <- (assoc_L (++)) in Hpre |- *.
    destruct (Nat.ltb_spec (length (l ++ b)) 8) as [Hlt|Hge].
    { rewrite emitted_same. by apply (at_location _ _ (l ++ b)). }
    rewrite length_app in Hge.
    assert (l ++ b = be_bytes 8 location) as Hl.
    { destruct Hpre as [y Hy]. rewrite <- !(assoc_L (++)) in Hy. apply (inj (app _)) in Hy. rewrite (assoc_L (++)) in Hy.
      apply (app_inj_1 _ _ _ _) in Hy as [Hy _]; [done|]. rewrite length_app, H8. lia. }
    rewrite Hopen, emitted_state, Hl, (be_bytes_roundtrip 8 location) by done. by apply at_id.
  - destruct i as [b|e|r| |]; try done; [by destruct Hi as [? Hlim]; destruct b; cbn in Hlim; [|lia]|
      |apply Hidle; [by constructor|auto]].
    subst r. cbn [EdgeTcp.connection_step on_id_written]. rewrite Hopen, emitted_state, app_nil_r.
    apply (at_receiving _ _ d 0); [by rewrite app_nil_r|constructor|]. intros f Hf0.
    destruct (frame_message _ _ Hf0) as (p & _ & _ & Hne & _). destruct f; [done|cbn; lia].
  - destruct i as [b|e|r| |]; try done;
      [|subst r; apply Hidle; [by apply (at_receiving _ _ d k)|auto]|apply Hidle; [by apply (at_receiving _ _ d k)|auto]].
    destruct Hi as [Hb Hlim]. cbn [EdgeTcp.connection_step]. unfold on_read. destruct b as [|b0 b1]; [done|].
    rewrite emitted_same, app_nil_r. apply (at_decoding _ _ d k); [|done]. by rewrite Hc, <- !(assoc_L (++)).
  - destruct i as [b|e|r| |]; try done; [by destruct Hi as [? Hlim]; destruct b; cbn in Hlim; [|lia]|
      subst r; apply Hidle; [by apply (at_decoding _ _ d k)|auto]|].
    rewrite app_nil_r in *. by apply (decoding_progress c out d k).
Qed.

Lemma progress_run steps c out p :
  progress c out p -> undisturbed steps p -> (c ++ bytes_read steps) `prefix_of` stream ->
  progress (c ++ bytes_read steps) (out ++ snd (conn_run steps p)) (fst (conn_run steps p)).
Proof.
  revert c out p. induction steps as [|[sh i] steps IH]; intros c out p Hp Hu Hpre.
  { cbn. by rewrite !app_nil_r. }
  assert (bytes_read ((sh, i) :: steps) = bytes_read [(sh, i)] ++ bytes_read steps) as Hb
    by (unfold bytes_read; cbn; by rewrite app_nil_r).
  rewrite Hb, (assoc_L (++)) in Hpre |- *. destruct Hu as (Ho & Hi & Hu).
  assert ((c ++ bytes_read [(sh, i)]) `prefix_of` stream) as Hpre1 by (etrans; [by apply prefix_app_r|exact Hpre]).
  pose proof (progress_step c out sh i p Hp (conj Ho (conj Hi I)) Hpre1) as Hstep. cbn [conn_run].
  destruct (connection_step i sh p) as [sh' p'] eqn:Hcs. cbn [snd] in Hu. specialize (IH _ _ _ Hstep Hu Hpre).
  destruct (conn_run steps p') as [q rest]. cbn [fst snd] in *. by rewrite (assoc_L (++)).
Qed.

Lemma progress_alive c out p : progress c out p -> match p with Done _ _ | Panicked _ => False | _ => True end.
Proof. by destruct 1. Qed.

(** Where the stream is read to its end and the connection waits for more, everything is decoded. *)
Lemma progress_end out d l buf : progress stream out (Receiving d l buf) ->
  l = location /\ buf = [] /\ Forall2 (reading_for d location) packets out.
Proof.
  inversion 1 as [| | |d0 k buf0 Hc Hout Hf|]; subst. split; [done|].
  assert (concat frames = concat (take k frames) ++ concat (drop k frames)) as Hcat by (by rewrite <- concat_app, take_drop).
  rewrite Hcat, <- !(assoc_L (++)) in Hc. do 3 apply (inj (app _)) in Hc.
  destruct (frames !! k) as [f|] eqn:Hk.
  { exfalso. pose proof (Hf f eq_refl) as Hlt. rewrite <- Hc, (drop_S _ _ _ Hk) in Hlt. cbn in Hlt.
    rewrite length_app in Hlt. lia. }
  apply lookup_ge_None in Hk. rewrite drop_ge in Hc by done. split; [done|].
  rewrite take_ge in Hout; [done|]. pose proof (Forall2_length _ _ _ frames_of). lia.
Qed.

Lemma stream_decoded steps : undisturbed steps (AwaitHello []) -> bytes_read steps `prefix_of` stream ->
  let (p, out) := conn_run steps (AwaitHello []) in
  match p with Done _ _ | Panicked _ => False | _ => True end /\
  (exists d k, Forall2 (reading_for d location) (take k packets) out) /\
  (forall d l buf, p = Receiving d l buf -> bytes_read steps = stream ->
     l = location /\ buf = [] /\ Forall2 (reading_for d location) packets out).
Proof.
  intros Hu Hpre.
  assert (progress [] [] (AwaitHello [])) as H0' by (constructor; [cbn; lia|done]).
  pose proof (progress_run steps [] [] (AwaitHello []) H0' Hu Hpre) as Hp. cbn [app] in Hp.
  destruct (conn_run steps (AwaitHello [])) as [p out]. cbn [fst snd] in Hp.
  split; [by eapply progress_alive|]. split; [|by intros d l buf -> Hall; rewrite Hall in Hp; apply progress_end].
  assert (exists d k, Forall2 (reading_for d location) (take k packets) []) as Hnone
    by (exists (mkDeviceId 0), 0%nat; constructor).
  destruct Hp as [_ ->|l _ _ ->|d _ ->|d k buf _ Hout _|d k buf _ Hout]; [exact Hnone..|by exists d, k|by exists d, k].
Qed.

End stream.

(** ** Witness *)

Module EdgeStreamWitness.
#[local] Existing Instance SampleCodec.codec.
#[local] Existing Instance SampleCodec.codec_laws.
#[local] Existing Instance EdgeTcp.Witnesses.gen.
#[local] Existing Instance EdgeTcp.Witnesses.clock.

(** The shared state after the other tasks drew [n] identifiers. *)
Definition meanwhile (n : nat) : Shared := mkShared (DispatchState.new 0) [] true n.

Definition steps : list (Shared * Input) :=
  let frames := concat EdgeTcp.Witnesses.frames in
  [(meanwhile 3, Read (take 2 HELLO)); (meanwhile 9, Read (drop 2 HELLO)); (meanwhile 12, Read (be_bytes 8 77));
   (meanwhile 20, IdWritten (Ok tt)); (meanwhile 21, Read (take 90 frames)); (meanwhile 30, Work);
   (meanwhile 42, Work); (meanwhile 50, Read (drop 90 frames)); (meanwhile 51, Work); (meanwhile 60, Work)].

End EdgeStreamWitness.
