(* ===== verification/DispatchSystem.v ===== *)
(** * The whole dispatcher against ersha-prime

    The receiver, the collector and the uploader run at once: they share the storage, the
    dispatcher's state and the channel, and nothing orders their steps.  [System] is all of it, the
    uploader stopping at every call on the storage and on ersha-prime; [sys_step] is one step of one
    task.  [Delivers] is what the client of a connection is promised about the readings it uploads,
    proved of the direct connection and of the wire, over registries that keep readings
    ([PrimeKeeps]).  What its runs do to the readings is the subject of Delivery.v. *)
From Stdlib Require Import ZArith Lia Strings.String.
From stdpp Require Import base gmap strings list.
From S2P Require Import Prelude Platform Core Samples Filter Registry InMemory RpcFrame Rpc EdgeDevice EdgeTcp.
From S2P Require Import PrimeHandlers DispatchStorage DispatchMain EndToEnd RpcLink.
Open Scope Z_scope.

(** ** What ersha-prime promises about readings *)

(** [kept] after the readings of a batch went into the registry: those of devices it [knows] are kept
    as [norm] of them, nothing else changes. *)
Definition takes (norm : SensorReading -> SensorReading) (knows : DeviceId -> bool) (readings : list SensorReading)
    (kept kept' : ReadingId -> option SensorReading) : Prop :=
  (forall r, r ∈ readings -> knows (rd_device_id r) = true -> kept' (rd_id r) = Some (norm r)) /\
  (forall id, (forall r, r ∈ readings -> rd_id r = id -> knows (rd_device_id r) = false) -> kept' id = kept id).

Section promise.
Context {DR VR RR SR DE VE RdE StE : Type} `{!DispatcherRegistry DR DE} `{!DeviceRegistry VR VE}
  `{!ReadingRegistry RR RdE} `{!DeviceStatusRegistry SR StE}.
Local Abbreviation State := (AppState DR VR RR SR).

(** What the handlers do to the registries; [fine] and [sfine] are the readings and statuses they can hold. *)
Class PrimeKeeps (inv : State -> Prop) (knows : State -> DeviceId -> bool)
    (kept : State -> ReadingId -> option SensorReading) (norm : SensorReading -> SensorReading)
    (fine : SensorReading -> Prop) (sfine : DeviceStatus -> Prop) : Prop := {
  keeps_hello r s : inv s -> inv (fst (on_hello r s)) /\
    (forall d, knows (fst (on_hello r s)) d = knows s d) /\ (forall id, kept (fst (on_hello r s)) id = kept s id);
  keeps_batch b s : inv s -> NoDup (rd_id <$> bu_readings b) -> Forall fine (bu_readings b) ->
    Forall sfine (bu_statuses b) ->
    inv (fst (on_batch_upload b s)) /\ (forall d, knows (fst (on_batch_upload b s)) d = knows s d) /\
    takes norm (knows s) (bu_readings b) (kept s) (kept (fst (on_batch_upload b s)))
}.
End promise.

(** What a connection does to the ersha-prime at its other end. *)
Section delivers.
Context {N E : Type}.

(** Nothing about readings changed. *)
Definition same_prime (inv : N -> Prop) (knows : N -> DeviceId -> bool) (kept : N -> ReadingId -> option SensorReading)
    (net net' : N) : Prop :=
  inv net' /\ (forall d, knows net' d = knows net d) /\ (forall id, kept net' id = kept net id).

Lemma same_prime_refl inv knows kept net : inv net -> same_prime inv knows kept net net.
Proof. intros Hn. by repeat split. Qed.

Lemma same_prime_trans inv knows kept net1 net2 net3 :
  same_prime inv knows kept net1 net2 -> same_prime inv knows kept net2 net3 -> same_prime inv knows kept net1 net3.
Proof. intros (? & K1 & P1) (? & K2 & P2). split_and!; [done|..]; intros; by rewrite ?K2, ?P2. Qed.

(** A call that fails may have had its effect or not; of the others only an upload changes readings. *)
Class Delivers (L : PrimeLink N E) (inv : N -> Prop) (knows : N -> DeviceId -> bool)
    (kept : N -> ReadingId -> option SensorReading) (norm : SensorReading -> SensorReading)
    (fine : SensorReading -> Prop) (sfine : DeviceStatus -> Prop) : Prop := {
  delivers_connect net : inv net -> same_prime inv knows kept net (fst (link_connect net));
  delivers_hello r net : inv net -> same_prime inv knows kept net (fst (link_hello r net));
  delivers_status r net : inv net -> same_prime inv knows kept net (fst (link_dispatcher_status r net));
  delivers_disconnection r net : inv net -> same_prime inv knows kept net (fst (link_device_disconnection r net));
  delivers_alert r net : inv net -> same_prime inv knows kept net (fst (link_alert r net));
  delivers_batch b net net' res : inv net -> NoDup (rd_id <$> bu_readings b) -> Forall fine (bu_readings b) ->
    Forall sfine (bu_statuses b) -> link_batch_upload b net = (net', res) ->
    inv net' /\ (forall d, knows net' d = knows net d) /\
    (takes norm (knows net) (bu_readings b) (kept net) (kept net') \/
     (exists e, res = Err e) /\ forall id, kept net' id = kept net id)
}.
End delivers.

(** ** The connections deliver *)

Section links.
Context {DR VR RR SR DE VE RdE StE : Type} `{!DispatcherRegistry DR DE} `{!DeviceRegistry VR VE}
  `{!ReadingRegistry RR RdE} `{!DeviceStatusRegistry SR StE}
  {inv : AppState DR VR RR SR -> Prop} {knows kept norm fine sfine} `{!PrimeKeeps inv knows kept norm fine sfine}.
Local Abbreviation State := (AppState DR VR RR SR).

#[export] Instance prime_link_delivers : Delivers (prime_link (D := DR) (Dev := VR) (R := RR) (S := SR))
  inv knows kept norm fine sfine.
Proof.
  split; try (intros; by apply same_prime_refl).
  - intros r s Hs. cbn. destruct (on_hello r s) as [s' a] eqn:E. pose proof (keeps_hello r s Hs) as Hk. by rewrite E in Hk.
  - intros b s s' res Hs Hnd Hf Hsf. cbn. destruct (on_batch_upload b s) as [s1 a] eqn:E. intros [= <- <-].
    pose proof (keeps_batch b s Hs Hnd Hf Hsf) as Hk. rewrite E in Hk. destruct Hk as (? & ? & ?). auto.
Qed.

Context {codec : Postcard} `{!PostcardLaws} `{!UlidGen}.

(** No message takes 4 GiB; the length prefix of a frame has 32 bits. *)
Class SmallMessages : Prop := small_message msg b : to_stdvec msg = Some b -> Z.of_nat (length b) < 2 ^ 32.
Context `{!SmallMessages}.

(** Whatever becomes of a call over the wire, the handlers either handled the request or did not run. *)
Lemma wire_call_prime payload (net : Wire State) :
  let prime := wire_prime net in
  let request := mkEnvelope (MessageId_new (wire_next net)) None payload in
  let prime' := wire_prime (fst (wire_call payload net)) in
  prime' = fst (fst (handle_envelope prime_handlers request prime)) \/
  prime' = prime /\ exists e, snd (wire_call payload net) = Err e.
Proof.
  cbv zeta. unfold wire_call. destruct (wire_alive net); [|right; eauto].
  destruct (write_frame _ fresh_writer) as [w [[]|e]] eqn:W; [|right; eauto].
  unfold write_frame in W. destruct (to_stdvec _) as [b|] eqn:Hb; [|done]. cbv zeta in W.
  assert (written w = to_be_bytes (as_u32 (Z.of_nat (length b))) ++ b ++ [] /\ Z.of_nat (length b) <= MAX_FRAME_BYTES)
    as [-> Hlen].
  { pose proof (small_message _ _ Hb). unfold as_u32 in W. rewrite wrap_small in W by (unfold is_unsigned; lia).
    destruct (Z.ltb_spec MAX_FRAME_BYTES (Z.of_nat (length b))) as [|Hle]; [done|].
    destruct (write_fresh _ _ Hb Hle) as (w' & Hw & Hwritten).
    unfold write_frame in Hw. rewrite Hb in Hw. unfold as_u32 in Hw.
    rewrite wrap_small, (proj2 (Z.ltb_ge _ _)) in Hw by (done || unfold is_unsigned; lia).
    rewrite W in Hw. injection Hw as <-. done. }
  rewrite (read_written _ _ [] Hb Hlen). left.
  destruct (handle_envelope _ _ _) as [[prime out] close]. cbn [fst].
  destruct out as [p|]; [|done]. destruct (write_frame _ _) as [w' [[]|e]]; [|done].
  by destruct (read_frame _) as [? []].
Qed.

Definition wire_inv (net : Wire State) : Prop := inv (wire_prime net).

Lemma wire_op_same {R} payload (f : result Envelope RpcError.t -> result R Rpc.ClientError.t) (net : Wire State) :
  wire_inv net ->
  same_prime inv knows kept (wire_prime net)
    (fst (fst (handle_envelope prime_handlers (mkEnvelope (MessageId_new (wire_next net)) None payload) (wire_prime net)))) ->
  same_prime wire_inv (fun net => knows (wire_prime net)) (fun net => kept (wire_prime net)) net
    (fst (wire_op payload f net)).
Proof.
  intros Hinv Hs. unfold wire_op. pose proof (wire_call_prime payload net) as [Hp|[Hp _]];
    destruct (wire_call payload net) as [net' r]; cbn [fst] in *; unfold same_prime, wire_inv in *; by rewrite Hp.
Qed.

#[export] Instance wire_link_delivers : Delivers (wire_link (DR := DR) (VR := VR) (RR := RR) (SR := SR))
  wire_inv (fun net => knows (wire_prime net)) (fun net => kept (wire_prime net)) norm fine sfine.
Proof.
  split.
  - intros net Hn. by split_and!.
  - intros r net Hn. apply wire_op_same; [done|]. cbn -[on_hello on_batch_upload].
    pose proof (keeps_hello r (wire_prime net) Hn) as Hk. by destruct (on_hello r (wire_prime net)) as [s [|]].
  - intros r net Hn. apply wire_op_same; [done|]. by apply same_prime_refl.
  - intros r net Hn. apply wire_op_same; [done|]. by apply same_prime_refl.
  - intros r net Hn. apply wire_op_same; [done|]. by apply same_prime_refl.
  - intros b net net' res Hn Hnd Hf Hsf. cbn [link_batch_upload wire_link]. unfold wire_op.
    pose proof (keeps_batch b (wire_prime net) Hn Hnd Hf Hsf) as Hk.
    pose proof (wire_call_prime (WireMessage.BatchUploadRequest b) net) as Hp. cbv zeta in Hp.
    cbn -[on_hello on_batch_upload wire_call] in Hp.
    destruct (wire_call _ net) as [net1 r] eqn:C. intros [= <- <-]. unfold wire_inv in *. cbn [fst snd] in Hp.
    destruct (on_batch_upload b (wire_prime net)) as [s a]. cbn [fst] in *.
    destruct Hp as [->|[-> [e ->]]]; [by destruct Hk as (? & ? & ?); auto|]. split_and!; [done..|]. right. cbn. eauto.
Qed.
End links.

(** ** The in-memory registries keep readings *)

Section memory_keeps.
Context `{!Lowercase} `{!HashIter DeviceId Device} `{!HashIter DispatcherId Dispatcher}
  `{!HashIter ReadingId SensorReading} `{!HashIter StatusId DeviceStatus}.

Definition mem_knows (prime : MemState) (d : DeviceId) : bool := known (device_registry prime) d.
Definition mem_kept (prime : MemState) (id : ReadingId) : option SensorReading :=
  InMemoryReadingRegistry.readings (reading_registry prime) !! id.

#[export] Instance memory_keeps :
  PrimeKeeps (fun _ : MemState => True) mem_knows mem_kept (fun r => r) (fun _ => True) (fun _ => True).
Proof.
  split.
  - intros r s _. enough (fst (on_hello r s) = s) as -> by done.
    unfold on_hello. cbn. destruct s as [ds vs rs ss]. cbn. by repeat case_match.
  - intros b s _ Hnd _ _. split; [done|]. unfold mem_knows, mem_kept. rewrite batch_upload_devices. split; [done|].
    rewrite batch_upload_readings. unfold known_readings. split.
    + intros r Hr Hk. apply lookup_insert_all_NoDup; [|by apply list_elem_of_filter].
      eapply sublist_NoDup; [exact Hnd|]. apply fmap_sublist, sublist_filter.
    + intros id Hno. rewrite lookup_insert_all, filter_none; [done|].
      intros r [Hk Hr]%list_elem_of_filter Hid. by rewrite (Hno r Hr Hid) in Hk.
Qed.
End memory_keeps.

(** ** The uploader, call by call *)

(** Where the tick branch of the uploader waits once its status was reported. *)
Inductive Stage :=
  | Waiting                                                                (* 374, the interval *)
  | FetchReadings                                                          (* 449 *)
  | FetchStatuses (readings : list SensorReading)                          (* 457 *)
  | Uploading (readings : list SensorReading) (statuses : list DeviceStatus) (* 487 *)
  | MarkReadings (reading_ids : list ReadingId) (status_ids : list StatusId) (* 492 *)
  | MarkStatuses (status_ids : list StatusId).                             (* 495 *)

Section stages.
Context {S N RE SE E : Type} `{!EventStorage ReadingId SensorReading S RE}
  `{!EventStorage StatusId DeviceStatus S SE} `{!PrimeLink N E} `{!UlidGen} `{!Clock}
  (dispatcher_id : DispatcherId) (location : H3Cell).

(** [ersha-dispatch/src/main.rs:375-446] run_uploader: a tick up to the pending data; the sleep, if any *)
Definition begin_tick (instant : Z) (u : Uploader S N) (n : nat) : Uploader S N * nat * Stage * option Z :=
  let '(net, connected) :=
    if up_client u then (up_net u, Ok tt) else connect_and_register dispatcher_id location (up_net u) in
  match connected with
  | Err _ =>
      (mkUploader (up_storage u) (up_state u) net false (Z.min (up_backoff u * 2) MAX_BACKOFF), n, Waiting,
       Some (up_backoff u))
  | Ok _ =>
      let backoff := if up_client u then up_backoff u else 1 in
      let '(u, n, reported) := report dispatcher_id instant (mkUploader (up_storage u) (up_state u) net true backoff) n in
      (u, n, if (reported : bool) then FetchReadings else Waiting, None)
  end.

(** [ersha-dispatch/src/main.rs:448-503] run_uploader: one call, and what is done with its result *)
Definition upload_step (stage : Stage) (u : Uploader S N) (n : nat) : Uploader S N * nat * Stage :=
  let with_storage s := mkUploader s (up_state u) (up_net u) (up_client u) (up_backoff u) in
  match stage with
  | Waiting => (u, n, Waiting)
  | FetchReadings =>
      match fetch_pending (V := SensorReading) (up_storage u) with
      | (s, Err _) => (with_storage s, n, Waiting)
      | (s, Ok readings) => (with_storage s, n, FetchStatuses readings)
      end
  | FetchStatuses readings =>
      match fetch_pending (V := DeviceStatus) (up_storage u) with
      | (s, Err _) => (with_storage s, n, Waiting)
      | (s, Ok statuses) =>
          (with_storage s, n, match readings, statuses with [], [] => Waiting | _, _ => Uploading readings statuses end)
      end
  | Uploading readings statuses =>
      let batch := mkBatchUploadRequest (mkBatchId (ulid_new n)) dispatcher_id readings statuses (ts_now n) in
      match link_batch_upload batch (up_net u) with
      | (net, Ok _) =>
          (mkUploader (up_storage u) (up_state u) net (up_client u) (up_backoff u), (1 + n)%nat,
           MarkReadings (rd_id <$> readings) (st_id <$> statuses))
      | (net, Err _) => (mkUploader (up_storage u) (up_state u) net false (up_backoff u), (1 + n)%nat, Waiting)
      end
  | MarkReadings reading_ids status_ids =>
      (with_storage (fst (mark_uploaded (V := SensorReading) reading_ids (up_storage u))), n, MarkStatuses status_ids)
  | MarkStatuses status_ids =>
      (with_storage (fst (mark_uploaded (V := DeviceStatus) status_ids (up_storage u))), n, Waiting)
  end.

(** Calls of the uploader with nothing in between. *)
Fixpoint upload_steps (k : nat) (x : Uploader S N * nat * Stage) : Uploader S N * nat * Stage :=
  match k with
  | O => x
  | Datatypes.S k => let '(u, n, stage) := x in upload_steps k (upload_step stage u n)
  end.

Lemma upload_steps_waiting k u n : upload_steps k (u, n, Waiting) = (u, n, Waiting).
Proof. induction k as [|k IH]; [done|exact IH]. Qed.

(** With nothing in between the calls are [upload_batch]. *)
Lemma upload_steps_batch u n :
  upload_steps 5 (u, n, FetchReadings) = (upload_batch dispatcher_id u n, Waiting).
Proof.
  change (upload_steps 5 (u, n, FetchReadings)) with (upload_steps 4 (upload_step FetchReadings u n)).
  unfold upload_batch, upload_step at 1. destruct u as [st state net client backoff].
  cbn [up_storage up_state up_net up_client up_backoff].
  destruct (fetch_pending st) as [s1 [readings|e]]; [|by rewrite upload_steps_waiting].
  cbn [upload_steps]. unfold upload_step at 1. cbn [up_storage up_state up_net up_client up_backoff].
  destruct (fetch_pending s1) as [s2 [statuses|e]]; [|by apply (upload_steps_waiting 3)].
  assert (forall st : Stage, st = Uploading readings statuses ->
    upload_steps 3 (mkUploader s2 state net client backoff, n, st) =
    (match link_batch_upload (mkBatchUploadRequest (mkBatchId (ulid_new n)) dispatcher_id readings statuses (ts_now n)) net with
     | (net, Ok _) =>
         (mkUploader (fst (mark_uploaded (st_id <$> statuses) (fst (mark_uploaded (rd_id <$> readings) s2))))
            state net client backoff, (1 + n)%nat)
     | (net, Err _) => (mkUploader s2 state net false backoff, (1 + n)%nat)
     end, Waiting)) as Hsend.
  { intros ? ->. cbn [upload_steps upload_step up_net up_storage up_state up_client up_backoff].
    by destruct (link_batch_upload _ net) as [net' [resp|e]]. }
  destruct readings as [|r readings]; [destruct statuses as [|x statuses]|]; [by apply (upload_steps_waiting 3)|by apply Hsend..].
Qed.

(** With nothing in between the steps are the tick. *)
Lemma tick_steps instant u n :
  let '(u1, n1, stage, slept) := begin_tick instant u n in
  let '(u2, n2, stage2) := upload_steps 5 (u1, n1, stage) in
  tick dispatcher_id location instant u n = (u2, n2, slept) /\ stage2 = Waiting.
Proof.
  unfold begin_tick, tick. destruct (if up_client u then _ else _) as [net [[]|e]]; [|by rewrite upload_steps_waiting].
  destruct (report _ _ _ _) as [[u1 n1] [|]]; [|by rewrite upload_steps_waiting].
  rewrite upload_steps_batch. by destruct (upload_batch dispatcher_id u1 n1).
Qed.
End stages.

(** ** The system *)

(** The receiver with its connections, the shared state and the channel; how many values the
    collector took from the channel; and what the uploader owns. *)
Record System (S N : Type) := mkSystem {
  sys_server : Server;
  sys_received : nat;
  sys_storage : S;
  sys_net : N;
  sys_client : bool;
  sys_backoff : Z;
  sys_stage : Stage
}.
Arguments mkSystem {S N}.
Arguments sys_server {S N}.
Arguments sys_received {S N}.
Arguments sys_storage {S N}.
Arguments sys_net {S N}.
Arguments sys_client {S N}.
Arguments sys_backoff {S N}.
Arguments sys_stage {S N}.

Inductive SysEvent :=
  | Receiver (e : Event)      (* the accept loop or a connection *)
  | Collect                   (* the collector takes and stores a value *)
  | Tick (instant : Z)        (* the uploader's interval *)
  | Upload.                   (* the uploader's next call *)

(** The events of the receiver that stand for the collector and the uploader are theirs here. *)
Definition own_event (e : Event) : bool :=
  match e with EventsTaken | AlertQueued _ => false | _ => true end.

(** The shared state and the identifiers drawn, as a task leaves them. *)
Definition with_shared (state : DispatchState.t) (n : nat) (s : Server) : Server :=
  let sh := srv_shared s in
  mkServer (srv_accepting s) (srv_cancelled s) (srv_connections s)
    (mkShared state (sh_sent sh) (sh_rx_open sh) n) (srv_taken s).

Section system.
Context {S N RE SE E : Type} `{!EventStorage ReadingId SensorReading S RE}
  `{!EventStorage StatusId DeviceStatus S SE} `{!PrimeLink N E} `{!EdgeCodec} `{!UlidGen} `{!Clock}
  (debug_sensor_id : SensorId -> string) (dispatcher_id : DispatcherId) (location : H3Cell).
Local Abbreviation System := (System S N).

(** [ersha-dispatch/src/main.rs:177-217] run_edge_receiver: the receiver started and the tasks spawned *)
Definition sys_start (storage : S) (net : N) (state : DispatchState.t) (n : nat) : System :=
  mkSystem (start state n) 0 storage net false 1 Waiting.

(** The uploader's view of the system, and the system it leaves. *)
Definition sys_uploader (s : System) : Uploader S N :=
  mkUploader (sys_storage s) (sh_state (srv_shared (sys_server s))) (sys_net s) (sys_client s) (sys_backoff s).
Definition put_uploader (u : Uploader S N) (n : nat) (stage : Stage) (s : System) : System :=
  mkSystem (with_shared (up_state u) n (sys_server s)) (sys_received s) (up_storage u) (up_net u) (up_client u)
    (up_backoff u) stage.

(** [ersha-dispatch/src/main.rs:182-217] run_edge_receiver: one step of one of the tasks *)
Definition sys_step (e : SysEvent) (s : System) : System :=
  let sh := srv_shared (sys_server s) in
  match e with
  | Receiver e =>
      mkSystem (server_step dispatcher_id e (sys_server s)) (sys_received s) (sys_storage s) (sys_net s) (sys_client s)
        (sys_backoff s) (sys_stage s)
  | Collect =>
      match sh_sent sh !! sys_received s with
      | Some data =>
          let '(storage, state, n) :=
            collect_one debug_sensor_id dispatcher_id data (sys_storage s) (sh_state sh) (sh_next sh) in
          mkSystem (with_shared state n (sys_server s)) (1 + sys_received s) storage (sys_net s) (sys_client s)
            (sys_backoff s) (sys_stage s)
      | None => s
      end
  | Tick instant =>
      let '(u, n, stage, _) := begin_tick dispatcher_id location instant (sys_uploader s) (sh_next sh) in
      put_uploader u n stage s
  | Upload =>
      let '(u, n, stage) := upload_step dispatcher_id (sys_stage s) (sys_uploader s) (sh_next sh) in
      put_uploader u n stage s
  end.

(** Whether the task of an event can take it. *)
Definition sys_enabled (s : System) (e : SysEvent) : bool :=
  match e with
  | Receiver e => own_event e && enabled (sys_server s) e
  | Collect => sh_rx_open (srv_shared (sys_server s)) && Nat.ltb (sys_received s) (length (sh_sent (srv_shared (sys_server s))))
  | Tick _ => match sys_stage s with Waiting => true | _ => false end
  | Upload => match sys_stage s with Waiting => false | _ => true end
  end.

Inductive sys_reachable (s0 : System) : System -> Prop :=
  | sys_reach_start : sys_reachable s0 s0
  | sys_reach_step s e : sys_reachable s0 s -> sys_enabled s e = true -> sys_reachable s0 (sys_step e s).

Definition sent (s : System) : list EdgeData := sh_sent (srv_shared (sys_server s)).
Definition drawn (s : System) : nat := sh_next (srv_shared (sys_server s)).
End system.

(** ** What a step leaves alone *)

Section frames.
Context {S N RE SE E : Type} `{!EventStorage ReadingId SensorReading S RE}
  `{!EventStorage StatusId DeviceStatus S SE} {L : PrimeLink N E} `{!EdgeCodec} `{!UlidGen} `{!Clock}
  {inv : N -> Prop} {knows kept norm fine sfine} `{!Delivers L inv knows kept norm fine sfine}
  (debug_sensor_id : SensorId -> string) (dispatcher_id : DispatcherId) (location : H3Cell).
Local Abbreviation same_prime := (same_prime inv knows kept).

Lemma send_events_same events net n : inv net ->
  let '(net', n') := send_events dispatcher_id events net n in same_prime net net' /\ (n <= n')%nat.
Proof.
  revert net n. induction events as [|[d reason|alert] events IH]; intros net n Hn; cbn [send_events].
  { split; [by apply same_prime_refl|done]. }
  - match goal with |- context [link_device_disconnection ?r net] =>
      pose proof (delivers_disconnection r net Hn) as Hs; specialize (IH (fst (link_device_disconnection r net)) (1 + n)%nat (proj1 Hs)) end.
    destruct (send_events _ _ _ _) as [net' n']. destruct IH. split; [by eapply same_prime_trans|lia].
  - pose proof (delivers_alert alert net Hn) as Hs. specialize (IH _ n (proj1 Hs)).
    destruct (send_events _ _ _ _) as [net' n']. destruct IH. split; [by eapply same_prime_trans|lia].
Qed.

Lemma connect_same net : inv net -> same_prime net (fst (connect_and_register dispatcher_id location net)).
Proof.
  intros Hn. unfold connect_and_register. pose proof (delivers_connect net Hn) as Hc.
  destruct (link_connect net) as [net1 [[]|e]]; [|done]. cbn [fst] in Hc.
  pose proof (delivers_hello (mkHelloRequest dispatcher_id location) net1 (proj1 Hc)) as Hh.
  destruct (link_hello _ net1) as [net2 [[|]|e]]; by eapply same_prime_trans.
Qed.

(** A tick up to the pending data changes no reading anywhere. *)
Lemma begin_tick_frame instant (u : Uploader S N) n : inv (up_net u) ->
  let '(u', n', stage, _) := begin_tick dispatcher_id location instant u n in
  up_storage u' = up_storage u /\ same_prime (up_net u) (up_net u') /\ (n <= n')%nat /\
  (stage = Waiting \/ stage = FetchReadings).
Proof.
  intros Hn. unfold begin_tick.
  destruct (if up_client u then _ else _) as [net connected] eqn:C.
  assert (same_prime (up_net u) net) as Hs.
  { destruct (up_client u); [injection C as <- _; by apply same_prime_refl|].
    pose proof (connect_same (up_net u) Hn) as Hs. by rewrite C in Hs. }
  destruct connected as [[]|e]; [|by auto]. unfold report. cbn -[send_events].
  match goal with |- context [link_dispatcher_status ?r net] => pose proof (delivers_status r net (proj1 Hs)) as Hr end.
  destruct (link_dispatcher_status _ net) as [net1 [resp|e]]; cbn [fst] in Hr.
  - pose proof (send_events_same (DispatchState.pending_events (up_state u)) net1 (1 + n) (proj1 Hr)) as He.
    destruct (send_events _ _ net1 _) as [net2 n2]. destruct He as [He Hle]. cbn.
    split_and!; [done|eapply same_prime_trans; [|exact He]; by eapply same_prime_trans|lia|by right].
  - cbn. split_and!; [done|by eapply same_prime_trans|lia|by left].
Qed.

Lemma queue_sensor_alerts_drawn d ss state n :
  (n <= snd (queue_sensor_alerts debug_sensor_id dispatcher_id d ss state n))%nat.
Proof.
  revert state n. induction ss as [|x ss IH]; intros state n; cbn [queue_sensor_alerts]; [done|].
  case_decide; [|apply IH]. etrans; [|apply IH]. lia.
Qed.

(** A step of the receiver: at most one value more on the channel, a reading under a fresh identifier. *)
Lemma server_step_sends e (s : Server) :
  let sh := srv_shared s in
  let sh' := srv_shared (server_step dispatcher_id e s) in
  (sh_next sh <= sh_next sh')%nat /\
  (sh_sent sh' = sh_sent sh \/
   exists r, sh_sent sh' = sh_sent sh ++ [Reading r] /\ rd_id r = mkReadingId (ulid_new (sh_next sh)) /\
     (sh_next sh < sh_next sh')%nat).
Proof.
  destruct s as [acc canc conns sh taken]. destruct e as [|k| | | | |a|i input]; cbn -[connection_step]; try (by auto).
  destruct (conns !! i) as [p|]; [|by auto].
  assert (forall d reason r sh0, sh_sent sh0 = sh_sent sh -> (sh_next sh <= sh_next sh0)%nat ->
    (sh_next sh <= sh_next (fst (disconnect d reason r sh0)))%nat /\ sh_sent (fst (disconnect d reason r sh0)) = sh_sent sh)
    as Hd by done.
  destruct p as [h|h|d loc|d loc buf|d loc buf|f r|d], input as [b|e|r'| |]; cbn [connection_step]; try (by auto).
  - unfold on_location. destruct b; [by auto|]. destruct (Nat.ltb _ _); cbn; [by auto|split; [lia|by left]].
  - destruct r' as [[]|e]; cbn; auto.
  - unfold on_read. destruct b; cbn; auto.
  - unfold decode_one, on_payload. destruct buf as [|x buf]; [by auto|].
    destruct (msg_take_from_bytes _) as [msg rest| |]; [|by auto|cbn; by auto].
    case_decide; [|cbn; by auto]. destruct (msg_type msg).
    destruct (packet_from_bytes _) as [packet|]; [|by auto].
    destruct (convert_metric _) as [m|]; [|by auto].
    destruct (sh_rx_open sh); cbn; [|by auto]. split; [lia|]. right. eauto with lia.
Qed.
End frames.

(** ** A connection that answers *)

(** From a good state of the connection every call succeeds, the hello of the dispatcher included. *)
Class Responsive {N E} (L : PrimeLink N E) (dispatcher_id : DispatcherId) (location : H3Cell) (good : N -> Prop) : Prop := {
  responsive_connect net : good net -> exists net', link_connect net = (net', Ok tt) /\ good net';
  responsive_hello net : good net ->
    exists net' id, link_hello (mkHelloRequest dispatcher_id location) net = (net', Ok (HelloResponse.Accepted id)) /\ good net';
  responsive_status r net : good net -> exists net' a, link_dispatcher_status r net = (net', Ok a) /\ good net';
  responsive_disconnection r net : good net -> exists net' a, link_device_disconnection r net = (net', Ok a) /\ good net';
  responsive_alert r net : good net -> exists net' a, link_alert r net = (net', Ok a) /\ good net';
  responsive_batch b net : good net -> exists net' a, link_batch_upload b net = (net', Ok a) /\ good net'
}.

(** The dispatcher is registered and active. *)
Definition registered {DR DE VR RR SR} `{!DispatcherRegistry DR DE} (dispatcher_id : DispatcherId)
    (prime : AppState DR VR RR SR) : Prop :=
  exists d, dspr_get dispatcher_id (dispatcher_registry prime) = (dispatcher_registry prime, Ok (Some d)) /\
    disp_state d = DispatcherState.Active.

#[export] Instance prime_link_responsive {DR VR RR SR DE VE RdE StE : Type} `{!DispatcherRegistry DR DE}
    `{!DeviceRegistry VR VE} `{!ReadingRegistry RR RdE} `{!DeviceStatusRegistry SR StE} dispatcher_id location :
  Responsive (prime_link (D := DR) (Dev := VR) (R := RR) (S := SR)) dispatcher_id location
  (registered (DR := DR) (DE := DE) dispatcher_id).
Proof.
  split.
  - intros prime Hp. by exists prime.
  - intros prime (d & Hd & Ha). cbn. unfold on_hello. cbn. rewrite Hd, decide_True by done.
    eexists _, _. split; [done|]. by exists d.
  - intros r prime Hp. by exists prime, (mkDispatcherStatusResponse (dsr_dispatcher_id r)).
  - intros r prime Hp. by exists prime, (mkDeviceDisconnectionResponse (ddr_device_id r)).
  - intros r prime Hp. by exists prime, (mkAlertResponse (alert_id r) true).
  - intros b prime (d & Hd & Ha). cbn. unfold on_batch_upload.
    destruct (keep_known rd_device_id _ _ _ _) as [dev [vr nr]]. destruct (keep_known st_device_id _ _ _ _) as [dev' [vs ns]].
    eexists _, _. split; [done|]. by exists d.
Qed.

Section responsive.
Context {S N RE SE E : Type} `{!EventStorage ReadingId SensorReading S RE}
  `{!EventStorage StatusId DeviceStatus S SE} {L : PrimeLink N E} `{!UlidGen} `{!Clock}
  (dispatcher_id : DispatcherId) (location : H3Cell) {good : N -> Prop} `{!Responsive L dispatcher_id location good}.

Lemma send_events_good events net n : good net -> good (fst (send_events dispatcher_id events net n)).
Proof.
  revert net n. induction events as [|[d reason|alert] events IH]; intros net n Hn; cbn [send_events]; [done|..].
  - match goal with |- context [link_device_disconnection ?r net] =>
      destruct (responsive_disconnection r net Hn) as (net' & a & -> & Hn') end. by apply IH.
  - destruct (responsive_alert alert net Hn) as (net' & a & -> & Hn'). by apply IH.
Qed.

Lemma begin_tick_good instant (u : Uploader S N) n : good (up_net u) ->
  exists u' n', begin_tick dispatcher_id location instant u n = (u', n', FetchReadings, None) /\ good (up_net u').
Proof.
  intros Hn. unfold begin_tick.
  assert (exists net, (if up_client u then (up_net u, Ok tt) else connect_and_register dispatcher_id location (up_net u)) =
    (net, Ok tt) /\ good net) as (net & -> & Hg).
  { destruct (up_client u); [eauto|]. unfold connect_and_register.
    destruct (responsive_connect (up_net u) Hn) as (net1 & -> & Hn1).
    destruct (responsive_hello net1 Hn1) as (net2 & id & -> & Hn2). eauto. }
  unfold report. cbn -[send_events].
  match goal with |- context [link_dispatcher_status ?r net] =>
    destruct (responsive_status r net Hg) as (net1 & a & -> & Hn1) end.
  pose proof (send_events_good (DispatchState.pending_events (up_state u)) net1 (1 + n) Hn1) as He.
  destruct (send_events _ _ net1 _) as [net2 n2]. by eexists _, _.
Qed.

(** How many calls a stage has ahead of it. *)
Definition calls_left (stage : Stage) : nat :=
  match stage with
  | Waiting => 0 | MarkStatuses _ => 1 | MarkReadings _ _ => 2 | Uploading _ _ => 3 | FetchStatuses _ => 4 | FetchReadings => 5
  end.

Lemma upload_step_calls stage (u : Uploader S N) n :
  (calls_left (snd (upload_step dispatcher_id stage u n)) <= calls_left stage - 1)%nat.
Proof.
  destruct stage as [| |readings|readings statuses|rids sids|sids]; cbn [upload_step]; try (cbn; lia).
  - destruct (fetch_pending (up_storage u)) as [st [l|e]]; cbn; lia.
  - destruct (fetch_pending (up_storage u)) as [st [[|x l]|e]]; destruct readings; cbn; lia.
  - destruct (link_batch_upload _ (up_net u)) as [net [a|e]]; cbn; lia.
Qed.

Lemma upload_steps_end k stage (u : Uploader S N) n : (calls_left stage <= k)%nat ->
  snd (upload_steps dispatcher_id k (u, n, stage)) = Waiting.
Proof.
  revert stage u n. induction k as [|k IH]; intros stage u n Hk; cbn [upload_steps].
  - destruct stage; cbn in Hk; done || lia.
  - pose proof (upload_step_calls stage u n) as Hc. destruct (upload_step _ _ _ _) as [[u' n'] stage']. apply IH. cbn in Hc. lia.
Qed.
End responsive.
