(* ===== verification/Delivery.v ===== *)
(** * Every reading of a dispatcher, wherever it is

    The runs of [System], in which the receiver's connections, the collector and the uploader interleave
    in any order over any connection that [Delivers].  The invariant [delivery_inv] says where each
    reading is that was ever put on the channel, and each step of a task preserves it; from it follow
    that none is lost on the way, and that a connection that answers brings all of them to ersha-prime. *)
From Stdlib Require Import ZArith Lia Strings.String.
From stdpp Require Import base gmap strings list.
From S2P Require Import Prelude Platform Core Samples Filter Registry InMemory RpcFrame Rpc EdgeDevice EdgeTcp.
From S2P Require Import PrimeHandlers DispatchStorage DispatchMain EndToEnd RpcLink WireUploader DispatchSystem.
Open Scope Z_scope.

(** ** Every reading, wherever it is *)

Definition readings_of (data : list EdgeData) : list SensorReading :=
  omap (fun d => match d with Reading r => Some r | Status _ => None end) data.

Lemma readings_of_app a b : readings_of (a ++ b) = readings_of a ++ readings_of b.
Proof. apply omap_app. Qed.

Lemma elem_of_readings_of r data : r ∈ readings_of data <-> Reading r ∈ data.
Proof.
  unfold readings_of. rewrite list_elem_of_omap. split; [|by exists (Reading r)].
  intros ([] & Hin & [= ->]). exact Hin.
Qed.

Section delivery.
Context {S N RE SE E Fr Fs : Type} `{!EventStorage ReadingId SensorReading S RE}
  `{!EventStorage StatusId DeviceStatus S SE} {rstorable sstorable rinv sinv rview sview}
  {rframe : S -> Fr} {sframe : S -> Fs}
  `{!DispatcherStorageLaws rstorable sstorable rinv sinv rview sview rframe sframe}
  {L : PrimeLink N E} `{!EdgeCodec} `{!UlidGen} `{!Clock} {inv : N -> Prop} {knows kept norm fine sfine}
  `{!Delivers L inv knows kept norm fine sfine}
  (debug_sensor_id : SensorId -> string) (dispatcher_id : DispatcherId) (location : H3Cell)
  (knows0 : DeviceId -> bool) (kept0 : ReadingId -> option SensorReading) (n0 : nat).

(** An identifier that this run of the dispatcher does not draw. *)
Definition old (id : ReadingId) : Prop := forall j, (n0 <= j)%nat -> id <> mkReadingId (ulid_new j).

Definition delivered (net : N) (r : SensorReading) : Prop :=
  knows0 (rd_device_id r) = true -> kept net (rd_id r) = Some (norm r).

(** The storage refused the reading. *)
Definition refused (r : SensorReading) : Prop := exists st e, snd (store (V := SensorReading) r st) = Err e.

Definition placed (st : S) (net : N) (r : SensorReading) : Prop :=
  refused r \/ rview st !! rd_id r = Some (r, Pending) \/ rview st !! rd_id r = Some (r, Uploaded) /\ delivered net r.

Definition in_flight (st : S) (readings : list SensorReading) : Prop :=
  NoDup (rd_id <$> readings) /\ Forall (fun r => rview st !! rd_id r = Some (r, Pending)) readings.

Definition markable (st : S) (net : N) (id : ReadingId) : Prop :=
  exists r, rview st !! id = Some (r, Pending) /\ delivered net r.

Definition known_status (id : StatusId) : Prop := exists v, sstorable v /\ st_id v = id.

(** What the uploader holds on to between two calls. *)
Definition stage_ok (st : S) (net : N) (stage : Stage) : Prop :=
  match stage with
  | Waiting | FetchReadings => True
  | FetchStatuses readings => in_flight st readings
  | Uploading readings statuses => in_flight st readings /\ Forall (fun x => sstorable x /\ sfine x) statuses
  | MarkReadings reading_ids status_ids => Forall (markable st net) reading_ids /\ Forall known_status status_ids
  | MarkStatuses status_ids => Forall known_status status_ids
  end.

(** The channel's values so far, how many the collector took, the identifiers drawn, the storage,
    ersha-prime and the uploader's stage. *)
Record delivery_inv (data : list EdgeData) (received n : nat) (st : S) (net : N) (stage : Stage) : Prop := {
  di_storage : storage_inv (rinv := rinv) (sinv := sinv) st;
  di_prime : inv net;
  di_knows d : knows net d = knows0 d;
  di_received : (received <= length data)%nat;
  di_drawn : (n0 <= n)%nat;
  di_fresh : NoDup (rd_id <$> readings_of data);
  di_ids r : r ∈ readings_of data -> exists j, (n0 <= j < n)%nat /\ rd_id r = mkReadingId (ulid_new j);
  di_keys id r state : rview st !! id = Some (r, state) -> old id \/ r ∈ readings_of (take received data);
  di_placed r : r ∈ readings_of (take received data) -> placed st net r;
  di_kept id : ~ old id -> kept net id = kept0 id \/
    exists r, r ∈ readings_of (take received data) /\ rd_id r = id /\ knows0 (rd_device_id r) = true;
  di_fine id r state : rview st !! id = Some (r, state) -> fine r;
  di_sfine id x state : sview st !! id = Some (x, state) -> sfine x;
  di_stage : stage_ok st net stage
}.

Lemma drawn_not_old data received n st net stage r : delivery_inv data received n st net stage ->
  r ∈ readings_of data -> ~ old (rd_id r).
Proof. intros Hi Hr Ho. destruct (di_ids _ _ _ _ _ _ Hi r Hr) as (j & ? & Hj). by apply (Ho j); [lia|]. Qed.

(** Any task may draw identifiers and the receiver may send a reading under a new one. *)
Lemma draw_inv data received n n' st net stage : delivery_inv data received n st net stage -> (n <= n')%nat ->
  delivery_inv data received n' st net stage.
Proof.
  intros [] Hle. constructor; try done; [lia|]. intros r Hr.
  destruct (di_ids0 r Hr) as (j & ? & ?). exists j. split; [lia|done].
Qed.

Lemma send_inv `{!Inj (=) (=) ulid_new} data received n n' st net stage r : delivery_inv data received n st net stage ->
  rd_id r = mkReadingId (ulid_new n) -> (n < n')%nat -> delivery_inv (data ++ [Reading r]) received n' st net stage.
Proof.
  intros [] Hid Hlt.
  assert (take received (data ++ [Reading r]) = take received data) as Htake by (by apply take_app_le).
  constructor; rewrite ?Htake; try done; rewrite ?length_app, ?readings_of_app; [lia|lia| |].
  - rewrite fmap_app. apply NoDup_app. split_and!; [done| |apply NoDup_singleton].
    intros id (x & -> & Hx)%list_elem_of_fmap Hin. destruct (di_ids0 x Hx) as (j & Hj & Hxj).
    apply list_elem_of_singleton in Hin. rewrite Hxj, Hid in Hin. injection Hin as Hin. apply (inj _) in Hin. lia.
  - intros x [Hx|Hx]%elem_of_app; [destruct (di_ids0 x Hx) as (j & ? & ?); exists j; split; [lia|done]|].
    apply list_elem_of_singleton in Hx as ->. exists n. split; [lia|done].
Qed.

Lemma receiver_inv `{!Inj (=) (=) ulid_new} e (s : Server) received st net stage :
  let sh := srv_shared s in
  let sh' := srv_shared (server_step dispatcher_id e s) in
  delivery_inv (sh_sent sh) received (sh_next sh) st net stage ->
  delivery_inv (sh_sent sh') received (sh_next sh') st net stage.
Proof.
  intros sh sh' Hi. destruct (server_step_sends dispatcher_id e s) as [Hle Hsent]. fold sh sh' in Hle, Hsent.
  destruct Hsent as [->|(r & -> & Hid & Hlt)]; [by eapply draw_inv|by eapply send_inv].
Qed.

(** A tick up to the pending data. *)
Lemma tick_inv data received n n' st net net' stage : delivery_inv data received n st net Waiting -> (n <= n')%nat ->
  same_prime inv knows kept net net' -> stage = Waiting \/ stage = FetchReadings ->
  delivery_inv data received n' st net' stage.
Proof.
  intros Hi Hle (Hn & Hk & Hkept) Hst. apply (draw_inv _ _ _ n') in Hi; [|done]. destruct Hi. constructor; try done.
  - intros d. by rewrite Hk.
  - intros r Hr. unfold placed, delivered. rewrite Hkept. by apply di_placed0.
  - intros id Hid. rewrite Hkept. by apply di_kept0.
  - by destruct Hst as [-> | ->].
Qed.

(** *** The collector *)

(** What both ends can hold. *)
Definition storable_data (d : EdgeData) : Prop :=
  match d with Reading r => rstorable r /\ fine r | Status s => sstorable s /\ sfine s end.

Lemma stage_ok_mono st st' net stage : (forall id e, rview st !! id = Some e -> rview st' !! id = Some e) ->
  stage_ok st net stage -> stage_ok st' net stage.
Proof.
  intros Hmono.
  assert (forall rs, in_flight st rs -> in_flight st' rs) as Hfl
    by (intros rs [Hnd Hrs]; split; [done|]; eapply Forall_impl; [exact Hrs|]; intros r; apply Hmono).
  destruct stage; cbn; [done|done|apply Hfl|intros [Hf ?]; auto| |done]. intros [Hm ?]. split; [|done].
  eapply Forall_impl; [exact Hm|]. intros id (r & Hr & Hd). exists r. auto.
Qed.

(** A change of the storage that leaves the readings as they are. *)
Lemma storage_inv_step data received n st st' net stage stage' : delivery_inv data received n st net stage ->
  storage_inv (rinv := rinv) (sinv := sinv) st' -> rview st' = rview st ->
  (forall id x state, sview st' !! id = Some (x, state) -> sfine x) -> stage_ok st' net stage' ->
  delivery_inv data received n st' net stage'.
Proof.
  intros [] Hst Hv Hsf Hstage. constructor; try done; [rewrite Hv; done| |rewrite Hv; done].
  intros r Hr. unfold placed. rewrite Hv. by apply di_placed0.
Qed.

Lemma next_is_new data received n st net stage r : delivery_inv data received n st net stage ->
  data !! received = Some (Reading r) ->
  rview st !! rd_id r = None /\ forall x, x ∈ readings_of (take received data) -> rd_id x <> rd_id r.
Proof.
  intros Hi Hr. pose proof Hi as [Hst _ _ _ _ Hf _ Hkeys _ _ _ _ _].
  assert (forall x, x ∈ readings_of (take received data) -> rd_id x <> rd_id r) as Hne.
  { rewrite <- (take_drop_middle _ _ _ Hr), readings_of_app, fmap_app in Hf. apply NoDup_app in Hf as (_ & Hf & _).
    intros x Hx Heq. apply (Hf (rd_id x)); [by apply list_elem_of_fmap_2|]. rewrite Heq. by apply elem_of_cons; left. }
  split; [|done]. destruct (rview st !! rd_id r) as [[v state]|] eqn:Hv; [|done]. exfalso.
  destruct (Hkeys _ _ _ Hv) as [Hold|Hin].
  - eapply drawn_not_old; [exact Hi| |exact Hold]. apply elem_of_readings_of. by eapply list_elem_of_lookup_2.
  - apply (Hne v Hin). by destruct (view_keyed _ _ _ (proj1 Hst) Hv).
Qed.

Lemma collect_reading_inv data received n st net stage r : delivery_inv data received n st net stage ->
  data !! received = Some (Reading r) -> rstorable r -> fine r ->
  delivery_inv data (1 + received) n (fst (store r st)) net stage.
Proof.
  intros Hi Hr Hs Hfine. destruct (next_is_new _ _ _ _ _ _ _ Hi Hr) as [Hnew Hne].
  pose proof (lookup_lt_Some _ _ _ Hr) as Hlt. destruct Hi as [[Hri Hsi] ??????????? Hstage].
  destruct (store r st) as [st' res] eqn:Est. cbn [fst].
  destruct (store_spec _ _ _ _ Hri Hs Est) as (Hri' & Hfr & Hv). destruct (rframe_spec _ _ Hfr) as [Hsv Hsi'].
  assert (forall id e, rview st' !! id = Some e <-> rview st !! id = Some e \/ res = Ok tt /\ id = rd_id r /\ e = (r, Pending))
    as Hview.
  { intros id e. rewrite Hv. destruct res as [[]|e0]; [|naive_solver]. unfold add_pending.
    rewrite lookup_insert_Some. split; [naive_solver|]. intros [Hid|(_ & -> & ->)]; [|by left].
    right. split; [|done]. intros <-. congruence. }
  assert (take (1 + received) data = take received data ++ [Reading r]) as Htake by (by apply take_S_r).
  constructor; rewrite ?Htake, ?readings_of_app; try done; [by split; auto| | | | |by rewrite Hsv|].
  - intros id x state [Hid|(_ & -> & [= -> ->])]%Hview; setoid_rewrite elem_of_app; [by destruct (di_keys0 _ _ _ Hid); auto|].
    right. right. by apply list_elem_of_singleton.
  - intros x [Hx|Hx]%elem_of_app.
    + destruct (di_placed0 x Hx) as [?|[?|[? ?]]]; [by left|right; left|right; right; split; [|done]]; apply Hview; auto.
    + apply list_elem_of_singleton in Hx as ->. destruct res as [[]|e0]; [|left; exists st, e0; by rewrite Est].
      right. left. apply Hview. auto.
  - intros id Hid. destruct (di_kept0 id Hid) as [?|(x & Hx & ?)]; [by left|]. right. exists x. rewrite elem_of_app. auto.
  - intros id x state [Hid|(_ & -> & [= -> ->])]%Hview; [by eapply di_fine0|done].
  - eapply stage_ok_mono; [|exact Hstage]. intros id e Hid. apply Hview. auto.
Qed.

Lemma collect_inv data received n st net stage state d : delivery_inv data received n st net stage ->
  data !! received = Some d -> storable_data d ->
  let '(st', _, n') := collect_one debug_sensor_id dispatcher_id d st state n in
  delivery_inv data (1 + received) n' st' net stage.
Proof.
  intros Hi Hd Hs. destruct d as [r|x]; [by destruct Hs; apply collect_reading_inv|].
  cbn [collect_one]. destruct Hs as [Hs Hfine].
  assert (n <= snd (queue_sensor_alerts debug_sensor_id dispatcher_id (st_device_id x) (st_sensor_statuses x)
    (fst (match battery_alert dispatcher_id x n with
          | Some alert => (DispatchState.queue_alert alert state, (1 + n)%nat) | None => (state, n) end))
    (snd (match battery_alert dispatcher_id x n with
          | Some alert => (DispatchState.queue_alert alert state, (1 + n)%nat) | None => (state, n) end))))%nat as Hle.
  { etrans; [|apply queue_sensor_alerts_drawn]. destruct (battery_alert _ _ _); cbn; lia. }
  destruct (match battery_alert _ _ _ with Some _ => _ | None => _ end) as [state1 n1]. cbn [fst snd] in Hle.
  destruct (queue_sensor_alerts _ _ _ _ _ _) as [state2 n2]. cbn [snd] in Hle.
  apply (draw_inv _ _ _ n2) in Hi; [|done]. pose proof (lookup_lt_Some _ _ _ Hd) as Hlt.
  assert (readings_of (take (1 + received) data) = readings_of (take received data)) as Htake.
  { change (1 + received)%nat with (Datatypes.S received). rewrite (take_S_r _ _ _ Hd), readings_of_app. apply app_nil_r. }
  destruct (store x st) as [st' res] eqn:Est. cbn [fst]. pose proof (proj1 (di_storage _ _ _ _ _ _ Hi)) as Hri.
  destruct (store_spec _ _ _ _ (proj2 (di_storage _ _ _ _ _ _ Hi)) Hs Est) as (Hsi' & Hfr & Hsv).
  destruct (sframe_spec _ _ Hfr) as [Hrv Hri']. apply (storage_inv_step _ _ _ _ st' _ _ stage) in Hi;
    [|by split; auto|done| |eapply stage_ok_mono; [|apply Hi]; by rewrite Hrv].
  2:{ pose proof (di_sfine _ _ _ _ _ _ Hi) as Hsf. rewrite Hsv. destruct res as [[]|e]; [|exact Hsf].
      intros id y state0. unfold add_pending. intros [[_ [= -> _]]|[_ Hy]]%lookup_insert_Some; [done|exact (Hsf _ _ _ Hy)]. }
  destruct Hi. constructor; rewrite ?Htake; done.
Qed.

(** *** The uploader *)

Lemma fetch_readings_inv data received n st net st' res : delivery_inv data received n st net FetchReadings ->
  fetch_pending (V := SensorReading) st = (st', res) ->
  delivery_inv data received n st' net (match res with Ok readings => FetchStatuses readings | Err _ => Waiting end).
Proof.
  intros Hi Hf. pose proof (di_storage _ _ _ _ _ _ Hi) as Hst.
  destruct (fetch_readings _ _ _ Hst Hf) as (Hst' & Hr & Hsv & Hl).
  apply (storage_inv_step _ _ _ _ st' _ _ _ Hi); [done|done|rewrite Hsv; apply Hi|]. destruct res as [l|e]; [|done]. cbn.
  assert (forall k e, rview st !! k = Some e -> rd_id (fst e) = k) as Hkey
    by (intros k e Hk; by destruct (view_keyed _ _ _ (proj1 Hst) Hk)).
  split; [rewrite Hl; by apply pending_NoDup|]. apply Forall_forall. intros r Hin. rewrite Hr.
  rewrite Hl in Hin. apply elem_of_pending in Hin as [k Hk]. pose proof (Hkey _ _ Hk) as Hid. cbn in Hid. by subst k.
Qed.

Lemma fetch_statuses_inv data received n st net readings st' res :
  delivery_inv data received n st net (FetchStatuses readings) ->
  fetch_pending (V := DeviceStatus) st = (st', res) ->
  delivery_inv data received n st' net
    (match res with
     | Ok statuses => match readings, statuses with [], [] => Waiting | _, _ => Uploading readings statuses end
     | Err _ => Waiting
     end).
Proof.
  intros Hi Hf. pose proof (di_storage _ _ _ _ _ _ Hi) as Hst. pose proof (di_stage _ _ _ _ _ _ Hi) as Hfl.
  destruct (fetch_statuses _ _ _ Hst Hf) as (Hst' & Hr & Hsv & Hl).
  apply (storage_inv_step _ _ _ _ st' _ _ _ Hi); [done|done|rewrite Hsv; apply Hi|]. destruct res as [l|e]; [|done].
  assert (stage_ok st' net (Uploading readings l)) as Hok; [|by destruct readings, l].
  split; [by apply (stage_ok_mono st st' net (FetchStatuses readings)); [rewrite Hr|]|].
  apply Forall_forall. intros x Hin. rewrite Hl in Hin. apply elem_of_pending in Hin as [k Hk].
  split; [by destruct (view_keyed _ _ _ (proj2 Hst) Hk)|by eapply (di_sfine _ _ _ _ _ _ Hi)].
Qed.

(** A batch of what is in flight moves it to ersha-prime, and nothing else. *)
Lemma uploading_inv data received n st net readings statuses batch net' res :
  delivery_inv data received n st net (Uploading readings statuses) ->
  bu_readings batch = readings -> bu_statuses batch = statuses ->
  link_batch_upload batch net = (net', res) ->
  delivery_inv data received n st net'
    (match res with Ok _ => MarkReadings (rd_id <$> readings) (st_id <$> statuses) | Err _ => Waiting end).
Proof.
  intros Hi Hbr Hbs Hup. destruct Hi as [Hst Hp Hk ?????? Hkept Hfine Hsfine [[Hnd Hfl] Hss]].
  assert (forall r, r ∈ readings -> rview st !! rd_id r = Some (r, Pending)) as Hin by (by apply Forall_forall).
  destruct (delivers_batch batch net net' res Hp) as (Hp' & Hk' & Htakes); rewrite ?Hbr, ?Hbs; [done| | |done|].
  { eapply Forall_impl; [exact Hfl|]. intros r Hr. exact (Hfine _ _ _ Hr). }
  { eapply Forall_impl; [exact Hss|]. by intros x []. }
  rewrite Hbr in Htakes.
  assert (forall id, (forall r, r ∈ readings -> rd_id r = id -> knows0 (rd_device_id r) = false) -> kept net' id = kept net id)
    as Hsame.
  { destruct Htakes as [[_ Ht]|[_ Ht]]; [|done]. intros id Hid. apply Ht. intros r Hr Heq. rewrite Hk. eauto. }
  constructor; try done.
  - intros d. by rewrite Hk'.
  - intros r Hr. destruct (di_placed0 r Hr) as [?|[?|[Hu Hd]]]; [by left|by right; left|right; right; split; [done|]].
    intros Hkn. rewrite Hsame; [by apply Hd|]. intros x Hx Heq. pose proof (Hin x Hx) as Hx'. congruence.
  - intros id Hid. destruct (decide (Exists (fun r => rd_id r = id) readings)) as [Hex|Hex].
    + apply Exists_exists in Hex as (x & Hx & <-). destruct (di_keys0 _ _ _ (Hin x Hx)) as [?|Hx']; [done|].
      destruct (knows0 (rd_device_id x)) eqn:Hkn; [right; eauto|]. rewrite Hsame; [by apply Hkept|].
      intros y Hy Heq. pose proof (Hin y Hy) as Hy'. rewrite Heq, (Hin x Hx) in Hy'. by injection Hy' as <-.
    + rewrite Hsame; [by apply Hkept|]. intros x Hx Heq. destruct Hex. apply Exists_exists. eauto.
  - destruct res as [resp|e]; [|done]. destruct Htakes as [[Ht _]|[[e He] _]]; [|done]. cbn. rewrite !Forall_fmap. split.
    + apply Forall_forall. intros r Hr. exists r. split; [by apply Hin|]. intros Hkn. apply Ht; [done|]. by rewrite Hk.
    + eapply Forall_impl; [exact Hss|]. intros x [Hx _]. by exists x.
Qed.

Lemma mark_readings_inv data received n st net reading_ids status_ids :
  delivery_inv data received n st net (MarkReadings reading_ids status_ids) ->
  delivery_inv data received n (fst (mark_uploaded (V := SensorReading) reading_ids st)) net (MarkStatuses status_ids).
Proof.
  intros [Hst ??????????? [Hm Hss]]. destruct (mark_uploaded reading_ids st) as [st' res] eqn:M. cbn [fst].
  destruct (mark_readings st st' res reading_ids Hst) as (Hst' & Hsv & Hv); [|done|].
  { eapply Forall_impl; [exact Hm|]. intros id (r & Hr & _). exists r. by destruct (view_keyed _ _ _ (proj1 Hst) Hr). }
  assert (forall id, rview st' !! id = rview st !! id \/
    exists r, rview st !! id = Some (r, Pending) /\ rview st' !! id = Some (r, Uploaded) /\ delivered net r) as Hview.
  { intros id. rewrite Hv. destruct res; [|by left]. rewrite lookup_mark_all. case_decide as Hid; [|by left].
    rewrite Forall_forall in Hm. destruct (Hm id Hid) as (r & Hr & Hd). right. exists r. by rewrite Hr. }
  constructor; try done.
  - intros id r state Hr. destruct (Hview id) as [Heq|(x & Hx & Hx' & _)]; [rewrite Heq in Hr; by eapply di_keys0|].
    rewrite Hr in Hx'. injection Hx' as -> ->. by eapply di_keys0.
  - intros r Hr. destruct (di_placed0 r Hr) as [?|Hw]; [by left|right].
    destruct (Hview (rd_id r)) as [-> |(x & Hx & Hx' & Hd)]; [done|].
    destruct Hw as [Hw|[Hw _]]; rewrite Hw in Hx; [|done]. injection Hx as <-. auto.
  - intros id r state Hr. destruct (Hview id) as [Heq|(x & Hx & Hx' & _)]; [rewrite Heq in Hr; by eapply di_fine0|].
    rewrite Hr in Hx'. injection Hx' as -> ->. by eapply di_fine0.
  - by rewrite Hsv.
Qed.

Lemma mark_statuses_inv data received n st net status_ids :
  delivery_inv data received n st net (MarkStatuses status_ids) ->
  delivery_inv data received n (fst (mark_uploaded (V := DeviceStatus) status_ids st)) net Waiting.
Proof.
  intros Hi. pose proof (di_storage _ _ _ _ _ _ Hi) as Hst. pose proof (di_stage _ _ _ _ _ _ Hi) as Hs.
  destruct (mark_uploaded status_ids st) as [st' res] eqn:M. cbn [fst].
  destruct (mark_statuses _ _ _ _ Hst Hs M) as (Hst' & Hr & Hsv). apply (storage_inv_step _ _ _ _ st' _ _ _ Hi); try done.
  pose proof (di_sfine _ _ _ _ _ _ Hi) as Hsf. rewrite Hsv. destruct res; [|exact Hsf].
  intros id x state. rewrite lookup_mark_all. case_decide; [|by apply Hsf].
  destruct (sview st !! id) as [[y sy]|] eqn:Hy; [|done]. cbn. intros [= -> _]. exact (Hsf _ _ _ Hy).
Qed.

Lemma upload_inv data received n stage (u : Uploader S N) : delivery_inv data received n (up_storage u) (up_net u) stage ->
  let '(u', n', stage') := upload_step dispatcher_id stage u n in
  delivery_inv data received n' (up_storage u') (up_net u') stage'.
Proof.
  intros Hi. destruct stage as [| |readings|readings statuses|reading_ids status_ids|status_ids]; cbn [upload_step].
  - done.
  - destruct (fetch_pending (up_storage u)) as [st [l|e]] eqn:F; by apply (fetch_readings_inv _ _ _ _ _ _ _ Hi) in F.
  - destruct (fetch_pending (up_storage u)) as [st [l|e]] eqn:F; by apply (fetch_statuses_inv _ _ _ _ _ _ _ _ Hi) in F.
  - match goal with |- context [link_batch_upload ?b _] => set (batch := b) end.
    destruct (link_batch_upload batch (up_net u)) as [net' [resp|e]] eqn:F;
      apply (uploading_inv _ _ _ _ _ readings statuses batch _ _ Hi eq_refl eq_refl) in F;
      (eapply draw_inv; [exact F|lia]).
  - by apply mark_readings_inv.
  - by apply mark_statuses_inv.
Qed.
End delivery.

(** ** Runs of the system *)

Section runs.
Context {S N RE SE E Fr Fs : Type} `{!EventStorage ReadingId SensorReading S RE}
  `{!EventStorage StatusId DeviceStatus S SE} {rstorable sstorable rinv sinv rview sview}
  {rframe : S -> Fr} {sframe : S -> Fs}
  `{!DispatcherStorageLaws rstorable sstorable rinv sinv rview sview rframe sframe}
  {L : PrimeLink N E} `{!EdgeCodec} `{!UlidGen} `{!Clock} {inv : N -> Prop} {knows kept norm fine sfine}
  `{!Delivers L inv knows kept norm fine sfine}
  (debug_sensor_id : SensorId -> string) (dispatcher_id : DispatcherId) (location : H3Cell).
Local Abbreviation System := (System S N).
Local Abbreviation sys_step := (sys_step debug_sensor_id dispatcher_id location).
Local Abbreviation sys_reachable := (sys_reachable debug_sensor_id dispatcher_id location).

Lemma sent_grows e (s : System) : sent s `prefix_of` sent (sys_step e s).
Proof.
  unfold sent. destruct e as [e| |instant|]; cbn [DispatchSystem.sys_step].
  - destruct (server_step_sends dispatcher_id e (sys_server s)) as [_ [Hs|(r & Hs & _)]]; cbn [sys_server]; rewrite Hs;
      [done|by apply prefix_app_r].
  - destruct (_ !! _) as [d|]; [|done]. by destruct (collect_one _ _ _ _ _ _) as [[st state] n].
  - by destruct (begin_tick _ _ _ _ _) as [[[u n] stage] slept].
  - by destruct (upload_step _ _ _ _) as [[u n] stage].
Qed.

(** The readings and identifiers of a system, for the invariant. *)
Definition system_inv knows0 kept0 n0 (s : System) : Prop :=
  delivery_inv (sstorable := sstorable) (rinv := rinv) (sinv := sinv) (rview := rview) (sview := sview)
    (inv := inv) (knows := knows) (kept := kept) (norm := norm) (fine := fine) (sfine := sfine) knows0 kept0 n0
    (sent s) (sys_received s) (drawn s) (sys_storage s) (sys_net s) (sys_stage s).

Context `{!Inj (=) (=) ulid_new} (knows0 : DeviceId -> bool) (kept0 : ReadingId -> option SensorReading) (n0 : nat).
Local Abbreviation sys_inv := (system_inv knows0 kept0 n0).
Local Abbreviation storable_data := (storable_data (rstorable := rstorable) (sstorable := sstorable) (fine := fine) (sfine := sfine)).

Lemma sys_step_inv e (s : System) : sys_enabled s e = true -> Forall storable_data (sent s) -> sys_inv s ->
  sys_inv (sys_step e s).
Proof.
  intros He Hd Hi. unfold system_inv, sent, drawn in *. destruct e as [e| |instant|]; cbn [DispatchSystem.sys_step].
  - by apply receiver_inv.
  - destruct (sh_sent _ !! sys_received s) as [d|] eqn:Hl; [|done].
    pose proof (collect_inv debug_sensor_id dispatcher_id _ _ _ _ _ _ _ _ _
      (sh_state (srv_shared (sys_server s))) d Hi Hl) as Hc.
    destruct (collect_one _ _ _ _ _ _) as [[st state] n]. apply Hc. by eapply Forall_lookup_1.
  - pose proof (begin_tick_frame dispatcher_id location instant (sys_uploader s) (sh_next (srv_shared (sys_server s)))
      (di_prime _ _ _ _ _ _ _ _ _ Hi)) as Hb.
    destruct (begin_tick _ _ _ _ _) as [[[u n] stage] slept]. destruct Hb as (Hst & Hs & Hle & Hstage).
    cbn [put_uploader sys_server sys_storage sys_net sys_received sys_stage with_shared srv_shared sh_sent sh_next].
    rewrite Hst. eapply tick_inv; [|exact Hle|exact Hs|exact Hstage]. cbn in He. by destruct (sys_stage s).
  - pose proof (upload_inv dispatcher_id knows0 kept0 n0 _ _ _ _ (sys_uploader s) Hi) as Hu.
    by destruct (upload_step _ _ _ _) as [[u n] stage].
Qed.

Lemma sys_reachable_inv (s0 s : System) : sys_reachable s0 s -> sys_inv s0 -> Forall storable_data (sent s) -> sys_inv s.
Proof.
  induction 1 as [|s e Hs IH He]; intros Hi Hd; [done|].
  assert (Forall storable_data (sent s)) as Hd' by (destruct (sent_grows e s) as [k Hk]; rewrite Hk in Hd; by apply Forall_app in Hd as [? _]).
  apply sys_step_inv; auto.
Qed.

Lemma sys_start_inv storage net state : storage_inv (rinv := rinv) (sinv := sinv) storage -> inv net ->
  (forall id e, rview storage !! id = Some e -> old n0 id /\ fine (fst e)) ->
  (forall id e, sview storage !! id = Some e -> sfine (fst e)) ->
  (forall d, knows net d = knows0 d) -> (forall id, kept net id = kept0 id) ->
  sys_inv (sys_start storage net state n0).
Proof.
  intros Hst Hn Hold Hsf Hk Hk0. constructor; cbn; try done.
  - apply NoDup_nil_2.
  - by intros r ?%elem_of_nil.
  - intros id r st Hr. left. by apply Hold in Hr as [? _].
  - by intros r ?%elem_of_nil.
  - intros id _. by left.
  - intros id r st Hr. by apply Hold in Hr as [_ ?].
  - intros id x st Hx. by apply Hsf in Hx.
Qed.

(** ** Everything can be delivered *)

(** The collector takes what is on the channel, the uploader finishes what it does and has a tick. *)
Definition settle (instant : Z) (s : System) : list SysEvent :=
  replicate (length (sent s) - sys_received s) Collect ++ replicate 5 Upload ++ Tick instant :: replicate 5 Upload.

Definition sys_run (es : list SysEvent) (s : System) : System := foldl (fun s e => sys_step e s) s es.

Lemma sys_run_cons e es (s : System) : sys_run (e :: es) s = sys_run es (sys_step e s).
Proof. done. Qed.

Lemma sys_run_app es es' (s : System) : sys_run (es ++ es') s = sys_run es' (sys_run es s).
Proof. apply foldl_app. Qed.

Lemma upload_waiting (s : System) : sys_stage s = Waiting -> sys_step Upload s = s.
Proof. intros Hw. destruct s as [[acc canc conns [state sent rx next] taken] rec st net cl bo stage]. cbn in *. by subst. Qed.

Lemma sys_reachable_trans (s1 s2 s3 : System) : sys_reachable s1 s2 -> sys_reachable s2 s3 -> sys_reachable s1 s3.
Proof. intros Hr. induction 1; [done|by constructor]. Qed.

Lemma upload_reachable (s : System) : sys_reachable s (sys_step Upload s).
Proof.
  destruct (sys_stage s) eqn:Hw; [rewrite upload_waiting by done; constructor|..];
    (apply sys_reach_step; [constructor|]; cbn; by rewrite Hw).
Qed.

(** Whether each event of a run can happen when it does. *)
Fixpoint allowed (es : list SysEvent) (s : System) : bool :=
  match es with [] => true | e :: es => sys_enabled s e && allowed es (sys_step e s) end.

Lemma allowed_reachable es (s : System) : allowed es s = true -> sys_reachable s (sys_run es s).
Proof.
  revert s. induction es as [|e es IH]; intros s; cbn [allowed]; [constructor|]. intros [He Hes]%andb_true_iff.
  rewrite sys_run_cons. eapply sys_reachable_trans; [|by apply IH]. apply sys_reach_step; [constructor|done].
Qed.

(** Calls of the uploader in the system. *)
Lemma sys_run_uploads k (s : System) :
  let '(u, n, stage) := upload_steps dispatcher_id k (sys_uploader s, drawn s, sys_stage s) in
  let s' := sys_run (replicate k Upload) s in
  (sys_reachable s s') /\ sent s' = sent s /\ sys_received s' = sys_received s /\ sys_uploader s' = u /\
  drawn s' = n /\ sys_stage s' = stage /\ sh_rx_open (srv_shared (sys_server s')) = sh_rx_open (srv_shared (sys_server s)).
Proof.
  revert s. induction k as [|k IH]; intros s; [by split_and!; [constructor|..]|].
  cbn [upload_steps replicate]. rewrite sys_run_cons.
  specialize (IH (sys_step Upload s)). cbn [DispatchSystem.sys_step] in *.
  change (sh_next (srv_shared (sys_server s))) with (drawn s) in *.
  destruct (upload_step dispatcher_id (sys_stage s) (sys_uploader s) (drawn s)) as [[u1 n1] stage1] eqn:Hstep.
  assert (sys_uploader (put_uploader u1 n1 stage1 s) = u1) as Hu by (by destruct u1). rewrite Hu in IH.
  change (drawn (put_uploader u1 n1 stage1 s)) with n1 in IH.
  change (sys_stage (put_uploader u1 n1 stage1 s)) with stage1 in IH.
  destruct (upload_steps dispatcher_id k (u1, n1, stage1)) as [[u n] stage].
  destruct IH as (Hr & ? & ? & ? & ? & ? & ?). split_and!; try done.
  eapply sys_reachable_trans; [exact (upload_reachable s)|]. cbn [DispatchSystem.sys_step].
  change (sh_next (srv_shared (sys_server s))) with (drawn s). by rewrite Hstep.
Qed.

Lemma sys_run_collects k (s : System) : sh_rx_open (srv_shared (sys_server s)) = true ->
  (k <= length (sent s) - sys_received s)%nat ->
  let s' := sys_run (replicate k Collect) s in
  sys_reachable s s' /\ sent s' = sent s /\ sys_received s' = (sys_received s + k)%nat /\ sys_net s' = sys_net s /\
  sh_rx_open (srv_shared (sys_server s')) = true.
Proof.
  revert s. induction k as [|k IH]; intros s Hopen Hk; [by split_and!; [constructor|..]; try done; cbn; lia|].
  cbn [replicate]. rewrite sys_run_cons.
  destruct (lookup_lt_is_Some_2 (sent s) (sys_received s)) as [d Hd]; [lia|].
  assert (sys_reachable s (sys_step Collect s)) as Hr.
  { apply sys_reach_step; [constructor|]. cbn. rewrite Hopen. apply Nat.ltb_lt. unfold sent in Hk. lia. }
  assert (sent (sys_step Collect s) = sent s /\ sys_received (sys_step Collect s) = Datatypes.S (sys_received s) /\
    sys_net (sys_step Collect s) = sys_net s /\ sh_rx_open (srv_shared (sys_server (sys_step Collect s))) = true)
    as (Hs & Hrec & Hnet & Ho).
  { unfold sent in *. cbn [DispatchSystem.sys_step]. rewrite Hd. by destruct (collect_one _ _ _ _ _ _) as [[st state] n]. }
  destruct (IH _ Ho) as (Hr' & Hs' & Hrec' & Hnet' & Ho'); [rewrite Hs, Hrec; lia|].
  split_and!; [by eapply sys_reachable_trans|congruence|lia|congruence|done].
Qed.

(** A tick of a waiting uploader, with nothing in between, leaves nothing pending. *)
Lemma tick_drains {good} `{!Responsive L dispatcher_id location good} instant (s : System) :
  (forall s, exists s' l, fetch_pending (V := SensorReading) s = (s', Ok l)) ->
  (forall s, exists s' l, fetch_pending (V := DeviceStatus) s = (s', Ok l)) ->
  (forall ids s, snd (mark_uploaded (V := SensorReading) ids s) = Ok tt) ->
  (forall ids s, snd (mark_uploaded (V := DeviceStatus) ids s) = Ok tt) ->
  sys_inv s -> sys_stage s = Waiting -> good (sys_net s) ->
  let s' := sys_run (Tick instant :: replicate 5 Upload) s in
  sys_reachable s s' /\ sent s' = sent s /\ sys_received s' = sys_received s /\ pending (rview (sys_storage s')) = [].
Proof.
  intros F1 F2 M1 M2 Hi Hw Hg. rewrite sys_run_cons.
  assert (sys_reachable s (sys_step (Tick instant) s)) as Hr
    by (apply sys_reach_step; [constructor|]; cbn; by rewrite Hw).
  destruct (begin_tick_good dispatcher_id location instant (sys_uploader s) (drawn s) Hg) as (u1 & n1 & Hb & Hg1).
  pose proof (begin_tick_frame dispatcher_id location instant (sys_uploader s) (drawn s) (di_prime _ _ _ _ _ _ _ _ _ Hi)) as Hf.
  rewrite Hb in Hf. destruct Hf as (Hst & _).
  assert (sys_step (Tick instant) s = put_uploader u1 n1 FetchReadings s) as Hs1.
  { cbn [DispatchSystem.sys_step]. change (sh_next (srv_shared (sys_server s))) with (drawn s). by rewrite Hb. }
  pose proof (sys_run_uploads 5 (sys_step (Tick instant) s)) as Hu. rewrite Hs1 in *.
  replace (sys_uploader (put_uploader u1 n1 FetchReadings s)) with u1 in Hu by (by destruct u1).
  change (drawn (put_uploader u1 n1 FetchReadings s)) with n1 in Hu.
  change (sys_stage (put_uploader u1 n1 FetchReadings s)) with FetchReadings in Hu.
  rewrite upload_steps_batch in Hu. destruct (upload_batch dispatcher_id u1 n1) as [u n] eqn:Hub.
  cbv zeta in Hu |- *. revert Hu. generalize (sys_run (replicate 5 Upload) (put_uploader u1 n1 FetchReadings s)).
  intros s' (Hr' & Hs' & Hrec & Hup & _). split_and!; [by eapply sys_reachable_trans|exact Hs'|exact Hrec|].
  assert (storage_inv (rinv := rinv) (sinv := sinv) (up_storage u1)) as Hst1 by (rewrite Hst; apply Hi).
  assert (forall b, exists net' a, link_batch_upload b (up_net u1) = (net', Ok a)) as Hresp
    by (intros b; destruct (responsive_batch b _ Hg1) as (net' & a & ? & _); eauto).
  destruct (upload_batch_drains dispatcher_id u1 n1 Hst1 F1 F2 M1 M2 Hresp) as (_ & Hp & _).
  rewrite Hub in Hp. cbn [fst] in Hp. rewrite <- Hup in Hp. exact Hp.
Qed.

(** The uploader comes to wait again. *)
Lemma upload_steps_good {good} `{!Responsive L dispatcher_id location good} k stage (u : Uploader S N) n :
  good (up_net u) -> good (up_net (fst (fst (upload_steps dispatcher_id k (u, n, stage))))).
Proof.
  revert stage u n. induction k as [|k IH]; intros stage u n Hg; cbn [upload_steps]; [done|].
  assert (good (up_net (fst (fst (upload_step dispatcher_id stage u n))))) as Hu.
  { destruct stage as [| |readings|readings statuses|rids sids|sids]; cbn [upload_step]; try done.
    - by destruct (fetch_pending (up_storage u)) as [st [l|e]].
    - by destruct (fetch_pending (up_storage u)) as [st [l|e]].
    - match goal with |- context [link_batch_upload ?b _] => by destruct (responsive_batch b _ Hg) as (net' & a & -> & ?) end. }
  destruct (upload_step _ _ _ _) as [[u' n'] stage']. by apply IH.
Qed.

Lemma uploads_wait {good} `{!Responsive L dispatcher_id location good} (s : System) : good (sys_net s) ->
  let s' := sys_run (replicate 5 Upload) s in
  sys_reachable s s' /\ sent s' = sent s /\ sys_received s' = sys_received s /\ sys_stage s' = Waiting /\ good (sys_net s').
Proof.
  intros Hg. pose proof (sys_run_uploads 5 s) as Hu.
  pose proof (upload_steps_end dispatcher_id 5 (sys_stage s) (sys_uploader s) (drawn s)) as Hend.
  pose proof (upload_steps_good 5 (sys_stage s) (sys_uploader s) (drawn s) Hg) as Hgood.
  destruct (upload_steps dispatcher_id 5 _) as [[u n] stage]. cbn [fst snd] in *. cbv zeta in Hu |- *. revert Hu.
  generalize (sys_run (replicate 5 Upload) s). intros s' (? & ? & ? & Hup & _ & Hst & _).
  split_and!; try done; [rewrite Hst; apply Hend; destruct (sys_stage s); cbn; lia|]. by rewrite <- Hup in Hgood.
Qed.

(** From every reachable state everything sent so far can be delivered. *)
Lemma settle_delivers {good} `{!Responsive L dispatcher_id location good} instant (s : System) :
  (forall r s, snd (store (V := SensorReading) r s) = Ok tt) ->
  (forall s, exists s' l, fetch_pending (V := SensorReading) s = (s', Ok l)) ->
  (forall s, exists s' l, fetch_pending (V := DeviceStatus) s = (s', Ok l)) ->
  (forall ids s, snd (mark_uploaded (V := SensorReading) ids s) = Ok tt) ->
  (forall ids s, snd (mark_uploaded (V := DeviceStatus) ids s) = Ok tt) ->
  sys_inv s -> Forall storable_data (sent s) -> sh_rx_open (srv_shared (sys_server s)) = true -> good (sys_net s) ->
  let s' := sys_run (settle instant s) s in
  sys_reachable s s' /\ sent s' = sent s /\
  forall r, Reading r ∈ sent s ->
    rview (sys_storage s') !! rd_id r = Some (r, Uploaded) /\
    (knows0 (rd_device_id r) = true -> kept (sys_net s') (rd_id r) = Some (norm r)).
Proof.
  intros St F1 F2 M1 M2 Hi Hd Hopen Hg. cbv zeta. unfold settle. rewrite !sys_run_app.
  pose proof (sys_run_collects _ s Hopen (Nat.le_refl _)) as Hc. cbv zeta in Hc. revert Hc.
  generalize (sys_run (replicate (length (sent s) - sys_received s) Collect) s). intros s1 (R1 & S1 & C1 & N1 & O1).
  pose proof (uploads_wait s1) as Hup. cbv zeta in Hup. rewrite N1 in Hup. specialize (Hup Hg). revert Hup.
  generalize (sys_run (replicate 5 Upload) s1). intros s2 (R2 & S2 & C2 & W2 & G2).
  assert (sys_reachable s s2) as R02 by (by eapply sys_reachable_trans).
  assert (sys_inv s2) as I2 by (eapply sys_reachable_inv; [exact R02|done|by rewrite S2, S1]).
  pose proof (tick_drains instant s2 F1 F2 M1 M2 I2 W2 G2) as Ht. cbv zeta in Ht. revert Ht.
  generalize (sys_run (Tick instant :: replicate 5 Upload) s2). intros s3 (R3 & S3 & C3 & Hp).
  assert (sys_reachable s s3) as R03 by (by eapply sys_reachable_trans).
  assert (sent s3 = sent s) as S03 by congruence.
  assert (sys_inv s3) as I3 by (eapply sys_reachable_inv; [exact R03|done|by rewrite S03]).
  split_and!; [done|done|]. intros r Hr. rewrite <- S03 in Hr.
  assert (take (sys_received s3) (sent s3) = sent s3) as Hall.
  { apply take_ge. rewrite C3, C2, C1, S03. pose proof (di_received _ _ _ _ _ _ _ _ _ Hi). lia. }
  destruct (di_placed _ _ _ _ _ _ _ _ _ I3 r) as [(st & e & He)|[Hpend|Hdone]].
  - rewrite Hall. by apply elem_of_readings_of.
  - by rewrite St in He.
  - assert (r ∈ pending (rview (sys_storage s3))) as Hin by (apply elem_of_pending; eauto).
    rewrite Hp in Hin. by apply elem_of_nil in Hin.
  - exact Hdone.
Qed.
End runs.

Section theorems.
Context {S N RE SE E Fr Fs : Type} `{!EventStorage ReadingId SensorReading S RE}
  `{!EventStorage StatusId DeviceStatus S SE} {rstorable sstorable rinv sinv rview sview}
  {rframe : S -> Fr} {sframe : S -> Fs}
  `{!DispatcherStorageLaws rstorable sstorable rinv sinv rview sview rframe sframe}
  {L : PrimeLink N E} `{!EdgeCodec} `{!UlidGen} `{!Clock} {inv : N -> Prop} {knows kept norm fine sfine}
  `{!Delivers L inv knows kept norm fine sfine}
  (debug_sensor_id : SensorId -> string) (dispatcher_id : DispatcherId) (location : H3Cell).

(** A dispatcher that may start: its storage and its ersha-prime are in order, and the storage has
    nothing under an identifier that will be drawn and nothing that ersha-prime cannot hold. *)
Definition startable (n0 : nat) (storage : S) (net : N) : Prop :=
  rinv storage /\ sinv storage /\ inv net /\ (forall id e, rview storage !! id = Some e -> old n0 id /\ fine (fst e)) /\
  (forall id e, sview storage !! id = Some e -> sfine (fst e)).

Lemma startable_inv `{!Inj (=) (=) ulid_new} storage net state n0 s :
  startable n0 storage net ->
  sys_reachable debug_sensor_id dispatcher_id location (sys_start storage net state n0) s ->
  Forall (storable_data (rstorable := rstorable) (sstorable := sstorable) (fine := fine) (sfine := sfine)) (sent s) ->
  system_inv (sstorable := sstorable) (rinv := rinv) (sinv := sinv) (rview := rview) (sview := sview) (inv := inv)
    (knows := knows) (kept := kept) (norm := norm) (fine := fine) (sfine := sfine) (knows net) (kept net) n0 s.
Proof.
  intros (Hr & Hs & Hn & Hold & Hsf) Hreach Hd.
  apply (sys_reachable_inv debug_sensor_id dispatcher_id location _ _ _ _ _ Hreach); [|done]. by apply sys_start_inv.
Qed.

Lemma accounted `{!Inj (=) (=) ulid_new} storage net state n0 (s : System S N) :
  startable n0 storage net ->
  sys_reachable debug_sensor_id dispatcher_id location (sys_start storage net state n0) s ->
  Forall (storable_data (rstorable := rstorable) (sstorable := sstorable) (fine := fine) (sfine := sfine)) (sent s) ->
  forall k r, sent s !! k = Some (Reading r) ->
    ((sys_received s <= k)%nat \/ refused (S := S) r \/ rview (sys_storage s) !! rd_id r = Some (r, Pending) \/
     rview (sys_storage s) !! rd_id r = Some (r, Uploaded) /\
       (knows net (rd_device_id r) = true -> kept (sys_net s) (rd_id r) = Some (norm r))) /\
    (knows net (rd_device_id r) = false -> kept (sys_net s) (rd_id r) = kept net (rd_id r)).
Proof.
  intros Hst Hreach Hd k r Hk. pose proof (startable_inv _ _ _ _ _ Hst Hreach Hd) as Hi. split.
  - destruct (Nat.le_gt_cases (sys_received s) k) as [|Hlt]; [by left|right].
    apply (di_placed _ _ _ _ _ _ _ _ _ Hi). apply elem_of_readings_of, (list_elem_of_lookup_2 _ k).
    by rewrite lookup_take_lt.
  - intros Hno. assert (r ∈ readings_of (sent s)) as Hr by (by eapply elem_of_readings_of, list_elem_of_lookup_2).
    destruct (di_kept _ _ _ _ _ _ _ _ _ Hi (rd_id r)) as [|(x & Hx & Hid & Hyes)]; [by eapply drawn_not_old|done|].
    assert (x ∈ readings_of (sent s)) as Hx'.
    { apply elem_of_readings_of. apply elem_of_readings_of in Hx. eapply elem_of_sublist; [exact Hx|apply sublist_take]. }
    assert (x = r) as -> by (eapply (NoDup_fmap_inj_on rd_id); [apply Hi|done..]). congruence.
Qed.


(** From every state the dispatcher can reach while its collector runs, everything that was sent so
    far can be delivered: if the storage works and ersha-prime answers and accepts the dispatcher, then
    after the collector has emptied the channel, the uploader has finished what it was doing, and one
    tick, every reading is marked as uploaded, and ersha-prime has each one whose device it knows. *)
Theorem readings_delivered `{!Inj (=) (=) ulid_new} {good} `{!Responsive L dispatcher_id location good}
    storage net state n0 instant (s : System S N) :
  startable n0 storage net ->
  sys_reachable debug_sensor_id dispatcher_id location (sys_start storage net state n0) s ->
  Forall (storable_data (rstorable := rstorable) (sstorable := sstorable) (fine := fine) (sfine := sfine)) (sent s) ->
  (forall r s, snd (store (V := SensorReading) r s) = Ok tt) ->
  (forall s, exists s' l, fetch_pending (V := SensorReading) s = (s', Ok l)) ->
  (forall s, exists s' l, fetch_pending (V := DeviceStatus) s = (s', Ok l)) ->
  (forall ids s, snd (mark_uploaded (V := SensorReading) ids s) = Ok tt) ->
  (forall ids s, snd (mark_uploaded (V := DeviceStatus) ids s) = Ok tt) ->
  sh_rx_open (srv_shared (sys_server s)) = true -> good (sys_net s) ->
  let s' := sys_run debug_sensor_id dispatcher_id location (settle instant s) s in
  sys_reachable debug_sensor_id dispatcher_id location (sys_start storage net state n0) s' /\ sent s' = sent s /\
  forall r, Reading r ∈ sent s ->
    rview (sys_storage s') !! rd_id r = Some (r, Uploaded) /\
    (knows net (rd_device_id r) = true -> kept (sys_net s') (rd_id r) = Some (norm r)).
Proof.
  intros Hst Hreach Hd St F1 F2 M1 M2 Hopen Hg s'. pose proof (startable_inv _ _ _ _ _ Hst Hreach Hd) as Hi.
  destruct (settle_delivers debug_sensor_id dispatcher_id location _ _ _ instant s St F1 F2 M1 M2 Hi Hd Hopen Hg)
    as (Hr & Hs & Hall).
  split; [by eapply sys_reachable_trans|]. by split.
Qed.
End theorems.

(** ** Witnesses *)

Module DeliveryWitness.
#[local] Existing Instance hash_iter_std.
#[local] Existing Instance lowercase_ascii.
#[local] Existing Instance SampleCodec.codec.
#[local] Existing Instance EdgeTcp.Witnesses.gen.
#[local] Existing Instance EdgeTcp.Witnesses.clock.

Definition did := mkDispatcherId 1.
Definition cell := mkH3Cell 7.
Definition debug (_ : SensorId) : string := "sensor".
Definition frames : bytes := concat EdgeTcp.Witnesses.frames.

(** A device sends two readings; the uploader fetches the first while the second is decoded, and the
    collector stores the second before the first is marked. *)
Definition events : list SysEvent :=
  [Receiver Accept; Receiver (OnConnection 0 (Read HELLO)); Receiver (OnConnection 0 (Read (be_bytes 8 77)));
   Receiver (OnConnection 0 (IdWritten (Ok tt))); Receiver (OnConnection 0 (Read frames)); Receiver (OnConnection 0 Work);
   Collect; Tick 1; Receiver (OnConnection 0 Work); Upload; Collect; Upload; Upload; Upload; Upload].

Definition start_with {N} (net : N) : System MemoryStorage.t N :=
  sys_start DispatchMainWitness.storage1 net (DispatchState.new 0) 0.

(** The messages of the run, as they go over the wire. *)
Definition log : list (WireMessage.t * WireMessage.t) := Eval vm_compute in
  lg_log (sys_net (sys_run debug did cell events (start_with (mkLogged PrimeWitness.state0 [])))).
Definition messages : list Envelope := WireUploaderWitness.envelopes 0 log.
#[local] Instance wire_codec : Postcard := RpcLinkWitness.table_codec messages.

#[local] Instance small : SmallMessages.
Proof. intros msg b. cbn -[list_find messages]. destruct (list_find (fun x => msg = x) messages) as [[i x]|]; cbn; [|done]. intros [= <-]. done. Qed.

#[local] Instance wire_laws : PostcardLaws := RpcLinkWitness.table_codec_laws messages.

Definition wire_delivers := wire_link_delivers (PrimeKeeps0 := memory_keeps).

Definition over_wire := sys_run debug did cell events (start_with (mkWire PrimeWitness.state0 false 0)).

Lemma inj_gen : Inj (=) (=) ulid_new.
Proof. intros i j. unfold ulid_new, EdgeTcp.Witnesses.gen. lia. Qed.

Lemma storage1_old id e : MemoryStorageProofs.reading_view DispatchMainWitness.storage1 !! id = Some e -> old 0 id.
Proof.
  intros Hid j _ ->. assert (MemoryStorageProofs.reading_view DispatchMainWitness.storage1 =
    {[ mkReadingId 1 := (sample_reading 1 1, Pending) ]}) as Hv by reflexivity.
  rewrite Hv in Hid. apply lookup_singleton_Some in Hid as [Hid _]. injection Hid as Hid.
  unfold ulid_new, EdgeTcp.Witnesses.gen in Hid. lia.
Qed.


(** Directly, in the middle of a tick, to an ersha-prime that knows the device. *)
Definition prime1 : MemState :=
  mkAppState (dispatcher_registry PrimeWitness.state0)
    (InMemoryDeviceRegistry.mk (insert_all dev_id [sample_device 1; sample_device 1000] ∅))
    (reading_registry PrimeWitness.state0) (device_status_registry PrimeWitness.state0).
Definition midway := sys_run debug did cell (take 9 events) (start_with prime1).

Lemma readings_delivered_witness :
  exists r, Reading r ∈ sent midway /\ sys_stage midway = FetchReadings /\
    mem_kept (sys_net (sys_run debug did cell (settle 2 midway) midway)) (rd_id r) = Some r.
Proof.
  assert (exists r, sent midway !! 1%nat = Some (Reading r) /\ mem_knows prime1 (rd_device_id r) = true) as (r & Hr & Hk)
    by (eexists; split; vm_compute; reflexivity).
  apply list_elem_of_lookup_2 in Hr. exists r. split; [exact Hr|]. split; [reflexivity|].
  refine (proj2 (proj2 (proj2 (readings_delivered (Inj0 := inj_gen)
    (Delivers0 := prime_link_delivers (PrimeKeeps0 := memory_keeps)) (rview := MemoryStorageProofs.reading_view)
    (rinv := MemoryStorageProofs.inv) (sinv := MemoryStorageProofs.inv) (good := registered did)
    debug did cell DispatchMainWitness.storage1 prime1 (DispatchState.new 0) 0 2 midway _ _ _ _ _ _ _ _ _ _)) r Hr) Hk);
    try (intros; exact I); try (intros; reflexivity); try (intros s; eexists _, _; reflexivity).
  - split; [apply DispatchMainWitness.storage1_inv|]. split; [apply DispatchMainWitness.storage1_inv|].
    split; [exact I|]. split; [intros id e He; split; [by eapply storage1_old|exact I]|intros id e _; exact I].
  - apply allowed_reachable. vm_compute. reflexivity.
  - apply Forall_forall. intros [] _; split; exact I.
  - exists (sample_dispatcher 1). split; vm_compute; reflexivity.
Defined.
End DeliveryWitness.
