(* ===== verification/Pipeline.v ===== *)
(** * From the firmware to the registry of ersha-prime

    The parts composed: the bytes a device writes (EdgeDevice.v) reach the receiver of its dispatcher in
    pieces (EdgeStream.v), the collector and the uploader store and upload what comes of them
    (Delivery.v), and each packet ends as a reading in the registry of ersha-prime. *)
From Stdlib Require Import ZArith Lia Strings.String.
From stdpp Require Import base gmap strings list.
From S2P Require Import Prelude Platform Core Samples Filter Registry InMemory RpcFrame Rpc EdgeDevice EdgeTcp EdgeStream.
From S2P Require Import PrimeHandlers DispatchStorage DispatchMain EndToEnd RpcLink WireUploader DispatchSystem Delivery.
Open Scope Z_scope.

(** ** One connection in a run of the system *)

Section connection.
Context {S N RE SE E : Type} `{!EventStorage ReadingId SensorReading S RE}
  `{!EventStorage StatusId DeviceStatus S SE} `{!PrimeLink N E} `{!EdgeCodec} `{!UlidGen} `{!Clock}
  (debug_sensor_id : SensorId -> string) (dispatcher_id : DispatcherId) (cell : H3Cell).
Local Abbreviation System := (System S N).
Local Abbreviation sys_step := (sys_step debug_sensor_id dispatcher_id cell).
Local Abbreviation sys_run := (sys_run debug_sensor_id dispatcher_id cell).

(** Its steps, each with the shared state it found. *)
Fixpoint conn_steps (i : nat) (es : list SysEvent) (s : System) : list (Shared * Input) :=
  match es with
  | [] => []
  | e :: es =>
      match e with
      | Receiver (OnConnection j input) => if decide (j = i) then [(srv_shared (sys_server s), input)] else []
      | _ => []
      end ++ conn_steps i es (sys_step e s)
  end.

Lemma sys_step_connection i e (s : System) p : srv_connections (sys_server s) !! i = Some p ->
  match e with
  | Receiver (OnConnection j input) =>
      if decide (j = i) then
        let (sh', p') := connection_step dispatcher_id input (srv_shared (sys_server s)) p in
        srv_connections (sys_server (sys_step e s)) !! i = Some p' /\ sent (sys_step e s) = sh_sent sh'
      else srv_connections (sys_server (sys_step e s)) !! i = Some p
  | _ => srv_connections (sys_server (sys_step e s)) !! i = Some p
  end.
Proof.
  intros Hi. destruct e as [e| |instant|]; cbn [DispatchSystem.sys_step].
  - destruct s as [[acc canc conns sh taken] rec st net cl bo stage]. cbn in Hi.
    destruct e as [|k| | | | |a|j input]; cbn -[connection_step]; try done; [by apply lookup_app_l_Some|].
    destruct (decide (j = i)) as [->|Hne].
    + rewrite Hi. destruct (connection_step _ _ _ _) as [sh' p']. cbn. split; [|done].
      apply list_lookup_insert_eq. by eapply lookup_lt_Some.
    + destruct (conns !! j) as [q|]; [|done]. destruct (connection_step _ _ _ q) as [sh' q']. cbn.
      by rewrite list_lookup_insert_ne.
  - destruct (_ !! sys_received s) as [d|]; [|done]. by destruct (collect_one _ _ _ _ _ _) as [[st state] n].
  - by destruct (begin_tick _ _ _ _ _) as [[[u n] stage] slept].
  - by destruct (upload_step _ _ _ _) as [[u n] stage].
Qed.

Lemma sys_run_sent es (s : System) x : x ∈ sent s -> x ∈ sent (sys_run es s).
Proof.
  revert s. induction es as [|e es IH]; intros s Hx; [done|]. rewrite sys_run_cons. apply IH.
  destruct (sent_grows debug_sensor_id dispatcher_id cell e s) as [k Hk]. rewrite Hk. apply elem_of_app. by left.
Qed.

Lemma sys_run_connection i es (s : System) p : srv_connections (sys_server s) !! i = Some p ->
  let (q, out) := conn_run dispatcher_id (conn_steps i es s) p in
  srv_connections (sys_server (sys_run es s)) !! i = Some q /\ (forall x, x ∈ out -> x ∈ sent (sys_run es s)).
Proof.
  revert s p. induction es as [|e es IH]; intros s p Hi; [split; [done|by intros x ?%elem_of_nil]|].
  cbn [conn_steps]. rewrite sys_run_cons. pose proof (sys_step_connection i e s p Hi) as Hstep.
  destruct e as [[|k| | | | |a|j input]| |instant|]; try exact (IH _ _ Hstep).
  destruct (decide (j = i)); [|exact (IH _ _ Hstep)]. cbn [app conn_run].
  destruct (connection_step dispatcher_id input _ p) as [sh' p']. destruct Hstep as [Hi' Hsent].
  specialize (IH _ _ Hi'). destruct (conn_run dispatcher_id _ p') as [q out]. destruct IH as [Hq Hout].
  split; [done|]. intros x [Hx|Hx]%elem_of_app; [|by apply Hout]. apply sys_run_sent. rewrite Hsent.
  unfold emitted in Hx. eapply elem_of_sublist; [exact Hx|apply sublist_drop].
Qed.
End connection.

(** ** From the bytes to the registry *)

Section pipeline.
Context {S N RE SE E Fr Fs : Type} `{!EventStorage ReadingId SensorReading S RE}
  `{!EventStorage StatusId DeviceStatus S SE} {rstorable sstorable rinv sinv rview sview}
  {rframe : S -> Fr} {sframe : S -> Fs}
  `{!DispatcherStorageLaws rstorable sstorable rinv sinv rview sview rframe sframe}
  {L : PrimeLink N E} `{EdgeCodecLaws} `{!UlidGen} `{!Clock} {inv : N -> Prop} {knows kept norm fine sfine}
  `{!Delivers L inv knows kept norm fine sfine}
  (debug_sensor_id : SensorId -> string) (dispatcher_id : DispatcherId) (cell : H3Cell)
  {good : N -> Prop} `{!Responsive L dispatcher_id cell good}.
Local Abbreviation sys_run := (sys_run debug_sensor_id dispatcher_id cell).

(** C1: Every packet of the firmware reaches ersha-prime. A connection of a running dispatcher is
    accepted; it reads, in any pieces, the greeting, the location and the frames of [packets], while the
    other connections, the collector and the uploader take any steps in between, and waits for more. From
    there, when the storage works and ersha-prime answers and accepts the dispatcher, [settle] leads to a
    state in which each packet has become a reading of the connection's device with the packet's sensor,
    its converted metric and the location, which is marked as uploaded in the storage and kept by
    ersha-prime, provided it knows the device: the dispatcher gave the device its identifier itself,
    so unless someone registers that one the readings end here. *)
Theorem firmware_reaches_prime `{!Inj (=) (=) ulid_new} storage net state n0 instant i es es' location packets frames d l buf :
  let s1 := sys_run es (sys_start storage net state n0) in
  let s2 := sys_run es' s1 in
  let steps := conn_steps debug_sensor_id dispatcher_id cell i es' s1 in
  startable (rinv := rinv) (sinv := sinv) (rview := rview) (sview := sview) (inv := inv) (fine := fine) (sfine := sfine)
    n0 storage net ->
  allowed debug_sensor_id dispatcher_id cell (es ++ es') (sys_start storage net state n0) = true ->
  Forall (storable_data (rstorable := rstorable) (sstorable := sstorable) (fine := fine) (sfine := sfine)) (sent s2) ->
  (forall r s, snd (store (V := SensorReading) r s) = Ok tt) ->
  (forall s, exists s' l, fetch_pending (V := SensorReading) s = (s', Ok l)) ->
  (forall s, exists s' l, fetch_pending (V := DeviceStatus) s = (s', Ok l)) ->
  (forall ids s, snd (mark_uploaded (V := SensorReading) ids s) = Ok tt) ->
  (forall ids s, snd (mark_uploaded (V := DeviceStatus) ids s) = Ok tt) ->
  u64 location -> Forall ReadingPacket_wf packets -> Forall2 (fun p f => reading_bytes p = Ok f) packets frames ->
  srv_connections (sys_server s1) !! i = Some (AwaitHello []) ->
  undisturbed dispatcher_id steps (AwaitHello []) ->
  bytes_read steps = HELLO ++ be_bytes 8 location ++ concat frames ->
  srv_connections (sys_server s2) !! i = Some (Receiving d l buf) ->
  sh_rx_open (srv_shared (sys_server s2)) = true -> good (sys_net s2) ->
  let s3 := sys_run (settle instant s2) s2 in
  l = location /\ buf = [] /\
  Forall (fun p => exists n m, convert_metric (rp_metric p) = Some m /\
    let r := edge_reading dispatcher_id d location p m n in
    rview (sys_storage s3) !! rd_id r = Some (r, Uploaded) /\
    (knows net d = true -> kept (sys_net s3) (rd_id r) = Some (norm r))) packets.
Proof.
  intros s1 s2 steps Hst Hallowed Hd St F1 F2 M1 M2 Hl Hwf Hf H1' Hu Hb H2' Hopen Hg s3.
  assert (sys_reachable debug_sensor_id dispatcher_id cell (sys_start storage net state n0) s2) as Hreach
    by (unfold s2, s1; rewrite <- sys_run_app; by apply allowed_reachable).
  destruct (readings_delivered debug_sensor_id dispatcher_id cell storage net state n0 instant s2
    Hst Hreach Hd St F1 F2 M1 M2 Hopen Hg) as (_ & _ & Hall).
  pose proof (sys_run_connection debug_sensor_id dispatcher_id cell i es' s1 (AwaitHello []) H1') as Hc.
  fold steps s2 in Hc. rewrite (assoc_L (++)) in Hb.
  assert (bytes_read steps `prefix_of` (HELLO ++ be_bytes 8 location) ++ concat frames) as Hpre by (by rewrite Hb).
  pose proof (stream_decoded dispatcher_id location packets frames Hl Hwf Hf steps Hu Hpre) as Hdec.
  destruct (conn_run dispatcher_id steps (AwaitHello [])) as [q out]. destruct Hc as [Hq Hout].
  rewrite H2' in Hq. injection Hq as <-. destruct Hdec as (_ & _ & Hdec).
  destruct (Hdec d l buf eq_refl Hb) as (-> & -> & Hreads). split; [done|]. split; [done|].
  apply Forall_forall. intros p Hp. apply list_elem_of_lookup in Hp as [k Hk].
  destruct (Forall2_lookup_l _ _ _ _ _ Hreads Hk) as (x & Hx & n & m & Hm & ->).
  exists n, m. split; [done|]. exact (Hall _ (Hout _ (list_elem_of_lookup_2 _ _ _ Hx))).
Qed.
End pipeline.

Module PipelineWitness.
#[local] Existing Instance hash_iter_std.
#[local] Existing Instance lowercase_ascii.
#[local] Existing Instance SampleCodec.codec.
#[local] Existing Instance SampleCodec.codec_laws.
#[local] Existing Instance EdgeTcp.Witnesses.gen.
#[local] Existing Instance EdgeTcp.Witnesses.clock.
Import DeliveryWitness.

Definition reading_events : list SysEvent :=
  [Receiver (OnConnection 0 (Read HELLO)); Receiver (OnConnection 0 (Read (be_bytes 8 77)));
   Receiver (OnConnection 0 (IdWritten (Ok tt))); Receiver (OnConnection 0 (Read (take 90 frames)));
   Receiver (OnConnection 0 Work); Collect; Tick 1; Receiver (OnConnection 0 Work); Upload;
   Receiver (OnConnection 0 (Read (drop 90 frames))); Upload; Receiver (OnConnection 0 Work);
   Receiver (OnConnection 0 Work)].
Definition before := sys_run debug did cell [Receiver Accept] (start_with prime1).
Definition after := sys_run debug did cell reading_events before.

Lemma firmware_reaches_prime_witness :
  Forall (fun p => exists r, rd_sensor_id r = mkSensorId (rp_sensor_id p) /\
    mem_kept (sys_net (sys_run debug did cell (settle 2 after) after)) (rd_id r) = Some r) EdgeTcp.Witnesses.packets.
Proof.
  destruct (firmware_reaches_prime (Inj0 := inj_gen)
    (Delivers0 := prime_link_delivers (PrimeKeeps0 := memory_keeps)) (rview := MemoryStorageProofs.reading_view)
    (rinv := MemoryStorageProofs.inv) (sinv := MemoryStorageProofs.inv) (good := registered did)
    debug did cell DispatchMainWitness.storage1 prime1 (DispatchState.new 0) 0 2 0 [Receiver Accept] reading_events 77
    EdgeTcp.Witnesses.packets EdgeTcp.Witnesses.frames (mkDeviceId 1000) 77 []) as (_ & _ & Hall);
    try (intros; reflexivity); try (intros s; eexists _, _; reflexivity).
  - split; [apply DispatchMainWitness.storage1_inv|]. split; [apply DispatchMainWitness.storage1_inv|].
    split; [exact I|]. split; [intros id e He; split; [by eapply storage1_old|exact I]|intros id e _; exact I].
  - apply Forall_forall. intros [] _; split; exact I.
  - done.
  - repeat constructor; done.
  - repeat constructor.
  - vm_compute. repeat split; try done; lia.
  - exists (sample_dispatcher 1). split; vm_compute; reflexivity.
  - eapply Forall_impl; [exact Hall|]. intros p (n & m & _ & _ & Hkept). eexists. split; [|apply Hkept; reflexivity].
    reflexivity.
Defined.
End PipelineWitness.
