(* ===== verification/DeliverySqlite.v ===== *)
(** * Every reading of a dispatcher, on SQLite at both ends

    ersha-prime on its SQLite registries keeps readings as [PrimeKeeps] asks, to the second, as long as
    its database answers; a dispatcher whose own storage is the SQLite one meets the storage contract.
    So Delivery.v holds of the two of them, over the wire. *)
From Stdlib Require Import ZArith Lia Strings.String.
From stdpp Require Import base gmap strings list.
From S2P Require Import Prelude Platform Core Samples Filter Registry InMemory RpcFrame Rpc EdgeDevice EdgeTcp.
From S2P Require Import Sql SqlCodec SqliteDispatcher SqliteReading SqliteDevice SqliteStatus.
From S2P Require Import PrimeHandlers DispatchStorage DispatchSqlite DispatchMain EndToEnd PrimeSqlite RpcLink.
From S2P Require Import DispatchSystem Delivery.
Open Scope Z_scope.

#[local] Existing Instance SqliteReadingProofs.codec_laws.

Section sqlite_keeps.
Context `{UlidTextLaws} `{JiffLaws} `{!RowOrder}.

(** The registries hold tables of their operations, and the databases of the devices and of the
    readings answer. *)
Definition lite_inv (prime : SqliteState) : Prop :=
  (exists a, SqliteDeviceProofs.represents (tables (device_registry prime)) a) /\
  well_formed SqliteReadingProofs.codec (tables (reading_registry prime)) /\
  (exists l, SqliteStatusProofs.represents (tables (device_status_registry prime)) l) /\
  ~ faulty (device_registry prime) /\ ~ faulty (reading_registry prime).

Definition lite_knows (prime : SqliteState) (d : DeviceId) : bool :=
  match snd (SqliteDeviceRegistry.get d (calm (tables (device_registry prime)))) with Ok (Some _) => true | _ => false end.
Definition lite_kept (prime : SqliteState) (id : ReadingId) : option SensorReading :=
  view SqliteReadingProofs.codec (tables (reading_registry prime)) !! id.

Lemma lite_knows_lookup prime a d : u128 (device_ulid d) ->
  SqliteDeviceProofs.represents (tables (device_registry prime)) a ->
  lite_knows prime d = true <-> is_Some (SqliteDeviceProofs.lookup d a).
Proof.
  intros Hd R. unfold lite_knows. destruct (SqliteDeviceRegistry.get _ _) as [c r] eqn:Hget.
  apply (SqliteDeviceProofs.get_spec d (calm (tables (device_registry prime))) _ _ a Hd R) in Hget as [_ Hr]. cbn.
  destruct r as [[d'|]|e].
  - destruct Hr as (d0 & ss & -> & _). split; [by eexists|done].
  - rewrite Hr. split; [done|by intros []].
  - by destruct Hr as [_ ?%elem_of_nil].
Qed.

#[export] Instance sqlite_keeps :
  PrimeKeeps lite_inv lite_knows lite_kept SqliteReadingProofs.stored reading_wf status_wf.
Proof.
  split.
  - intros r s Hs. unfold on_hello. by destruct (dspr_get _ (dispatcher_registry s)) as [d res].
  - intros b s ([a Ra] & Hwf & [l Rl] & Hfd & Hfr) Hnd Hb Hsb.
    destruct (batch_upload_sqlite b s a l Ra Hwf Rl Hb Hsb)
      as (readings & before & after & _ & Hall & Hview & _ & _ & Rs & _ & Ht & _ & Hwf' & Hfd' & Hfr').
    specialize (Hall Hfd). destruct Hview as [Hview|[_ Hf]]; [|done].
    split; [unfold lite_inv; rewrite Ht; split_and!; eauto|]. split; [unfold lite_knows; by rewrite Ht|].
    assert (forall r, r ∈ bu_readings b -> lite_knows s (rd_device_id r) = true <-> r ∈ readings) as Hin.
    { intros r Hr. rewrite Forall_forall in Hb. destruct (Hb r Hr) as (? & ? & _).
      rewrite (lite_knows_lookup s a) by done. rewrite Hall, list_elem_of_filter. naive_solver. }
    assert (readings `sublist_of` bu_readings b) as Hsub by (rewrite Hall; apply sublist_filter).
    unfold lite_kept. rewrite Hview. split.
    + intros r Hr Hk. change (rd_id r) with (rd_id (SqliteReadingProofs.stored r)).
      apply lookup_insert_all_NoDup; [|apply list_elem_of_fmap_2; by apply Hin].
      assert (rd_id <$> (SqliteReadingProofs.stored <$> readings) = rd_id <$> readings) as ->
        by (rewrite <- list_fmap_compose; by apply list_fmap_ext).
      eapply sublist_NoDup; [exact Hnd|by apply fmap_sublist].
    + intros id Hno. rewrite lookup_insert_all, filter_none; [done|].
      intros x (r & -> & Hr)%list_elem_of_fmap Hid. cbn in Hid.
      pose proof (elem_of_sublist _ _ _ Hr Hsub) as Hrb. pose proof (Hno r Hrb Hid) as Hk.
      apply Hin in Hr; [|done]. congruence.
Qed.

(** ** The SQLite storage of a dispatcher *)

Context `{!Serde SensorReading} `{!Serde DeviceStatus} (now : Z).

Definition lite_readings (db : SqliteStorage.t) := SqliteProofs.table_view rd_id (SqliteStorage.sensor_readings db).
Definition lite_statuses (db : SqliteStorage.t) := SqliteProofs.table_view st_id (SqliteStorage.device_statuses db).

#[export] Instance sqlite_dispatcher_storage : DispatcherStorageLaws (EventStorage0 := SqliteStorage.readings now)
  (EventStorage1 := SqliteStorage.statuses now) reading_storable status_storable
  (fun db => SqliteProofs.well_formed rd_id reading_ulid (SqliteStorage.sensor_readings db))
  (fun db => SqliteProofs.well_formed st_id status_ulid (SqliteStorage.device_statuses db))
  lite_readings lite_statuses SqliteStorage.device_statuses SqliteStorage.sensor_readings.
Proof.
  split.
  - apply (SqliteProofs.sqlite_laws SensorReadings rd_id reading_ulid mkReadingId). by intros [].
  - apply (SqliteProofs.sqlite_laws DeviceStatuses st_id status_ulid mkStatusId). by intros [].
  - unfold lite_statuses. by intros s s' ->.
  - unfold lite_readings. by intros s s' ->.
Qed.

(** ** Both ends on SQLite, over the wire *)

Context `{!EdgeCodec} `{!UlidGen} `{!Clock} {codec : Postcard} `{!PostcardLaws} `{!SmallMessages}.
#[local] Existing Instance sqlite_dispatcher_storage.

(** Whatever statements the dispatcher's database fails, and whatever happens to the calls: a reading is
    on the channel, refused, pending, or marked, and then it is in the readings table of ersha-prime to
    the second if its device is in the devices table. *)
Corollary accounted_sqlite `{!Inj (=) (=) ulid_new} debug dispatcher_id cell (storage : SqliteStorage.t)
    (net : Wire SqliteState) state n0 (s : System SqliteStorage.t (Wire SqliteState)) :
  startable (rinv := fun db => SqliteProofs.well_formed rd_id reading_ulid (SqliteStorage.sensor_readings db))
    (sinv := fun db => SqliteProofs.well_formed st_id status_ulid (SqliteStorage.device_statuses db))
    (rview := lite_readings) (sview := lite_statuses) (inv := wire_inv (inv := lite_inv)) (fine := reading_wf)
    (sfine := status_wf) n0 storage net ->
  sys_reachable (EventStorage0 := SqliteStorage.readings now) (EventStorage1 := SqliteStorage.statuses now)
    debug dispatcher_id cell (sys_start storage net state n0) s ->
  Forall (storable_data (rstorable := reading_storable) (sstorable := status_storable) (fine := reading_wf)
    (sfine := status_wf)) (sent s) ->
  forall k r, sent s !! k = Some (Reading r) ->
    (sys_received s <= k)%nat \/ refused (EventStorage0 := SqliteStorage.readings now) r \/
    lite_readings (sys_storage s) !! rd_id r = Some (r, Pending) \/
    lite_readings (sys_storage s) !! rd_id r = Some (r, Uploaded) /\
      (lite_knows (wire_prime net) (rd_device_id r) = true ->
       lite_kept (wire_prime (sys_net s)) (rd_id r) = Some (SqliteReadingProofs.stored r)).
Proof.
  intros Hst Hreach Hd k r Hk.
  exact (proj1 (accounted (EventStorage0 := SqliteStorage.readings now) (EventStorage1 := SqliteStorage.statuses now)
    (Delivers0 := wire_link_delivers (PrimeKeeps0 := sqlite_keeps)) debug dispatcher_id cell storage net state n0 s
    Hst Hreach Hd k r Hk)).
Qed.
End sqlite_keeps.
