(* ===== verification/EdgeMock.v ===== *)
(** * The mock receiver of a dispatcher: ersha-dispatch/src/edge/mock.rs, and its registration with
    ersha-prime: ersha-dispatch/src/main.rs

    [generate_nearby_cells] is a loop with a bound on its attempts; the two generator tasks of
    [start] are the steps of [system_step], which interleaves them with each other, with the
    collector at the other end of the channel and with the cancellation.  The random numbers (crate
    rand), the grid of cells (crate h3o) and the text of a JSON value (crate serde_json) are
    classes.  Every draw, fresh identifier and reading of the clock takes the next number of one
    supply. *)
From Stdlib Require Import ZArith Lia Strings.String Strings.Ascii Floats.SpecFloat.
From stdpp Require Import base gmap strings list pretty.
From S2P Require Import Prelude Platform Core Samples Filter Registry InMemory PrimeHandlers PrimeApi.
From S2P Require Import PrimeClient DispatchStorage DispatchMain.
Open Scope Z_scope.

(** ** The crates *)

Definition f64_add (x y : f64) : f64 := SFadd 53 1024 x y.
Definition f64_neg (x : f64) : f64 := SFopp x.

(** [rng.random_range(lo..hi)] on an integer and on an [f64], and [rng.random_ratio]. *)
Class Rng := {
  random_range : nat -> Z -> Z -> Z;
  random_range_f64 : nat -> f64 -> f64 -> f64;
  random_ratio : nat -> Z -> Z -> bool
}.

(** A draw from a range that is not empty lies in it; the upper bound is excluded. *)
Class RngLaws `{Rng} : Prop := {
  random_range_spec n lo hi : lo < hi -> lo <= random_range n lo hi < hi;
  random_range_f64_spec n lo hi : SFltb lo hi = true ->
    SFleb lo (random_range_f64 n lo hi) = true /\ SFltb (random_range_f64 n lo hi) hi = true
}.

(** [CellIndex::try_from] with [LatLng::from], [LatLng::new] and [to_cell(Resolution::Ten)]. *)
Class H3 := {
  cell_center : Z -> option (f64 * f64);
  latlng_new : f64 -> f64 -> option (f64 * f64);
  to_cell_ten : f64 * f64 -> Z
}.
Class H3Laws `{H3} : Prop := { to_cell_ten_u64 ll : u64 (to_cell_ten ll) }.

(** [serde_json::Value]. *)
Inductive Json :=
  | JNull
  | JString (s : string)
  | JNumber (z : Z)
  | JArray (l : list Json)
  | JObject (fields : list (string * Json)).

(** What [RequestBuilder::json] writes of a value. *)
Class JsonText := json_text : Json -> string.

(** ** Nearby cells *)

(** [ersha-dispatch/src/edge/mock.rs:84-119] generate_nearby_cells: the variables of the loop *)
Record Search := mkSearch { cells : list H3Cell; seen : gset Z; attempts : Z; draws : nat }.

Definition radius : f64 := f64_div (f64_of_int 5) (f64_of_int 100).

Section cells.
Context `{!Rng} `{!H3} (center_lat center_lng : f64).

(** [ersha-dispatch/src/edge/mock.rs:98-116] generate_nearby_cells: one turn of the loop *)
Definition attempt (s : Search) : Search :=
  let attempts := attempts s + 1 in
  let lat_offset := random_range_f64 (draws s) (f64_neg radius) radius in
  let lng_offset := random_range_f64 (1 + draws s) (f64_neg radius) radius in
  let lat := f64_add center_lat lat_offset in
  let lng := f64_add center_lng lng_offset in
  match latlng_new lat lng with
  | None => mkSearch (cells s) (seen s) attempts (2 + draws s)
  | Some ll =>
      let cell_u64 := to_cell_ten ll in
      if decide (cell_u64 ∈ seen s) then mkSearch (cells s) (seen s) attempts (2 + draws s)
      else mkSearch (cells s ++ [mkH3Cell cell_u64]) ({[cell_u64]} ∪ seen s) attempts (2 + draws s)
  end.

(** [ersha-dispatch/src/edge/mock.rs:98-98] generate_nearby_cells: the guard of the loop *)
Definition searching (count max_attempts : Z) (s : Search) : bool :=
  Z.ltb (Z.of_nat (length (cells s))) count && Z.ltb (attempts s) max_attempts.

Fixpoint cell_loop (fuel : nat) (count max_attempts : Z) (s : Search) : Search :=
  match fuel with
  | O => s
  | S fuel' =>
      if searching count max_attempts s then cell_loop fuel' count max_attempts (attempt s) else s
  end.
End cells.

(** The number of elements of 8 bytes [Vec::with_capacity] can ask for without a panic. *)
Definition max_capacity : Z := (2 ^ 63 - 1) / 8.

(** [ersha-dispatch/src/edge/mock.rs:72-119] generate_nearby_cells; [None] is a panic. The product is
    that of a release build; the loop makes at most [max_attempts] turns. *)
Definition generate_nearby_cells `{!Rng} `{!H3} (center : H3Cell) (count : Z) (n : nat) :
    option (list H3Cell * nat) :=
  match cell_center (h3_cell center) with
  | None => None
  | Some (center_lat, center_lng) =>
      if Z.ltb max_capacity count then None
      else
        let max_attempts := wrap 64 (count * 10) in
        let s := cell_loop center_lat center_lng (S (Z.to_nat max_attempts)) count max_attempts
                   (mkSearch [center] {[h3_cell center]} 0 n) in
        Some (cells s, draws s)
  end.

(** ** Devices *)

(** [ersha-dispatch/src/edge/mock.rs:121-126] MockDevice *)
Record MockDevice := mkMockDevice {
  md_device_id : DeviceId;
  md_sensor_ids : list SensorId;
  md_location : H3Cell
}.

(** [ersha-dispatch/src/edge/mock.rs:19-24] MockDeviceInfo *)
Record MockDeviceInfo := mkMockDeviceInfo {
  mi_device_id : DeviceId;
  mi_location : H3Cell;
  mi_sensor_ids : list SensorId
}.

Definition low_battery : DeviceError :=
  mkDeviceError DeviceErrorCode.LowBattery (Some "Battery below 20%"%string).

Section device.
Context `{!Rng} `{!UlidGen} `{!Clock}.

(** [ersha-dispatch/src/edge/mock.rs:128-141] MockDevice::new *)
Definition MockDevice_new (location : H3Cell) (n : nat) : MockDevice * nat :=
  (mkMockDevice (mkDeviceId (ulid_new n))
     [mkSensorId (ulid_new (1 + n)); mkSensorId (ulid_new (2 + n)); mkSensorId (ulid_new (3 + n));
      mkSensorId (ulid_new (4 + n)); mkSensorId (ulid_new (5 + n))] location,
   (6 + n)%nat).

(** [NotNan::new(rng.random_range(lo..hi)).unwrap()]. *)
Definition draw_float (n : nat) (lo hi : Z) : option NotNan :=
  NotNan_new (random_range_f64 n (f64_of_int lo) (f64_of_int hi)).

(** [ersha-dispatch/src/edge/mock.rs:148-164] MockDevice::generate_reading: the metric *)
Definition draw_metric (sensor_idx : Z) (n : nat) : option SensorMetric.t :=
  match sensor_idx with
  | 0 => Some (SensorMetric.SoilMoisture (mkPercentage (random_range n 20 80)))
  | 1 => SensorMetric.SoilTemp <$> draw_float n 15 35
  | 2 => SensorMetric.AirTemp <$> draw_float n 10 40
  | 3 => Some (SensorMetric.Humidity (mkPercentage (random_range n 30 90)))
  | _ => SensorMetric.Rainfall <$> draw_float n 0 50
  end.

(** [ersha-dispatch/src/edge/mock.rs:143-176] MockDevice::generate_reading; [None] is a panic *)
Definition generate_reading (self : MockDevice) (dispatcher_id : DispatcherId) (n : nat) :
    option (SensorReading * nat) :=
  let sensor_idx := random_range n 0 (Z.of_nat (length (md_sensor_ids self))) in
  sensor_id ← md_sensor_ids self !! Z.to_nat sensor_idx;
  metric ← draw_metric sensor_idx (1 + n);
  Some (mkSensorReading (mkReadingId (ulid_new (2 + n))) (md_device_id self) dispatcher_id metric
          (md_location self) (mkPercentage (random_range (3 + n) 85 100)) (ts_now (4 + n)) sensor_id,
        (5 + n)%nat).

(** [ersha-dispatch/src/edge/mock.rs:181-193] MockDevice::generate_status: the sensor statuses *)
Fixpoint draw_sensor_statuses (sensor_ids : list SensorId) (n : nat) : list SensorStatus * nat :=
  match sensor_ids with
  | [] => ([], n)
  | sensor_id :: sensor_ids =>
      let state := if random_ratio n 95 100 then SensorState.Active else SensorState.Faulty in
      let (rest, n') := draw_sensor_statuses sensor_ids (2 + n) in
      (mkSensorStatus sensor_id state (Some (ts_now (1 + n))) :: rest, n')
  end.

(** [ersha-dispatch/src/edge/mock.rs:178-215] MockDevice::generate_status *)
Definition generate_status (self : MockDevice) (dispatcher_id : DispatcherId) (n : nat) :
    DeviceStatus * nat :=
  let (sensor_statuses, n) := draw_sensor_statuses (md_sensor_ids self) n in
  let errors := if random_ratio n 5 100 then [low_battery] else [] in
  (mkDeviceStatus (mkStatusId (ulid_new (1 + n))) (md_device_id self) dispatcher_id
     (mkPercentage (random_range (2 + n) 20 100)) (random_range (3 + n) 3600 86400)
     (random_range (4 + n) (-80) (-30)) errors (ts_now (5 + n)) sensor_statuses,
   (6 + n)%nat).
End device.

(** ** The receiver *)

(** [ersha-dispatch/src/edge/mock.rs:26-36] MockEdgeReceiver *)
Record MockEdgeReceiver := mkMockEdgeReceiver {
  me_dispatcher_id : DispatcherId;
  me_reading_interval : Z;
  me_status_interval : Z;
  me_devices : list MockDevice
}.

(** [ersha-dispatch/src/edge/mock.rs:47-47] MockEdgeReceiver::new: the devices of the cells *)
Fixpoint new_devices `{!UlidGen} (cells : list H3Cell) (n : nat) : list MockDevice * nat :=
  match cells with
  | [] => ([], n)
  | cell :: cells =>
      let (d, n) := MockDevice_new cell n in
      let (ds, n) := new_devices cells n in (d :: ds, n)
  end.

(** [ersha-dispatch/src/edge/mock.rs:38-55] MockEdgeReceiver::new *)
Definition MockEdgeReceiver_new `{!Rng} `{!H3} `{!UlidGen} (dispatcher_id : DispatcherId)
    (reading_interval_secs status_interval_secs device_count : Z) (center : H3Cell) (n : nat) :
    option (MockEdgeReceiver * nat) :=
  '(cells, n) ← generate_nearby_cells center device_count n;
  let (devices, n) := new_devices cells n in
  Some (mkMockEdgeReceiver dispatcher_id reading_interval_secs status_interval_secs devices, n).

(** [ersha-dispatch/src/edge/mock.rs:57-70] MockEdgeReceiver::device_info *)
Definition device_info (self : MockEdgeReceiver) : list MockDeviceInfo :=
  (fun d => mkMockDeviceInfo (md_device_id d) (md_location d) (md_sensor_ids d)) <$> me_devices self.

(** ** The generator tasks *)

(** Where a generator task waits: for a tick of its interval or the cancellation, for room on the
    channel with a generated item in hand and the devices that remain, or not any more. *)
Inductive Task :=
  | Waiting
  | Sending (item : EdgeData) (rest : list MockDevice)
  | Stopped
  | TaskPanicked.

(** The capacity of the channel [start] makes. *)
Definition channel_capacity : nat := 100.

(** [ersha-dispatch/src/edge/mock.rs:221-295] MockEdgeReceiver::start: the channel, its receiver and
    what it has taken so far, the cancellation, the supply of draws, and the two tasks *)
Record System := mkSystem {
  queue : list EdgeData;
  received : list EdgeData;
  rx_open : bool;
  cancelled : bool;
  next : nat;
  reading_task : Task;
  status_task : Task
}.

(** What resumes a task: a tick of its interval, the end of its send, or the cancellation. *)
Inductive Resume := Tick | Sent | SeesCancelled.

Inductive Event :=
  | OnReadingTask (r : Resume)
  | OnStatusTask (r : Resume)
  | Receive
  | ReceiverDropped
  | Cancel.

Section tasks.
Context `{!Rng} `{!UlidGen} `{!Clock} (self : MockEdgeReceiver).
(** [generate] is [generate_reading] or [generate_status] of a device, wrapped in its [EdgeData]. *)
Variable generate : MockDevice -> nat -> option (EdgeData * nat).

(** [ersha-dispatch/src/edge/mock.rs:255-261] MockEdgeReceiver::start: the turn of the [for] loop up to
    the send; the loop is over when no device remains *)
Definition next_item (rest : list MockDevice) (n : nat) : Task * nat :=
  match rest with
  | [] => (Waiting, n)
  | device :: rest =>
      match generate device n with
      | None => (TaskPanicked, n)
      | Some (item, n) => (Sending item rest, n)
      end
  end.

(** [ersha-dispatch/src/edge/mock.rs:248-264] MockEdgeReceiver::start: a generator task from one await
    point to the next: its state, what it puts on the channel, the supply. A send ends when the
    channel has room or its receiver is gone. *)
Definition task_step (r : Resume) (sys : System) (t : Task) : Task * list EdgeData * nat :=
  match t, r with
  | Waiting, Tick => let (t, n) := next_item (me_devices self) (next sys) in (t, [], n)
  | Waiting, SeesCancelled => if cancelled sys then (Stopped, [], next sys) else (t, [], next sys)
  | Sending item rest, Sent =>
      if rx_open sys then
        if Nat.ltb (length (queue sys)) channel_capacity then
          let (t, n) := next_item rest (next sys) in (t, [item], n)
        else (t, [], next sys)
      else (Stopped, [], next sys)
  | _, _ => (t, [], next sys)
  end.
End tasks.

Section system.
Context `{!Rng} `{!UlidGen} `{!Clock} (self : MockEdgeReceiver).

(** [ersha-dispatch/src/edge/mock.rs:256-257] MockEdgeReceiver::start: what the reading generator sends *)
Definition reading_item (device : MockDevice) (n : nat) : option (EdgeData * nat) :=
  '(reading, n) ← generate_reading device (me_dispatcher_id self) n; Some (Reading reading, n).

(** [ersha-dispatch/src/edge/mock.rs:283-284] MockEdgeReceiver::start: what the status generator sends *)
Definition status_item (device : MockDevice) (n : nat) : option (EdgeData * nat) :=
  let (status, n) := generate_status device (me_dispatcher_id self) n in Some (Status status, n).

(** [ersha-dispatch/src/edge/mock.rs:221-295] MockEdgeReceiver::start: one step of the tasks it spawns
    or of the rest of the process *)
Definition system_step (e : Event) (s : System) : System :=
  match e with
  | OnReadingTask r =>
      let '(t, items, n) := task_step self reading_item r s (reading_task s) in
      mkSystem (queue s ++ items) (received s) (rx_open s) (cancelled s) n t (status_task s)
  | OnStatusTask r =>
      let '(t, items, n) := task_step self status_item r s (status_task s) in
      mkSystem (queue s ++ items) (received s) (rx_open s) (cancelled s) n (reading_task s) t
  | Receive =>
      match queue s with
      | [] => s
      | item :: rest =>
          if rx_open s then
            mkSystem rest (received s ++ [item]) true (cancelled s) (next s) (reading_task s) (status_task s)
          else s
      end
  | ReceiverDropped =>
      mkSystem (queue s) (received s) false (cancelled s) (next s) (reading_task s) (status_task s)
  | Cancel =>
      mkSystem (queue s) (received s) (rx_open s) true (next s) (reading_task s) (status_task s)
  end.

(** [ersha-dispatch/src/edge/mock.rs:225-246] MockEdgeReceiver::start: the state it starts from;
    [tokio::time::interval] panics on an interval of no length, in the task that asks for it *)
Definition mock_start (n : nat) : System :=
  let task secs := if Z.eqb secs 0 then TaskPanicked else Waiting in
  mkSystem [] [] true false n (task (me_reading_interval self)) (task (me_status_interval self)).

Inductive reachable (n : nat) : System -> Prop :=
  | reach_start : reachable n (mock_start n)
  | reach_step s e : reachable n s -> reachable n (system_step e s).
End system.

(** ** Registration with ersha-prime *)

(** [str::replace]: every occurrence of a non-empty pattern, from the left; [skip] characters belong
    to an occurrence that was replaced. *)
Fixpoint replace_from (pat rep : string) (skip : nat) (s : string) : string :=
  match s with
  | EmptyString => EmptyString
  | String c s' =>
      match skip with
      | S skip => replace_from pat rep skip s'
      | O =>
          match strip_prefix pat s with
          | Some _ => rep +:+ replace_from pat rep (String.length pat - 1) s'
          | None => String c (replace_from pat rep 0 s')
          end
      end
  end.
Definition str_replace (pat rep s : string) : string := replace_from pat rep 0 s.

(** [ersha-dispatch/src/main.rs:126-127] run_dispatcher: the base URL of the HTTP API *)
Definition prime_http_url (rpc_addr : string) : string :=
  str_replace ":9000" ":8080" ("http://" +:+ rpc_addr).

(** [ersha-dispatch/src/main.rs:549-556] SENSOR_KINDS *)
Definition SENSOR_KINDS : list string :=
  ["soil_moisture"; "soil_temp"; "air_temp"; "humidity"; "rainfall"]%string.

Section register.
Context {Net : Type} `{!HttpSend Net} `{!UlidText} `{!JsonText}.

(** [ersha-dispatch/src/main.rs:571-574] register_mock_entities: the body for the dispatcher *)
Definition dispatcher_body (dispatcher_id : DispatcherId) (location : H3Cell) : Json :=
  JObject [("id", JString (ulid_to_string (dispatcher_ulid dispatcher_id)));
           ("location", JNumber (h3_cell location))]%string.

(** [ersha-dispatch/src/main.rs:598-616] register_mock_entities: the body for a device *)
Definition device_body (device : MockDeviceInfo) : Json :=
  let sensors := zip_with (fun sid kind =>
        JObject [("id", JString (ulid_to_string (sensor_ulid sid))); ("kind", JString kind)]%string)
      (mi_sensor_ids device) SENSOR_KINDS in
  JObject [("id", JString (ulid_to_string (device_ulid (mi_device_id device))));
           ("location", JNumber (h3_cell (mi_location device)));
           ("kind", JString "sensor"); ("manufacturer", JString "ersha-mock");
           ("sensors", JArray sensors)]%string.

(** [resp.status().is_success()] of a request that was answered. *)
Definition succeeded (r : option Response) : bool :=
  match r with
  | Some resp => Z.leb 200 (status resp) && Z.ltb (status resp) 300
  | None => false
  end.

(** [ersha-dispatch/src/main.rs:594-631] register_mock_entities: the loop over the devices, with the
    numbers of registered and failed devices *)
Fixpoint register_devices (prime_http_url : string) (devices : list MockDeviceInfo) (registered failed : Z)
    (net : Net) : Net * (Z * Z) :=
  match devices with
  | [] => (net, (registered, failed))
  | device :: devices =>
      let (net, r) := send POST (prime_http_url +:+ "/api/devices") "" (json_text (device_body device)) net in
      if succeeded r then register_devices prime_http_url devices (wrap 32 (registered + 1)) failed net
      else register_devices prime_http_url devices registered (wrap 32 (failed + 1)) net
  end.

(** [ersha-dispatch/src/main.rs:558-639] register_mock_entities; the numbers it returns are those it
    logs, and what is logged about the dispatcher is left out *)
Definition register_mock_entities (prime_http_url : string) (dispatcher_id : DispatcherId)
    (location : H3Cell) (devices : list MockDeviceInfo) (net : Net) : Net * (Z * Z) :=
  let (net, _) := send POST (prime_http_url +:+ "/api/dispatchers") ""
                    (json_text (dispatcher_body dispatcher_id location)) net in
  register_devices prime_http_url devices 0 0 net.
End register.

(** [ersha-dispatch/src/main.rs:107-134] run_dispatcher: the mock receiver, registered with ersha-prime *)
Definition start_mock {Net : Type} `{!HttpSend Net} `{!UlidText} `{!JsonText} `{!Rng} `{!H3} `{!UlidGen}
    (rpc_addr : string) (dispatcher_id : DispatcherId) (location : H3Cell)
    (reading_interval_secs status_interval_secs device_count : Z) (n : nat) (net : Net) :
    option (MockEdgeReceiver * nat * Net) :=
  '(receiver, n) ← MockEdgeReceiver_new dispatcher_id reading_interval_secs status_interval_secs
                     device_count location n;
  let (net, _) := register_mock_entities (prime_http_url rpc_addr) dispatcher_id location
                    (device_info receiver) net in
  Some (receiver, n, net).

(** ** What the requests deserialize from *)

(** The value of a key, when the keys are distinct. *)
Definition json_field (key : string) (fields : list (string * Json)) : option Json :=
  if decide (NoDup (fst <$> fields)) then snd <$> find (fun f => String.eqb (fst f) key) fields else None.

Section of_json.
Context `{!UlidText}.

Definition ulid_of_json (j : Json) : option Ulid :=
  match j with JString s => ulid_from_str s | _ => None end.
Definition string_of_json (j : Json) : option string :=
  match j with JString s => Some s | _ => None end.
Definition u64_of_json (j : Json) : option Z :=
  match j with JNumber z => if Z.leb 0 z && Z.ltb z (2 ^ 64) then Some z else None | _ => None end.

(** A field of type [Option<T>]: missing or null is [None]. *)
Definition optional_of_json {T} (of_json : Json -> option T) (j : option Json) : option (option T) :=
  match j with
  | None | Some JNull => Some None
  | Some j => Some <$> of_json j
  end.

(** [ersha-prime/src/api/dispatchers.rs:17-24] RegisterDispatcherRequest: its derived [Deserialize], of
    an object *)
Definition dispatcher_request_of_json (j : Json) : option RegisterDispatcherRequest :=
  match j with
  | JObject fields =>
      id ← optional_of_json ulid_of_json (json_field "id" fields);
      location ← json_field "location" fields ≫= u64_of_json;
      Some (mkRegisterDispatcherRequest id location)
  | _ => None
  end.

(** [ersha-prime/src/api/devices.rs:37-44] SensorRequest: its derived [Deserialize], of an object *)
Definition sensor_request_of_json (j : Json) : option SensorRequest :=
  match j with
  | JObject fields =>
      id ← optional_of_json ulid_of_json (json_field "id" fields);
      kind ← json_field "kind" fields ≫= string_of_json;
      Some (mkSensorRequest id kind)
  | _ => None
  end.

(** [ersha-prime/src/api/devices.rs:21-35] RegisterDeviceRequest: its derived [Deserialize], of an
    object; missing sensors are no sensors *)
Definition device_request_of_json (j : Json) : option RegisterDeviceRequest :=
  match j with
  | JObject fields =>
      id ← optional_of_json ulid_of_json (json_field "id" fields);
      location ← json_field "location" fields ≫= u64_of_json;
      kind ← optional_of_json string_of_json (json_field "kind" fields);
      manufacturer ← optional_of_json string_of_json (json_field "manufacturer" fields);
      sensors ← match json_field "sensors" fields with
                | None => Some []
                | Some (JArray l) => mapM sensor_request_of_json l
                | Some _ => None
                end;
      Some (mkRegisterDeviceRequest id location kind manufacturer sensors)
  | _ => None
  end.
End of_json.

(** serde_json reads the text of an object back as the request its fields spell. *)
Class JsonLaws `{UlidText, JsonText, Serde RegisterDispatcherRequest, Serde RegisterDeviceRequest} : Prop := {
  json_dispatcher_request j r : dispatcher_request_of_json j = Some r -> deserialize (json_text j) = Some r;
  json_device_request j r : device_request_of_json j = Some r -> deserialize (json_text j) = Some r
}.

(** ** The search for cells *)

Section search.
Context `{!Rng} `{!H3} (center : H3Cell) (lat lng : f64) (count : Z) (n : nat).

Definition search_ok (s : Search) : Prop :=
  (exists tail, cells s = center :: tail) /\ NoDup (cells s) /\
  (forall c, c ∈ seen s <-> mkH3Cell c ∈ cells s) /\
  Z.of_nat (length (cells s)) <= Z.max 1 count /\
  0 <= attempts s /\ Z.of_nat (draws s) = Z.of_nat n + 2 * attempts s.

Lemma attempt_attempts s : attempts (attempt lat lng s) = attempts s + 1.
Proof. unfold attempt. by repeat case_match. Qed.

Lemma attempt_ok max s : search_ok s -> searching count max s = true -> search_ok (attempt lat lng s).
Proof.
  intros ([tail Ht] & Hnd & Hseen & Hlen & Hat & Hdr) [Hg _]%andb_prop. apply Z.ltb_lt in Hg.
  assert (Z.of_nat (2 + draws s) = Z.of_nat n + 2 * (attempts s + 1)) as Hd by lia.
  unfold attempt. destruct (latlng_new _ _) as [ll|].
  2:{ split_and!; cbn [cells seen attempts draws]; eauto; lia. }
  case_decide as Hin.
  1:{ split_and!; cbn [cells seen attempts draws]; eauto; lia. }
  split_and!; cbn [cells seen attempts draws].
  - exists (tail ++ [mkH3Cell (to_cell_ten ll)]). by rewrite Ht.
  - apply NoDup_app. split; [done|]. split; [|by apply NoDup_singleton].
    intros c Hc ->%list_elem_of_singleton. by apply Hin, Hseen.
  - intros c. rewrite elem_of_union, elem_of_singleton, elem_of_app, list_elem_of_singleton, Hseen.
    split; [intros [->|?]; auto|intros [?|[= ->]]; auto].
  - rewrite length_app. cbn. lia.
  - lia.
  - lia.
Qed.

Lemma cell_loop_ok fuel max s : search_ok s -> search_ok (cell_loop lat lng fuel count max s).
Proof.
  revert s. induction fuel as [|fuel IH]; intros s Hs; [done|]. cbn [cell_loop].
  destruct (searching count max s) eqn:E; [|done]. apply IH. by eapply attempt_ok.
Qed.

(** Fuel for the attempts that are left is enough, and more changes nothing. *)
Lemma cell_loop_ends fuel max s : max - attempts s < Z.of_nat fuel ->
  searching count max (cell_loop lat lng fuel count max s) = false.
Proof.
  revert s. induction fuel as [|fuel IH]; intros s Hf; cbn [cell_loop].
  - unfold searching. apply andb_false_intro2, Z.ltb_ge. lia.
  - destruct (searching count max s) eqn:E; [|done]. apply IH. rewrite attempt_attempts. lia.
Qed.

Lemma cell_loop_fuel fuel fuel' max s : max - attempts s < Z.of_nat fuel -> (fuel <= fuel')%nat ->
  cell_loop lat lng fuel' count max s = cell_loop lat lng fuel count max s.
Proof.
  revert fuel' s. induction fuel as [|fuel IH]; intros fuel' s Hf Hle.
  - assert (searching count max s = false) as E.
    { unfold searching. apply andb_false_intro2, Z.ltb_ge. lia. }
    destruct fuel'; cbn [cell_loop]; by rewrite ?E.
  - destruct fuel' as [|fuel']; [lia|]. cbn [cell_loop].
    destruct (searching count max s) eqn:E; [|done]. apply IH; [rewrite attempt_attempts|]; lia.
Qed.

Lemma cell_loop_attempts fuel max s : attempts s <= max ->
  attempts (cell_loop lat lng fuel count max s) <= max.
Proof.
  revert s. induction fuel as [|fuel IH]; intros s Hs; [done|]. cbn [cell_loop].
  destruct (searching count max s) eqn:E; [|done]. apply IH. rewrite attempt_attempts.
  apply andb_prop in E as [_ E]. apply Z.ltb_lt in E. lia.
Qed.

Lemma cell_loop_u64 `{!H3Laws} fuel max s : Forall (fun c => u64 (h3_cell c)) (cells s) ->
  Forall (fun c => u64 (h3_cell c)) (cells (cell_loop lat lng fuel count max s)).
Proof.
  revert s. induction fuel as [|fuel IH]; intros s Hs; [done|]. cbn [cell_loop].
  destruct (searching count max s); [|done]. apply IH. unfold attempt.
  destruct (latlng_new _ _) as [ll|]; [|done]. case_decide; [done|]. cbn [cells].
  apply Forall_app. split; [done|]. constructor; [apply to_cell_ten_u64|done].
Qed.

Lemma search_start : search_ok (mkSearch [center] {[h3_cell center]} 0 n).
Proof.
  split_and!; cbn; [by eexists|by apply NoDup_singleton| |lia..].
  intros c. rewrite elem_of_singleton, list_elem_of_singleton. destruct center as [z]. cbn.
  split; [by intros ->|by intros [= ->]].
Qed.
End search.

(** What [generate_nearby_cells] returns of a valid center. *)
Definition cells_found (center : H3Cell) (count : Z) (n : nat) (cs : list H3Cell) (n' : nat) : Prop :=
  (exists tail, cs = center :: tail) /\ NoDup cs /\ Z.of_nat (length cs) <= Z.max 1 count /\
  (n' <= n + 2 * Z.to_nat (10 * count))%nat /\
  (Z.of_nat (length cs) < count -> n' = (n + 2 * Z.to_nat (10 * count))%nat).

Lemma max_attempts_small count : 0 <= count <= max_capacity -> wrap 64 (count * 10) = 10 * count.
Proof.
  change max_capacity with 1152921504606846975. intros Hcount.
  rewrite wrap_small by (split; [lia|]; change (2 ^ 64) with 18446744073709551616; lia). lia.
Qed.

Lemma nearby_cells_found `{!Rng} `{!H3} center lat lng count n :
  cell_center (h3_cell center) = Some (lat, lng) -> 0 <= count <= max_capacity ->
  exists cs n', generate_nearby_cells center count n = Some (cs, n') /\ cells_found center count n cs n' /\
    (H3Laws -> u64 (h3_cell center) -> Forall (fun c => u64 (h3_cell c)) cs) /\
    forall fuel, (Z.to_nat (10 * count) < fuel)%nat ->
      cells (cell_loop lat lng fuel count (10 * count) (mkSearch [center] {[h3_cell center]} 0 n)) = cs.
Proof.
  intros Hc Hcount. unfold generate_nearby_cells. rewrite Hc, max_attempts_small by done.
  destruct (Z.ltb_spec max_capacity count) as [|_]; [lia|].
  set (s0 := mkSearch _ _ 0 n). set (s := cell_loop _ _ _ _ _ s0).
  exists (cells s), (draws s). split; [done|].
  pose proof (cell_loop_ok center lat lng count n (Datatypes.S (Z.to_nat (10 * count))) (10 * count) s0
                (search_start center count n)) as (Ht & Hnd & _ & Hlen & Hat & Hdr). fold s in Ht, Hnd, Hlen, Hat, Hdr.
  pose proof (cell_loop_attempts lat lng count (Datatypes.S (Z.to_nat (10 * count))) (10 * count) s0
                ltac:(cbn; lia)) as Hmax. fold s in Hmax.
  pose proof (cell_loop_ends lat lng count (Datatypes.S (Z.to_nat (10 * count))) (10 * count) s0
                ltac:(cbn; lia)) as Hend. fold s in Hend.
  split; [|split].
  - split_and!; [done..|lia|].
    intros Hlt. apply andb_false_iff in Hend as [E|E]; apply Z.ltb_ge in E; lia.
  - intros Hl Hu. apply cell_loop_u64; [exact Hl|by apply Forall_singleton].
  - intros fuel Hf. unfold s. f_equal. apply cell_loop_fuel; cbn; lia.
Qed.

(** C19: [generate_nearby_cells] of a valid center always returns: its loop ends within ten attempts
    per cell asked for, a number that does not overflow, and more fuel changes nothing. It returns
    distinct cells, the center first, at most [count] of them, except that it returns the center
    when none is asked for, and it returns fewer only after all attempts are used up. *)
Theorem nearby_cells_terminates `{!Rng} `{!H3} center lat lng count n :
  cell_center (h3_cell center) = Some (lat, lng) -> 0 <= count <= max_capacity ->
  exists cs n', generate_nearby_cells center count n = Some (cs, n') /\
    (exists tail, cs = center :: tail) /\ NoDup cs /\ Z.of_nat (length cs) <= Z.max 1 count /\
    (n' <= n + 2 * Z.to_nat (10 * count))%nat /\
    (Z.of_nat (length cs) < count -> n' = (n + 2 * Z.to_nat (10 * count))%nat) /\
    forall fuel, (Z.to_nat (10 * count) < fuel)%nat ->
      cells (cell_loop lat lng fuel count (10 * count) (mkSearch [center] {[h3_cell center]} 0 n)) = cs.
Proof.
  intros Hc Hcount. destruct (nearby_cells_found center lat lng count n Hc Hcount)
    as (cs & n' & E & (H1 & H2 & H3' & H4 & H5) & _ & H6). exists cs, n'. by split_and!.
Qed.

(** ** What the devices generate *)

(** The kinds of a mock device's sensors, in the order of its sensor ids. *)
Definition mock_kinds : list SensorKind.t :=
  [SensorKind.SoilMoisture; SensorKind.SoilTemp; SensorKind.AirTemp; SensorKind.Humidity; SensorKind.Rainfall].

Definition metric_kind (m : SensorMetric.t) : SensorKind.t :=
  match m with
  | SensorMetric.SoilMoisture _ => SensorKind.SoilMoisture
  | SensorMetric.SoilTemp _ => SensorKind.SoilTemp
  | SensorMetric.AirTemp _ => SensorKind.AirTemp
  | SensorMetric.Humidity _ => SensorKind.Humidity
  | SensorMetric.Rainfall _ => SensorKind.Rainfall
  end.

Definition float_in (x : NotNan) (lo hi : Z) : Prop :=
  SFleb (f64_of_int lo) (into_inner x) = true /\ SFltb (into_inner x) (f64_of_int hi) = true.

Definition metric_in_range (m : SensorMetric.t) : Prop :=
  match m with
  | SensorMetric.SoilMoisture v => 20 <= percent v < 80
  | SensorMetric.SoilTemp v => float_in v 15 35
  | SensorMetric.AirTemp v => float_in v 10 40
  | SensorMetric.Humidity v => 30 <= percent v < 90
  | SensorMetric.Rainfall v => float_in v 0 50
  end.

(** A reading as device [d] of [self] generates it: of one of its sensors, with a metric of that
    sensor's kind and in that kind's range. *)
Definition reading_fits (self : MockEdgeReceiver) (d : MockDevice) (r : SensorReading) : Prop :=
  rd_device_id r = md_device_id d /\ rd_dispatcher_id r = me_dispatcher_id self /\
  rd_location r = md_location d /\ 85 <= percent (rd_confidence r) < 100 /\
  metric_in_range (rd_metric r) /\
  exists i, md_sensor_ids d !! i = Some (rd_sensor_id r) /\ mock_kinds !! i = Some (metric_kind (rd_metric r)).

(** A status as device [d] of [self] generates it: one entry per sensor, in order. *)
Definition status_fits (self : MockEdgeReceiver) (d : MockDevice) (s : DeviceStatus) : Prop :=
  st_device_id s = md_device_id d /\ st_dispatcher_id s = me_dispatcher_id self /\
  20 <= percent (st_battery_percent s) < 100 /\ 3600 <= st_uptime_seconds s < 86400 /\
  -80 <= st_signal_rssi s < -30 /\ (st_errors s = [] \/ st_errors s = [low_battery]) /\
  ss_sensor_id <$> st_sensor_statuses s = md_sensor_ids d.

Definition five_sensors (d : MockDevice) : Prop := length (md_sensor_ids d) = 5%nat.

Section generate.
Context `{RngLaws} `{!UlidGen} `{!Clock}.

Lemma draw_float_spec n lo hi : SFltb (f64_of_int lo) (f64_of_int hi) = true ->
  exists x, draw_float n lo hi = Some x /\ float_in x lo hi.
Proof.
  intros Hr. destruct (random_range_f64_spec n _ _ Hr) as [Hlo Hhi]. unfold draw_float.
  destruct (NotNan_new_is_Some (random_range_f64 n (f64_of_int lo) (f64_of_int hi))) as [x Hx].
  - by destruct (random_range_f64 _ _ _).
  - exists x. split; [done|]. apply NotNan_new_Some in Hx. unfold float_in. by rewrite Hx.
Qed.

Lemma draw_metric_spec i n : (i < 5)%nat -> exists m,
  draw_metric (Z.of_nat i) n = Some m /\ metric_in_range m /\ mock_kinds !! i = Some (metric_kind m).
Proof.
  assert (forall (f : NotNan -> SensorMetric.t) lo hi, SFltb (f64_of_int lo) (f64_of_int hi) = true ->
    exists x, f <$> draw_float n lo hi = Some (f x) /\ float_in x lo hi) as Hfloat.
  { intros f lo hi Hr. destruct (draw_float_spec n lo hi Hr) as (x & -> & Hx). by exists x. }
  intros Hi. do 5 try (destruct i as [|i]); [..|lia].
  - eexists. split; [done|]. split; [by apply random_range_spec|done].
  - destruct (Hfloat SensorMetric.SoilTemp 15 35 eq_refl) as (x & Hx & ?). by exists (SensorMetric.SoilTemp x).
  - destruct (Hfloat SensorMetric.AirTemp 10 40 eq_refl) as (x & Hx & ?). by exists (SensorMetric.AirTemp x).
  - eexists. split; [done|]. split; [by apply random_range_spec|done].
  - destruct (Hfloat SensorMetric.Rainfall 0 50 eq_refl) as (x & Hx & ?). by exists (SensorMetric.Rainfall x).
Qed.

Lemma reading_item_spec self d n : five_sensors d ->
  exists r n', reading_item self d n = Some (Reading r, n') /\ reading_fits self d r.
Proof.
  intros H5. unfold reading_item, generate_reading. rewrite H5.
  pose proof (random_range_spec n 0 (Z.of_nat 5) eq_refl) as Hi.
  set (idx := random_range n 0 _) in *. clearbody idx.
  assert (Z.to_nat idx < 5)%nat as Hlt by lia.
  destruct (lookup_lt_is_Some_2 (md_sensor_ids d) (Z.to_nat idx)) as [sid Hsid]; [by rewrite H5|].
  destruct (draw_metric_spec (Z.to_nat idx) (1 + n) Hlt) as (m & Hm & Hr & Hk).
  rewrite Z2Nat.id in Hm by lia. rewrite Hsid. cbn [mbind option_bind]. rewrite Hm.
  eexists _, _. split; [done|]. do 3 (split; [done|]). split; [by apply random_range_spec|].
  split; [done|]. by exists (Z.to_nat idx).
Qed.

Lemma draw_sensor_statuses_ids ids n : ss_sensor_id <$> fst (draw_sensor_statuses ids n) = ids.
Proof.
  revert n. induction ids as [|i ids IH]; intros n; [done|]. cbn [draw_sensor_statuses].
  specialize (IH (2 + n)%nat). destruct (draw_sensor_statuses ids (2 + n)). cbn in *. by rewrite IH.
Qed.

Lemma status_item_spec self d n :
  exists s n', status_item self d n = Some (Status s, n') /\ status_fits self d s.
Proof.
  unfold status_item, generate_status. pose proof (draw_sensor_statuses_ids (md_sensor_ids d) n) as Hids.
  destruct (draw_sensor_statuses _ n) as [ss n']. eexists _, _. split; [done|].
  split; [done|]. split; [done|]. do 3 (split; [by apply random_range_spec|]). split; [|done].
  cbn [st_errors]. destruct (random_ratio _ _ _); auto.
Qed.
End generate.

(** ** The order on the channel *)

Section task_inv.
Context (devices : list MockDevice) {T : Type} (proj : EdgeData -> option T) (fits : MockDevice -> T -> Prop).

(** The items of a generator in [log], which it sent to the channel: the [i]-th is of device [i] modulo
    the number of devices, and the task goes on where that order continues. *)
Definition task_inv (t : Task) (log : list EdgeData) : Prop :=
  let sent := omap proj log in
  (forall i x, sent !! i = Some x ->
     exists d, devices !! (i mod length devices)%nat = Some d /\ fits d x) /\
  match t with
  | Waiting => exists q, length sent = (q * length devices)%nat
  | Sending item rest => exists q j d x, length sent = (q * length devices + j)%nat /\
      devices !! j = Some d /\ rest = drop (S j) devices /\ proj item = Some x /\ fits d x
  | Stopped => True
  | TaskPanicked => False
  end.

Lemma task_inv_start : task_inv Waiting [].
Proof. split; [done|]. by exists 0%nat. Qed.

Lemma task_inv_other t log items : omap proj items = [] -> task_inv t log -> task_inv t (log ++ items).
Proof. intros Ho. unfold task_inv. by rewrite omap_app, Ho, app_nil_r. Qed.

Context `{!Rng} `{!UlidGen} `{!Clock} (self : MockEdgeReceiver)
  (generate : MockDevice -> nat -> option (EdgeData * nat)).
Hypothesis Hdevices : me_devices self = devices.
Hypothesis generate_spec : forall d n, d ∈ devices ->
  exists item x n', generate d n = Some (item, n') /\ proj item = Some x /\ fits d x.

Lemma next_item_inv q j rest n t n' log :
  rest = drop j devices -> (j <= length devices)%nat ->
  length (omap proj log) = (q * length devices + j)%nat ->
  (forall i x, omap proj log !! i = Some x ->
     exists d, devices !! (i mod length devices)%nat = Some d /\ fits d x) ->
  next_item generate rest n = (t, n') -> task_inv t log.
Proof.
  intros -> Hj Hlen Hlog. destruct (drop j devices) as [|d rest] eqn:Hd; cbn [next_item].
  - intros [= <- _]. split; [done|]. exists (S q). apply (f_equal length) in Hd.
    rewrite length_drop in Hd. cbn in Hd. lia.
  - assert (devices !! j = Some d) as Hjd.
    { rewrite <- (Nat.add_0_r j), <- lookup_drop, Hd. done. }
    destruct (generate_spec d n (list_elem_of_lookup_2 _ _ _ Hjd)) as (item & x & n1 & -> & Hp & Hf).
    intros [= <- _]. split; [done|]. exists q, j, d, x. split_and!; [done..| |done|done].
    rewrite (drop_S _ _ _ Hjd) in Hd. by injection Hd.
Qed.

Lemma task_step_inv r sys t log t' items n' : task_inv t log ->
  task_step self generate r sys t = (t', items, n') ->
  task_inv t' (log ++ items) /\ (length items <= 1)%nat /\
  Forall (fun item => is_Some (proj item)) items /\
  (items <> [] -> (length (queue sys) < channel_capacity)%nat).
Proof.
  intros Hinv. pose proof Hinv as [Hlog Ht].
  assert (forall t1, task_inv t1 log -> task_inv t1 (log ++ []) /\ (length (@nil EdgeData) <= 1)%nat /\
    Forall (fun item => is_Some (proj item)) [] /\
    (@nil EdgeData <> [] -> (length (queue sys) < channel_capacity)%nat)) as Hnothing.
  { intros t1 Ht1. rewrite app_nil_r. split; [done|]. split; [cbn; lia|done]. }
  unfold task_step. destruct t as [|item rest| |], r; try (intros [= <- <- _]; by apply Hnothing).
  - destruct (next_item generate (me_devices self) (next sys)) as [t1 n1] eqn:E. intros [= <- <- _].
    apply Hnothing. destruct Ht as [q Hq].
    eapply (next_item_inv q 0); [..|exact E]; [by rewrite Hdevices|lia|lia|done].
  - destruct (cancelled sys); intros [= <- <- _]; by apply Hnothing.
  - destruct (rx_open sys); [|intros [= <- <- _]; by apply Hnothing].
    destruct (Nat.ltb_spec (length (queue sys)) channel_capacity) as [Hcap|_];
      [|intros [= <- <- _]; by apply Hnothing].
    destruct (next_item generate rest (next sys)) as [t1 n1] eqn:E. intros [= <- <- _].
    destruct Ht as (q & j & d & x & Hlen & Hd & Hrest & Hp & Hf).
    pose proof (lookup_lt_Some _ _ _ Hd) as Hj.
    assert (omap proj (log ++ [item]) = omap proj log ++ [x]) as Ho.
    { rewrite omap_app. csimpl. by rewrite Hp. }
    split; [|split; [cbn; lia|split; [by constructor|done]]].
    eapply (next_item_inv q (S j)); [exact Hrest|done| | |exact E].
    + rewrite Ho, length_app, Hlen. cbn. lia.
    + intros i y. rewrite Ho. intros [Hi|[Hge Hi]]%lookup_app_Some; [by apply Hlog|].
      apply list_lookup_singleton_Some in Hi as [Hi <-].
      replace i with (j + q * length devices)%nat by lia.
      rewrite Nat.Div0.mod_add, Nat.mod_small by done. by exists d.
Qed.
End task_inv.

Definition reading_of (item : EdgeData) : option SensorReading :=
  match item with Reading r => Some r | Status _ => None end.
Definition status_of (item : EdgeData) : option DeviceStatus :=
  match item with Status s => Some s | Reading _ => None end.

(** Everything that was put on the channel, in order. *)
Definition channel_log (s : System) : list EdgeData := received s ++ queue s.

(** The receivers [new] makes of intervals the timer accepts. *)
Definition receiver_ok (self : MockEdgeReceiver) : Prop :=
  Forall five_sensors (me_devices self) /\ me_reading_interval self <> 0 /\ me_status_interval self <> 0.

Section channel.
Context `{RngLaws} `{!UlidGen} `{!Clock} (self : MockEdgeReceiver).
Hypothesis Hok : receiver_ok self.

Definition system_inv (s : System) : Prop :=
  task_inv (me_devices self) reading_of (reading_fits self) (reading_task s) (channel_log s) /\
  task_inv (me_devices self) status_of (status_fits self) (status_task s) (channel_log s) /\
  (length (queue s) <= channel_capacity)%nat.

Lemma reading_item_ok d n : d ∈ me_devices self ->
  exists item x n', reading_item self d n = Some (item, n') /\ reading_of item = Some x /\ reading_fits self d x.
Proof.
  intros Hd. destruct Hok as [Hfive _]. rewrite Forall_forall in Hfive.
  destruct (reading_item_spec self d n (Hfive d Hd)) as (r & n' & -> & Hr). by exists (Reading r), r, n'.
Qed.

Lemma status_item_ok d n : d ∈ me_devices self ->
  exists item x n', status_item self d n = Some (item, n') /\ status_of item = Some x /\ status_fits self d x.
Proof.
  intros _. destruct (status_item_spec self d n) as (s & n' & -> & Hs). by exists (Status s), s, n'.
Qed.

Lemma only_readings items : Forall (fun item => is_Some (reading_of item)) items -> omap status_of items = [].
Proof. induction 1 as [|[r|s] items [? Hs] _ IH]; [done|exact IH|done]. Qed.
Lemma only_statuses items : Forall (fun item => is_Some (status_of item)) items -> omap reading_of items = [].
Proof. induction 1 as [|[r|s] items [? Hs] _ IH]; [done|done|exact IH]. Qed.

Lemma sends_fit (queue items : list EdgeData) :
  (length items <= 1)%nat -> (items <> [] -> (length queue < channel_capacity)%nat) ->
  (length queue <= channel_capacity)%nat -> (length (queue ++ items) <= channel_capacity)%nat.
Proof.
  intros Hone Hroom Hq. rewrite length_app. destruct items as [|i [|]]; cbn in *; [lia| |lia].
  specialize (Hroom ltac:(done)). lia.
Qed.

Lemma system_inv_step e s : system_inv s -> system_inv (system_step self e s).
Proof.
  intros (Hr & Hs & Hq). destruct e as [r|r| | |]; cbn [system_step]; try done.
  - destruct (task_step self (reading_item self) r s (reading_task s)) as [[t items] n] eqn:E.
    eapply task_step_inv in E as (Ht & Hone & Hitems & Hroom); [|done|exact reading_item_ok|exact Hr].
    unfold system_inv, channel_log. cbn [received queue reading_task status_task]. rewrite (assoc_L (++)).
    split; [done|]. split; [|by apply sends_fit]. apply task_inv_other; [by apply only_readings|done].
  - destruct (task_step self (status_item self) r s (status_task s)) as [[t items] n] eqn:E.
    eapply task_step_inv in E as (Ht & Hone & Hitems & Hroom); [|done|exact status_item_ok|exact Hs].
    unfold system_inv, channel_log. cbn [received queue reading_task status_task]. rewrite (assoc_L (++)).
    split; [apply task_inv_other; [by apply only_statuses|done]|]. split; [done|by apply sends_fit].
  - destruct (queue s) as [|item rest] eqn:Eq; [by rewrite <- Eq in Hq|]. destruct (rx_open s); [|by rewrite <- Eq in Hq].
    unfold system_inv, channel_log in *. cbn [received queue reading_task status_task].
    rewrite Eq in Hr, Hs. rewrite <- (assoc_L (++)). cbn in *. split; [done|]. split; [done|lia].
Qed.

Lemma system_reachable_inv n s : reachable self n s -> system_inv s.
Proof.
  induction 1 as [|s e _ IH]; [|by apply system_inv_step].
  destruct Hok as (_ & Hri & Hsi). apply Z.eqb_neq in Hri, Hsi.
  unfold system_inv, mock_start, channel_log. cbn. rewrite Hri, Hsi.
  split; [apply task_inv_start|]. split; [apply task_inv_start|lia].
Qed.
End channel.


(** ** The devices of a receiver *)

(** The device whose identifiers begin with the [k]-th of the supply. *)
Definition nth_device `{!UlidGen} (k : nat) (location : H3Cell) : MockDevice := fst (MockDevice_new location k).

(** Where the identifiers of [len] devices begin. *)
Fixpoint device_starts (n len : nat) : list nat :=
  match len with O => [] | S len => n :: device_starts (6 + n) len end.

Lemma device_starts_ge n len k : k ∈ device_starts n len -> (n <= k)%nat.
Proof.
  revert n. induction len as [|len IH]; intros n Hk; [by apply not_elem_of_nil in Hk|].
  cbn [device_starts] in Hk. apply elem_of_cons in Hk as [->|Hk]; [lia|]. apply IH in Hk. lia.
Qed.

Lemma device_starts_lt n len k : k ∈ device_starts n len -> (k < n + 6 * len)%nat.
Proof.
  revert n. induction len as [|len IH]; intros n Hk; [by apply not_elem_of_nil in Hk|].
  cbn [device_starts] in Hk. apply elem_of_cons in Hk as [->|Hk]; [lia|]. apply IH in Hk. lia.
Qed.

Lemma device_starts_NoDup n len : NoDup (device_starts n len).
Proof.
  revert n. induction len as [|len IH]; intros n; constructor; [|apply IH].
  intros Hk%device_starts_ge. lia.
Qed.

Lemma device_starts_length n len : length (device_starts n len) = len.
Proof. revert n. induction len as [|len IH]; intros n; [done|]. cbn [device_starts length]. by rewrite IH. Qed.

Lemma new_devices_eq `{!UlidGen} cells n :
  fst (new_devices cells n) = zip_with nth_device (device_starts n (length cells)) cells.
Proof.
  revert n. induction cells as [|c cells IH]; intros n; [done|]. cbn [new_devices MockDevice_new].
  specialize (IH (6 + n)%nat). destruct (new_devices cells (6 + n)) as [ds n']. cbn in *. by rewrite IH.
Qed.

Lemma nth_devices_five `{!UlidGen} ks locs : Forall five_sensors (zip_with nth_device ks locs).
Proof. revert locs. induction ks as [|k ks IH]; intros [|loc locs]; constructor; [done|apply IH]. Qed.

Section registration.
Context `{!Lowercase} `{!HashIter DeviceId Device} `{!HashIter DispatcherId Dispatcher}
  `{!UlidText} `{!UlidTextLaws} `{!JsonText} `{!Jiff} `{!UlidGen} `{!Serde DispatcherResponse}
  `{!Serde ListDispatchersResponse} `{!Serde DeviceResponse} `{!Serde ListDevicesResponse}
  `{!Serde RegisterDispatcherRequest} `{!Serde RegisterDeviceRequest} `{!JsonLaws}
  `{!Serde ListDispatchersQuery} `{!Serde ListDevicesQuery} `{!Extract} `{!Assets} (base : string) (now : Timestamp).
Local Abbreviation Prime := (ApiState InMemoryDispatcherRegistry.t InMemoryDeviceRegistry.t).
#[local] Instance prime_served : HttpSend (Prime * nat) := served base now.

Definition prime_devices (p : Prime) : gmap DeviceId Device := InMemoryDeviceRegistry.devices (api_devices p).
Definition prime_dispatchers (p : Prime) : gmap DispatcherId Dispatcher :=
  InMemoryDispatcherRegistry.dispatchers (api_dispatchers p).

(** The device ersha-prime keeps for a mock device: active, at its location, with its sensors in order
    and their kinds. *)
Definition registered_as (d : MockDevice) (device : Device) : Prop :=
  dev_id device = md_device_id d /\ dev_state device = DeviceState.Active /\
  dev_location device = md_location d /\
  (fun s => (sensor_id s, sensor_kind s)) <$> dev_sensors device = zip (md_sensor_ids d) mock_kinds.

Definition info (d : MockDevice) : MockDeviceInfo :=
  mkMockDeviceInfo (md_device_id d) (md_location d) (md_sensor_ids d).

Lemma u64_json z : u64 z -> u64_of_json (JNumber z) = Some z.
Proof.
  intros [Hlo Hhi]. unfold u64_of_json. by rewrite (proj2 (Z.leb_le _ _) Hlo), (proj2 (Z.ltb_lt _ _) Hhi).
Qed.

Lemma json_field_nodup key (fields : list (string * Json)) : NoDup (fst <$> fields) ->
  json_field key fields = snd <$> find (fun f => String.eqb (fst f) key) fields.
Proof. intros Hnd. unfold json_field. by rewrite decide_True. Qed.

(** Looks a literal key up in an object with literal keys. *)
Ltac json_lookup :=
  rewrite !json_field_nodup by (apply (bool_decide_unpack _); vm_compute; exact I);
  cbn [find fst snd String.eqb Ascii.eqb Bool.eqb fmap option_fmap option_map].

Hypothesis ulid_u128 : forall k, u128 (ulid_new k).

Lemma sensor_body_json k kind :
  sensor_request_of_json (JObject [("id", JString (ulid_to_string (ulid_new k))); ("kind", JString kind)]%string) =
  Some (mkSensorRequest (Some (ulid_new k)) kind).
Proof.
  cbn [sensor_request_of_json]. json_lookup. cbn [optional_of_json ulid_of_json].
  by rewrite ulid_from_to.
Qed.

Definition mock_request (k : nat) (loc : H3Cell) : RegisterDeviceRequest :=
  mkRegisterDeviceRequest (Some (ulid_new k)) (h3_cell loc) (Some "sensor"%string) (Some "ersha-mock"%string)
    (zip_with (fun i kind => mkSensorRequest (Some (ulid_new (i + k))) kind) [1; 2; 3; 4; 5]%nat SENSOR_KINDS).

Lemma device_body_json k loc : u64 (h3_cell loc) ->
  device_request_of_json (device_body (info (nth_device k loc))) = Some (mock_request k loc).
Proof.
  intros Hloc. unfold device_body. cbn [device_request_of_json]. json_lookup.
  cbn [optional_of_json ulid_of_json mbind option_bind info nth_device MockDevice_new fst
       mi_device_id mi_location mi_sensor_ids md_device_id md_sensor_ids md_location device_ulid].
  rewrite ulid_from_to by done. cbn [fmap option_fmap option_map]. rewrite u64_json by done.
  cbn [SENSOR_KINDS zip_with mapM sensor_ulid string_of_json fmap option_fmap option_map].
  by rewrite !sensor_body_json.
Qed.

Lemma dispatcher_body_json id loc : u128 (dispatcher_ulid id) -> u64 (h3_cell loc) ->
  dispatcher_request_of_json (dispatcher_body id loc) =
  Some (mkRegisterDispatcherRequest (Some (dispatcher_ulid id)) (h3_cell loc)).
Proof.
  intros Hid Hloc. unfold dispatcher_body. cbn [dispatcher_request_of_json]. json_lookup.
  cbn [optional_of_json ulid_of_json mbind option_bind]. rewrite ulid_from_to by done.
  cbn [fmap option_fmap option_map]. by rewrite u64_json.
Qed.

(** Posting the body of one device registers it; nothing else changes. *)
Lemma post_device k loc (p : Prime) m : u64 (h3_cell loc) ->
  exists device p' m' resp,
    send POST (base +:+ "/api/devices") "" (json_text (device_body (info (nth_device k loc)))) (p, m) =
      ((p', m'), Some resp) /\ succeeded (Some resp) = true /\
    prime_devices p' = <[mkDeviceId (ulid_new k) := device]> (prime_devices p) /\
    prime_dispatchers p' = prime_dispatchers p /\ registered_as (nth_device k loc) device.
Proof.
  intros Hloc. unfold send, prime_served. rewrite served_register_device. unfold with_json.
  rewrite (json_device_request _ _ (device_body_json k loc Hloc)).
  eexists _, _, _, _. split; [reflexivity|]. split; [done|]. split; [reflexivity|]. split; [done|].
  unfold registered_as. cbn. by destruct loc.
Qed.

Lemma post_dispatcher id loc (p : Prime) m : u128 (dispatcher_ulid id) -> u64 (h3_cell loc) ->
  exists p' resp,
    send POST (base +:+ "/api/dispatchers") "" (json_text (dispatcher_body id loc)) (p, m) =
      ((p', m), Some resp) /\
    prime_devices p' = prime_devices p /\
    prime_dispatchers p' = <[id := mkDispatcher id loc DispatcherState.Active now]> (prime_dispatchers p).
Proof.
  intros Hid Hloc. unfold send, prime_served. rewrite served_path. unfold axum_app, api_router.
  cbn [path method req_body].
  change (split_on "/" "/api/dispatchers") with [""%string; "api"%string; "dispatchers"%string].
  cbv beta iota. unfold with_json. rewrite (json_dispatcher_request _ _ (dispatcher_body_json id loc Hid Hloc)).
  eexists _, _. split; [reflexivity|]. split; [done|]. by destruct id, loc.
Qed.

Lemma register_devices_spec ks locs (p : Prime) m reg failed :
  length ks = length locs -> Forall (fun loc => u64 (h3_cell loc)) locs ->
  NoDup (mkDeviceId ∘ ulid_new <$> ks) ->
  exists p' m', fst (register_devices base (info <$> zip_with nth_device ks locs) reg failed (p, m)) = (p', m') /\
    prime_dispatchers p' = prime_dispatchers p /\
    (forall id, id ∉ mkDeviceId ∘ ulid_new <$> ks -> prime_devices p' !! id = prime_devices p !! id) /\
    Forall (fun d => exists device, prime_devices p' !! md_device_id d = Some device /\ registered_as d device)
      (zip_with nth_device ks locs).
Proof.
  revert locs p m reg. induction ks as [|k ks IH]; intros [|loc locs] p m reg Hlen Hlocs Hnd; try done.
  { exists p, m. by repeat split. }
  inversion Hlocs as [|? ? Hloc Hlocs']; subst. apply NoDup_cons in Hnd as [Hk Hnd].
  destruct (post_device k loc p m Hloc) as (device & p1 & m1 & resp & Hsend & Hok & Hdev & Hdisp & Has).
  cbn [zip_with fmap list_fmap register_devices]. rewrite Hsend, Hok.
  destruct (IH locs p1 m1 (wrap 32 (reg + 1)) ltac:(by injection Hlen) Hlocs' Hnd)
    as (p' & m' & Hrun & Hd & Hother & Hall).
  exists p', m'. split; [exact Hrun|]. split; [by rewrite Hd|]. split.
  - intros id Hid. apply not_elem_of_cons in Hid as [Hne Hid].
    rewrite Hother by done. rewrite Hdev. by apply lookup_insert_ne, not_eq_sym.
  - constructor; [|done]. exists device. split; [|done].
    change (md_device_id (nth_device k loc)) with ((mkDeviceId ∘ ulid_new) k).
    rewrite Hother by done. rewrite Hdev. apply lookup_insert_eq.
Qed.
End registration.

(** ** The URL of the HTTP API *)

Lemma replace_from_other pat c rep s t : count_char c s = 0%nat ->
  replace_from (String c pat) rep 0 (s +:+ t) = s +:+ replace_from (String c pat) rep 0 t.
Proof.
  induction s as [|a s IH]; [done|]. cbn [count_char]. intros Hs.
  destruct (Ascii.eqb a c) eqn:E; [done|]. rewrite Ascii.eqb_sym in E.
  change (String a s +:+ t) with (String a (s +:+ t)). cbn [replace_from strip_prefix]. rewrite E.
  by rewrite IH.
Qed.

Lemma prime_http_url_host host : count_char ":" host = 0%nat ->
  prime_http_url (host +:+ ":9000") = "http://" +:+ host +:+ ":8080".
Proof.
  intros Hh. unfold prime_http_url, str_replace.
  change ("http://" +:+ host +:+ ":9000") with
    (String "h" (String "t" (String "t" (String "p" (String ":" (String "/" (String "/" (host +:+ ":9000")))))))).
  cbn [replace_from strip_prefix Ascii.eqb Bool.eqb]. by rewrite replace_from_other.
Qed.

(** ** The mock receiver against ersha-prime *)

(** A batch whose devices are all registered has no rejected reading and no rejected status. *)
Lemma nothing_rejected `{!Lowercase} `{!HashIter DeviceId Device} `{!HashIter ReadingId SensorReading}
    `{!HashIter StatusId DeviceStatus} (request : BatchUploadRequest) (state : MemState) :
  let registered id := is_Some (InMemoryDeviceRegistry.devices (device_registry state) !! id) in
  Forall (fun r => registered (rd_device_id r)) (bu_readings request) ->
  Forall (fun s => registered (st_device_id s)) (bu_statuses request) ->
  bur_readings_rejected (snd (on_batch_upload request state)) = 0 /\
  bur_statuses_rejected (snd (on_batch_upload request state)) = 0.
Proof.
  intros registered Hr Hs. unfold on_batch_upload.
  assert (forall id, registered id -> known (device_registry state) id = true) as Hknown.
  { intros id [d Hd]. unfold known. cbn. by rewrite Hd. }
  rewrite !(keep_known_spec (dview := InMemoryDeviceRegistry.devices)) by (unfold is_unsigned; lia).
  cbn [snd bur_readings_rejected bur_statuses_rejected].
  rewrite Forall_forall in Hr. rewrite Forall_forall in Hs. rewrite !filter_true by (intros; apply Hknown; auto).
  split; by rewrite Z.sub_diag.
Qed.

(** The batches of a mock dispatcher carry readings and statuses that went over the channel. *)
Definition batch_of (s : System) (request : BatchUploadRequest) : Prop :=
  bu_readings request ⊆ omap reading_of (channel_log s) /\ bu_statuses request ⊆ omap status_of (channel_log s).

Section accepted.
Context `{!Lowercase} `{!HashIter DeviceId Device} `{!HashIter DispatcherId Dispatcher}
  `{!HashIter ReadingId SensorReading} `{!HashIter StatusId DeviceStatus} `{!UlidGen} `{!Clock} `{RngLaws}
  (receiver : MockEdgeReceiver) (Hok : receiver_ok receiver) (k : nat) (s : System) (Hs : reachable receiver k s)
  (prime : ApiState InMemoryDispatcherRegistry.t InMemoryDeviceRegistry.t)
  (readings : InMemoryReadingRegistry.t) (statuses : InMemoryDeviceStatusRegistry.t).
Hypothesis Hreg : Forall (fun d => exists device,
  prime_devices prime !! md_device_id d = Some device /\ registered_as d device) (me_devices receiver).

Lemma channel_reading r : r ∈ omap reading_of (channel_log s) ->
  exists d, d ∈ me_devices receiver /\ reading_fits receiver d r.
Proof.
  intros [i Hi]%list_elem_of_lookup. destruct (system_reachable_inv receiver Hok k s Hs) as ([Hr _] & _).
  destruct (Hr i r Hi) as (d & Hd & Hf). exists d. split; [by eapply list_elem_of_lookup_2|done].
Qed.

Lemma channel_status st : st ∈ omap status_of (channel_log s) ->
  exists d, d ∈ me_devices receiver /\ status_fits receiver d st.
Proof.
  intros [i Hi]%list_elem_of_lookup. destruct (system_reachable_inv receiver Hok k s Hs) as (_ & [Hst _] & _).
  destruct (Hst i st Hi) as (d & Hd & Hf). exists d. split; [by eapply list_elem_of_lookup_2|done].
Qed.

Lemma registered_accepted :
  (forall r, r ∈ omap reading_of (channel_log s) -> exists device sensor,
     prime_devices prime !! rd_device_id r = Some device /\ dev_state device = DeviceState.Active /\
     dev_location device = rd_location r /\ sensor ∈ dev_sensors device /\
     sensor_id sensor = rd_sensor_id r /\ sensor_kind sensor = metric_kind (rd_metric r)) /\
  forall request, batch_of s request ->
    let state : MemState := mkAppState (api_dispatchers prime) (api_devices prime) readings statuses in
    bur_readings_rejected (snd (on_batch_upload request state)) = 0 /\
    bur_statuses_rejected (snd (on_batch_upload request state)) = 0.
Proof.
  rewrite Forall_forall in Hreg. split.
  - intros r Hr. destruct (channel_reading r Hr) as (d & Hd & Hdev & _ & Hloc & _ & _ & i & Hsid & Hkind).
    destruct (Hreg d Hd) as (device & Hlook & _ & Hact & Hl & Hsens).
    assert ((rd_sensor_id r, metric_kind (rd_metric r)) ∈ zip (md_sensor_ids d) mock_kinds) as Hin.
    { apply (list_elem_of_lookup_2 _ i). apply lookup_zip_with_Some. by eexists _, _. }
    rewrite <- Hsens in Hin. apply list_elem_of_fmap in Hin as (sensor & [= E1 E2] & Hin).
    exists device, sensor. by rewrite Hdev, Hloc.
  - intros request [Hr Hst] state. apply nothing_rejected; apply Forall_forall; intros x Hx.
    + destruct (channel_reading x (Hr x Hx)) as (d & Hd & -> & _).
      destruct (Hreg d Hd) as (device & Hlook & _). by eexists.
    + destruct (channel_status x (Hst x Hx)) as (d & Hd & -> & _).
      destruct (Hreg d Hd) as (device & Hlook & _). by eexists.
Qed.
End accepted.

(** C6: A dispatcher configured with the mock receiver, started next to an in-memory ersha-prime whose
    RPC port is 9000 and whose HTTP port is 8080, in whatever state that is: the registration over
    HTTP makes the dispatcher active there, even one that was suspended, so that its hello is
    accepted; and every reading the receiver ever puts on the channel is of a device that
    ersha-prime then knows as active and at the reading's location, with the reading's sensor under
    the kind of the reading's metric, so a batch of such readings and statuses has none rejected. *)
Theorem mock_devices_accepted `{!Lowercase} `{!HashIter DeviceId Device} `{!HashIter DispatcherId Dispatcher}
    `{!HashIter ReadingId SensorReading} `{!HashIter StatusId DeviceStatus}
    `{!UlidText} `{!UlidTextLaws} `{!JsonText} `{!Jiff} `{!UlidGen} `{!Clock} `{RngLaws} `{H3Laws}
    `{!Serde DispatcherResponse} `{!Serde ListDispatchersResponse} `{!Serde DeviceResponse}
    `{!Serde ListDevicesResponse} `{!Serde RegisterDispatcherRequest} `{!Serde RegisterDeviceRequest} `{!JsonLaws}
    `{!Serde ListDispatchersQuery} `{!Serde ListDevicesQuery} `{!Extract} `{!Assets}
    host now id location lat lng ri si count n (prime : ApiState InMemoryDispatcherRegistry.t InMemoryDeviceRegistry.t) m
    readings statuses :
  count_char ":" host = 0%nat -> u128 (dispatcher_ulid id) -> u64 (h3_cell location) ->
  (forall k, u128 (ulid_new k)) ->
  (forall i j, (i < n + Z.to_nat (26 * count + 6))%nat -> (j < n + Z.to_nat (26 * count + 6))%nat ->
     ulid_new i = ulid_new j -> i = j) ->
  cell_center (h3_cell location) = Some (lat, lng) ->
  0 <= count <= max_capacity -> ri <> 0 -> si <> 0 ->
  exists receiver n' prime' m',
    start_mock (HttpSend0 := served ("http://" +:+ host +:+ ":8080") now) (host +:+ ":9000") id location
      ri si count n (prime, m) = Some (receiver, n', (prime', m')) /\
    let state : MemState := mkAppState (api_dispatchers prime') (api_devices prime') readings statuses in
    snd (on_hello (mkHelloRequest id location) state) = HelloResponse.Accepted id /\
    forall k s, reachable receiver k s ->
      (forall r, r ∈ omap reading_of (channel_log s) -> exists device sensor,
         prime_devices prime' !! rd_device_id r = Some device /\ dev_state device = DeviceState.Active /\
         dev_location device = rd_location r /\ sensor ∈ dev_sensors device /\
         sensor_id sensor = rd_sensor_id r /\ sensor_kind sensor = metric_kind (rd_metric r)) /\
      forall request, batch_of s request ->
        bur_readings_rejected (snd (on_batch_upload request state)) = 0 /\
        bur_statuses_rejected (snd (on_batch_upload request state)) = 0.
Proof.
  intros Hhost Hid Hloc Hu Hinj Hc Hcount Hri Hsi. unfold start_mock, MockEdgeReceiver_new.
  destruct (nearby_cells_found location lat lng count n Hc Hcount)
    as (cs & n1 & -> & (_ & _ & Hlen & Hn1 & _) & Hcs & _). specialize (Hcs _ Hloc).
  cbn [mbind option_bind]. pose proof (new_devices_eq cs n1) as Hds.
  destruct (new_devices cs n1) as [ds n2]. cbn [fst] in Hds. cbn [mbind option_bind].
  rewrite prime_http_url_host by done. unfold register_mock_entities.
  set (base := "http://" +:+ host +:+ ":8080").
  destruct (post_dispatcher base now id location prime m Hid Hloc) as (p1 & resp & Hsend & Hp1 & Hq1).
  unfold prime_served in Hsend. rewrite Hsend.
  set (receiver := mkMockEdgeReceiver id ri si ds).
  destruct (register_devices_spec base now Hu (device_starts n1 (length cs)) cs p1 m 0 0) as
    (p' & m' & Hrun & Hq & _ & Hreg); [apply device_starts_length|done| |].
  { apply NoDup_fmap_2_strong; [|apply device_starts_NoDup].
    intros i j Hi%device_starts_lt Hj%device_starts_lt [= E]. apply Hinj; [lia|lia|exact E]. }
  unfold prime_served in Hrun. rewrite <- Hds in Hrun, Hreg. change (info <$> ds) with (device_info receiver) in Hrun.
  destruct (register_devices _ _ _ _ _) as [net nums]. cbn [fst] in Hrun. subst net.
  exists receiver, n2, p', m'. split; [reflexivity|]. cbv zeta.
  split.
  { unfold on_hello. cbn. change (InMemoryDispatcherRegistry.dispatchers (api_dispatchers p')) with (prime_dispatchers p').
    by rewrite Hq, Hq1, lookup_insert_eq. }
  intros k s Hs.
  assert (receiver_ok receiver) as Hok by (split; [cbn; rewrite Hds; apply nth_devices_five|done]).
  exact (registered_accepted receiver Hok k s Hs p' readings statuses Hreg).
Qed.

(** ** Witnesses *)

Module EdgeMockWitness.
#[local] Existing Instance hash_iter_std.
#[local] Existing Instance lowercase_ascii.
#[local] Existing Instance ulid_crockford.
#[local] Existing Instance ulid_crockford_laws.
#[local] Existing Instance jiff_ns.
#[local] Existing Instance PrimeClientWitness.extract.
#[local] Existing Instance PrimeClientWitness.assets.

#[local] Instance clock : Clock := fun n => mkTimestamp (Z.of_nat n).

(** Draws that use the range: the number of the draw folded into it, and 0 or the lower bound. *)
#[local] Instance rng : Rng := {|
  random_range n lo hi := lo + Z.of_nat n mod (hi - lo);
  random_range_f64 n lo hi := if Nat.even n && SFleb lo (S754_zero false) && SFltb (S754_zero false) hi then (S754_zero false) else lo;
  random_ratio n a b := Z.ltb (Z.of_nat n mod b) a
|}.

#[local] Instance gen : UlidGen := fun n => wrap 128 (1000 + Z.of_nat n).
#[local] Instance h3 : H3 := {|
  cell_center c := Some (S754_zero false, S754_zero false);
  latlng_new lat lng := Some (lat, lng);
  to_cell_ten ll := match ll with (S754_zero _, _) => 5 | _ => 6 end
|}.

#[local] Instance dispatcher_request_eq_dec : EqDecision RegisterDispatcherRequest.
Proof. solve_decision. Defined.
#[local] Instance dispatcher_request_countable : Countable RegisterDispatcherRequest.
Proof.
  refine (inj_countable' (fun r => (rdq_id r, rdq_location r)) (fun '(a, b) => mkRegisterDispatcherRequest a b) _).
  by intros [].
Defined.

(** A text that holds the two requests a value may spell. *)
#[local] Instance requests : Serde (option RegisterDispatcherRequest * option RegisterDeviceRequest) := serde_countable.
#[local] Instance json : JsonText := fun j => @serialize _ requests (dispatcher_request_of_json j, device_request_of_json j).
#[local] Instance serde_dispatcher : Serde RegisterDispatcherRequest :=
  {| serialize r := ""%string; deserialize s := p ← @deserialize _ requests s; fst p |}.
#[local] Instance serde_device : Serde RegisterDeviceRequest :=
  {| serialize r := ""%string; deserialize s := p ← @deserialize _ requests s; snd p |}.
#[local] Instance serde_other {T} : Serde T | 100 :=
  {| serialize _ := EmptyString; deserialize _ := None |}.

#[local] Instance rng_laws : RngLaws.
Proof.
  split.
  - intros n lo hi Hlt. cbn. pose proof (Z.mod_pos_bound (Z.of_nat n) (hi - lo)). lia.
  - intros n lo hi Hlt. cbn. destruct (Nat.even n && _ && _) eqn:E.
    + by apply andb_prop in E as [[_ ?]%andb_prop ?].
    + split; [|done]. unfold SFltb, SFleb in *. destruct lo as [| | |]; try done; try by destruct s.
      cbn. rewrite Z.compare_refl, Pos.compare_refl. by destruct s.
Qed.
#[local] Instance h3_laws : H3Laws.
Proof. split. intros [[] ?]; vm_compute; by split. Qed.
Lemma read_back j :
  @deserialize _ requests (json_text j) = Some (dispatcher_request_of_json j, device_request_of_json j).
Proof. apply (@deserialize_serialize _ serde_countable serde_countable_laws). Qed.
#[local] Instance json_laws : JsonLaws.
Proof.
  split; intros j r E; cbn [deserialize serde_dispatcher serde_device]; rewrite read_back; exact E.
Qed.

Lemma nearby_cells_terminates_witness :
  exists n', generate_nearby_cells (mkH3Cell 7) 3 0 = Some ([mkH3Cell 7; mkH3Cell 5], n') /\ n' = 60%nat.
Proof.
  destruct (@nearby_cells_terminates rng h3 (mkH3Cell 7) (S754_zero false) (S754_zero false) 3 0 eq_refl
    ltac:(vm_compute; split; discriminate)) as (cs & n' & E & _).
  exists n'. assert (generate_nearby_cells (mkH3Cell 7) 3 0 = Some ([mkH3Cell 7; mkH3Cell 5], 60%nat)) as E2
    by (vm_compute; reflexivity).
  rewrite E2 in E. injection E as E3 E4. split; [rewrite E2, E4; reflexivity|symmetry; exact E4].
Defined.

(** A receiver with two devices, and both its generators in the middle of a round. *)
Definition receiver : MockEdgeReceiver :=
  mkMockEdgeReceiver (mkDispatcherId 1) 5 30 [nth_device 0 (mkH3Cell 7); nth_device 6 (mkH3Cell 5)].
Definition events : list Event :=
  [OnReadingTask Tick; OnReadingTask Sent; OnStatusTask Tick; Receive; OnStatusTask Sent; OnReadingTask Sent].
Definition system1 : System := foldl (fun s e => system_step receiver e s) (mock_start receiver 100) events.

Lemma system1_reachable : reachable receiver 100 system1.
Proof. unfold system1, events. cbn [foldl]. do 6 apply reach_step. apply reach_start. Qed.

Lemma receiver_is_ok : receiver_ok receiver.
Proof. split; [by repeat constructor|done]. Qed.

Definition readings1 : list SensorReading := omap reading_of (channel_log system1).


(** A suspended dispatcher that starts again with the mock receiver. *)
Definition suspended : ApiState InMemoryDispatcherRegistry.t InMemoryDeviceRegistry.t :=
  mkApiState (InMemoryDispatcherRegistry.mk (insert_all disp_id
                [mkDispatcher (mkDispatcherId 1) (mkH3Cell 7) DispatcherState.Suspended (mkTimestamp 0)] ∅))
    InMemoryDeviceRegistry.new.

Lemma mock_devices_accepted_witness :
  exists receiver n' prime' m',
    start_mock (HttpSend0 := served "http://prime:8080" (mkTimestamp 0)) "prime:9000" (mkDispatcherId 1)
      (mkH3Cell 7) 5 30 2 0 (suspended, 0%nat) = Some (receiver, n', (prime', m')) /\
    snd (on_hello (mkHelloRequest (mkDispatcherId 1) (mkH3Cell 7))
           (mkAppState (api_dispatchers prime') (api_devices prime') InMemoryReadingRegistry.new
              InMemoryDeviceStatusRegistry.new)) = HelloResponse.Accepted (mkDispatcherId 1).
Proof.
  destruct (mock_devices_accepted "prime" (mkTimestamp 0) (mkDispatcherId 1) (mkH3Cell 7) (S754_zero false)
    (S754_zero false) 5 30 2 0 suspended 0 InMemoryReadingRegistry.new InMemoryDeviceStatusRegistry.new)
    as (receiver & n' & prime' & m' & E & Hhello & _).
  - reflexivity.
  - split; [discriminate|reflexivity].
  - split; [discriminate|reflexivity].
  - intros k. apply wrap_range. discriminate.
  - intros i j Hi Hj. change (0 + Z.to_nat (26 * 2 + 6))%nat with 58%nat in Hi, Hj. unfold ulid_new, gen.
    change (wrap 128) with (fun z => z mod 340282366920938463463374607431768211456). cbv beta.
    rewrite !Z.mod_small by lia. lia.
  - reflexivity.
  - vm_compute. split; discriminate.
  - discriminate.
  - discriminate.
  - exists receiver, n', prime', m'. split; [exact E|exact Hhello].
Defined.
End EdgeMockWitness.
