(* ===== verification/EdgeExample.v ===== *)
(** * The example server of the firmware library: ersha-edge/examples/server/src/main.rs

    It speaks the dispatcher's side of the protocol and prints what it receives.  A connection is the
    await point its task is at and what it printed of readings; the greeting is that of EdgeTcp. *)
From Stdlib Require Import ZArith Lia Strings.String.
From stdpp Require Import base strings list.
From S2P Require Import Prelude Platform Core DispatchStorage DispatchMain RpcFrame EdgeDevice EdgeTcp.
Open Scope Z_scope.

(** [ersha-edge/examples/server/src/main.rs:34-123] handle_client: its await points, and the body of its
    inner loop *)
Inductive ClientPhase :=
  | ReadingHello (hello : bytes)
  | ReadingLocation (location : bytes)
  | WritingId (device_id : Ulid) (location : Z)
  | ReadingStream (device_id : Ulid) (location : Z) (buf : bytes)
  | InLoop (device_id : Ulid) (location : Z) (buf : bytes)
  | Returned (r : result unit string).

(** What is printed of a packet. *)
Record Line := mkLine { li_device : Ulid; li_location : Z; li_packet : ReadingPacket }.

Section example.
Context `{!EdgeCodec} `{!UlidGen}.

(** [ersha-edge/examples/server/src/main.rs:37-43] handle_client: the greeting *)
Definition greet (hello b : bytes) : ClientPhase :=
  match b with
  | [] => Returned (Err "early eof"%string)
  | _ =>
      let hello := hello ++ b in
      if Nat.ltb (length hello) 5 then ReadingHello hello
      else if decide (hello = HELLO) then ReadingLocation [] else Returned (Ok tt)
  end.

(** [ersha-edge/examples/server/src/main.rs:45-50] handle_client: the location and the [n]-th identifier *)
Definition locate_client (n : nat) (location b : bytes) : ClientPhase :=
  match b with
  | [] => Returned (Err "early eof"%string)
  | _ =>
      let location := location ++ b in
      if Nat.ltb (length location) 8 then ReadingLocation location
      else WritingId (ulid_new n) (of_be_bytes location)
  end.

(** [ersha-edge/examples/server/src/main.rs:74-121] handle_client: one turn of the inner loop *)
Definition loop_turn (device_id : Ulid) (location : Z) (buf : bytes) : list Line * ClientPhase :=
  match msg_take_from_bytes buf with
  | More => ([], ReadingStream device_id location buf)
  | Bad _ => ([], Returned (Ok tt))
  | Got msg rest =>
      if decide (msg_preamble msg = PACKET_PREAMBLE) then
        match msg_type msg with
        | MsgReading =>
            match packet_from_bytes (msg_payload msg) with
            | Err _ => ([], InLoop device_id location buf)
            | Ok packet => ([mkLine device_id location packet], InLoop device_id location rest)
            end
        end
      else ([], Returned (Ok tt))
  end.

(** [ersha-edge/examples/server/src/main.rs:34-123] handle_client: from an await point to the next, or
    one turn of the inner loop; with what it prints of readings *)
Definition client_step (n : nat) (i : Input) (p : ClientPhase) : list Line * ClientPhase :=
  match p, i with
  | ReadingHello hello, Read b => ([], greet hello b)
  | ReadingLocation location, Read b => ([], locate_client n location b)
  | (ReadingHello _ | ReadingLocation _), ReadError e => ([], Returned (Err e))
  | WritingId device_id location, IdWritten (Ok _) => ([], ReadingStream device_id location [])
  | WritingId _ _, IdWritten (Err e) => ([], Returned (Err e))
  | ReadingStream _ _ _, Read [] => ([], Returned (Ok tt))
  | ReadingStream device_id location buf, Read b => ([], InLoop device_id location (buf ++ b))
  | ReadingStream _ _ _, ReadError _ => ([], Returned (Ok tt))
  | InLoop device_id location buf, Work => loop_turn device_id location buf
  | _, _ => ([], p)
  end.

(** A number of turns of the inner loop. *)
Fixpoint turns (k : nat) (out : list Line) (p : ClientPhase) : list Line * ClientPhase :=
  match k, p with
  | S k, InLoop device_id location buf =>
      let (lines, p) := loop_turn device_id location buf in turns k (out ++ lines) p
  | _, _ => (out, p)
  end.

(** A message whose payload is no reading is at the front of the buffer. *)
Definition bad_payload (buf : bytes) : bool :=
  match msg_take_from_bytes buf with
  | Got msg _ =>
      bool_decide (msg_preamble msg = PACKET_PREAMBLE) &&
      match packet_from_bytes (msg_payload msg) with Err _ => true | Ok _ => false end
  | _ => false
  end.
End example.

(** ** Properties *)

Section properties.
Context `{!EdgeCodec} `{!UlidGen} `{!Clock} (dispatcher_id : DispatcherId).

(** The phases of the two servers that stand for each other: the same device, place and buffer, or both
    at their end. *)
Definition same_phase (p : ClientPhase) (q : Phase) : Prop :=
  match p, q with
  | InLoop d l buf, Decoding d' l' buf' | ReadingStream d l buf, Receiving d' l' buf' =>
      d = device_ulid d' /\ l = l' /\ buf = buf'
  | Returned _, Done _ _ => True
  | _, _ => False
  end.

(** What the dispatcher queues for what the example prints. *)
Definition queued_for (lines : list Line) (data : list EdgeData) : Prop :=
  Forall2 (fun line d => exists metric k,
    convert_metric (rp_metric (li_packet line)) = Some metric /\
    d = Reading (edge_reading dispatcher_id (mkDeviceId (li_device line)) (li_location line) (li_packet line) metric k))
    lines data.

(** A message whose payload is no reading stays at the front of the example's buffer: its inner loop does
    not end, prints nothing, and reads no more of the stream. *)
Lemma bad_payload_loops d l buf : bad_payload buf = true ->
  forall k out, turns k out (InLoop d l buf) = (out, InLoop d l buf).
Proof.
  intros Hbad k. unfold bad_payload in Hbad.
  induction k as [|k IH]; intros out; [done|]. cbn [turns]. unfold loop_turn at 1.
  destruct (msg_take_from_bytes buf) as [msg rest| |e]; try done.
  apply andb_prop in Hbad as [Hp Hpay]. apply bool_decide_eq_true in Hp. rewrite decide_True by done.
  destruct (msg_type msg), (packet_from_bytes (msg_payload msg)); [done|]. rewrite app_nil_r. by apply IH.
Qed.

(** On every other buffer that is not empty the example and a dispatcher whose channel is open go on alike. *)
Lemma loop_turn_decode_one d l buf sh : buf <> [] -> bad_payload buf = false -> sh_rx_open sh = true ->
  let (lines, p) := loop_turn d l buf in
  let (sh', q) := decode_one dispatcher_id (mkDeviceId d) l buf sh in
  same_phase p q /\ exists data, sh_sent sh' = sh_sent sh ++ data /\ queued_for lines data.
Proof.
  intros Hne Hbad Hopen. unfold bad_payload in Hbad. unfold loop_turn, decode_one.
  destruct buf as [|x buf]; [done|].
  destruct (msg_take_from_bytes (x :: buf)) as [msg rest| |e].
  - destruct (decide (msg_preamble msg = PACKET_PREAMBLE)) as [Hp|Hp].
    + rewrite bool_decide_true in Hbad by done. destruct (msg_type msg). unfold on_payload.
      destruct (packet_from_bytes (msg_payload msg)) as [packet|e]; [|done].
      destruct (convert_metric_is_Some (rp_metric packet)) as [metric Hm]. rewrite Hm, Hopen. split; [done|].
      eexists. split; [done|]. constructor; [|constructor]. by exists metric, (sh_next sh).
    + unfold disconnect. split; [done|]. exists []. rewrite app_nil_r. by split; [|constructor].
  - split; [done|]. exists []. rewrite app_nil_r. by split; [|constructor].
  - unfold disconnect. split; [done|]. exists []. rewrite app_nil_r. by split; [|constructor].
Qed.

(** On the same buffered bytes the example server and the dispatcher take the same turns: the same
    messages, the same rest of the buffer, the same end, and each reading the one prints is the one the other
    queues. They part at a message whose payload is no reading: there the dispatcher returns, while
    the example takes the same message again for ever. *)
Theorem example_server_lockstep d l buf sh : buf <> [] -> sh_rx_open sh = true ->
  (bad_payload buf = false ->
     let (lines, p) := loop_turn d l buf in
     let (sh', q) := decode_one dispatcher_id (mkDeviceId d) l buf sh in
     same_phase p q /\ exists data, sh_sent sh' = sh_sent sh ++ data /\ queued_for lines data) /\
  (bad_payload buf = true ->
     (forall k, turns k [] (InLoop d l buf) = ([], InLoop d l buf)) /\
     exists e, decode_one dispatcher_id (mkDeviceId d) l buf sh = (sh, Done (Unreported (mkDeviceId d)) (Err e))).
Proof.
  intros Hne Hopen. split; [intros Hbad; by apply loop_turn_decode_one|].
  intros Hbad. split; [intros k; by apply bad_payload_loops|].
  unfold bad_payload in Hbad. unfold decode_one. destruct buf as [|x buf]; [done|].
  destruct (msg_take_from_bytes (x :: buf)) as [msg rest| |e]; try done.
  apply andb_prop in Hbad as [Hp Hpay]. apply bool_decide_eq_true in Hp. rewrite decide_True by done.
  destruct (msg_type msg). unfold on_payload. destruct (packet_from_bytes (msg_payload msg)) as [packet|e]; [done|].
  by exists (EdgeConnectionError.Postcard e).
Qed.
End properties.

(** ** Witness *)

Module EdgeExampleWitness.
#[local] Existing Instance SampleCodec.codec.
#[local] Existing Instance Witnesses.gen.
#[local] Existing Instance Witnesses.clock.

(** A good frame, then the malformed message. *)
Definition buf : bytes := Eval vm_compute in concat Witnesses.frames ++ Witnesses.malformed.

Lemma example_server_lockstep_witness :
  fst <$> [turns 1000 [] (InLoop 5 77 Witnesses.malformed)] = [[]] /\
  exists sh' data, fst (decode_one (mkDispatcherId 1) (mkDeviceId 5) 77 buf Witnesses.shared) = sh' /\
    sh_sent sh' = [data].
Proof.
  split.
  - rewrite (proj1 (proj2 (example_server_lockstep (mkDispatcherId 1) 5 77 Witnesses.malformed Witnesses.shared
      ltac:(discriminate) eq_refl) ltac:(vm_compute; reflexivity)) 1000%nat). reflexivity.
  - pose proof (proj1 (example_server_lockstep (mkDispatcherId 1) 5 77 buf Witnesses.shared ltac:(discriminate) eq_refl)
      ltac:(vm_compute; reflexivity)) as Hstep.
    destruct (loop_turn 5 77 buf) as [lines p] eqn:Hturn.
    assert (length lines = 1%nat) as Hl by (replace lines with (fst (loop_turn 5 77 buf)) by (by rewrite Hturn); vm_compute; reflexivity).
    destruct (decode_one _ _ _ _ _) as [sh' q]. destruct Hstep as (_ & data & Hsent & Hq).
    apply Forall2_length in Hq. rewrite Hl in Hq. destruct data as [|x [|]]; try discriminate Hq.
    exists sh', x. split; [reflexivity|exact Hsent].
Defined.
End EdgeExampleWitness.
