(* ===== verification/Startup.v ===== *)
(** * Starting and stopping the two servers: the configurations and the [main]s

    ersha-dispatch/src/config.rs and main.rs, ersha-prime/src/config.rs and main.rs.  The text of a
    configuration file is read by the class [Toml]; a socket address and a path are their text.  The
    lifetime of a dispatcher process is the machine [proc_step]: its main task, its collector, its
    uploader and its HTTP server, and the cancellation they share; that of a prime process is
    [prime_step], over the accept loop of RpcServe.  Logging and the health endpoint are left out. *)
From Stdlib Require Import ZArith Lia Strings.String.
From stdpp Require Import base gmap strings list.
From S2P Require Import Prelude Platform Core Samples Tls InMemory PrimeHandlers PrimeApi PrimeClient DispatchStorage.
From S2P Require Import DispatchMain EdgeMock RpcFrame Rpc RpcServe.
Open Scope Z_scope.

Definition SocketAddr := string.
Definition PathBuf := string.

(** [toml::from_str]. *)
Class Toml (T : Type) := toml_from_str : string -> option T.

Inductive StartError :=
  | Unreadable                              (* [read_to_string] of a file that exists fails *)
  | InvalidConfig                           (* [toml::from_str] fails *)
  | InvalidDispatcherId (id : string)
  | StorageFailed.

(** ** ersha-dispatch *)

Module DispatchConfig.
(** [ersha-dispatch/src/config.rs:17-23] DispatcherConfig *)
Record DispatcherConfig := mkDispatcherConfig { dc_id : string; dc_location : Z }.

(** [ersha-dispatch/src/config.rs:25-29] ServerConfig *)
Record ServerConfig := mkServerConfig { http_addr : SocketAddr }.

Module StorageConfig.
(** [ersha-dispatch/src/config.rs:31-36] StorageConfig *)
Inductive t := Memory | Sqlite (path : PathBuf).
End StorageConfig.

(** [ersha-dispatch/src/config.rs:38-44] PrimeConfig *)
Record PrimeConfig := mkPrimeConfig { rpc_addr : string; upload_interval_secs : Z }.

Module EdgeConfig.
(** [ersha-dispatch/src/config.rs:46-60] EdgeConfig *)
Inductive t :=
  | Mock (reading_interval_secs status_interval_secs device_count : Z)
  | Tcp (addr : SocketAddr).
End EdgeConfig.

(** [ersha-dispatch/src/config.rs:7-15] Config *)
Record Config := mkConfig {
  dispatcher : DispatcherConfig;
  server : ServerConfig;
  storage : StorageConfig.t;
  prime : PrimeConfig;
  edge : EdgeConfig.t;
  tls : TlsConfig
}.

(** [ersha-dispatch/src/config.rs:70-93] Config::default *)
Definition default : Config :=
  mkConfig (mkDispatcherConfig "01JJNQ1KQCNZ8X9PQRV5ABCD12" 0x8a529b4c8daffff)
    (mkServerConfig "0.0.0.0:8081") StorageConfig.Memory (mkPrimeConfig "127.0.0.1:9000" 60)
    (EdgeConfig.Mock 5 30 100) client_default.

(** [ersha-dispatch/src/config.rs:62-68] Config::load: [content] is what [read_to_string] returns *)
Definition load `{!Toml Config} (content : option string) : result Config StartError :=
  let? content := ok_or content Unreadable in
  ok_or (toml_from_str content) InvalidConfig.
End DispatchConfig.

(** ** ersha-prime *)

Module PrimeConfig.
(** [ersha-prime/src/config.rs:15-21] ServerConfig *)
Record ServerConfig := mkServerConfig { rpc_addr : SocketAddr; http_addr : SocketAddr }.

Module RegistryConfig.
(** [ersha-prime/src/config.rs:23-29] RegistryConfig *)
Inductive t := Memory | Sqlite (path : PathBuf) | Clickhouse (url database : string).
End RegistryConfig.

(** [ersha-prime/src/config.rs:8-13] Config *)
Record Config := mkConfig { server : ServerConfig; registry : RegistryConfig.t; tls : TlsConfig }.

(** [ersha-prime/src/config.rs:39-50] Config::default *)
Definition default : Config :=
  mkConfig (mkServerConfig "0.0.0.0:9000" "0.0.0.0:8080") RegistryConfig.Memory server_default.

(** [ersha-prime/src/config.rs:31-37] Config::load *)
Definition load `{!Toml Config} (content : option string) : result Config StartError :=
  let? content := ok_or content Unreadable in
  ok_or (toml_from_str content) InvalidConfig.
End PrimeConfig.

(** A file that does not exist is [None]; what reading it gives is the option inside. *)
Definition load_or_default {C} (load : option string -> result C StartError) (default : C)
    (file : option (option string)) : result C StartError :=
  match file with Some content => load content | None => Ok default end.

Section mains.
Context `{!UlidText} `{!Toml DispatchConfig.Config} `{!Toml PrimeConfig.Config}.

(** What [run_dispatcher] is called with. *)
Record Launch (S : Type) := mkLaunch {
  la_config : DispatchConfig.Config;
  la_storage : S;
  la_dispatcher_id : DispatcherId;
  la_location : H3Cell
}.

(** [ersha-dispatch/src/main.rs:49-86] main: from the configuration file to run_dispatcher; [memory] is
    [MemoryStorage::default()] and [sqlite] is [SqliteStorage::new], which may fail *)
Definition dispatch_main {S : Type} (memory : S) (sqlite : PathBuf -> option S) (file : option (option string)) :
    result (Launch S) StartError :=
  let? config := load_or_default DispatchConfig.load DispatchConfig.default file in
  let id := DispatchConfig.dc_id (DispatchConfig.dispatcher config) in
  let? ulid := ok_or (ulid_from_str id) (InvalidDispatcherId id) in
  let location := mkH3Cell (DispatchConfig.dc_location (DispatchConfig.dispatcher config)) in
  let? storage := match DispatchConfig.storage config with
                  | DispatchConfig.StorageConfig.Memory => Ok memory
                  | DispatchConfig.StorageConfig.Sqlite path => ok_or (sqlite path) StorageFailed
                  end in
  Ok (mkLaunch S config storage (mkDispatcherId ulid) location).

(** [ersha-prime/src/main.rs:79-147] main: the registries run_server is called with; [sqlite] and
    [clickhouse] open one registry of each kind *)
Definition prime_main {R : Type} (memory : R) (sqlite : PathBuf -> option R) (clickhouse : string -> string -> option R)
    (file : option (option string)) : result (PrimeConfig.Config * R) StartError :=
  let? config := load_or_default PrimeConfig.load PrimeConfig.default file in
  let? registries := match PrimeConfig.registry config with
                     | PrimeConfig.RegistryConfig.Memory => Ok memory
                     | PrimeConfig.RegistryConfig.Sqlite path => ok_or (sqlite path) StorageFailed
                     | PrimeConfig.RegistryConfig.Clickhouse url database =>
                         ok_or (clickhouse url database) StorageFailed
                     end in
  Ok (config, registries).
End mains.

(** ** The life of a dispatcher process *)

(** [select!] on the HTTP server and Ctrl+C, the two joins, and the end. *)
Inductive MainPhase := Selecting | JoiningCollector | JoiningUploader | Exited.
(** [select!], storing an item, and the end. *)
Inductive CollectorPhase := CollectorIdle | Storing (data : EdgeData) | CollectorStopped.
(** [select!], the body of the tick branch, the sleep in it, the end, and a panic. *)
Inductive UploaderPhase := UploaderIdle | Ticking | Sleeping | UploaderStopped | UploaderPanicked.

(** [ersha-dispatch/src/main.rs:167-248] run_edge_receiver: the cancellation token, the three tasks, the
    channel of edge data and what the collector has handled of it *)
Record Proc := mkProc {
  pr_cancelled : bool;
  pr_main : MainPhase;
  pr_collector : CollectorPhase;
  pr_uploader : UploaderPhase;
  pr_channel : list EdgeData;
  pr_collected : list EdgeData
}.

Inductive ProcEvent :=
  | Arrives (data : EdgeData)        (* the edge receiver sends *)
  | CollectorReceives                (* its [select!] takes the [recv] branch *)
  | CollectorStored
  | CollectorSeesCancel
  | UploaderTicks                    (* its [select!] takes the [tick] branch *)
  | TickEnds
  | ConnectFails                     (* the tick goes on to sleep *)
  | SleepEnds
  | UploaderSeesCancel
  | CtrlC
  | HttpServerEnds
  | MainResumes.                     (* the task it joins has ended *)

Definition with_main p s :=
  mkProc (pr_cancelled s) p (pr_collector s) (pr_uploader s) (pr_channel s) (pr_collected s).
Definition with_collector p s :=
  mkProc (pr_cancelled s) (pr_main s) p (pr_uploader s) (pr_channel s) (pr_collected s).
Definition with_uploader p s :=
  mkProc (pr_cancelled s) (pr_main s) (pr_collector s) p (pr_channel s) (pr_collected s).

(** [ersha-dispatch/src/main.rs:181-217] run_edge_receiver: the tasks it spawns; the uploader panics at
    once when its interval has no length ([tokio::time::interval]) *)
Definition proc_start (upload_interval_secs : Z) : Proc :=
  mkProc false Selecting CollectorIdle (if Z.eqb upload_interval_secs 0 then UploaderPanicked else UploaderIdle) [] [].

(** [ersha-dispatch/src/main.rs:263-340] run_data_collector: its [select!] and what a branch leads to *)
Definition collector_step (e : ProcEvent) (s : Proc) : Proc :=
  match e, pr_collector s with
  | CollectorReceives, CollectorIdle =>
      match pr_channel s with
      | [] => s
      | data :: rest => mkProc (pr_cancelled s) (pr_main s) (Storing data) (pr_uploader s) rest (pr_collected s)
      end
  | CollectorStored, Storing data =>
      mkProc (pr_cancelled s) (pr_main s) CollectorIdle (pr_uploader s) (pr_channel s) (pr_collected s ++ [data])
  | CollectorSeesCancel, CollectorIdle => if pr_cancelled s then with_collector CollectorStopped s else s
  | _, _ => s
  end.

(** [ersha-dispatch/src/main.rs:369-507] run_uploader: its [select!] and the ends of the tick branch *)
Definition uploader_step (e : ProcEvent) (s : Proc) : Proc :=
  match e, pr_uploader s with
  | UploaderTicks, UploaderIdle => with_uploader Ticking s
  | TickEnds, Ticking => with_uploader UploaderIdle s
  | ConnectFails, Ticking => with_uploader Sleeping s
  | SleepEnds, Sleeping => with_uploader UploaderIdle s
  | UploaderSeesCancel, UploaderIdle => if pr_cancelled s then with_uploader UploaderStopped s else s
  | _, _ => s
  end.

(** [ersha-dispatch/src/main.rs:227-248] run_edge_receiver: the [select!] and the two joins *)
Definition main_step (e : ProcEvent) (s : Proc) : Proc :=
  match e, pr_main s with
  | CtrlC, Selecting =>
      mkProc true JoiningCollector (pr_collector s) (pr_uploader s) (pr_channel s) (pr_collected s)
  | HttpServerEnds, Selecting => with_main JoiningCollector s
  | MainResumes, JoiningCollector =>
      match pr_collector s with CollectorStopped => with_main JoiningUploader s | _ => s end
  | MainResumes, JoiningUploader =>
      match pr_uploader s with UploaderStopped | UploaderPanicked => with_main Exited s | _ => s end
  | _, _ => s
  end.

(** [ersha-dispatch/src/main.rs:167-248] run_edge_receiver: one step of the process, which takes none
    after it has exited *)
Definition proc_step (s : Proc) (e : ProcEvent) : Proc :=
  match pr_main s with
  | Exited => s
  | _ =>
      match e with
      | Arrives data =>
          mkProc (pr_cancelled s) (pr_main s) (pr_collector s) (pr_uploader s) (pr_channel s ++ [data]) (pr_collected s)
      | CollectorReceives | CollectorStored | CollectorSeesCancel => collector_step e s
      | UploaderTicks | TickEnds | ConnectFails | SleepEnds | UploaderSeesCancel => uploader_step e s
      | CtrlC | HttpServerEnds | MainResumes => main_step e s
      end
  end.

Definition proc_run (es : list ProcEvent) (s : Proc) : Proc := foldl proc_step s es.

(** ** Properties of the process *)

Definition in_hand (s : Proc) : list EdgeData :=
  match pr_collector s with Storing data => [data] | _ => [] end.

(** What arrived so far, by where it is. *)
Definition accounted (s : Proc) : list EdgeData := pr_collected s ++ in_hand s ++ pr_channel s.

Definition arrival (s : Proc) (e : ProcEvent) : list EdgeData :=
  match e, pr_main s with
  | Arrives _, Exited => []
  | Arrives data, _ => [data]
  | _, _ => []
  end.

(** The data that arrived in a run, before the process exited. *)
Fixpoint arrivals (es : list ProcEvent) (s : Proc) : list EdgeData :=
  match es with [] => [] | e :: es => arrival s e ++ arrivals es (proc_step s e) end.

Ltac step_cases s e :=
  destruct s as [can main col upl chan done_]; unfold proc_step, collector_step, uploader_step, main_step,
    accounted, in_hand, arrival, with_main, with_collector, with_uploader in *;
  destruct main, e; cbn in *; repeat case_match; cbn in *; simplify_eq.

Lemma proc_step_accounted s e : accounted (proc_step s e) = accounted s ++ arrival s e.
Proof. step_cases s e; rewrite ?app_nil_r; try done; by rewrite <- ?(assoc_L (++)). Qed.

Lemma proc_run_accounted es s : accounted (proc_run es s) = accounted s ++ arrivals es s.
Proof.
  revert s. induction es as [|e es IH]; intros s; cbn [arrivals]; [by rewrite app_nil_r|].
  unfold proc_run in *. cbn [foldl]. by rewrite IH, proc_step_accounted, (assoc_L (++)).
Qed.

(** The main task exits only after a cancellation and after both tasks have ended. *)
Definition proc_inv (s : Proc) : Prop :=
  (pr_main s = Selecting -> pr_cancelled s = false) /\
  (pr_collector s = CollectorStopped -> pr_cancelled s = true) /\
  (pr_uploader s = UploaderStopped -> pr_cancelled s = true) /\
  (pr_main s = JoiningUploader -> pr_collector s = CollectorStopped) /\
  (pr_main s = Exited -> pr_collector s = CollectorStopped /\
     (pr_uploader s = UploaderStopped \/ pr_uploader s = UploaderPanicked)).

Lemma proc_step_inv s e : proc_inv s -> proc_inv (proc_step s e).
Proof. unfold proc_inv. intros Hinv. step_cases s e; naive_solver. Qed.

Lemma proc_run_inv es s : proc_inv s -> proc_inv (proc_run es s).
Proof. revert s. induction es as [|e es IH]; intros s Hs; [done|]. by apply IH, proc_step_inv. Qed.

Lemma proc_start_inv secs : proc_inv (proc_start secs).
Proof. unfold proc_inv, proc_start. cbn. case_match; naive_solver. Qed.

(** Only an interval of no length panics. *)
Lemma proc_run_panicked secs es : pr_uploader (proc_run es (proc_start secs)) = UploaderPanicked -> secs = 0.
Proof.
  destruct (Z.eqb_spec secs 0) as [|Hne]; [done|]. intros Hp. exfalso. revert Hp.
  assert (pr_uploader (proc_start secs) <> UploaderPanicked) as Hs
    by (cbn; by rewrite (proj2 (Z.eqb_neq _ _) Hne)).
  revert Hs. generalize (proc_start secs). induction es as [|e es IH]; intros s Hs; [done|].
  apply IH. clear IH. step_cases s e; done.
Qed.

(** The steps that bring a cancelled process to its end. *)
Definition collector_ends (s : Proc) : list ProcEvent :=
  match pr_collector s with
  | CollectorIdle => [CollectorSeesCancel]
  | Storing _ => [CollectorStored; CollectorSeesCancel]
  | CollectorStopped => []
  end.
Definition uploader_ends (s : Proc) : list ProcEvent :=
  match pr_uploader s with
  | UploaderIdle => [UploaderSeesCancel]
  | Ticking => [TickEnds; UploaderSeesCancel]
  | Sleeping => [SleepEnds; UploaderSeesCancel]
  | UploaderStopped | UploaderPanicked => []
  end.
Definition shutdown (s : Proc) : list ProcEvent := collector_ends s ++ uploader_ends s ++ [MainResumes; MainResumes].

Lemma shutdown_exits s : pr_cancelled s = true -> proc_inv s -> pr_main (proc_run (shutdown s) s) = Exited.
Proof.
  destruct s as [can main col upl chan done_]. cbn. intros ->. unfold proc_inv. cbn.
  intros (Hsel & _ & _ & Hju & Hex). destruct main.
  - by discriminate Hsel.
  - by destruct col, upl.
  - rewrite Hju by done. by destruct upl.
  - by destruct Hex as [-> [-> | ->]].
Qed.

(** Without a cancellation a process that no longer selects never exits. *)
Lemma proc_stuck es s : pr_cancelled s = false -> pr_main s <> Selecting -> pr_main s <> Exited ->
  proc_inv s -> pr_main (proc_run es s) <> Exited.
Proof.
  revert s. induction es as [|e es IH]; intros s Hc Hs Hx Hinv; [done|].
  apply IH; [| | |by apply proc_step_inv]; destruct Hinv as (_ & Hcol & _ & Hju & _);
    clear IH; step_cases s e; naive_solver.
Qed.


(** ** The life of the prime process *)

Section prime_process.
Context {S : Type} (h : ServerHandlers S).

(** [ersha-prime/src/main.rs:176-178] run_server: the RPC server and its cancellation token, and whether
    run_server has returned, which ends the process *)
Record PrimeProc := mkPrimeProc { pp_serve : Serve S; pp_exited : bool }.

Inductive PrimeProcEvent :=
  | Rpc (e : ServeEvent)          (* of the accept loop or a connection *)
  | RpcServerEnds                 (* the select takes the branch of [serve] *)
  | HttpServerReturns             (* the branch of [axum::serve] *)
  | PrimeCtrlC.                   (* the branch of the signal *)

(** [ersha-prime/src/main.rs:367-387] run_server: its [select!]; only the branch of the signal cancels the
    token *)
Definition prime_step (p : PrimeProc) (e : PrimeProcEvent) : PrimeProc :=
  if pp_exited p then p
  else
    match e with
    | Rpc CancelRequested => p
    | Rpc e => mkPrimeProc (serve_step h (pp_serve p) e) false
    | RpcServerEnds => if sv_listening (pp_serve p) then p else mkPrimeProc (pp_serve p) true
    | HttpServerReturns => mkPrimeProc (pp_serve p) true
    | PrimeCtrlC => mkPrimeProc (serve_step h (pp_serve p) CancelRequested) true
    end.

Definition prime_run (es : list PrimeProcEvent) (p : PrimeProc) : PrimeProc := foldl prime_step p es.

(** The events of the RPC server before the first signal and the first end of the HTTP server. *)
Fixpoint before_end (es : list PrimeProcEvent) : list ServeEvent :=
  match es with
  | [] | HttpServerReturns :: _ | PrimeCtrlC :: _ => []
  | Rpc CancelRequested :: es | RpcServerEnds :: es => before_end es
  | Rpc e :: es => e :: before_end es
  end.

Definition ends (e : PrimeProcEvent) : bool :=
  match e with HttpServerReturns | PrimeCtrlC => true | _ => false end.

Lemma prime_run_exited es p : pp_exited p = true -> prime_run es p = p.
Proof.
  revert p. induction es as [|e es IH]; intros p Hp; [done|]. unfold prime_run in *. cbn [foldl].
  unfold prime_step at 2. rewrite Hp. by apply IH.
Qed.

(** A server whose token is not cancelled goes on listening. *)
Lemma serve_step_listens s e : e <> CancelRequested -> sv_listening s = true -> sv_cancelled s = false ->
  sv_listening (serve_step h s e) = true /\ sv_cancelled (serve_step h s e) = false.
Proof.
  intros He Hl Hc. destruct e; cbn [serve_step]; unfold on_handshake, on_received; rewrite ?Hl, ?Hc; try done;
    repeat case_match; try done.
Qed.

Lemma prime_run_before es s : sv_listening s = true -> sv_cancelled s = false ->
  let p := prime_run es (mkPrimeProc s false) in
  let s' := foldl (serve_step h) s (before_end es) in
  sv_state (pp_serve p) = sv_state s' /\ sv_sent (pp_serve p) = sv_sent s' /\ sv_tasks (pp_serve p) = sv_tasks s' /\
  sv_listening (pp_serve p) = true /\ (sv_cancelled (pp_serve p) = true -> pp_exited p = true) /\
  pp_exited p = existsb ends es.
Proof.
  unfold prime_run. revert s. induction es as [|e es IH]; intros s Hl Hc; cbn [foldl before_end existsb].
  { cbn. split_and!; try done. congruence. }
  destruct e as [e| | |].
  - assert (e = CancelRequested \/ e <> CancelRequested) as [->|He] by (destruct e; by auto); [by apply IH|].
    destruct (serve_step_listens s e He Hl Hc) as [Hl' Hc']. destruct e; try done; by apply IH.
  - replace (prime_step (mkPrimeProc s false) RpcServerEnds) with (mkPrimeProc s false) by (unfold prime_step; cbn; by rewrite Hl).
    by apply IH.
  - change (foldl prime_step ?p es) with (prime_run es p). rewrite prime_run_exited by done. cbn. by rewrite Hl.
  - change (foldl prime_step ?p es) with (prime_run es p). rewrite prime_run_exited by done. cbn. by rewrite Hl.
Qed.

(** The prime process ends exactly at the first Ctrl+C or end of its HTTP server, whichever comes first,
    with the RPC server still listening: the branch of the [select!] in which the RPC server shuts down
    is never taken. What it has handled by then is what the RPC server handles of the events before,
    and nothing is handled after; the token is cancelled in an ended process only, so no part of the
    process ever acts on it. *)
Theorem prime_shutdown es init :
  let p := prime_run es (mkPrimeProc (serve_start init) false) in
  let s := serve h (before_end es) init in
  pp_exited p = existsb ends es /\ sv_listening (pp_serve p) = true /\
  prime_step p RpcServerEnds = p /\
  sv_state (pp_serve p) = sv_state s /\ sv_sent (pp_serve p) = sv_sent s /\
  (sv_cancelled (pp_serve p) = true -> forall es', prime_run es' p = p).
Proof.
  intros p s. destruct (prime_run_before es (serve_start init) eq_refl eq_refl) as (Hst & Hse & _ & Hl & Hc & Hx).
  fold p in Hst, Hse, Hl, Hc, Hx. split_and!; [done|done| |done|done|].
  - unfold prime_step. rewrite Hl. by destruct (pp_exited p).
  - intros Hcan es'. by apply prime_run_exited, Hc.
Qed.
End prime_process.

(** Without configuration files the two servers fit together: the dispatcher starts with in-memory
    storage and an identifier that parses, calls ersha-prime's RPC port, registers its 100 mock
    devices at ersha-prime's HTTP port, which it guesses from the RPC address, and trusts the root
    that ersha-prime trusts. *)
Theorem defaults_fit {S : Type} (memory : S) (sqlite : PathBuf -> option S)
    `{!Toml DispatchConfig.Config} `{!Toml PrimeConfig.Config} {R : Type} (registries : R) open_sqlite open_clickhouse :
  exists launch prime_config,
    @dispatch_main ulid_crockford _ S memory sqlite None = Ok launch /\
    @prime_main _ R registries open_sqlite open_clickhouse None = Ok (prime_config, registries) /\
    la_storage S launch = memory /\ u128 (dispatcher_ulid (la_dispatcher_id S launch)) /\
    u64 (h3_cell (la_location S launch)) /\
    (exists port, DispatchConfig.rpc_addr (DispatchConfig.prime (la_config S launch)) = "127.0.0.1" +:+ port /\
       PrimeConfig.rpc_addr (PrimeConfig.server prime_config) = "0.0.0.0" +:+ port) /\
    (exists port, PrimeConfig.http_addr (PrimeConfig.server prime_config) = "0.0.0.0" +:+ port /\
       prime_http_url (DispatchConfig.rpc_addr (DispatchConfig.prime (la_config S launch))) = "http://127.0.0.1" +:+ port) /\
    tls_root_ca (DispatchConfig.tls (la_config S launch)) = tls_root_ca (PrimeConfig.tls prime_config) /\
    tls_domain (DispatchConfig.tls (la_config S launch)) = "localhost"%string.
Proof.
  destruct (@ulid_from_str ulid_crockford "01JJNQ1KQCNZ8X9PQRV5ABCD12") as [u|] eqn:Hid;
    [|vm_compute in Hid; discriminate].
  unfold dispatch_main, prime_main. cbn [load_or_default DispatchConfig.default DispatchConfig.dispatcher
    DispatchConfig.dc_id DispatchConfig.storage PrimeConfig.default PrimeConfig.registry].
  rewrite Hid. eexists _, _. split; [reflexivity|]. split; [reflexivity|]. split; [done|].
  split; [cbn; vm_compute in Hid; injection Hid as <-; split; [discriminate|reflexivity]|].
  split; [split; [discriminate|reflexivity]|].
  split; [by exists ":9000"%string|]. split; [by exists ":8080"%string|]. done.
Qed.

(** ** Witness *)

