(* ===== verification/Harness.v ===== *)
(** * The load-test harness: ersha-dispatchers-harness/src/main.rs

    It spreads dispatchers over a grid, writes a configuration file for each and starts one process
    per file.  The file system, the processes and the crates h3o and toml are parameters; what is
    computed in [f64] is computed here.  The theorems follow a written file into the [main] of
    ersha-dispatch (Startup). *)
From Stdlib Require Import ZArith Lia Bool Strings.String Strings.Ascii Floats.SpecFloat.
From stdpp Require Import base gmap strings list pretty.
From S2P Require Import Prelude Platform Core Samples Tls EdgeMock Startup.
Open Scope Z_scope.

(** ** Floating point *)

Definition f64_sub (x y : f64) : f64 := SFsub 53 1024 x y.
Definition f64_mul (x y : f64) : f64 := SFmul 53 1024 x y.
Definition f64_sqrt (x : f64) : f64 := SFsqrt 53 1024 x.

(** The integer above a finite value, and the value it has as a float. *)
Definition f64_ceil_z (s : bool) (m : positive) (e : Z) : Z :=
  let v := if s then Zneg m else Zpos m in
  if Z.leb 0 e then v * 2 ^ e else - (- v / 2 ^ (- e)).
Definition f64_ceil (x : f64) : f64 :=
  match x with S754_finite s m e => binary_normalize 53 1024 (f64_ceil_z s m e) 0 s | _ => x end.

(** [x as usize]: truncation towards zero that saturates, and 0 for NaN. *)
Definition f64_as_usize (x : f64) : Z :=
  match x with
  | S754_nan | S754_zero _ => 0
  | S754_infinity s => if s then 0 else 2 ^ 64 - 1
  | S754_finite s m e =>
      if s then 0 else Z.min (2 ^ 64 - 1) (if Z.leb 0 e then Zpos m * 2 ^ e else Zpos m / 2 ^ (- e))
  end.

Definition f64_finite (x : f64) : bool :=
  match x with S754_zero _ | S754_finite _ _ _ => true | _ => false end.

(** A literal with one decimal, in tenths. *)
Definition tenths (z : Z) : f64 := f64_div (f64_of_int z) (f64_of_int 10).

(** ** The configuration *)

(** [ersha-dispatchers-harness/src/main.rs:19-30] HarnessConfig *)
Record HarnessConfig := mkHarnessConfig {
  dispatcher_count : Z;
  devices_per_dispatcher : Z;
  reading_interval_secs : Z;
  status_interval_secs : Z;
  hc_upload_interval_secs : Z;
  base_http_port : Z;
  ersha_dispatch_bin : string;
  prime_rpc_addr : string;
  hc_tls : TlsConfig
}.

(** [ersha-dispatchers-harness/src/main.rs:40-46] HarnessConfig::load *)
Definition load `{!Toml HarnessConfig} (content : option string) : result HarnessConfig StartError :=
  let? content := ok_or content Unreadable in
  ok_or (toml_from_str content) InvalidConfig.

(** ** Paths *)

(** [Path::is_absolute] and [Path::join] of Unix; [cwd] has no separator at its end. *)
Definition is_absolute (p : string) : bool :=
  match p with String c _ => Ascii.eqb c "/" | EmptyString => false end.
Definition path_join (cwd p : string) : string := if is_absolute p then p else cwd +:+ "/" +:+ p.

(** [ersha-dispatchers-harness/src/main.rs:56-76] resolve_dispatch_bin; [exists_] is [Path::exists] *)
Definition resolve_dispatch_bin (exists_ : string -> bool) (cwd bin : string) : string :=
  if is_absolute bin && exists_ bin then bin
  else
    let relative := path_join cwd bin in
    if exists_ relative then relative
    else
      match filter (fun p => exists_ p = true)
              ((fun profile => cwd +:+ "/target/" +:+ profile +:+ "/ersha-dispatch") <$> ["debug"; "release"]%string) with
      | candidate :: _ => candidate
      | [] => bin
      end.

(** [ersha-dispatchers-harness/src/main.rs:223-228] main: the TLS paths *)
Definition abs_tls (cwd : string) (tls : TlsConfig) : TlsConfig :=
  mkTlsConfig (path_join cwd (tls_cert tls)) (path_join cwd (tls_key tls)) (path_join cwd (tls_root_ca tls))
    (tls_domain tls).

(** ** Locations *)

(** [ersha-dispatchers-harness/src/main.rs:80-83] generate_dispatcher_locations: the bounds *)
Definition lat_min : f64 := tenths 34.
Definition lat_max : f64 := tenths 149.
Definition lng_min : f64 := tenths 330.
Definition lng_max : f64 := tenths 480.

(** [ersha-dispatchers-harness/src/main.rs:85-87] generate_dispatcher_locations: rows, and columns *)
Definition oversample (count : Z) : Z :=
  f64_as_usize (f64_ceil (f64_sqrt (f64_mul (f64_of_int count) (tenths 15)))).

(** [ersha-dispatchers-harness/src/main.rs:89-98] generate_dispatcher_locations: the [i]-th of [n] steps
    between two bounds *)
Definition grid_line (lo hi : f64) (n i : Z) : f64 :=
  let step := f64_div (f64_sub hi lo) (f64_of_int n) in
  f64_add lo (f64_mul (f64_add (f64_of_int i) (tenths 5)) step).

(** The pairs of the two nested loops, in their order. *)
Definition grid (n : Z) : list (Z * Z) :=
  r ← z_range 0 (Z.to_nat n); (fun c => (r, c)) <$> z_range 0 (Z.to_nat n).

Section locations.
Context `{!H3}.

(** [ersha-dispatchers-harness/src/main.rs:97-102] generate_dispatcher_locations: the cell of a point;
    [None] is a panic *)
Definition grid_cell (n : Z) (rc : Z * Z) : option Z :=
  let lat := grid_line lat_min lat_max n (fst rc) in
  let lng := grid_line lng_min lng_max n (snd rc) in
  to_cell_ten <$> latlng_new lat lng.

(** [ersha-dispatchers-harness/src/main.rs:95-115] generate_dispatcher_locations: the loops *)
Fixpoint locate (n count : Z) (points : list (Z * Z)) (seen : gset Z) (cells : list Z) : option (list Z) :=
  match points with
  | [] => Some cells
  | rc :: points =>
      cell ← grid_cell n rc;
      if decide (cell ∈ seen) then locate n count points seen cells
      else
        let seen := {[cell]} ∪ seen in
        let cells := cells ++ [cell] in
        if Z.eqb (Z.of_nat (length cells)) count then Some cells else locate n count points seen cells
  end.

(** [ersha-dispatchers-harness/src/main.rs:79-118] generate_dispatcher_locations; [None] is a panic *)
Definition generate_dispatcher_locations (count : Z) : option (list Z) :=
  locate (oversample count) count (grid (oversample count)) ∅ [].
End locations.

(** ** The file of a dispatcher *)

Definition hex_char (d : Z) : ascii := ascii_of_nat (Z.to_nat (if Z.ltb d 10 then 48 + d else 87 + d)).
Definition hex_value (c : ascii) : Z :=
  let n := Z.of_nat (nat_of_ascii c) in if Z.ltb n 58 then n - 48 else n - 87.

(** The last [k] hexadecimal digits of a number. *)
Fixpoint hex_digits (k : nat) (z : Z) : string :=
  match k with
  | O => EmptyString
  | S k => hex_digits k (z / 16) +:+ String (hex_char (z mod 16)) EmptyString
  end.

(** The number a text of digits stands for, after [acc]. *)
Fixpoint hex_number (s : string) (acc : Z) : Z :=
  match s with EmptyString => acc | String c s => hex_number s (16 * acc + hex_value c) end.

Definition dq : string := String (ascii_of_nat 34) EmptyString.
Definition newline : string := String (ascii_of_nat 10) EmptyString.
Definition quoted (s : string) : string := dq +:+ s +:+ dq.
Definition unlines (l : list string) : string := foldr (fun s t => s +:+ newline +:+ t) EmptyString l.

(** [ersha-dispatchers-harness/src/main.rs:130-165] write_dispatcher_config: what it writes *)
Definition dispatcher_toml (dispatcher_id : string) (location http_port : Z) (config : HarnessConfig)
    (tls : TlsConfig) : string :=
  unlines [
    "[dispatcher]";
    "id = " +:+ quoted dispatcher_id;
    "location = 0x" +:+ hex_digits 16 location;
    "";
    "[server]";
    "http_addr = " +:+ quoted ("0.0.0.0:" +:+ pretty http_port);
    "";
    "[storage]";
    "type = " +:+ quoted "memory";
    "";
    "[prime]";
    "rpc_addr = " +:+ quoted (prime_rpc_addr config);
    "upload_interval_secs = " +:+ pretty (hc_upload_interval_secs config);
    "";
    "[edge]";
    "type = " +:+ quoted "mock";
    "reading_interval_secs = " +:+ pretty (reading_interval_secs config);
    "status_interval_secs = " +:+ pretty (status_interval_secs config);
    "device_count = " +:+ pretty (devices_per_dispatcher config);
    "";
    "[tls]";
    "cert = " +:+ quoted (tls_cert tls);
    "key = " +:+ quoted (tls_key tls);
    "root_ca = " +:+ quoted (tls_root_ca tls);
    "domain = " +:+ quoted (tls_domain tls)
  ]%string.

(** [ersha-dispatchers-harness/src/main.rs:130-130] write_dispatcher_config: the path of its file *)
Definition config_path (dir : string) (i : Z) : string := dir +:+ "/dispatcher-" +:+ pretty i +:+ ".toml".

(** ** The processes *)

(** [base + i as u16]: with overflow checks a panic, [None]. *)
Definition add_u16 (checks : bool) (a b : Z) : option Z :=
  if decide (a + b < 2 ^ 16) then Some (a + b) else if checks then None else Some (as_u16 (a + b)).

Inductive HarnessError :=
  | NoConfig                       (* "Configuration file not found" *)
  | BadConfig (e : StartError)
  | DirectoryFailed                (* [remove_dir_all], [create_dir_all] *)
  | WriteFailed
  | Panicked.

(** The configuration files, and the children by index and file; [h_ids] identifiers have been drawn. *)
Record Harness := mkHarness {
  h_ids : nat;
  h_files : gmap string string;
  h_children : list (Z * string)
}.

Section harness.
Context `{!H3} `{!UlidText} `{!UlidGen} `{!Toml HarnessConfig}.
Context (checks : bool) (write_ok : string -> bool) (spawn_ok : string -> bool).

(** [ersha-dispatchers-harness/src/main.rs:253-276] main: the loop over the locations, from index [i] *)
Fixpoint launch_all (config : HarnessConfig) (tls : TlsConfig) (dir : string) (i : Z) (locations : list Z)
    (h : Harness) : Harness * option HarnessError :=
  match locations with
  | [] => (h, None)
  | location :: locations =>
      let dispatcher_id := ulid_to_string (ulid_new (h_ids h)) in
      match add_u16 checks (base_http_port config) (as_u16 i) with
      | None => (mkHarness (S (h_ids h)) (h_files h) (h_children h), Some Panicked)
      | Some http_port =>
          let path := config_path dir i in
          if write_ok path then
            let content := dispatcher_toml dispatcher_id location http_port config tls in
            launch_all config tls dir (i + 1) locations
              (mkHarness (S (h_ids h)) (<[path := content]> (h_files h))
                 (h_children h ++ (if spawn_ok path then [(i, path)] else [])))
          else (mkHarness (S (h_ids h)) (h_files h) (h_children h), Some WriteFailed)
      end
  end.

(** [ersha-dispatchers-harness/src/main.rs:202-282] main, until it waits for Ctrl+C; [dir_ok] says that
    the directory could be made anew *)
Definition harness_main (cwd dir : string) (dir_ok : bool) (file : option (option string)) (n : nat) :
    Harness * option HarnessError :=
  match file with
  | None => (mkHarness n ∅ [], Some NoConfig)
  | Some content =>
      match load content with
      | Err e => (mkHarness n ∅ [], Some (BadConfig e))
      | Ok config =>
          match generate_dispatcher_locations (dispatcher_count config) with
          | None => (mkHarness n ∅ [], Some Panicked)
          | Some locations =>
              if dir_ok then
                launch_all config (abs_tls cwd (hc_tls config)) dir 0 locations (mkHarness n ∅ [])
              else (mkHarness n ∅ [], Some DirectoryFailed)
          end
      end
  end.

(** [ersha-dispatchers-harness/src/main.rs:284-302] main: after Ctrl+C; a child that [kill] fails to stop
    is killed when it is dropped, at the end of [main] *)
Definition harness_shutdown (removed : bool) (h : Harness) : Harness :=
  mkHarness (h_ids h) (if removed then ∅ else h_files h) [].
End harness.

(** ** The grid *)

Lemma length_grid n : 0 <= n -> Z.of_nat (length (grid n)) = n * n.
Proof.
  intros Hn. unfold grid. assert (forall l : list Z,
    length (r ← l; (fun c => (r, c)) <$> z_range 0 (Z.to_nat n)) = (length l * Z.to_nat n)%nat) as Hl.
  { unfold z_range. induction l as [|r l IH]; [done|]. csimpl. rewrite length_app, IH, !length_fmap, length_seq. lia. }
  rewrite Hl. unfold z_range. rewrite length_fmap, length_seq. nia.
Qed.

Lemma elem_of_grid n r c : (r, c) ∈ grid n <-> 0 <= r < n /\ 0 <= c < n.
Proof.
  unfold grid. rewrite list_elem_of_bind. split.
  - intros (r' & Hin & Hr). apply list_elem_of_fmap in Hin as (c' & [= -> ->] & Hc).
    rewrite elem_of_z_range in Hc, Hr. lia.
  - intros [Hr Hc]. exists r. rewrite elem_of_z_range. split; [|lia]. apply list_elem_of_fmap. exists c.
    rewrite elem_of_z_range. split; [done|lia].
Qed.

(** Up to this many dispatchers the rows and columns are computed. *)
Definition most_dispatchers : Z := 1000.

(** Rows and columns are the square root of one and a half times the count, rounded up: the rounding of
    [f64] never shows. *)
Lemma oversample_exact count : 0 <= count <= most_dispatchers -> oversample count = Z.sqrt_up ((3 * count + 1) / 2).
Proof.
  intros Hc. apply Z.eqb_eq.
  apply (z_range_forallb (fun c => Z.eqb (oversample c) (Z.sqrt_up ((3 * c + 1) / 2))) 0 1001);
    [vm_compute; reflexivity|unfold most_dispatchers in Hc; lia].
Qed.

Lemma oversample_bounds count : 0 <= count <= most_dispatchers ->
  0 <= oversample count <= 39 /\ count <= oversample count * oversample count /\ (count = 0 <-> oversample count = 0).
Proof.
  intros Hc. rewrite oversample_exact by done. set (x := (3 * count + 1) / 2).
  assert (count <= x <= 1501 /\ (x = 0 <-> count = 0)) as [Hx Hz].
  { unfold most_dispatchers in Hc. split; [|split].
    - split; [apply Z.div_le_lower_bound; lia|apply Z.div_le_upper_bound; lia].
    - intros Hx. destruct (decide (count = 0)); [done|].
      assert (1 <= x) by (apply Z.div_le_lower_bound; lia). lia.
    - intros ->. reflexivity. }
  pose proof (Z.sqrt_up_nonneg x). pose proof (Z.sqrt_up_le_mono x 1501 ltac:(lia)).
  change (Z.sqrt_up 1501) with 39 in *. split; [lia|]. split.
  - destruct (decide (x = 0)) as [Hx0|Hx0]; [rewrite (proj1 Hz Hx0); apply Z.mul_nonneg_nonneg; lia|].
    pose proof (Z.sqrt_up_spec x ltac:(lia)). lia.
  - split; [intros ->; by rewrite (proj2 Hz)|]. intros Hs. apply Hz. destruct (Z.sqrt_up_pos x). lia.
Qed.

Lemma grid_line_finite n i : 0 <= i < n -> n <= 39 ->
  f64_finite (grid_line lat_min lat_max n i) = true /\ f64_finite (grid_line lng_min lng_max n i) = true.
Proof.
  intros Hi Hn. apply andb_prop.
  pose proof (z_range_forallb (fun n => forallb (fun i => f64_finite (grid_line lat_min lat_max n i) &&
    f64_finite (grid_line lng_min lng_max n i)) (z_range 0 (Z.to_nat n))) 1 39 n ltac:(vm_compute; reflexivity) ltac:(lia)) as Hf.
  cbv beta in Hf. rewrite forallb_forall in Hf. apply Hf, list_elem_of_In, elem_of_z_range. lia.
Qed.

(** [LatLng::new] refuses only what is not finite. *)
Class LatLngLaws `{H3} : Prop :=
  latlng_new_finite lat lng : f64_finite lat = true -> f64_finite lng = true -> is_Some (latlng_new lat lng).

Section locations_properties.
Context `{!H3} `{!LatLngLaws}.

Lemma grid_cells_exist n : 0 <= n <= 39 -> exists cells, grid_cell n <$> grid n = Some <$> cells.
Proof.
  intros Hn. assert (Forall (fun rc => is_Some (grid_cell n rc)) (grid n)) as Hf.
  { apply Forall_forall. intros [r c] [Hr Hc]%elem_of_grid. unfold grid_cell. rewrite fmap_is_Some. cbn.
    apply latlng_new_finite; apply (grid_line_finite n); lia. }
  induction Hf as [|rc l [cell Hcell] _ [cells IH]]; [by exists []|].
  exists (cell :: cells). csimpl. by rewrite Hcell, IH.
Qed.

(** The loops keep the first occurrences of the cells, up to the count. *)
Lemma locate_spec n count points pcells seen cells :
  grid_cell n <$> points = Some <$> pcells -> (forall x, x ∈ seen <-> x ∈ cells) -> NoDup cells ->
  Z.of_nat (length cells) <= count -> (Z.of_nat (length cells) = count -> points = []) ->
  exists new, locate n count points seen cells = Some (cells ++ new) /\ NoDup (cells ++ new) /\
    new `sublist_of` pcells /\ Z.of_nat (length (cells ++ new)) <= count /\
    (Z.of_nat (length (cells ++ new)) = count \/ forall x, x ∈ pcells -> x ∈ cells ++ new).
Proof.
  revert pcells seen cells. induction points as [|rc points IH]; intros pcells seen cells Hp Hseen Hnd Hlen Hfull.
  { destruct pcells; [|done]. exists []. rewrite app_nil_r. cbn. split_and!; try done. right. set_solver. }
  destruct pcells as [|p pcells]; [done|]. injection Hp as Hrc Hp. cbn [locate]. rewrite Hrc. cbn [mbind option_bind].
  destruct (decide (p ∈ seen)) as [Hin|Hnin].
  - apply Hseen in Hin. destruct (IH pcells seen cells) as (new & -> & ? & ? & ? & Hall); try done.
    { intros Heq. by specialize (Hfull Heq). }
    exists new. split_and!; try done; [by constructor|]. destruct Hall as [|Hall]; [by left|].
    right. intros x [->|Hx]%elem_of_cons; [set_solver|by apply Hall].
  - rewrite Hseen in Hnin. rewrite length_app. cbn [length].
    assert (Z.of_nat (length cells) <> count) as Hne by (intros Heq; by specialize (Hfull Heq)).
    assert (NoDup (cells ++ [p])) as Hnd'.
    { apply NoDup_app. split_and!; [done| |apply NoDup_singleton]. intros x Hx ->%list_elem_of_singleton. done. }
    case_match eqn:Hc.
    + apply Z.eqb_eq in Hc. exists [p]. rewrite !length_app. cbn [length]. split_and!; try done; [|lia|by left].
      constructor. apply sublist_nil_l.
    + apply Z.eqb_neq in Hc. destruct (IH pcells ({[p]} ∪ seen) (cells ++ [p])) as (new & -> & ? & ? & ? & Hall); try done.
      * set_solver.
      * rewrite length_app. cbn [length]. lia.
      * rewrite length_app. cbn [length]. intros. lia.
      * exists (p :: new). rewrite <- (assoc_L (++)) in *. cbn [app] in *. split_and!; try done; [by constructor|].
        destruct Hall as [|Hall]; [by left|]. right. intros x [->|Hx]%elem_of_cons; [set_solver|by apply Hall].
Qed.

(** The locations are different cells of the grid, no more than asked for, and as many as asked for if the
    points of the grid lie in different cells. *)
Lemma generate_dispatcher_locations_spec count : 0 <= count <= most_dispatchers ->
  exists locations cells, generate_dispatcher_locations count = Some locations /\
    grid_cell (oversample count) <$> grid (oversample count) = Some <$> cells /\
    NoDup locations /\ locations `sublist_of` cells /\ Z.of_nat (length locations) <= count /\
    (NoDup cells -> Z.of_nat (length locations) = count).
Proof.
  intros Hc. destruct (oversample_bounds count Hc) as (Hn & Hroom & Hz).
  destruct (grid_cells_exist (oversample count) ltac:(lia)) as [cells Hcells].
  destruct (locate_spec (oversample count) count (grid (oversample count)) cells ∅ [])
    as (new & Hloc & Hnd & Hsub & Hlen & Hall); [done|set_solver|..].
  - by constructor.
  - cbn. lia.
  - cbn. intros Hc0. by rewrite (proj1 Hz).
  - exists new, cells. cbn in *. split_and!; try done. intros Hndc. destruct Hall as [|Hall]; [done|].
    pose proof (submseteq_length _ _ (NoDup_submseteq cells new Hndc Hall)) as Hle.
    pose proof (f_equal length Hcells) as Hlc. rewrite !length_fmap in Hlc.
    pose proof (length_grid (oversample count) ltac:(lia)). lia.
Qed.
End locations_properties.

(** ** Launching *)

Lemma string_app_inj_l (s t u : string) : s +:+ u = t +:+ u -> s = t.
Proof.
  assert (forall s : string, length (list_ascii_of_string (s +:+ u)) =
    (length (list_ascii_of_string s) + length (list_ascii_of_string u))%nat) as Hlen.
  { intros r. induction r as [|c r IH]; [done|]. exact (f_equal S IH). }
  revert t. induction s as [|c s IH]; intros [|d t] Heq; try done.
  - apply (f_equal (fun r => length (list_ascii_of_string r))) in Heq. rewrite !Hlen in Heq. cbn in Heq. lia.
  - apply (f_equal (fun r => length (list_ascii_of_string r))) in Heq. rewrite !Hlen in Heq. cbn in Heq. lia.
  - injection Heq as -> Heq. f_equal. by apply IH.
Qed.

Lemma config_path_inj dir i j : config_path dir i = config_path dir j -> i = j.
Proof.
  unfold config_path. intros Heq. apply (inj (String.append dir)), (inj (String.append _)) in Heq.
  apply string_app_inj_l in Heq. by apply (inj pretty) in Heq.
Qed.

Lemma z_range_cons i n : z_range i (S n) = i :: z_range (i + 1) n.
Proof.
  unfold z_range. cbn. f_equal; [lia|]. rewrite <- fmap_S_seq, <- list_fmap_compose.
  apply list_fmap_ext. intros _ k _. cbn. lia.
Qed.

(** How many of the dispatchers get a port: all of them without overflow checks. *)
Definition ports_left (checks : bool) (base : Z) (i : Z) (n : nat) : nat :=
  if checks then Nat.min n (Z.to_nat (2 ^ 16 - base - i)) else n.

Lemma add_u16_spec checks base i : u16 base -> 0 <= i ->
  add_u16 checks base i = None /\ checks = true /\ 2 ^ 16 <= base + i \/
  add_u16 checks base i = Some (wrap 16 (base + i)) /\ (checks = true -> base + i < 2 ^ 16).
Proof.
  intros [Hb0 Hb1] Hi. unfold add_u16. case_decide as Hfit.
  - right. split; [|done]. rewrite wrap_small; [done|split; lia].
  - destruct checks; [left; split_and!; [done|done|lia]|by right].
Qed.

Lemma ports_left_S checks base i n : (checks = true -> base + i < 2 ^ 16) ->
  ports_left checks base i (S n) = S (ports_left checks base (i + 1) n).
Proof. unfold ports_left. destruct checks; [|done]. intros Hfit. specialize (Hfit eq_refl). lia. Qed.

Section launching.
Context `{!H3} `{!UlidText} `{!UlidGen} `{!Toml HarnessConfig} (checks : bool) (spawn_ok : string -> bool).

(** The children of the indices from [i] on. *)
Definition spawned (dir : string) (i : Z) (n : nat) : list (Z * string) :=
  (fun j => (j, config_path dir j)) <$> filter (fun j => spawn_ok (config_path dir j) = true) (z_range i n).

Lemma spawned_cons dir i n :
  spawned dir i (S n) = (if spawn_ok (config_path dir i) then [(i, config_path dir i)] else []) ++ spawned dir (i + 1) n.
Proof. unfold spawned. rewrite z_range_cons, filter_cons. repeat case_match; try done; congruence. Qed.

Lemma launch_all_spec config tls dir locations : u16 (base_http_port config) -> forall i h,
  0 <= i -> i + Z.of_nat (length locations) <= 2 ^ 16 ->
  let launched := ports_left checks (base_http_port config) i (length locations) in
  let (h', error) := launch_all checks (fun _ => true) spawn_ok config tls dir i locations h in
  error = (if Nat.eqb launched (length locations) then None else Some Panicked) /\
  h_children h' = h_children h ++ spawned dir i launched /\
  (forall k location, locations !! k = Some location -> (k < launched)%nat ->
     h_files h' !! config_path dir (i + Z.of_nat k) =
       Some (dispatcher_toml (ulid_to_string (ulid_new (h_ids h + k))) location
               (wrap 16 (base_http_port config + (i + Z.of_nat k))) config tls)) /\
  (forall j, j < i -> h_files h' !! config_path dir j = h_files h !! config_path dir j).
Proof.
  intros Hbase. induction locations as [|location locations IH]; intros i h Hi Hlen; cbn [launch_all length] in *.
  { unfold ports_left. destruct checks; cbn; rewrite app_nil_r; by split_and!. }
  assert (as_u16 i = i) as -> by (apply wrap_small; split; [done|]; lia).
  destruct (add_u16_spec checks (base_http_port config) i) as [(-> & -> & Hover)|[-> Hfit]]; [by destruct Hbase|lia|..];
    cbn beta iota zeta.
  { unfold ports_left. replace (Z.to_nat (2 ^ 16 - base_http_port config - i)) with 0%nat by lia. cbn.
    rewrite app_nil_r. split_and!; try done. intros; lia. }
  rewrite (ports_left_S checks (base_http_port config) i (length locations)) by done.
  specialize (IH (i + 1)). cbn zeta.
  match goal with |- context [launch_all _ _ _ _ _ _ _ _ ?h1] => specialize (IH h1 ltac:(lia) ltac:(lia)); cbn zeta in IH end.
  destruct (launch_all _ _ _ _ _ _ _ _ _) as [h' error].
  destruct IH as (-> & Hch & Hfiles & Hold). cbn [h_children h_files h_ids Nat.eqb] in *. split_and!; [done|..].
  - by rewrite Hch, spawned_cons, (assoc_L (++)).
  - intros [|k] loc Hloc Hk.
    + injection Hloc as ->. rewrite Z.add_0_r, Nat.add_0_r, Hold, lookup_insert_eq by lia. done.
    + replace (i + Z.of_nat (S k)) with (i + 1 + Z.of_nat k) by lia. rewrite (Hfiles k loc) by (done || lia).
      by rewrite Nat.add_succ_r.
  - intros j Hj. rewrite Hold by lia. apply lookup_insert_ne. intros Heq%config_path_inj. lia.
Qed.
End launching.

(** ** From the harness into the dispatchers *)

(** What the file of a dispatcher says. *)
Definition dispatcher_config (dispatcher_id : string) (location http_port : Z) (config : HarnessConfig)
    (tls : TlsConfig) : DispatchConfig.Config :=
  DispatchConfig.mkConfig (DispatchConfig.mkDispatcherConfig dispatcher_id location)
    (DispatchConfig.mkServerConfig ("0.0.0.0:" +:+ pretty http_port)) DispatchConfig.StorageConfig.Memory
    (DispatchConfig.mkPrimeConfig (prime_rpc_addr config) (hc_upload_interval_secs config))
    (DispatchConfig.EdgeConfig.Mock (reading_interval_secs config) (status_interval_secs config)
       (devices_per_dispatcher config)) tls.

(** A character a TOML string holds as it is. *)
Definition plain_char (c : ascii) : bool :=
  let n := nat_of_ascii c in (32 <=? n)%nat && negb (n =? 34)%nat && negb (n =? 92)%nat && (n <=? 126)%nat.
Definition plain (s : string) : Prop := Forall (fun c => plain_char c = true) (list_ascii_of_string s).

(** The values of a configuration that can be pasted into a TOML file: plain strings, and integers that
    TOML has. *)
Definition pastable (config : HarnessConfig) (tls : TlsConfig) : Prop :=
  plain (prime_rpc_addr config) /\ plain (tls_cert tls) /\ plain (tls_key tls) /\ plain (tls_root_ca tls) /\
  plain (tls_domain tls) /\ is_unsigned 63 (hc_upload_interval_secs config) /\
  is_unsigned 63 (reading_interval_secs config) /\ is_unsigned 63 (status_interval_secs config) /\
  is_unsigned 63 (devices_per_dispatcher config).

(** [toml::from_str] reads such a file as what it says. *)
Definition toml_reads `{!Toml DispatchConfig.Config} (dispatcher_id : string) (location http_port : Z)
    (config : HarnessConfig) (tls : TlsConfig) : Prop :=
  plain dispatcher_id -> is_unsigned 63 location -> pastable config tls ->
  toml_from_str (dispatcher_toml dispatcher_id location http_port config tls) =
    Some (dispatcher_config dispatcher_id location http_port config tls).

Lemma hex_char_value d : 0 <= d < 16 -> hex_value (hex_char d) = d.
Proof.
  intros Hd. apply Z.eqb_eq. apply (z_range_forallb (fun d => Z.eqb (hex_value (hex_char d)) d) 0 16);
    [vm_compute; reflexivity|lia].
Qed.

Lemma hex_number_app s t acc : hex_number (s +:+ t) acc = hex_number t (hex_number s acc).
Proof. revert acc. induction s as [|c s IH]; intros acc; [done|]. exact (IH _). Qed.

(** The location is written with all of its bits. *)
Lemma hex_digits_number k z acc :
  hex_number (hex_digits k z) acc = acc * 16 ^ Z.of_nat k + z mod 16 ^ Z.of_nat k.
Proof.
  revert z. induction k as [|k IH]; intros z; [cbn; rewrite Z.mod_1_r; lia|].
  cbn [hex_digits]. rewrite hex_number_app, IH. cbn [hex_number].
  rewrite hex_char_value by (apply Z.mod_pos_bound; lia).
  rewrite Nat2Z.inj_succ, Z.pow_succ_r by lia.
  rewrite (Z.rem_mul_r z 16 (16 ^ Z.of_nat k)) by lia. lia.
Qed.

Lemma hex_location z : u64 z -> hex_number (hex_digits 16 z) 0 = z.
Proof. intros Hz. rewrite hex_digits_number. change (16 ^ Z.of_nat 16) with (2 ^ 64). by apply wrap_small. Qed.

Lemma plain_alphanumeric s : Forall is_alphanumeric (list_ascii_of_string s) -> plain s.
Proof.
  intros Hs. eapply Forall_impl; [exact Hs|]. intros c Hc. unfold is_alphanumeric in Hc.
  unfold plain_char. set (k := nat_of_ascii c) in *. clearbody k.
  rewrite orb_true_iff, !andb_true_iff, !Nat.leb_le in Hc.
  rewrite !andb_true_iff, !negb_true_iff, !Nat.eqb_neq, !Nat.leb_le. lia.
Qed.

(** An H3 cell has its highest bit clear. *)
Class H3CellLaws `{H3} : Prop := to_cell_ten_u63 ll : is_unsigned 63 (to_cell_ten ll).

Section start.
Context `{!H3} `{!LatLngLaws} `{!H3CellLaws} `{!UlidText} `{!UlidTextLaws} `{!UlidGen}.
Context `{!Toml HarnessConfig} `{!Toml DispatchConfig.Config}.

Lemma location_u63 n cells locations location :
  grid_cell n <$> grid n = Some <$> cells -> locations `sublist_of` cells -> location ∈ locations ->
  is_unsigned 63 location.
Proof.
  intros Hcells Hsub Hin. apply (sublist_submseteq _ _), (elem_of_submseteq _ _ location) in Hsub; [|done].
  assert (Some location ∈ Some <$> cells) as Hs by (by apply list_elem_of_fmap_2).
  rewrite <- Hcells in Hs. apply list_elem_of_fmap in Hs as (rc & Hs & _). unfold grid_cell in Hs.
  symmetry in Hs. apply fmap_Some in Hs as (ll & _ & ->). apply to_cell_ten_u63.
Qed.

(** What [main] of ersha-dispatch starts with on a file the harness wrote. *)
Lemma dispatch_main_of_file {S} (memory : S) sqlite u location port config tls :
  u128 u -> is_unsigned 63 location -> pastable config tls ->
  toml_reads (ulid_to_string u) location port config tls ->
  dispatch_main memory sqlite (Some (Some (dispatcher_toml (ulid_to_string u) location port config tls))) =
    Ok (mkLaunch S (dispatcher_config (ulid_to_string u) location port config tls) memory (mkDispatcherId u)
          (mkH3Cell location)).
Proof.
  intros Hu Hl Hp Hread. unfold dispatch_main, load_or_default, DispatchConfig.load, ok_or. cbn.
  rewrite Hread; [|apply plain_alphanumeric; by apply ulid_to_string_segment|done|done].
  cbn. by rewrite ulid_from_to.
Qed.

End start.

(** ** Witness *)

Module HarnessWitness.
#[local] Existing Instance ulid_crockford.
#[local] Existing Instance ulid_crockford_laws.
#[local] Instance gen : UlidGen := fun k => wrap 128 (1000 + Z.of_nat k).

(** Whole degrees, as the cell. *)
#[local] Instance h3 : H3 := {|
  cell_center c := None;
  latlng_new lat lng := if f64_finite lat && f64_finite lng then Some (lat, lng) else None;
  to_cell_ten ll := wrap 63 (256 * f64_as_u8 (fst ll) + f64_as_u8 (snd ll))
|}.
#[local] Instance h3_latlng : LatLngLaws.
Proof. intros lat lng Hlat Hlng. cbn. rewrite Hlat, Hlng. by eexists. Qed.

#[local] Instance h3_cells : H3CellLaws.
Proof.
  intros ll. apply wrap_range. discriminate.
Qed.

Definition tls : TlsConfig := mkTlsConfig "/keys/client.crt" "/keys/client.key" "/keys/root_ca.crt" "localhost".
Definition config : HarnessConfig := mkHarnessConfig 2 10 5 30 60 65535 "ersha-dispatch" "127.0.0.1:9000" tls.
Definition content : string := "dispatcher_count = 2".
#[local] Instance harness_toml : Toml HarnessConfig := fun s => if String.eqb s content then Some config else None.

(** The files the harness writes, and what they say. *)
Definition file (k : nat) (location : Z) : string :=
  dispatcher_toml (ulid_to_string (ulid_new k)) location (wrap 16 (65535 + Z.of_nat k)) config (abs_tls "/" tls).
Definition said (k : nat) (location : Z) : DispatchConfig.Config :=
  dispatcher_config (ulid_to_string (ulid_new k)) location (wrap 16 (65535 + Z.of_nat k)) config (abs_tls "/" tls).
#[local] Instance dispatch_toml : Toml DispatchConfig.Config := fun s =>
  if String.eqb s (file 0 1572) then Some (said 0 1572)
  else if String.eqb s (file 1 1580) then Some (said 1 1580) else None.

End HarnessWitness.
